(* ===== verification/_CoqProject ===== *)
-Q . S2P
Prelude.v
GoStrings.v
GoStrconv.v
GoEncoding.v
GoNet.v
Ini.v
Keys.v
AwgConfig.v
AwgSpec.v
Config.v
Wireguard.v
Io.v
HttpProxy.v
UdpProxy.v
Routine.v
Health.v
Main.v
