(* ===== verification/Prelude.v ===== *)
(** * Verification of wireproxy-awg

    wireproxy-awg is a userspace WireGuard client that speaks the AmneziaWG protocol
    and offers the tunnel as SOCKS5, HTTP and UDP proxies and TCP tunnels. This
    development models its Go code as Rocq functions and transition systems and
    proves what the code is meant to do.

    ** The program and its model

    A run of the program: the command line program (src/cmd/wireproxy/main.go) locks the
    process down, has the configuration file parsed (src/config.go, with the AmneziaWG
    keys of src/awg_config.go), starts the device with a request text built from it
    (src/wireguard.go) and then starts one goroutine per routine (src/routine.go,
    src/http.go, src/udp_proxy.go), the pings and the status endpoint.

    - [Prelude]: results and errors of Go functions, shared list lemmas, the tactics
      [res_inv] and the hint database [go].
    - [GoStrings], [GoStrconv], [GoEncoding], [GoNet]: what the program uses of the
      standard library: strings as bytes, numbers at their width ([IntSize] is the width
      of [int], 32 or 64), base64 and hexadecimal, addresses and host:port texts.
    - [Ini]: the go-ini library as a class of operations [IniLib] with the laws
      [IniLaws] that its documentation states, and an instance over lists.
    - [Keys], [AwgConfig], [AwgSpec]: keys; ranges, the AmneziaWG parameters, their
      parser and their validation; the specification of the parser.
    - [Config]: every section of the configuration file. Environment variables, name
      resolution and files are the class [Env].
    - [Wireguard]: [CreateIPCRequest] and [StartWireguard], and the view of a request as
      a list of settings. The device library is the class [Amnezia].
    - [Io]: handlers as functions on the list of events they have performed, with the
      answers of the surroundings as functions of the number of the action; log.Fatal
      and panics are outcomes.
    - [HttpProxy]: src/http.go, src/util.go and [CredentialValidator].
    - [UdpProxy]: the goroutines of src/udp_proxy.go as one transition system over the
      shared map of sessions, the mutex, the session objects, the clock and the read
      deadlines.
    - [Routine]: name resolution, the TCP tunnels and the set-up of the SOCKS5 server with
      its options, from src/routine.go.
    - [Health]: the status endpoint and the pings, from src/routine.go.
    - [Main]: src/cmd/wireproxy/main.go.

    Go structs are records, interfaces are inductive types with one constructor per
    implementation, a function that returns an error returns a [result], a pointer that
    may be nil is an [option]. Fields whose name another struct has too carry the
    struct's name. A list that the code extends in a loop is the argument of a
    [Fixpoint] with the same order of appends.

    ** What the theorems show

    - From file to device (C1, C9, C22-C26): what each section parses to, field by field,
      with equivalences that cover the errors; the request has exactly the settings of
      the file, one line each, and a device that reads it by lines gets them back when
      the texts that are taken as they are (I1-I5, endpoints) have no newline.
    - AmneziaWG parameters (C2, C3, C13-C16, C19): the parser reads each key on its own;
      validation accepts exactly the configurations that satisfy the rules of
      [ASec_valid], which are stated message by message with the numbers of the protocol
      and not with the lists of the code; headers, as the file writes them, and padded
      sizes identify the message; ranges print and parse back.
    - Keys and keepalive (C17, C18, C20, C21): no key is altered, and the keepalive
      survives the 32-bit platforms.
    - UDP proxy (C4, C5, C11, C12): an invariant over all interleavings gives the absence
      of panics, one open session per client and connections closed once; no cross-talk
      between clients; expiry, measured from the last activity; and the end of closed
      sessions, which a silent tunnel delays by the read deadline at most.
    - HTTP proxy (C6, C10, C30-C32, C34): no dial without the configured credentials,
      the exact status of each refusal, the dialled address, and what becomes of
      connections.
    - Names and TCP tunnels (C7, C27-C29): no lookup of the forwarders and the SOCKS5
      server outside the tunnel when a name server is configured (the endpoints of the
      peers are resolved by the host, before there is a tunnel), the network each tunnel
      dials through.
    - Health (C35-C38): readiness, redaction of the keys, which replies count as pongs.
    - Start of the process (C8, C39, C40): the exact trace of a process that gets to its
      tunnel, with every restriction accepted before; the order of the stages; the
      network rules.

    Some theorems state behaviour that is not what was meant: client connections left
    open on failing paths (C34), no right to bind for client tunnels (C39), a panic on
    short IPv6 ping replies (C38), credentials that name an unset variable and become
    empty (C33), no default port for an IPv6 host in brackets (C31), a signature packet
    with a newline that adds a setting to the request
    ([Wireguard.signature_newline_injects]).

    ** Bounds and fuel

    Numbers are integers with the wrap-around of their width written out ([uint],
    [sint], [to_int]). Fuel appears only in the printing of numbers (20 digits, enough
    for 64 bits), in trimming (the length of the text) and in the parser of IPv6 groups
    (more than the eight groups an address has). Accept loops take the answers of Accept
    so far and need none; the UDP proxy is a step relation. C11 bounds the steps of a
    closed session and the time to the next one, for connections that accept the read
    deadlines set on them. The clock of the UDP proxy
    and the times of [Health] are unbounded integers in nanoseconds; [Health] states the
    range in which its theorems hold.

    ** What is not modelled

    The libraries (go-ini, amneziawg-go and its netstack, go-socks5, argparse, landlock,
    heredoc, golang.org/x/net/icmp) are parameters. Of net/http the model has the fields
    the proxy uses; reading and writing messages are actions. The bytes that a copier
    moves are not modelled, only that it copies and then closes. The wait for a signal at
    the end of main is not a definition. *)

From stdpp Require Export base tactics option list strings numbers gmap.
From coqutil Require Export Datatypes.RecordSetters.
Export TriangleBracketNotations.

(** Go strings and byte slices are byte sequences; both are [string] here. *)
Declare Scope go_scope.
Delimit Scope go_scope with go.

(** ** Results

    A Go function that returns [(T, error)] returns a [result E T]: [Ok v] when
    the error is [nil], [Err e] otherwise. *)
Inductive result (E A : Type) : Type :=
| Ok (a : A)
| Err (e : E).
Arguments Ok {E A} a.
Arguments Err {E A} e.

#[global] Instance result_ret {E} : MRet (result E) := fun A a => Ok a.
#[global] Instance result_bind {E} : MBind (result E) := fun A B f m =>
  match m with Ok a => f a | Err e => Err e end.
#[global] Instance result_fmap {E} : FMap (result E) := fun A B f m =>
  match m with Ok a => Ok (f a) | Err e => Err e end.

(** A failing call whose error the caller replaces or wraps. *)
Definition map_err {E E' A} (f : E -> E') (m : result E A) : result E' A :=
  match m with Ok a => Ok a | Err e => Err (f e) end.

(** [x, _ := f()] : the error is dropped and the zero value is used. *)
Definition ignore_err {E A} (zero : A) (m : result E A) : A :=
  match m with Ok a => a | Err _ => zero end.

Definition is_Ok {E A} (m : result E A) : bool :=
  match m with Ok _ => true | Err _ => false end.

(** [if cond { return err }] *)
Definition fail_if {E} (b : bool) (e : E) : result E unit :=
  if b then Err e else Ok tt.

(** ** Errors

    The program builds its errors with [errors.New] and [fmt.Errorf]; the
    standard library adds its own error types, and errors of other libraries and
    of the operating system are opaque. *)
Inductive num_error : Type := ErrSyntax | ErrRange.

Inductive error : Type :=
| errorString (msg : string)                       (* errors.New, fmt.Errorf without %w *)
| wrapError (prefix : string) (err : error)        (* fmt.Errorf("prefix%w", err) *)
| NumError (fn num : string) (kind : num_error)    (* strconv *)
| AddrError (why addr : string)                    (* net *)
| ParseAddrError (text why : string)               (* net/netip *)
| CorruptInputError                                (* encoding/base64 *)
| OpError (op : string) (err : error)              (* net.OpError *)
| libError (msg : string).                         (* another library, the system *)

#[global] Instance num_error_eq_dec : EqDecision num_error.
Proof. solve_decision. Defined.
#[global] Instance error_eq_dec : EqDecision error.
Proof. solve_decision. Defined.
#[global] Instance result_eq_dec {E A} `{EqDecision E, EqDecision A} :
  EqDecision (result E A).
Proof. solve_decision. Defined.

(** ** Generic list helpers *)

(** [for _, x := range xs { y, err := f(x); if err != nil { return err }; ... }] *)
Fixpoint mapM_res {E A B} (f : A -> result E B) (xs : list A) : result E (list B) :=
  match xs with
  | [] => Ok []
  | x :: xs => y ← f x; ys ← mapM_res f xs; mret (y :: ys)
  end.

(** All pairs [(xs[i], xs[j])] with [i < j], in the order of the two nested loops
    [for i ... { for j := i + 1; ... }]. *)
Fixpoint ordered_pairs {A} (xs : list A) : list (A * A) :=
  match xs with
  | [] => []
  | x :: rest => map (pair x) rest ++ ordered_pairs rest
  end.

(** ** Lemmas on results *)

Create HintDb go discriminated.
Create Rewrite HintDb go.

Lemma bind_Ok {E A B} (m : result E A) (f : A -> result E B) b :
  m ≫= f = Ok b <-> exists a, m = Ok a /\ f a = Ok b.
Proof. destruct m; cbn; naive_solver. Qed.

Lemma bind_Err {E A B} (m : result E A) (f : A -> result E B) e :
  m ≫= f = Err e <-> m = Err e \/ exists a, m = Ok a /\ f a = Err e.
Proof. destruct m; cbn; naive_solver. Qed.

Lemma fmap_Ok {E A B} (f : A -> B) (m : result E A) b :
  f <$> m = Ok b <-> exists a, m = Ok a /\ f a = b.
Proof. destruct m; cbn; naive_solver. Qed.

Lemma fail_if_Ok {E} b (e : E) u : fail_if b e = Ok u <-> b = false.
Proof. destruct b, u; cbn; naive_solver. Qed.

Lemma map_err_Ok {E E' A} (f : E -> E') (m : result E A) a :
  map_err f m = Ok a <-> m = Ok a.
Proof. destruct m; cbn; naive_solver. Qed.

Lemma map_err_Err {E E' A} (f : E -> E') (m : result E A) e' :
  map_err f m = Err e' <-> exists e, m = Err e /\ e' = f e.
Proof. destruct m; cbn; naive_solver. Qed.

Lemma mret_Ok {E A} (a b : A) : (mret a : result E A) = Ok b <-> a = b.
Proof. unfold mret, result_ret. naive_solver. Qed.

Lemma is_Ok_true {E A} (m : result E A) : is_Ok m = true <-> exists a, m = Ok a.
Proof. destruct m; cbn; naive_solver. Qed.

Lemma mapM_res_Ok {E A B} (f : A -> result E B) xs ys :
  mapM_res f xs = Ok ys <-> Forall2 (fun x y => f x = Ok y) xs ys.
Proof.
  revert ys; induction xs as [|x xs IH]; intros ys; cbn.
  - split; [by intros [= <-]|by intros ->%Forall2_nil_inv_l].
  - rewrite bind_Ok. setoid_rewrite bind_Ok. setoid_rewrite IH. split.
    + intros (y & Hy & ys' & Hys & [= <-]). by constructor.
    + intros (y & ys' & Hy & Hys & ->)%Forall2_cons_inv_l. eauto 6.
Qed.

(** The first failing element decides the error. *)
Lemma mapM_res_Err {E A B} (f : A -> result E B) xs e :
  mapM_res f xs = Err e <->
  exists pre x post ys, xs = pre ++ x :: post /\
    Forall2 (fun a b => f a = Ok b) pre ys /\ f x = Err e.
Proof.
  revert e; induction xs as [|x xs IH]; intros e; cbn.
  - split; [done|]. intros (pre & ? & ? & ? & ? & _). by destruct pre.
  - rewrite bind_Err. setoid_rewrite bind_Err. setoid_rewrite IH. split.
    + intros [Hx | (y & Hy & [(pre & z & post & ys & -> & Hpre & Hz) | (? & _ & [=])])].
      * exists [], x, xs, []. eauto using Forall2_nil.
      * exists (x :: pre), z, post, (y :: ys). eauto using Forall2_cons_2.
    + intros (pre & z & post & ys & Heq & Hpre & Hz).
      destruct pre as [|x' pre]; simplify_eq/=; [by left|right].
      apply Forall2_cons_inv_l in Hpre as (y & ys' & Hy & Hpre & ->).
      exists y. split; [done|]. left. naive_solver.
Qed.

Lemma mapM_res_length {E A B} (f : A -> result E B) xs ys :
  mapM_res f xs = Ok ys -> length ys = length xs.
Proof. rewrite mapM_res_Ok. intros H%Forall2_length. done. Qed.


(** Split a hypothesis [m = Ok _] about a chain of calls into one equation per
    call, substituting as it goes. *)
Ltac res_step :=
  match goal with
  | H : _ ≫= _ = Ok _ |- _ =>
      let a := fresh "a" in let Ha := fresh "Ha" in
      apply bind_Ok in H; destruct H as (a & Ha & H)
  | H : _ <$> _ = Ok _ |- _ =>
      let a := fresh "a" in let Ha := fresh "Ha" in
      apply fmap_Ok in H; destruct H as (a & Ha & H)
  | H : fail_if _ _ = Ok _ |- _ => apply fail_if_Ok in H
  | H : map_err _ _ = Ok _ |- _ => apply map_err_Ok in H
  | H : mret _ = Ok _ |- _ => unfold mret, result_ret in H
  | H : Ok _ = Ok _ |- _ => injection H as H; subst
  | H : Err _ = Ok _ |- _ => discriminate H
  end.
Ltac res_inv := repeat (res_step; try subst).

(** ** Lists *)

Lemma existsb_false_iff {A} (f : A -> bool) l :
  existsb f l = false <-> forall x, x ∈ l -> f x = false.
Proof.
  rewrite <- not_true_iff_false, existsb_exists. setoid_rewrite <- list_elem_of_In.
  split; intros Hn.
  - intros x Hx. apply not_true_iff_false. intros E. apply Hn. eauto.
  - intros (x & Hx & E). by rewrite Hn in E.
Qed.

(** ** Ordered pairs *)

Lemma ordered_pairs_spec {A} (xs : list A) (p : A * A) :
  p ∈ ordered_pairs xs <->
  exists i j, (i < j)%nat /\ xs !! i = Some p.1 /\ xs !! j = Some p.2.
Proof.
  induction xs as [|x xs IH]; cbn.
  - split; [by intros ?%not_elem_of_nil|]. intros (i & ? & _ & ? & _).
    by rewrite lookup_nil in *.
  - rewrite elem_of_app, IH. destruct p as [a b]; cbn. split.
    + intros [Hin | (i & j & ? & ? & ?)]; [|by exists (S i), (S j); split; [lia|]].
      apply list_elem_of_fmap in Hin as (y & [= -> ->] & Hy).
      apply list_elem_of_lookup in Hy as [j Hj]. exists 0%nat, (S j).
      split; [lia|done].
    + intros ([|i] & [|j] & Hij & Hi & Hj); [lia| |lia|]; cbn in *.
      * left. simplify_eq. apply list_elem_of_fmap_2, list_elem_of_lookup. eauto.
      * right. exists i, j. split; [lia|done].
Qed.
