(* ===== verification/GoStrings.v ===== *)
(** * The parts of Go's [strings] and [bytes] packages the program uses.

    A Go string is a sequence of bytes, a [string] of [ascii] here. The functions
    are executable and follow the standard library's documented behaviour; the
    lemmas are the ones the components share. *)

From S2P Require Import Prelude.
From Stdlib Require Export Ascii.

(** ** Bytes and basic operations *)

Definition byte_of (n : nat) : ascii := ascii_of_nat n.

(** The string with the bytes of the given code. *)
Definition bytes_string (l : list nat) : string :=
  foldr (fun n s => String (byte_of n) s) "" l.

Definition byte_val (c : ascii) : Z := Z.of_N (N_of_ascii c).

Fixpoint string_forallb (p : ascii -> bool) (s : string) : bool :=
  match s with "" => true | String c s => p c && string_forallb p s end.

(** [s] is [p ++ rest]: [strings.CutPrefix]. *)
Fixpoint CutPrefix (p s : string) : option string :=
  match p, s with
  | "", _ => Some s
  | String a p, String b s => if Ascii.eqb a b then CutPrefix p s else None
  | String _ _, "" => None
  end.

Definition HasPrefix (s p : string) : bool :=
  match CutPrefix p s with Some _ => true | None => false end.

Definition TrimPrefix (s p : string) : string :=
  match CutPrefix p s with Some rest => rest | None => s end.

Fixpoint Contains (s sub : string) : bool :=
  HasPrefix s sub ||
  match s with "" => false | String _ s => Contains s sub end.

(** [strings.IndexByte(s, c) >= 0] *)
Definition ContainsByte (s : string) (c : ascii) : bool :=
  negb (string_forallb (fun d => negb (Ascii.eqb c d)) s).

(** [strings.Replace(s, old, new, 1)] *)
Fixpoint Replace1 (s old new : string) : string :=
  match CutPrefix old s with
  | Some rest => new +:+ rest
  | None => match s with "" => "" | String c s => String c (Replace1 s old new) end
  end.

(** ** Splitting *)

(** [strings.Split(s, sep)] for a separator of one byte. *)
Fixpoint Split (sep : ascii) (s : string) : list string :=
  match s with
  | "" => [""]
  | String c s =>
      if Ascii.eqb c sep then "" :: Split sep s
      else match Split sep s with
           | p :: ps => String c p :: ps
           | [] => [String c ""]
           end
  end.

(** The text before and after the first separator. *)
Fixpoint Cut (sep : ascii) (s : string) : option (string * string) :=
  match s with
  | "" => None
  | String c s =>
      if Ascii.eqb c sep then Some ("", s)
      else match Cut sep s with
           | Some (a, b) => Some (String c a, b)
           | None => None
           end
  end.

(** [strings.SplitN(s, sep, 2)], and [bytes.SplitN]. *)
Definition SplitN2 (sep : ascii) (s : string) : list string :=
  match Cut sep s with Some (a, b) => [a; b] | None => [s] end.

(** [strings.LastIndexByte], as the texts before and after the last separator. *)
Fixpoint CutLast (sep : ascii) (s : string) : option (string * string) :=
  match s with
  | "" => None
  | String c s =>
      match CutLast sep s with
      | Some (a, b) => Some (String c a, b)
      | None => if Ascii.eqb c sep then Some ("", s) else None
      end
  end.

Fixpoint join (sep : ascii) (ps : list string) : string :=
  match ps with
  | [] => ""
  | [p] => p
  | p :: ps => p +:+ String sep (join sep ps)
  end.

(** ** Case *)

Definition is_upper (c : ascii) : bool :=
  let n := byte_val c in ((65 <=? n) && (n <=? 90))%Z.

Definition lower_byte (c : ascii) : ascii :=
  if is_upper c then ascii_of_N (N_of_ascii c + 32) else c.

Fixpoint lower_bytes (s : string) : string :=
  match s with "" => "" | String c s => String (lower_byte c) (lower_bytes s) end.

Definition is_ascii_byte (c : ascii) : bool := (byte_val c <? 128)%Z.

(** [unicode.ToLower] applied to every rune of a string that is not ASCII: the
    Unicode case tables are a parameter of the model. *)
Class UnicodeTables := { map_unicode_ToLower : string -> string }.

(** [strings.ToLower] *)
Definition ToLower `{UnicodeTables} (s : string) : string :=
  if string_forallb is_ascii_byte s then lower_bytes s else map_unicode_ToLower s.

(** [strings.EqualFold(s, t)] for an ASCII [t] none of whose letters folds to a
    letter outside ASCII (every ASCII letter but k and s). *)
Definition EqualFold (s t : string) : bool :=
  String.eqb (lower_bytes s) (lower_bytes t).

(** ** White space

    [strings.TrimSpace] removes the leading and trailing code points for which
    [unicode.IsSpace] holds. In UTF-8 these are the byte sequences below. *)
Definition space_seqs : list string :=
  map bytes_string
    ([[9]; [10]; [11]; [12]; [13]; [32]; [194; 133]; [194; 160]; [225; 154; 128]]
     ++ map (fun n => [226; 128; n])
          [128; 129; 130; 131; 132; 133; 134; 135; 136; 137; 138; 168; 169; 175]
     ++ [[226; 129; 159]; [227; 128; 128]])%nat.

Fixpoint cut_any (ps : list string) (s : string) : option string :=
  match ps with
  | [] => None
  | p :: ps => match CutPrefix p s with Some r => Some r | None => cut_any ps s end
  end.

(** Every iteration removes at least one byte, so the length is enough fuel. *)
Fixpoint trim_left (fuel : nat) (ps : list string) (s : string) : string :=
  match fuel with
  | O => s
  | S fuel => match cut_any ps s with Some r => trim_left fuel ps r | None => s end
  end.

Definition TrimSpace (s : string) : string :=
  let l := trim_left (String.length s) space_seqs s in
  String.rev (trim_left (String.length l) (map String.rev space_seqs) (String.rev l)).

(** ** Lemmas: append and length *)

Lemma string_app_nil_r (s : string) : s +:+ "" = s.
Proof. induction s as [|c s IH]; [done|]. unfold String.app in *; cbn; by f_equal. Qed.

Lemma string_app_assoc (a b c : string) : a +:+ b +:+ c = (a +:+ b) +:+ c.
Proof. induction a as [|x a IH]; [done|]. unfold String.app in *; cbn; by f_equal. Qed.

Lemma string_app_cons (c : ascii) (a b : string) : String c a +:+ b = String c (a +:+ b).
Proof. done. Qed.

Lemma string_app_nil_l (s : string) : "" +:+ s = s.
Proof. done. Qed.

#[export] Hint Rewrite string_app_nil_r string_app_cons string_app_nil_l : go.

Lemma string_length_app (a b : string) :
  String.length (a +:+ b) = (String.length a + String.length b)%nat.
Proof. induction a as [|x a IH]; [done|]. rewrite string_app_cons; cbn; lia. Qed.

Lemma string_forallb_app p a b :
  string_forallb p (a +:+ b) = string_forallb p a && string_forallb p b.
Proof.
  induction a as [|x a IH]; [done|]. rewrite string_app_cons; cbn.
  by rewrite IH, andb_assoc.
Qed.

Lemma string_forallb_impl p q s :
  (forall c, p c = true -> q c = true) ->
  string_forallb p s = true -> string_forallb q s = true.
Proof.
  intros Hpq. induction s as [|c s IH]; [done|]; cbn.
  rewrite !andb_true_iff. naive_solver.
Qed.

Lemma string_rev_app_spec (a b : string) : String.rev_app a b = String.rev a +:+ b.
Proof.
  unfold String.rev. revert b. induction a as [|x a IH]; intros b; cbn; [done|].
  by rewrite IH, (IH (String x "")), <- string_app_assoc.
Qed.

Lemma string_rev_cons c s : String.rev (String c s) = String.rev s +:+ String c "".
Proof. unfold String.rev at 1; cbn. apply string_rev_app_spec. Qed.

Lemma string_rev_app (a b : string) : String.rev (a +:+ b) = String.rev b +:+ String.rev a.
Proof.
  induction a as [|x a IH]; [by rewrite string_app_nil_r|].
  by rewrite string_app_cons, !string_rev_cons, IH, string_app_assoc.
Qed.

Lemma string_rev_involutive (s : string) : String.rev (String.rev s) = s.
Proof. induction s as [|c s IH]; [done|]. by rewrite string_rev_cons, string_rev_app, IH. Qed.

Lemma string_forallb_rev p s : string_forallb p (String.rev s) = string_forallb p s.
Proof.
  induction s as [|c s IH]; [done|].
  rewrite string_rev_cons, string_forallb_app, IH; cbn.
  by rewrite andb_true_r, andb_comm.
Qed.

(** ** Lemmas: prefixes *)

Lemma CutPrefix_Some p s r : CutPrefix p s = Some r <-> s = p +:+ r.
Proof.
  revert s; induction p as [|a p IH]; intros s; cbn; [naive_solver|].
  destruct s as [|b s]; [done|]. rewrite string_app_cons.
  destruct (Ascii.eqb_spec a b) as [->|]; [rewrite IH; naive_solver|naive_solver].
Qed.

Lemma HasPrefix_spec s p : HasPrefix s p = true <-> exists r, s = p +:+ r.
Proof.
  unfold HasPrefix. setoid_rewrite <- CutPrefix_Some. destruct (CutPrefix p s); naive_solver.
Qed.

Lemma TrimPrefix_app p s : TrimPrefix (p +:+ s) p = s.
Proof. unfold TrimPrefix. by rewrite (proj2 (CutPrefix_Some p _ s) eq_refl). Qed.

(** ** Lemmas: splitting *)

(** No byte of [s] is [c]. *)
Definition no_byte (c : ascii) (s : string) : bool :=
  string_forallb (fun d => negb (Ascii.eqb d c)) s.

Lemma no_byte_app c a b : no_byte c (a +:+ b) = no_byte c a && no_byte c b.
Proof. apply string_forallb_app. Qed.

Lemma ContainsByte_no_byte s c : ContainsByte s c = negb (no_byte c s).
Proof.
  unfold ContainsByte, no_byte. f_equal. induction s as [|d s IH]; [done|]; cbn.
  by rewrite Ascii.eqb_sym, IH.
Qed.

Lemma Contains_byte s c : Contains s (String c "") = ContainsByte s c.
Proof.
  induction s as [|d s IH]; [done|]. cbn. rewrite IH. unfold HasPrefix, ContainsByte; cbn.
  by destruct (Ascii.eqb c d).
Qed.

Lemma Split_nonempty sep s : Split sep s <> [].
Proof. destruct s as [|c s]; cbn; [done|]. case_match; [done|]. by case_match. Qed.

Lemma Split_no_sep sep s : no_byte sep s = true -> Split sep s = [s].
Proof.
  induction s as [|c s IH]; [done|]. cbn. rewrite andb_true_iff.
  intros [Hc Hs]. destruct (Ascii.eqb c sep); [done|]. by rewrite (IH Hs).
Qed.

Lemma Split_app_sep sep a b :
  no_byte sep a = true -> Split sep (a +:+ String sep b) = a :: Split sep b.
Proof.
  induction a as [|c a IH]; cbn; [by rewrite string_app_nil_l; cbn; rewrite Ascii.eqb_refl|].
  rewrite andb_true_iff. intros [Hc Ha]. change (Split sep (String c (a +:+ String sep b)) =
    String c a :: Split sep b). cbn.
  destruct (Ascii.eqb c sep); [done|]. by rewrite (IH Ha).
Qed.

Lemma Split_join sep ps :
  ps <> [] -> Forall (fun p => no_byte sep p = true) ps -> Split sep (join sep ps) = ps.
Proof.
  intros Hne Hps. induction Hps as [|p ps Hp Hps IH]; [done|].
  destruct ps as [|q ps]; [by apply Split_no_sep|].
  change (Split sep (p +:+ String sep (join sep (q :: ps))) = p :: q :: ps).
  rewrite Split_app_sep by done. f_equal. by apply IH.
Qed.

Lemma join_Split sep s : join sep (Split sep s) = s.
Proof.
  induction s as [|c s IH]; [done|]. cbn.
  pose proof (Split_nonempty sep s).
  destruct (Ascii.eqb_spec c sep) as [->|].
  - destruct (Split sep s) as [|p ps] eqn:E; [done|]. by rewrite <- IH.
  - destruct (Split sep s) as [|p ps] eqn:E; [done|].
    rewrite <- IH. by destruct ps.
Qed.

Lemma Split_parts sep s : Forall (fun p => no_byte sep p = true) (Split sep s).
Proof.
  induction s as [|c s IH]; cbn; [by repeat constructor|].
  destruct (Ascii.eqb c sep) eqn:E; [by constructor|].
  destruct (Split sep s) as [|p ps]; [by repeat constructor; cbn; rewrite E|].
  inversion_clear IH. constructor; [|done]. cbn. by rewrite E.
Qed.

Lemma Cut_Some sep s a b :
  Cut sep s = Some (a, b) <-> s = a +:+ String sep b /\ no_byte sep a = true.
Proof.
  revert a b; induction s as [|c s IH]; intros a b; cbn.
  - split; [done|]. intros [H _]. by destruct a.
  - destruct (Ascii.eqb_spec c sep) as [->|Hne].
    + split; [by intros [= <- <-]|]. intros [H Ha].
      destruct a as [|x a]; autorewrite with go in H; simplify_eq/=; [done|].
      cbn in Ha. by rewrite Ascii.eqb_refl in Ha.
    + split.
      * destruct (Cut sep s) as [[a' b']|] eqn:E; [|done]. intros [= <- <-].
        destruct (proj1 (IH _ _) eq_refl) as [-> Ha']. split; [done|]. cbn.
        destruct (Ascii.eqb_spec c sep); [done|]. done.
      * intros [H Ha]. destruct a as [|x a]; autorewrite with go in H; simplify_eq/=.
        apply andb_true_iff in Ha as [_ Ha]. by rewrite (proj2 (IH a b) (conj eq_refl Ha)).
Qed.

Lemma Cut_None sep s : Cut sep s = None <-> no_byte sep s = true.
Proof.
  induction s as [|c s IH]; [done|]; cbn. destruct (Ascii.eqb c sep); [done|].
  destruct (Cut sep s) as [[a b]|]; cbn; [|naive_solver].
  rewrite <- IH. naive_solver.
Qed.

(** ** Lemmas: white space *)

(** A printable ASCII byte: it neither starts nor ends a space. *)
Definition graphic (c : ascii) : bool :=
  let n := byte_val c in ((33 <=? n) && (n <=? 126))%Z.

Lemma cut_any_graphic ps c s :
  Forall (fun p => exists d p', p = String d p' /\ graphic d = false) ps ->
  graphic c = true -> cut_any ps (String c s) = None.
Proof.
  intros Hps Hc. induction Hps as [|p ps (d & p' & -> & Hd) Hps IH]; [done|]. cbn.
  destruct (Ascii.eqb_spec d c) as [->|]; [congruence|done].
Qed.

Lemma space_seqs_start :
  Forall (fun p => exists d p', p = String d p' /\ graphic d = false) space_seqs.
Proof. repeat (apply Forall_cons; split; [by do 2 eexists; split; [reflexivity|]|]). apply Forall_nil. done. Qed.

Lemma space_seqs_end :
  Forall (fun p => exists d p', p = String d p' /\ graphic d = false)
    (map String.rev space_seqs).
Proof. repeat (apply Forall_cons; split; [by do 2 eexists; split; [reflexivity|]|]). apply Forall_nil. done. Qed.

Lemma trim_left_graphic ps fuel s :
  Forall (fun p => exists d p', p = String d p' /\ graphic d = false) ps ->
  string_forallb graphic s = true -> trim_left fuel ps s = s.
Proof.
  intros Hps Hs. destruct fuel as [|fuel]; [done|]. cbn.
  destruct s as [|c s]; cbn in Hs.
  - assert (cut_any ps "" = None) as ->; [|done].
    induction Hps as [|p ps (d & p' & -> & _) Hps IH]; [done|]. cbn. by rewrite IH.
  - apply andb_true_iff in Hs as [Hc _]. by rewrite cut_any_graphic.
Qed.

(** Text of printable ASCII bytes has no space to trim. *)
Lemma TrimSpace_graphic s : string_forallb graphic s = true -> TrimSpace s = s.
Proof.
  intros Hs. unfold TrimSpace.
  rewrite (trim_left_graphic _ _ s space_seqs_start Hs).
  rewrite trim_left_graphic; [apply string_rev_involutive|apply space_seqs_end|].
  by rewrite string_forallb_rev.
Qed.
