(* ===== verification/GoStrconv.v ===== *)
(** * Machine integers and Go's [strconv] package.

    A w-bit integer is a [Z]; the conversions that wrap are written out. [int] is
    32 or 64 bits wide, as on the platforms Go supports. *)

From S2P Require Import Prelude GoStrings.
From Stdlib Require Import Ascii.
Local Open Scope Z_scope.

(** ** Widths *)

Definition uint (w z : Z) : Z := z mod 2 ^ w.
Definition sint (w z : Z) : Z := (z + 2 ^ (w - 1)) mod 2 ^ w - 2 ^ (w - 1).

Definition in_uint (w z : Z) : Prop := 0 <= z < 2 ^ w.
Definition in_sint (w z : Z) : Prop := - 2 ^ (w - 1) <= z < 2 ^ (w - 1).

Class IntSize := {
  int_size : Z;
  int_size_cases : int_size = 32 \/ int_size = 64
}.

(** Conversion to [int]. *)
Definition to_int `{IntSize} (z : Z) : Z := sint int_size z.
Definition in_int `{IntSize} (z : Z) : Prop := in_sint int_size z.

Definition int32_platform : IntSize := {| int_size := 32; int_size_cases := or_introl eq_refl |}.
Definition int64_platform : IntSize := {| int_size := 64; int_size_cases := or_intror eq_refl |}.

(** ** Printing *)

Definition digit_char (d : Z) : ascii := ascii_of_N (Z.to_N (48 + d)).

(** The digit loop of [strconv.formatBits], least significant digit first. *)
Fixpoint format_go (fuel : nat) (n : Z) (acc : string) : string :=
  match fuel with
  | O => acc
  | S fuel =>
      let acc := String (digit_char (n mod 10)) acc in
      if n / 10 =? 0 then acc else format_go fuel (n / 10) acc
  end.

(** [strconv.FormatUint(n, 10)]: a uint64 has at most 20 decimal digits. *)
Definition FormatUint (n : Z) : string := format_go 20 n "".

(** [strconv.Itoa], and the [%d] verb. *)
Definition Itoa (n : Z) : string :=
  if n <? 0 then "-" +:+ FormatUint (- n) else FormatUint n.

(** ** Parsing *)

Definition digit_val (c : ascii) : option Z :=
  let n := byte_val c in
  if (48 <=? n) && (n <=? 57) then Some (n - 48) else None.

(** The loop of [strconv.ParseUint] in base 10: [n] is a uint64, [maxVal] the
    largest value of the requested size. A letter is a digit that base 10 does
    not have, so it is a syntax error like any other byte. *)
Fixpoint parse_uint_loop (maxVal n : Z) (s : string) : result num_error Z :=
  match s with
  | "" => Ok n
  | String c s =>
      match digit_val c with
      | None => Err ErrSyntax
      | Some d =>
          if n >=? (2 ^ 64 - 1) / 10 + 1 then Err ErrRange
          else
            let n := uint 64 (n * 10) in
            let n1 := uint 64 (n + d) in
            if (n1 <? n) || (n1 >? maxVal) then Err ErrRange
            else parse_uint_loop maxVal n1 s
      end
  end.

(** [strconv.ParseUint(s, 10, bitSize)] *)
Definition ParseUint (s : string) (bitSize : Z) : result error Z :=
  map_err (NumError "ParseUint" s)
    (if String.eqb s "" then Err ErrSyntax else parse_uint_loop (2 ^ bitSize - 1) 0 s).

(** [strconv.ParseInt(s, 10, bitSize)], without the wrapping of its error. *)
Definition parse_int (s : string) (bitSize : Z) : result num_error Z :=
  if String.eqb s "" then Err ErrSyntax
  else
    let neg := HasPrefix s "-" in
    let digits := if neg then TrimPrefix s "-" else TrimPrefix s "+" in
    un ← (if String.eqb digits "" then Err ErrSyntax
          else parse_uint_loop (2 ^ bitSize - 1) 0 digits);
    let cutoff := 2 ^ (bitSize - 1) in
    _ ← fail_if (negb neg && (un >=? cutoff)) ErrRange;
    _ ← fail_if (neg && (un >? cutoff)) ErrRange;
    mret (if neg then - un else un).

(** [strconv.Atoi] *)
Definition Atoi `{IntSize} (s : string) : result error Z :=
  map_err (NumError "Atoi" s) (parse_int s int_size).

(** ** Lemmas: widths *)

Lemma sint_id w z : 1 <= w -> in_sint w z -> sint w z = z.
Proof.
  unfold sint, in_sint. intros Hw Hz.
  assert (2 ^ w = 2 * 2 ^ (w - 1)).
  { rewrite <- Z.pow_succ_r by lia. f_equal. lia. }
  rewrite Z.mod_small by lia. lia.
Qed.

Lemma sint_range w z : 1 <= w -> in_sint w (sint w z).
Proof.
  unfold sint, in_sint. intros Hw.
  assert (2 ^ w = 2 * 2 ^ (w - 1)).
  { rewrite <- Z.pow_succ_r by lia. f_equal. lia. }
  pose proof (Z.mod_pos_bound (z + 2 ^ (w - 1)) (2 ^ w)). lia.
Qed.

(** Wrapping loses only a multiple of the modulus. *)
Lemma sint_mod w z : 1 <= w -> sint w z mod 2 ^ w = z mod 2 ^ w.
Proof.
  intros Hw. unfold sint. rewrite Zminus_mod_idemp_l. f_equal. lia.
Qed.

Section int_lemmas.
Context `{IntSize}.

Lemma int_size_pos : 1 <= int_size.
Proof. destruct int_size_cases as [-> | ->]; lia. Qed.

Lemma to_int_id z : in_int z -> to_int z = z.
Proof. apply sint_id, int_size_pos. Qed.

Lemma to_int_range z : in_int (to_int z).
Proof. apply sint_range, int_size_pos. Qed.

(** Values of at most 31 bits fit an [int] on every platform. *)
Lemma in_int_small z : - 2 ^ 31 <= z < 2 ^ 31 -> in_int z.
Proof. unfold in_int, in_sint. destruct int_size_cases as [-> | ->]; cbn; lia. Qed.

End int_lemmas.

(** ** Lemmas: digits *)

Lemma digit_char_val d : 0 <= d < 10 -> digit_val (digit_char d) = Some d.
Proof.
  intros Hd. assert (d = 0 \/ d = 1 \/ d = 2 \/ d = 3 \/ d = 4 \/ d = 5 \/ d = 6 \/
    d = 7 \/ d = 8 \/ d = 9) as Hcases by lia.
  by repeat destruct Hcases as [-> | Hcases]; [..|subst].
Qed.

Lemma digit_val_range c d : digit_val c = Some d -> 0 <= d < 10.
Proof. unfold digit_val. case_match; [|done]. intros [= <-]. lia. Qed.

Lemma digit_val_char c d : digit_val c = Some d -> c = digit_char d.
Proof.
  unfold digit_val, digit_char, byte_val. case_match; [|done]. intros [= <-].
  rewrite <- (ascii_N_embedding c) at 1. f_equal. lia.
Qed.

Definition is_digit (c : ascii) : bool := bool_decide (is_Some (digit_val c)).

Lemma is_digit_char d : 0 <= d < 10 -> is_digit (digit_char d) = true.
Proof. intros. apply bool_decide_eq_true_2. rewrite digit_char_val; eauto. Qed.

Lemma is_digit_true c : is_digit c = true <-> exists d, digit_val c = Some d.
Proof. unfold is_digit. rewrite bool_decide_eq_true. done. Qed.

Lemma is_digit_graphic c : is_digit c = true -> graphic c = true.
Proof.
  rewrite is_digit_true. intros [d Hd]. unfold digit_val, graphic in *.
  case_match; [|done]. lia.
Qed.

(** The number a text of digits denotes, continuing from [n]. *)
Fixpoint digits_value (n : Z) (s : string) : Z :=
  match s with
  | "" => n
  | String c s => digits_value (10 * n + default 0 (digit_val c)) s
  end.

Definition decimal (s : string) : Prop := s <> "" /\ string_forallb is_digit s = true.

Lemma digits_value_app n a b : digits_value n (a +:+ b) = digits_value (digits_value n a) b.
Proof. revert n; induction a as [|c a IH]; intros n; [done|]. rewrite string_app_cons; cbn. apply IH. Qed.

Lemma digits_value_mono s n : 0 <= n -> n <= digits_value n s.
Proof.
  revert n; induction s as [|c s IH]; intros n Hn; cbn; [lia|].
  assert (0 <= default 0 (digit_val c)).
  { destruct (digit_val c) eqn:E; cbn; [|lia]. by apply digit_val_range in E; lia. }
  specialize (IH (10 * n + default 0 (digit_val c)) ltac:(lia)). lia.
Qed.

(** [format_go] writes the decimal digits of [n]. *)
Lemma format_go_spec fuel n acc :
  0 <= n < 10 ^ Z.of_nat fuel -> (0 < fuel)%nat ->
  exists ds, format_go fuel n acc = ds +:+ acc /\ decimal ds /\ digits_value 0 ds = n.
Proof.
  revert n acc; induction fuel as [|fuel IH]; intros n acc Hn Hfuel; [lia|]. cbn.
  pose proof (Z.div_mod n 10 ltac:(lia)). pose proof (Z.mod_pos_bound n 10 ltac:(lia)).
  destruct (Z.eqb_spec (n / 10) 0) as [Hq|Hq].
  - exists (String (digit_char (n mod 10)) ""). split; [done|]. split.
    + split; [done|]. cbn. by rewrite is_digit_char.
    + cbn. rewrite digit_char_val by lia. cbn. lia.
  - destruct fuel as [|fuel].
    { rewrite Z.pow_1_r in Hn. rewrite Z.div_small in Hq by lia. lia. }
    destruct (IH (n / 10) (String (digit_char (n mod 10)) acc)) as (ds & -> & [Hne Hds] & Hv).
    + replace (Z.of_nat (S (S fuel))) with (Z.succ (Z.of_nat (S fuel))) in Hn by lia.
      rewrite Z.pow_succ_r in Hn by lia. split; [apply Z.div_pos; lia|].
      apply Z.div_lt_upper_bound; lia.
    + lia.
    + exists (ds +:+ String (digit_char (n mod 10)) ""). split; [|split; [split|]].
      * by rewrite <- string_app_assoc.
      * by destruct ds.
      * rewrite string_forallb_app, Hds; cbn. by rewrite is_digit_char.
      * rewrite digits_value_app, Hv; cbn. rewrite digit_char_val by lia. cbn. lia.
Qed.

Lemma FormatUint_decimal n : in_uint 64 n -> decimal (FormatUint n).
Proof.
  intros Hn. destruct (format_go_spec 20 n "") as (ds & E & Hds & _); [|lia|].
  - unfold in_uint in Hn. cbn in *. lia.
  - unfold FormatUint. by rewrite E, string_app_nil_r.
Qed.

Lemma FormatUint_value n : in_uint 64 n -> digits_value 0 (FormatUint n) = n.
Proof.
  intros Hn. destruct (format_go_spec 20 n "") as (ds & E & Hds & Hv); [|lia|].
  - unfold in_uint in Hn. cbn in *. lia.
  - unfold FormatUint. by rewrite E, string_app_nil_r.
Qed.

(** Whatever the number, only digits are written. *)
Lemma format_go_digits fuel n acc :
  string_forallb is_digit acc = true -> string_forallb is_digit (format_go fuel n acc) = true.
Proof.
  revert n acc; induction fuel as [|fuel IH]; intros n acc Hacc; [done|]. cbn.
  assert (string_forallb is_digit (String (digit_char (n mod 10)) acc) = true).
  { cbn. rewrite is_digit_char, Hacc; [done|]. apply Z.mod_pos_bound. lia. }
  case_match; auto.
Qed.

Lemma FormatUint_graphic n : string_forallb graphic (FormatUint n) = true.
Proof.
  eapply string_forallb_impl; [apply is_digit_graphic|]. by apply format_go_digits.
Qed.

Lemma Itoa_graphic n : string_forallb graphic (Itoa n) = true.
Proof.
  unfold Itoa. case_match; [|apply FormatUint_graphic].
  by rewrite string_forallb_app, FormatUint_graphic.
Qed.

(** ** Lemmas: parsing *)

(** The loop returns the value of the digits when it does not exceed [maxVal]. *)
Lemma parse_uint_loop_Ok maxVal n s v :
  0 <= n <= maxVal -> maxVal < 2 ^ 64 ->
  parse_uint_loop maxVal n s = Ok v <->
  string_forallb is_digit s = true /\ digits_value n s = v /\ v <= maxVal.
Proof.
  intros Hn Hmax. revert n Hn; induction s as [|c s IH]; intros n Hn; cbn [parse_uint_loop].
  - cbn. naive_solver lia.
  - cbn [string_forallb digits_value]. unfold is_digit.
    destruct (digit_val c) as [d|] eqn:E; cbn; [|split; [done|by intros [? _]]].
    pose proof (digit_val_range c d E).
    destruct (Z.geb_spec n ((2 ^ 64 - 1) / 10 + 1)) as [Hge|Hlt].
    { split; [done|]. intros (_ & <- & Hle).
      pose proof (digits_value_mono s (10 * n + d) ltac:(lia)).
      pose proof (Z.mul_succ_div_gt (2 ^ 64 - 1) 10 ltac:(lia)). lia. }
    assert (10 * n < 2 ^ 64).
    { assert (10 * ((2 ^ 64 - 1) / 10) <= 2 ^ 64 - 1) by (apply Z.mul_div_le; lia). lia. }
    unfold uint. rewrite (Z.mod_small (n * 10)) by lia.
    destruct (Z.lt_ge_cases (n * 10 + d) (2 ^ 64)) as [Hs|Hs].
    + rewrite (Z.mod_small (n * 10 + d)) by lia.
      replace (n * 10 + d <? n * 10) with false by lia. cbn.
      destruct (Z.gtb_spec (n * 10 + d) maxVal) as [Hgt|Hle].
      * split; [done|]. intros (_ & <- & Hv).
        pose proof (digits_value_mono s (10 * n + d) ltac:(lia)). lia.
      * rewrite IH by lia. by replace (n * 10 + d) with (10 * n + d) by lia.
    + assert ((n * 10 + d) mod 2 ^ 64 = n * 10 + d - 2 ^ 64) as ->.
      { symmetry. apply Z.mod_unique_pos with 1; lia. }
      replace (n * 10 + d - 2 ^ 64 <? n * 10) with true by lia. cbn.
      split; [done|]. intros (_ & <- & Hv).
      pose proof (digits_value_mono s (10 * n + d) ltac:(lia)). lia.
Qed.

(** [ParseUint] accepts exactly the digit strings whose value fits. *)
Lemma ParseUint_Ok s bitSize v :
  0 <= bitSize <= 64 ->
  ParseUint s bitSize = Ok v <->
  decimal s /\ digits_value 0 s = v /\ v < 2 ^ bitSize.
Proof.
  intros Hb. unfold ParseUint, decimal. rewrite map_err_Ok.
  assert (0 < 2 ^ bitSize <= 2 ^ 64) by (split; [lia|apply Z.pow_le_mono_r; lia]).
  destruct (String.eqb_spec s "") as [->|Hne].
  - split; [done|]. by intros [[? _] _].
  - rewrite parse_uint_loop_Ok by lia. naive_solver lia.
Qed.

Lemma ParseUint_range s bitSize v :
  0 <= bitSize <= 64 -> ParseUint s bitSize = Ok v -> in_uint bitSize v.
Proof.
  intros Hb (_ & <- & Hv)%ParseUint_Ok; [|done].
  split; [|done]. apply digits_value_mono. lia.
Qed.

Lemma ParseUint_FormatUint n bitSize :
  0 <= bitSize <= 64 -> in_uint bitSize n -> ParseUint (FormatUint n) bitSize = Ok n.
Proof.
  intros Hb Hn. assert (in_uint 64 n).
  { unfold in_uint in *. assert (2 ^ bitSize <= 2 ^ 64) by (apply Z.pow_le_mono_r; lia). lia. }
  apply ParseUint_Ok; [done|]. split; [by apply FormatUint_decimal|].
  split; [by apply FormatUint_value|]. by destruct Hn.
Qed.

(** ** Lemmas: characters of decimal text *)

Lemma is_digit_not c d : digit_val d = None -> is_digit c = true -> Ascii.eqb c d = false.
Proof.
  intros Hd Hc. destruct (Ascii.eqb_spec c d) as [->|]; [|done].
  apply is_digit_true in Hc as [? ?]. congruence.
Qed.

Lemma digits_no_byte d s :
  digit_val d = None -> string_forallb is_digit s = true -> no_byte d s = true.
Proof.
  intros Hd. apply string_forallb_impl. intros c Hc. by rewrite is_digit_not.
Qed.

(** Digits have no sign. *)
Lemma digits_no_prefix d s :
  digit_val d = None -> string_forallb is_digit s = true ->
  HasPrefix s (String d "") = false /\ TrimPrefix s (String d "") = s.
Proof.
  unfold HasPrefix, TrimPrefix. destruct s as [|c s]; [done|]. cbn.
  intros Hd [Hc _]%andb_true_iff. rewrite Ascii.eqb_sym, is_digit_not by done. done.
Qed.

Lemma Atoi_FormatUint `{IntSize} n :
  0 <= n < 2 ^ 31 -> Atoi (FormatUint n) = Ok n.
Proof.
  intros Hn. assert (2 ^ 31 <= 2 ^ (int_size - 1) /\ 2 ^ int_size <= 2 ^ 64 /\
    2 ^ (int_size - 1) <= 2 ^ int_size - 1) as (Hp & Hq & Hr)
    by (destruct int_size_cases as [-> | ->]; cbn; lia).
  assert (in_uint 64 n) as Hu by (unfold in_uint; lia).
  pose proof (FormatUint_value n Hu) as Hv. destruct (FormatUint_decimal n Hu) as [Hne Hd].
  unfold Atoi, parse_int. apply map_err_Ok.
  destruct (String.eqb_spec (FormatUint n) "") as [|_]; [done|].
  destruct (digits_no_prefix "-"%char _ eq_refl Hd) as [-> _].
  destruct (digits_no_prefix "+"%char _ eq_refl Hd) as [_ ->].
  destruct (String.eqb_spec (FormatUint n) "") as [|_]; [done|].
  assert (parse_uint_loop (2 ^ int_size - 1) 0 (FormatUint n) = Ok n) as ->.
  { apply parse_uint_loop_Ok; [lia..|]. split_and!; [done..|lia]. }
  cbn. replace (n >=? 2 ^ (int_size - 1)) with false by lia. done.
Qed.

Lemma digits_graphic s : string_forallb is_digit s = true -> string_forallb graphic s = true.
Proof. apply string_forallb_impl, is_digit_graphic. Qed.

#[export] Hint Resolve FormatUint_decimal FormatUint_value digits_no_byte digits_graphic : go.
