(* ===== verification/GoEncoding.v ===== *)
(** * Go's [encoding/base64] (standard alphabet, with padding) and [encoding/hex].

    [DecodeString] and [EncodeToString] are what the program calls; the encoder of
    base64 and the decoder of hex are the references the round trips are stated
    against. *)

From S2P Require Import Prelude GoStrings GoStrconv.
From Stdlib Require Import Ascii.
Local Open Scope Z_scope.

(** ** Bytes *)

Definition byte_chr (z : Z) : ascii := ascii_of_N (Z.to_N z).

(** ** Base64 *)

Definition b64_alphabet : string :=
  "ABCDEFGHIJKLMNOPQRSTUVWXYZabcdefghijklmnopqrstuvwxyz0123456789+/".

Definition b64_char (v : Z) : ascii := default "A"%char (String.get (Z.to_nat v) b64_alphabet).

(** [enc.decodeMap]: [None] is the entry 0xff. *)
Definition b64_val (c : ascii) : option Z :=
  let n := byte_val c in
  if (65 <=? n) && (n <=? 90) then Some (n - 65)
  else if (97 <=? n) && (n <=? 122) then Some (n - 71)
  else if (48 <=? n) && (n <=? 57) then Some (n + 4)
  else if n =? 43 then Some 62
  else if n =? 47 then Some 63
  else None.

Definition is_pad (c : ascii) : bool := Ascii.eqb c "="%char.

(** Newlines are skipped wherever they stand, so they are dropped first. *)
Fixpoint drop_newlines (s : string) : string :=
  match s with
  | "" => ""
  | String c s =>
      if (byte_val c =? 10) || (byte_val c =? 13) then drop_newlines s
      else String c (drop_newlines s)
  end.

Definition quantum1 (a b : Z) : string := String (byte_chr (a * 4 + b / 16)) "".
Definition quantum2 (a b c : Z) : string :=
  quantum1 a b +:+ String (byte_chr (b mod 16 * 16 + c / 4)) "".
Definition quantum3 (a b c d : Z) : string :=
  quantum2 a b c +:+ String (byte_chr (c mod 4 * 64 + d)) "".

(** [decodeQuantum], repeated to the end of the input: four bytes of the alphabet
    at a time, padding only in the last quantum, nothing after it. *)
Fixpoint decode_quanta (s : string) : option string :=
  match s with
  | "" => Some ""
  | String a (String b (String c (String d rest))) =>
      va ← b64_val a; vb ← b64_val b;
      if is_pad c then
        if is_pad d && String.eqb rest "" then Some (quantum1 va vb) else None
      else
        vc ← b64_val c;
        if is_pad d then
          if String.eqb rest "" then Some (quantum2 va vb vc) else None
        else
          vd ← b64_val d; tail ← decode_quanta rest;
          Some (quantum3 va vb vc vd +:+ tail)
  | _ => None
  end.

(** [base64.StdEncoding.DecodeString] *)
Definition base64_DecodeString (s : string) : result error string :=
  match decode_quanta (drop_newlines s) with
  | Some bytes => Ok bytes
  | None => Err CorruptInputError
  end.

(** [base64.StdEncoding.EncodeToString] *)
Fixpoint base64_EncodeToString (s : string) : string :=
  match s with
  | "" => ""
  | String a "" =>
      let a := byte_val a in
      String (b64_char (a / 4)) (String (b64_char (a mod 4 * 16)) "==")
  | String a (String b "") =>
      let a := byte_val a in let b := byte_val b in
      String (b64_char (a / 4)) (String (b64_char (a mod 4 * 16 + b / 16))
        (String (b64_char (b mod 16 * 4)) "="))
  | String a (String b (String c rest)) =>
      let a := byte_val a in let b := byte_val b in let c := byte_val c in
      String (b64_char (a / 4)) (String (b64_char (a mod 4 * 16 + b / 16))
        (String (b64_char (b mod 16 * 4 + c / 64))
          (String (b64_char (c mod 64)) (base64_EncodeToString rest))))
  end.

(** ** Hex *)

Definition hex_char (v : Z) : ascii :=
  if v <? 10 then digit_char v else byte_chr (v + 87).

Definition hex_val (c : ascii) : option Z :=
  let n := byte_val c in
  if (48 <=? n) && (n <=? 57) then Some (n - 48)
  else if (97 <=? n) && (n <=? 102) then Some (n - 87)
  else None.

(** [hex.EncodeToString] *)
Fixpoint hex_EncodeToString (s : string) : string :=
  match s with
  | "" => ""
  | String c s =>
      String (hex_char (byte_val c / 16))
        (String (hex_char (byte_val c mod 16)) (hex_EncodeToString s))
  end.

(** The inverse, on lower case text. *)
Fixpoint hex_decode (s : string) : option string :=
  match s with
  | "" => Some ""
  | String a (String b rest) =>
      hi ← hex_val a; lo ← hex_val b; tail ← hex_decode rest;
      Some (String (byte_chr (hi * 16 + lo)) tail)
  | _ => None
  end.

Definition is_hex (c : ascii) : bool := bool_decide (is_Some (hex_val c)).

(** ** Lemmas *)

Lemma byte_val_range c : 0 <= byte_val c < 256.
Proof. unfold byte_val. pose proof (N_ascii_bounded c). lia. Qed.

Lemma byte_chr_val c : byte_chr (byte_val c) = c.
Proof. unfold byte_chr, byte_val. by rewrite N2Z.id, ascii_N_embedding. Qed.

Lemma byte_chr_eq z c : z = byte_val c -> byte_chr z = c.
Proof. intros ->. apply byte_chr_val. Qed.

(** Check a property of every value below [n] by computation. *)
Lemma Z_forall_below (n : nat) (P : Z -> Prop) `{forall z, Decision (P z)} :
  Forall P (Z.of_nat <$> seq 0 n) -> forall z, 0 <= z < Z.of_nat n -> P z.
Proof.
  rewrite Forall_forall. intros HP z Hz. apply HP. apply list_elem_of_fmap.
  exists (Z.to_nat z). split; [lia|]. apply elem_of_seq. lia.
Qed.

Ltac by_enumeration n :=
  lazymatch goal with
  | |- ?P ?v => refine (Z_forall_below n P (bool_decide_unpack _ _) v _);
      [vm_compute; exact I|lia]
  end.

Lemma b64_char_val v : 0 <= v < 64 -> b64_val (b64_char v) = Some v.
Proof. intros Hv. pattern v. by_enumeration 64%nat. Qed.

Lemma b64_char_not_pad v : 0 <= v < 64 -> is_pad (b64_char v) = false.
Proof.
  intros Hv. unfold is_pad. destruct (Ascii.eqb_spec (b64_char v) "="%char) as [E|]; [|done].
  pose proof (b64_char_val v Hv) as H. by rewrite E in H.
Qed.

Lemma b64_char_not_newline v :
  0 <= v < 64 -> (byte_val (b64_char v) =? 10) || (byte_val (b64_char v) =? 13) = false.
Proof. intros Hv. pattern v. by_enumeration 64%nat. Qed.

Lemma drop_newlines_b64 v s :
  0 <= v < 64 -> drop_newlines (String (b64_char v) s) = String (b64_char v) (drop_newlines s).
Proof. intros Hv. cbn [drop_newlines]. by rewrite b64_char_not_newline. Qed.

(** Induction on a string three bytes at a time. *)
Lemma string_ind3 (P : string -> Prop) :
  P "" -> (forall a, P (String a "")) -> (forall a b, P (String a (String b ""))) ->
  (forall a b c s, P s -> P (String a (String b (String c s)))) -> forall s, P s.
Proof.
  intros H0 H1 H2 H3 s. remember (String.length s) as n eqn:Hn.
  revert s Hn. induction (lt_wf n) as [n _ IH]. intros s ->.
  destruct s as [|a [|b [|c s]]]; auto. apply H3. eapply IH; [|done]. cbn. lia.
Qed.

Ltac byte_ranges :=
  repeat match goal with
  | |- context [byte_val ?c] =>
      lazymatch goal with
      | _ : 0 <= byte_val c < 256 |- _ => fail
      | _ => pose proof (byte_val_range c)
      end
  end.

Ltac b64_bounds :=
  byte_ranges;
  lazymatch goal with
  | |- 0 <= ?a / ?n < _ => split; [apply Z.div_pos; lia|apply Z.div_lt_upper_bound; lia]
  | |- _ => Z.to_euclidean_division_equations; lia
  end.

(** The byte put together again from its parts. *)
Ltac b64_byte :=
  first [done | apply byte_chr_eq; byte_ranges; Z.to_euclidean_division_equations; lia].

(** Decoding undoes encoding. *)
Lemma base64_decode_encode s : base64_DecodeString (base64_EncodeToString s) = Ok s.
Proof.
  unfold base64_DecodeString.
  enough (decode_quanta (drop_newlines (base64_EncodeToString s)) = Some s) as -> by done.
  induction s as [|a|a b|a b c s IH] using string_ind3; [done|..];
    cbn [base64_EncodeToString].
  - rewrite !drop_newlines_b64 by b64_bounds. cbn [drop_newlines decode_quanta].
    rewrite !b64_char_val by b64_bounds. cbn. unfold quantum1.
    f_equal. repeat (apply (f_equal2 String); [b64_byte|]); done.
  - rewrite !drop_newlines_b64 by b64_bounds. cbn [drop_newlines decode_quanta].
    rewrite !b64_char_val, !b64_char_not_pad by b64_bounds.
    cbn -[Z.mul Z.add Z.div Z.modulo].
    unfold quantum2, quantum1. rewrite string_app_cons, string_app_nil_l.
    f_equal. repeat (apply (f_equal2 String); [b64_byte|]); done.
  - rewrite !drop_newlines_b64 by b64_bounds. cbn [decode_quanta].
    rewrite !b64_char_val, !b64_char_not_pad, IH by b64_bounds.
    cbn -[Z.mul Z.add Z.div Z.modulo]. unfold quantum3, quantum2, quantum1.
    rewrite !string_app_cons, !string_app_nil_l.
    f_equal. repeat (apply (f_equal2 String); [b64_byte|]); done.
Qed.

Lemma hex_char_val v : 0 <= v < 16 -> hex_val (hex_char v) = Some v.
Proof. intros Hv. pattern v. by_enumeration 16%nat. Qed.

Lemma hex_decode_encode s : hex_decode (hex_EncodeToString s) = Some s.
Proof.
  induction s as [|c s IH]; [done|]. cbn [hex_EncodeToString hex_decode].
  rewrite !hex_char_val, IH by b64_bounds. cbn -[Z.mul Z.add Z.div Z.modulo].
  f_equal. repeat (apply (f_equal2 String); [b64_byte|]); done.
Qed.

Lemma hex_val_inj a b v : hex_val a = Some v -> hex_val b = Some v -> a = b.
Proof.
  unfold hex_val. intros Ha Hb. rewrite <- (byte_chr_val a), <- (byte_chr_val b).
  f_equal. pose proof (byte_val_range a). pose proof (byte_val_range b).
  repeat case_match; simplify_eq; lia.
Qed.

Lemma hex_val_range a v : hex_val a = Some v -> 0 <= v < 16.
Proof. unfold hex_val. repeat case_match; intros; simplify_eq; lia. Qed.

Lemma byte_chr_inj a b : 0 <= a < 256 -> 0 <= b < 256 -> byte_chr a = byte_chr b -> a = b.
Proof.
  unfold byte_chr. intros Ha Hb E. apply (f_equal N_of_ascii) in E.
  rewrite !N_ascii_embedding in E by lia. lia.
Qed.

(** Hex text is determined by the bytes it denotes. *)
Lemma hex_decode_inj s t b : hex_decode s = Some b -> hex_decode t = Some b -> s = t.
Proof.
  revert s t; induction b as [|x b IH]; intros s t Hs Ht.
  - destruct s as [|? [|? ?]], t as [|? [|? ?]]; cbn in *; try done;
      repeat (apply bind_Some in Hs as (? & ? & Hs)); try done;
      repeat (apply bind_Some in Ht as (? & ? & Ht)); done.
  - destruct s as [|s1 [|s2 s]], t as [|t1 [|t2 t]]; cbn in *; try done.
    apply bind_Some in Hs as (h1 & Hh1 & Hs). apply bind_Some in Hs as (l1 & Hl1 & Hs).
    apply bind_Some in Hs as (r1 & Hr1 & Hs). apply bind_Some in Ht as (h2 & Hh2 & Ht).
    apply bind_Some in Ht as (l2 & Hl2 & Ht). apply bind_Some in Ht as (r2 & Hr2 & Ht).
    simplify_eq. assert (h1 = h2 /\ l1 = l2) as [-> ->].
    { pose proof (hex_val_range _ _ Hh1). pose proof (hex_val_range _ _ Hh2).
      pose proof (hex_val_range _ _ Hl1). pose proof (hex_val_range _ _ Hl2).
      match goal with E : byte_chr _ = byte_chr _ |- _ =>
        apply byte_chr_inj in E; lia end. }
    rewrite (hex_val_inj s1 t1 h2), (hex_val_inj s2 t2 l2) by done.
    by rewrite (IH s t).
Qed.

Lemma hex_length s : String.length (hex_EncodeToString s) = (2 * String.length s)%nat.
Proof. induction s as [|c s IH]; cbn in *; lia. Qed.

Lemma hex_chars s : string_forallb is_hex (hex_EncodeToString s) = true.
Proof.
  induction s as [|c s IH]; [done|]. cbn [hex_EncodeToString string_forallb].
  rewrite IH. unfold is_hex. rewrite !hex_char_val by b64_bounds. done.
Qed.

(** Hex text is printable: in particular it has no newline and no ["="]. *)
Lemma is_hex_graphic c : is_hex c = true -> graphic c = true.
Proof.
  unfold is_hex. rewrite bool_decide_eq_true. unfold hex_val, graphic.
  intros [v Hv]. repeat case_match; simplify_eq; lia.
Qed.

Lemma hex_no_byte d s : hex_val d = None -> no_byte d (hex_EncodeToString s) = true.
Proof.
  intros Hd. eapply string_forallb_impl; [|apply hex_chars]. intros c Hc.
  destruct (Ascii.eqb_spec c d) as [->|]; [|done].
  apply bool_decide_eq_true in Hc. rewrite Hd in Hc. by destruct Hc.
Qed.

#[export] Hint Resolve hex_no_byte : go.
