(* ===== verification/GoNet.v ===== *)
(** * The parts of Go's [net] and [net/netip] packages that compute on text.

    [SplitHostPort] and [JoinHostPort] of [net]; addresses and prefixes of
    [net/netip], their parsers and their printed form. Name resolution is not
    text: it is a parameter of the components that use it. *)

From S2P Require Import Prelude GoStrings GoStrconv GoEncoding.
From Stdlib Require Import Ascii.
Local Open Scope Z_scope.

(** ** [net.SplitHostPort] and [net.JoinHostPort] *)

Definition missingPort : string := "missing port in address".
Definition tooManyColons : string := "too many colons in address".

Definition SplitHostPort (hostport : string) : result error (string * string) :=
  let addrErr why := Err (AddrError why hostport) in
  match CutLast ":"%char hostport with
  | None => addrErr missingPort
  | Some (before, port) =>
      match hostport with
      | String "["%char rest =>
          match Cut "]"%char rest with
          | None => addrErr "missing ']' in address"
          | Some (host, after) =>
              if String.eqb after "" then addrErr missingPort
              else if String.eqb before (String "["%char (host +:+ "]")) then
                if ContainsByte rest "["%char then addrErr "unexpected '[' in address"
                else if ContainsByte after "]"%char then addrErr "unexpected ']' in address"
                else Ok (host, port)
              else if HasPrefix after ":" then addrErr tooManyColons
              else addrErr missingPort
          end
      | _ =>
          if ContainsByte before ":"%char then addrErr tooManyColons
          else if ContainsByte hostport "["%char then addrErr "unexpected '[' in address"
          else if ContainsByte hostport "]"%char then addrErr "unexpected ']' in address"
          else Ok (before, port)
      end
  end.

Definition JoinHostPort (host port : string) : string :=
  if ContainsByte host ":"%char then "[" +:+ host +:+ "]:" +:+ port
  else host +:+ ":" +:+ port.

(** ** [netip.Addr] *)

(** The zero [Addr], an IPv4 address, an IPv6 address as its eight 16-bit fields
    with its zone ([""] for none). *)
Inductive Addr : Type :=
| AddrZero
| Addr4 (a b c d : Z)
| Addr6 (fields : list Z) (zone : string).

#[global] Instance Addr_eq_dec : EqDecision Addr.
Proof. solve_decision. Defined.

Definition Is4 (ip : Addr) : bool := match ip with Addr4 _ _ _ _ => true | _ => false end.
Definition Is6 (ip : Addr) : bool := match ip with Addr6 _ _ => true | _ => false end.

(** The loop of [parseIPv4Fields]: the fields read so far, the value and the
    number of digits of the current one. *)
Fixpoint parse_v4_loop (fields : list Z) (val : Z) (digLen : nat) (s : string) :
    result string (list Z) :=
  match s with
  | "" =>
      if (length fields <? 3)%nat then Err "IPv4 address too short"
      else Ok (fields ++ [val])
  | String c s =>
      match digit_val c with
      | Some d =>
          if (digLen =? 1)%nat && (val =? 0) then Err "IPv4 field has octet with leading zero"
          else
            let val := val * 10 + d in
            if val >? 255 then Err "IPv4 field has value >255"
            else parse_v4_loop fields val (S digLen) s
      | None =>
          if Ascii.eqb c "."%char then
            if (digLen =? 0)%nat || String.eqb s "" then
              Err "IPv4 field must have at least one digit"
            else if (length fields =? 3)%nat then Err "IPv4 address too long"
            else parse_v4_loop (fields ++ [val]) 0 0 s
          else Err "unexpected character"
      end
  end.

Definition parseIPv4Fields (s : string) : result string (list Z) := parse_v4_loop [] 0 0 s.

Definition parseIPv4 (s : string) : result error Addr :=
  match parseIPv4Fields s with
  | Ok [a; b; c; d] => Ok (Addr4 a b c d)
  | Ok _ => Err (ParseAddrError s "IPv4 address too long")
  | Err why => Err (ParseAddrError s why)
  end.

Definition hex_digit_any_case (c : ascii) : option Z := hex_val (lower_byte c).

(** One group of hexadecimal digits: the digits read, their value, the rest. *)
Fixpoint scan_hex (off : nat) (acc : Z) (s : string) : result string (nat * Z * string) :=
  match s with
  | "" => Ok (off, acc, "")
  | String c rest =>
      match hex_digit_any_case c with
      | None => Ok (off, acc, s)
      | Some d =>
          let acc := acc * 16 + d in
          if (3 <? off)%nat then Err "each group must have 4 or fewer digits"
          else if acc >? 65535 then Err "IPv6 field has value >=2^16"
          else scan_hex (S off) acc rest
      end
  end.

(** The loop of [parseIPv6]: the fields read so far and the position of the
    ellipsis. It ends with the unread text. Each iteration adds at least one field
    and the loop runs while there are fewer than eight, so eight is enough fuel. *)
Fixpoint parse_v6_loop (fuel : nat) (fields : list Z) (ellipsis : option nat) (s : string) :
    result string (list Z * option nat * string) :=
  match fuel with
  | O => Ok (fields, ellipsis, s)
  | S fuel =>
      if (8 <=? length fields)%nat then Ok (fields, ellipsis, s)
      else
        '(off, acc, rest) ← scan_hex 0 0 s;
        if (off =? 0)%nat then Err "each colon-separated field must have at least one digit"
        else match rest with
        | String "."%char _ =>
            if negb (bool_decide (is_Some ellipsis)) && negb (length fields =? 6)%nat then
              Err "embedded IPv4 address must replace the final 2 fields of the address"
            else if (8 <? length fields + 2)%nat then
              Err "too many hex fields to fit an embedded IPv4 at the end of the address"
            else
              v4 ← parseIPv4Fields s;
              match v4 with
              | [a; b; c; d] => Ok (fields ++ [a * 256 + b; c * 256 + d], ellipsis, "")
              | _ => Err "IPv4 address too long"
              end
        | "" => Ok (fields ++ [acc], ellipsis, "")
        | String ":"%char "" => Err "colon must be followed by more characters"
        | String ":"%char (String ":"%char rest) =>
            if bool_decide (is_Some ellipsis) then Err "multiple :: in address"
            else
              let fields := fields ++ [acc] in
              if String.eqb rest "" then Ok (fields, Some (length fields), "")
              else parse_v6_loop fuel fields (Some (length fields)) rest
        | String ":"%char rest => parse_v6_loop fuel (fields ++ [acc]) ellipsis rest
        | _ => Err "unexpected character, want colon"
        end
  end.

(** Expand the ellipsis to the zero fields it stands for. *)
Definition expand_ellipsis (fields : list Z) (ellipsis : option nat) :
    result string (list Z) :=
  if (length fields <? 8)%nat then
    match ellipsis with
    | None => Err "address string too short"
    | Some k => Ok (take k fields ++ replicate (8 - length fields) 0 ++ drop k fields)
    end
  else
    match ellipsis with
    | Some _ => Err "the :: must expand to at least one field of zeros"
    | None => Ok fields
    end.

Definition parse_v6_fields (s : string) : result string (list Z) :=
  let ellipsis := if HasPrefix s "::" then Some 0%nat else None in
  let s := TrimPrefix s "::" in
  if bool_decide (is_Some ellipsis) && String.eqb s "" then Ok (replicate 8 0)
  else
    '(fields, ellipsis, rest) ← parse_v6_loop 8 [] ellipsis s;
    if negb (String.eqb rest "") then Err "trailing garbage after address"
    else expand_ellipsis fields ellipsis.

Definition parseIPv6 (text : string) : result error Addr :=
  map_err (ParseAddrError text)
    (match Cut "%"%char text with
     | Some (s, zone) =>
         if String.eqb zone "" then Err "zone must be a non-empty string"
         else fields ← parse_v6_fields s; mret (Addr6 fields zone)
     | None => fields ← parse_v6_fields text; mret (Addr6 fields "")
     end).

(** [netip.ParseAddr]: the first of the bytes [.], [:] and [%] decides. *)
Fixpoint addr_kind (s : string) : option ascii :=
  match s with
  | "" => None
  | String c s =>
      if Ascii.eqb c "."%char || Ascii.eqb c ":"%char || Ascii.eqb c "%"%char then Some c
      else addr_kind s
  end.

Definition ParseAddr (s : string) : result error Addr :=
  match addr_kind s with
  | Some "."%char => parseIPv4 s
  | Some ":"%char => parseIPv6 s
  | Some _ => Err (ParseAddrError s "missing IPv6 address")
  | None => Err (ParseAddrError s "unable to parse IP")
  end.

(** *** [Addr.String] *)

Definition v4_string (a b c d : Z) : string :=
  FormatUint a +:+ "." +:+ FormatUint b +:+ "." +:+ FormatUint c +:+ "." +:+ FormatUint d.

(** [appendHex]: a 16-bit number without leading zeros. *)
Fixpoint hex_go (fuel : nat) (n : Z) (acc : string) : string :=
  match fuel with
  | O => acc
  | S fuel =>
      let acc := String (hex_char (n mod 16)) acc in
      if n / 16 =? 0 then acc else hex_go fuel (n / 16) acc
  end.
Definition hex16_string (n : Z) : string := hex_go 4 n "".

Fixpoint zero_run (fields : list Z) : nat :=
  match fields with
  | f :: fields => if f =? 0 then S (zero_run fields) else 0
  | [] => 0
  end.

(** The first longest run of at least two zero fields, as start and end. *)
Fixpoint longest_zero_run (i : nat) (best : nat * nat) (fields : list Z) : nat * nat :=
  match fields with
  | [] => best
  | _ :: rest =>
      let l := zero_run fields in
      let best :=
        if (2 <=? l)%nat && (best.2 - best.1 <? l)%nat then (i, (i + l)%nat) else best in
      longest_zero_run (S i) best rest
  end.

Definition fields_string (fields : list Z) : string :=
  join ":"%char (map hex16_string fields).

Definition v6_string (fields : list Z) : string :=
  match longest_zero_run 0 (0, 0)%nat fields with
  | (_, 0%nat) => fields_string fields
  | (zs, ze) => fields_string (take zs fields) +:+ "::" +:+ fields_string (drop ze fields)
  end.

Definition zone_string (zone : string) : string :=
  if String.eqb zone "" then "" else "%" +:+ zone.

Definition Addr_String (ip : Addr) : string :=
  match ip with
  | AddrZero => "invalid IP"
  | Addr4 a b c d => v4_string a b c d
  | Addr6 [0; 0; 0; 0; 0; 65535; hi; lo] zone =>
      "::ffff:" +:+ v4_string (hi / 256) (hi mod 256) (lo / 256) (lo mod 256)
        +:+ zone_string zone
  | Addr6 fields zone => v6_string fields +:+ zone_string zone
  end.

(** ** [netip.Prefix] *)

Record Prefix := { prefix_ip : Addr; prefix_bits : Z }.

#[global] Instance Prefix_eq_dec : EqDecision Prefix.
Proof. solve_decision. Defined.

Definition has_zone (ip : Addr) : bool :=
  match ip with Addr6 _ zone => negb (String.eqb zone "") | _ => false end.

Definition ParsePrefix `{IntSize} (s : string) : result error Prefix :=
  match CutLast "/"%char s with
  | None => Err (ParseAddrError s "no '/'")
  | Some (ip_text, bits_text) =>
      ip ← ParseAddr ip_text;
      _ ← fail_if (has_zone ip) (ParseAddrError s "IPv6 zones cannot be present in a prefix");
      _ ← fail_if
            (match bits_text with
             | String c (String _ _) => negb ((49 <=? byte_val c) && (byte_val c <=? 57))
             | _ => false
             end) (ParseAddrError s "bad bits after slash");
      bits ← map_err (fun _ => ParseAddrError s "bad bits after slash") (Atoi bits_text);
      let maxBits := if Is6 ip then 128 else 32 in
      _ ← fail_if ((bits <? 0) || (bits >? maxBits))
            (ParseAddrError s "prefix length out of range");
      mret {| prefix_ip := ip; prefix_bits := bits |}
  end.

Definition Prefix_String (p : Prefix) : string :=
  Addr_String (prefix_ip p) +:+ "/" +:+ Itoa (prefix_bits p).

(** ** [net.TCPAddr] and [net.UDPAddr]: the address as text and the port *)
Record TCPAddr := { TCPAddr_IP : string; TCPAddr_Port : Z }.

#[global] Instance TCPAddr_eq_dec : EqDecision TCPAddr.
Proof. solve_decision. Defined.

(** ** Lemmas: host and port *)

Lemma CutLast_app_sep sep a b :
  no_byte sep b = true -> CutLast sep (a +:+ String sep b) = Some (a, b).
Proof.
  intros Hb. assert (CutLast sep b = None) as HN.
  { induction b as [|c b IH]; [done|]. cbn in *. apply andb_true_iff in Hb as [Hc Hb].
    rewrite (IH Hb). by destruct (Ascii.eqb c sep). }
  induction a as [|c a IH]; rewrite ?string_app_nil_l, ?string_app_cons; cbn.
  - by rewrite HN, Ascii.eqb_refl.
  - by rewrite IH.
Qed.

(** Splitting a joined address gives its parts back. *)
Lemma SplitHostPort_JoinHostPort host port :
  no_byte "["%char host = true -> no_byte "]"%char host = true ->
  no_byte ":"%char port = true -> no_byte "["%char port = true ->
  no_byte "]"%char port = true ->
  SplitHostPort (JoinHostPort host port) = Ok (host, port).
Proof.
  intros Hh1 Hh2 Hp1 Hp2 Hp3. unfold JoinHostPort.
  destruct (ContainsByte host ":"%char) eqn:Hc.
  - assert ("[" +:+ host +:+ "]:" +:+ port =
      String "["%char (host +:+ String "]"%char (String ":"%char port))) as -> by done.
    unfold SplitHostPort.
    assert (CutLast ":"%char (String "["%char (host +:+ String "]"%char (String ":"%char port)))
      = Some (String "["%char (host +:+ "]"), port)) as ->.
    { rewrite <- (CutLast_app_sep ":"%char (String "["%char (host +:+ "]")) port Hp1).
      by rewrite string_app_cons, <- string_app_assoc. }
    rewrite (proj2 (Cut_Some "]"%char _ host (String ":"%char port))) by done. cbn [String.eqb].
    rewrite String.eqb_refl. rewrite !ContainsByte_no_byte.
    rewrite no_byte_app, Hh1. cbn. fold (no_byte "["%char port) (no_byte "]"%char port).
    by rewrite Hp2, Hp3.
  - apply negb_false_iff in Hc as Hc'. rewrite ContainsByte_no_byte in Hc.
    assert (host +:+ ":" +:+ port = host +:+ String ":"%char port) as -> by done.
    unfold SplitHostPort. rewrite CutLast_app_sep by done.
    rewrite !ContainsByte_no_byte, !no_byte_app, Hc, Hh1, Hh2. cbn [no_byte string_forallb].
    cbn. fold (no_byte "["%char port) (no_byte "]"%char port). rewrite Hp2, Hp3. cbn.
    destruct host as [|x host]; [done|]. rewrite string_app_cons.
    by destruct x as [[] [] [] [] [] [] [] []].
Qed.

Lemma JoinHostPort_colon host port : no_byte ":"%char (JoinHostPort host port) = false.
Proof. unfold JoinHostPort. case_match; rewrite !no_byte_app; cbn; by rewrite ?andb_false_r. Qed.

(** An IPv6 address in brackets alone has no port. *)
Lemma SplitHostPort_bracketed host :
  no_byte "]"%char host = true -> no_byte ":"%char host = false ->
  SplitHostPort ("[" +:+ host +:+ "]") =
    Err (AddrError "missing port in address" ("[" +:+ host +:+ "]")).
Proof.
  intros Hb Hc. change ("[" +:+ host +:+ "]") with (String "["%char (host +:+ "]")).
  unfold SplitHostPort.
  destruct (CutLast ":"%char (String "["%char (host +:+ "]"))) as [[before port]|]; [|done].
  by rewrite (proj2 (Cut_Some "]"%char _ host "")).
Qed.

(** ** Lemmas: printed addresses *)

Lemma hex_go_graphic fuel n acc :
  string_forallb graphic acc = true -> string_forallb graphic (hex_go fuel n acc) = true.
Proof.
  revert n acc; induction fuel as [|fuel IH]; intros n acc Hacc; [done|]. cbn.
  assert (string_forallb graphic (String (hex_char (n mod 16)) acc) = true).
  { cbn. rewrite Hacc, is_hex_graphic; [done|]. unfold is_hex.
    rewrite hex_char_val; [done|]. apply Z.mod_pos_bound. lia. }
  case_match; auto.
Qed.

Lemma fields_string_graphic fields : string_forallb graphic (fields_string fields) = true.
Proof.
  unfold fields_string. induction fields as [|f [|g fields] IH]; [done|apply hex_go_graphic; done|].
  change (join _ _) with
    (hex16_string f +:+ String ":"%char (join ":"%char (map hex16_string (g :: fields)))).
  rewrite string_forallb_app. cbn [string_forallb]. rewrite IH.
  unfold hex16_string. by rewrite hex_go_graphic.
Qed.

Lemma v4_string_graphic a b c d : string_forallb graphic (v4_string a b c d) = true.
Proof. unfold v4_string. by rewrite !string_forallb_app, !FormatUint_graphic. Qed.

Lemma v6_string_graphic fields : string_forallb graphic (v6_string fields) = true.
Proof.
  unfold v6_string. destruct (longest_zero_run _ _ _) as [zs [|ze]];
    by rewrite ?string_forallb_app, !fields_string_graphic.
Qed.

(** An address without a zone, other than the zero one, has only printable bytes. *)
Lemma Addr_String_graphic ip :
  ip <> AddrZero -> has_zone ip = false -> string_forallb graphic (Addr_String ip) = true.
Proof.
  destruct ip as [|a b c d|fields zone]; [done|intros; apply v4_string_graphic|].
  cbn. intros _ Hz%negb_false_iff. unfold zone_string. rewrite Hz.
  repeat case_match; subst; rewrite !string_forallb_app, ?v6_string_graphic, ?v4_string_graphic; done.
Qed.

Lemma Prefix_String_graphic p :
  prefix_ip p <> AddrZero -> has_zone (prefix_ip p) = false ->
  string_forallb graphic (Prefix_String p) = true.
Proof.
  intros. unfold Prefix_String. by rewrite !string_forallb_app, Addr_String_graphic, Itoa_graphic.
Qed.

Lemma ParseAddr_not_zero s ip : ParseAddr s = Ok ip -> ip <> AddrZero.
Proof.
  unfold ParseAddr, parseIPv4, parseIPv6. intros Hp ->.
  repeat case_match; try done; res_inv; repeat case_match; try done; res_inv; done.
Qed.

Lemma ParsePrefix_inv `{IntSize} s p :
  ParsePrefix s = Ok p ->
  prefix_ip p <> AddrZero /\ has_zone (prefix_ip p) = false /\
  0 <= prefix_bits p <= (if Is6 (prefix_ip p) then 128 else 32).
Proof.
  unfold ParsePrefix. destruct (CutLast "/"%char s) as [[a b]|]; [|done]. intros Hp.
  res_inv. cbn. split; [by eapply ParseAddr_not_zero|]. split; [done|].
  destruct (Is6 a0); lia.
Qed.
