(* ===== verification/Ini.v ===== *)
(** * The interface of the INI library (github.com/go-ini/ini).

    The program reads its configuration through go-ini, loaded with the options
    Insensitive, AllowShadows and AllowNonUniqueSections. The library is not part
    of the repository: the model takes its operations as the class [IniLib], and
    what the theorems rely on as the class [IniLaws], the documented behaviour.
    [list_ini] is a concrete file format that satisfies the laws; examples and
    witnesses are evaluated on it. *)

From S2P Require Import Prelude GoStrings GoStrconv.

Class IniLib := {
  ini_File : Type;
  ini_Section : Type;
  ini_Key : Type;
  (** [cfg.SectionsByName(name)] *)
  SectionsByName : ini_File -> string -> result error (list ini_Section);
  (** [cfg.GetSection(name)] *)
  GetSection : ini_File -> string -> result error ini_Section;
  (** [cfg.Section(name)] *)
  File_Section : ini_File -> string -> ini_Section;
  (** [section.GetKey(name)] *)
  GetKey : ini_Section -> string -> result error ini_Key;
  (** [section.Key(name)], a pointer the program compares with nil *)
  Section_Key : ini_Section -> string -> option ini_Key;
  (** [key.String()], [key.Int()], [key.Bool()] *)
  Key_String : ini_Key -> string;
  Key_Int : ini_Key -> result error Z;
  Key_Bool : ini_Key -> result error bool
}.

Class IniLaws `{IntSize} (L : IniLib) : Prop := {
  (** [Key] returns the key of that name when there is one. *)
  Section_Key_present s n k : GetKey s n = Ok k -> Section_Key s n = Some k;
  (** "Key assumes named Key exists in section and returns a zero-value when not." *)
  Section_Key_absent s n e :
    GetKey s n = Err e -> exists k, Section_Key s n = Some k /\ Key_String k = "";
  (** Insensitive: names are compared in lower case. *)
  GetKey_insensitive s n : GetKey s (lower_bytes n) = GetKey s n;
  (** [Int] returns an [int]. *)
  Key_Int_range k v : Key_Int k = Ok v -> in_int v
}.

(** ** A concrete library *)

(** A section is the list of its keys, a file the list of its sections, the names
    in lower case. *)
Definition list_section : Type := list (string * string).
Definition list_file : Type := list (string * list_section).

Fixpoint assoc (n : string) (l : list_section) : option string :=
  match l with
  | [] => None
  | (k, v) :: l => if String.eqb k n then Some v else assoc n l
  end.

Definition list_GetKey (s : list_section) (n : string) : result error string :=
  match assoc (lower_bytes n) s with
  | Some v => Ok v
  | None => Err (libError "key does not exist")
  end.

Definition list_SectionsByName (f : list_file) (n : string) : result error (list list_section) :=
  match filter (fun p => p.1 = lower_bytes n) f with
  | [] => Err (libError "section does not exist")
  | l => Ok (map snd l)
  end.

Definition list_Bool (v : string) : result error bool :=
  if bool_decide (v ∈ ["1"; "t"; "T"; "true"; "TRUE"; "True"; "YES"; "yes"; "Yes"; "y"; "ON"; "on"; "On"])
  then Ok true
  else if bool_decide (v ∈ ["0"; "f"; "F"; "false"; "FALSE"; "False"; "NO"; "no"; "No"; "n"; "OFF"; "off"; "Off"])
  then Ok false else Err (libError "invalid syntax").

Definition list_ini `{W : IntSize} : IniLib := {|
  ini_File := list_file;
  ini_Section := list_section;
  ini_Key := string;
  SectionsByName := list_SectionsByName;
  GetSection f n := l ← list_SectionsByName f n;
                    match l with s :: _ => Ok s | [] => Err (libError "section does not exist") end;
  File_Section f n := match list_SectionsByName f n with Ok (s :: _) => s | _ => [] end;
  GetKey := list_GetKey;
  Section_Key s n := Some (default "" (assoc (lower_bytes n) s));
  Key_String v := v;
  Key_Int := Atoi;
  Key_Bool := list_Bool
|}.

(** ** Lemmas *)

Lemma lower_byte_idemp c : lower_byte (lower_byte c) = lower_byte c.
Proof. by destruct c as [[] [] [] [] [] [] [] []]. Qed.

Lemma lower_bytes_idemp s : lower_bytes (lower_bytes s) = lower_bytes s.
Proof. induction s as [|c s IH]; cbn; [done|]. by rewrite lower_byte_idemp, IH. Qed.

Lemma parse_int_range `{IntSize} s v : parse_int s int_size = Ok v -> in_int v.
Proof.
  unfold parse_int, in_int, in_sint. pose proof int_size_pos.
  destruct (String.eqb s ""); [done|]. intros Hv. res_inv.
  set (digits := if HasPrefix s "-" then _ else _) in *.
  destruct (String.eqb digits ""); [done|].
  apply parse_uint_loop_Ok in Ha as (_ & <- & _).
  - pose proof (digits_value_mono digits 0 ltac:(lia)).
    assert (0 < 2 ^ (int_size - 1))%Z by (destruct int_size_cases as [-> | ->]; done).
    clearbody digits. destruct (HasPrefix s "-"); lia.
  - assert (0 < 2 ^ int_size)%Z by (destruct int_size_cases as [-> | ->]; done). lia.
  - destruct int_size_cases as [-> | ->]; lia.
Qed.

#[export] Instance list_ini_laws `{W : IntSize} : IniLaws list_ini.
Proof.
  split; cbn.
  - intros s n k. unfold list_GetKey. by destruct (assoc (lower_bytes n) s); intros [= <-].
  - intros s n e. unfold list_GetKey. destruct (assoc (lower_bytes n) s); [done|]. eauto.
  - intros s n. unfold list_GetKey. by rewrite lower_bytes_idemp.
  - intros k v. unfold Atoi. rewrite map_err_Ok. apply parse_int_range.
Qed.
