(* ===== verification/Keys.v ===== *)
(** * Keys: base64 in the configuration, hex in the device request.

    [encodeBase64ToHex] of src/config.go, used for the private, public, preshared
    and header protection keys. *)

From S2P Require Import Prelude GoStrings GoStrconv GoEncoding.

Definition encodeBase64ToHex (key : string) : result error string :=
  match base64_DecodeString key with
  | Err _ => Err (errorString ("invalid base64 string: " +:+ key))
  | Ok decoded =>
      if negb (String.length decoded =? 32)%nat
      then Err (errorString ("key should be 32 bytes: " +:+ key))
      else Ok (hex_EncodeToString decoded)
  end.

(** The text of a key in a device request: 64 lower case hex digits. *)
Definition hex_key (s : string) : bool :=
  (String.length s =? 64)%nat && string_forallb is_hex s.

(** ** Lemmas *)

Lemma encodeBase64ToHex_inv key h :
  encodeBase64ToHex key = Ok h <->
  exists bytes, base64_DecodeString key = Ok bytes /\ String.length bytes = 32%nat /\
    h = hex_EncodeToString bytes.
Proof.
  unfold encodeBase64ToHex. destruct (base64_DecodeString key) as [b|e]; [|naive_solver].
  destruct (Nat.eqb_spec (String.length b) 32); cbn; naive_solver.
Qed.

Lemma hex_key_encode bytes :
  String.length bytes = 32%nat -> hex_key (hex_EncodeToString bytes) = true.
Proof. intros Hb. unfold hex_key. by rewrite hex_length, Hb, hex_chars. Qed.

Lemma encodeBase64ToHex_hex_key key h : encodeBase64ToHex key = Ok h -> hex_key h = true.
Proof. intros (b & _ & Hb & ->)%encodeBase64ToHex_inv. by apply hex_key_encode. Qed.

Lemma hex_key_no_byte d s : hex_val d = None -> hex_key s = true -> no_byte d s = true.
Proof.
  unfold hex_key. rewrite andb_true_iff. intros Hd [_ Hs].
  eapply string_forallb_impl; [|exact Hs]. intros c Hc.
  destruct (Ascii.eqb_spec c d) as [->|]; [|done].
  apply bool_decide_eq_true in Hc. rewrite Hd in Hc. by destruct Hc.
Qed.

#[export] Hint Resolve encodeBase64ToHex_hex_key hex_key_no_byte : go.

(** ** Properties *)

(** C17. A key is accepted exactly when its text is base64 of 32 bytes, and the
    request text is then the 64 lower case hex digits that decode to those very
    bytes: no key is truncated, altered or silently replaced. *)
Theorem encodeBase64ToHex_correct key h :
  encodeBase64ToHex key = Ok h <->
  exists bytes, base64_DecodeString key = Ok bytes /\ String.length bytes = 32%nat /\
    hex_key h = true /\ hex_decode h = Some bytes.
Proof.
  rewrite encodeBase64ToHex_inv. split.
  - intros (b & Hd & Hl & ->). exists b. repeat split; [done..|by apply hex_key_encode|].
    apply hex_decode_encode.
  - intros (b & Hd & Hl & Hk & Hh). exists b. repeat split; [done..|].
    eapply hex_decode_inj; [exact Hh|apply hex_decode_encode].
Qed.

(** C18. Round trip: the standard base64 text of any 32 bytes is accepted and yields
    their hex text. *)
Theorem encodeBase64ToHex_roundtrip bytes :
  String.length bytes = 32%nat ->
  encodeBase64ToHex (base64_EncodeToString bytes) = Ok (hex_EncodeToString bytes).
Proof.
  intros Hl. apply encodeBase64ToHex_inv. exists bytes.
  split; [apply base64_decode_encode|done].
Qed.

Lemma encodeBase64ToHex_roundtrip_witness :
  encodeBase64ToHex (base64_EncodeToString "0123456789abcdef0123456789ABCDEF") =
  Ok "3031323334353637383961626364656630313233343536373839414243444546".
Proof. exact (encodeBase64ToHex_roundtrip "0123456789abcdef0123456789ABCDEF" eq_refl). Defined.
