(* ===== verification/AwgConfig.v ===== *)
(** * AmneziaWG parameters: src/awg_config.go.

    [uintRange] and its text form, the parser of the AmneziaWG keys of a section,
    the validation of the resulting [ASecConfigType], and the header intervals.
    A nil [*ASecConfigType] is [None]; nil field pointers are [None]. *)

From S2P Require Import Prelude GoStrings GoStrconv GoEncoding Ini Keys.
Local Open Scope Z_scope.

(** ** Data *)

Definition headerCipherNonceSize : Z := 12.

Record uintRange := { range_min : Z; range_max : Z }.

#[global] Instance uintRange_eq_dec : EqDecision uintRange.
Proof. solve_decision. Defined.

Record ASecConfigType := {
  junkPacketCount : Z;
  junkPacketMinSize : Z;
  junkPacketMaxSize : Z;
  initPacketJunkSize : Z;
  responsePacketJunkSize : Z;
  cookieReplyPacketJunkSize : Z;
  transportPacketJunkSize : Z;
  initPacketMagicHeader : Z;
  initPacketMagicHeaderMax : Z;
  responsePacketMagicHeader : Z;
  responsePacketMagicHeaderMax : Z;
  underloadPacketMagicHeader : Z;
  underloadPacketMagicHeaderMax : Z;
  transportPacketMagicHeader : Z;
  transportPacketMagicHeaderMax : Z;
  hasJunkPacketCount : bool;
  hasJunkPacketMinSize : bool;
  hasJunkPacketMaxSize : bool;
  hasInitPacketJunkSize : bool;
  hasResponsePacketJunkSize : bool;
  hasCookieReplyPacketJunkSize : bool;
  hasTransportPacketJunkSize : bool;
  hasInitPacketMagicHeader : bool;
  hasResponsePacketMagicHeader : bool;
  hasUnderloadPacketMagicHeader : bool;
  hasTransportPacketMagicHeader : bool;
  i1 : option string;
  i2 : option string;
  i3 : option string;
  i4 : option string;
  i5 : option string;
  headerProtectionKey : option string;
  contentPaddingAddition : option uintRange;
  rekeyAfterTime : option uintRange;
  rekeyTimeout : option uintRange;
  rejectAfterTime : option uintRange;
  keepaliveTimeout : option uintRange;
  maxHandshakeAttempts : option uintRange;
  randomTrailers : option bool;
  disableCookies : option bool
}.

(** [&ASecConfigType{}] *)
Definition zeroASecConfig : ASecConfigType :=
  {| junkPacketCount := 0; junkPacketMinSize := 0; junkPacketMaxSize := 0;
     initPacketJunkSize := 0; responsePacketJunkSize := 0;
     cookieReplyPacketJunkSize := 0; transportPacketJunkSize := 0;
     initPacketMagicHeader := 0; initPacketMagicHeaderMax := 0;
     responsePacketMagicHeader := 0; responsePacketMagicHeaderMax := 0;
     underloadPacketMagicHeader := 0; underloadPacketMagicHeaderMax := 0;
     transportPacketMagicHeader := 0; transportPacketMagicHeaderMax := 0;
     hasJunkPacketCount := false; hasJunkPacketMinSize := false;
     hasJunkPacketMaxSize := false; hasInitPacketJunkSize := false;
     hasResponsePacketJunkSize := false; hasCookieReplyPacketJunkSize := false;
     hasTransportPacketJunkSize := false; hasInitPacketMagicHeader := false;
     hasResponsePacketMagicHeader := false; hasUnderloadPacketMagicHeader := false;
     hasTransportPacketMagicHeader := false;
     i1 := None; i2 := None; i3 := None; i4 := None; i5 := None;
     headerProtectionKey := None; contentPaddingAddition := None;
     rekeyAfterTime := None; rekeyTimeout := None; rejectAfterTime := None;
     keepaliveTimeout := None; maxHandshakeAttempts := None;
     randomTrailers := None; disableCookies := None |}.

(** ** Ranges *)

(** [uintRange.String] *)
Definition uintRange_String (r : uintRange) : string :=
  if range_min r =? range_max r then FormatUint (range_min r)
  else FormatUint (range_min r) +:+ "-" +:+ FormatUint (range_max r).

Definition formatMagicHeaderInterval (minValue maxValue : Z) : string :=
  uintRange_String {| range_min := minValue; range_max := maxValue |}.

Definition parseUintRange (value : string) : result error uintRange :=
  let trimmed := TrimSpace value in
  if String.eqb trimmed "" then Err (errorString "empty range value")
  else match Split "-"%char trimmed with
  | [p0] =>
      if String.eqb p0 "" then Err (errorString "invalid range format")
      else
        minRaw ← ParseUint p0 32;
        let minValue := uint 32 minRaw in
        mret {| range_min := minValue; range_max := minValue |}
  | [p0; p1] =>
      if String.eqb p0 "" then Err (errorString "invalid range format")
      else
        minRaw ← ParseUint p0 32;
        let minValue := uint 32 minRaw in
        if String.eqb p1 "" then Err (errorString "invalid range format")
        else
          maxRaw ← ParseUint p1 32;
          let maxValue := uint 32 maxRaw in
          if minValue >? maxValue
          then Err (errorString "invalid range: lower bound cannot exceed upper bound")
          else mret {| range_min := minValue; range_max := maxValue |}
  | _ => Err (errorString "invalid range format")
  end.

(** ** Header intervals *)

Record headerInterval := { interval_key : string; interval_min : Z; interval_max : Z }.

Definition defaultInitPacketMagicHeader : Z := 1.
Definition defaultResponsePacketMagicHeader : Z := 2.
Definition defaultUnderloadPacketMagicHeader : Z := 3.
Definition defaultTransportPacketMagicHeader : Z := 4.

Definition collectEffectiveHeaderIntervals (config : option ASecConfigType) :
    list headerInterval :=
  let effective key (has : ASecConfigType -> bool) lo hi dflt :=
    match config with
    | Some c => if has c then {| interval_key := key; interval_min := lo c; interval_max := hi c |}
                else {| interval_key := key; interval_min := dflt; interval_max := dflt |}
    | None => {| interval_key := key; interval_min := dflt; interval_max := dflt |}
    end in
  [ effective "h1" hasInitPacketMagicHeader initPacketMagicHeader
      initPacketMagicHeaderMax defaultInitPacketMagicHeader;
    effective "h2" hasResponsePacketMagicHeader responsePacketMagicHeader
      responsePacketMagicHeaderMax defaultResponsePacketMagicHeader;
    effective "h3" hasUnderloadPacketMagicHeader underloadPacketMagicHeader
      underloadPacketMagicHeaderMax defaultUnderloadPacketMagicHeader;
    effective "h4" hasTransportPacketMagicHeader transportPacketMagicHeader
      transportPacketMagicHeaderMax defaultTransportPacketMagicHeader ].

Definition hasOverlappingHeaderIntervals (intervals : list headerInterval) : bool :=
  existsb (fun p => (interval_min p.1 <=? interval_max p.2) &&
                    (interval_min p.2 <=? interval_max p.1))
    (ordered_pairs intervals).

(** ** Validation *)

Record packetSizeCheck := { isSet : bool; size : Z }.

Definition messageInitiationSize : Z := 148.
Definition messageResponseSize : Z := 92.
Definition messageCookieReplySize : Z := 64.
Definition messageTransportSize : Z := 32.

Section validate.
Context `{IntSize}.

(** The sizes are sums of [int]s and wrap. *)
Definition packetSizes (config : ASecConfigType) : list packetSizeCheck :=
  [ {| isSet := hasInitPacketJunkSize config;
       size := to_int (messageInitiationSize + initPacketJunkSize config) |};
    {| isSet := hasResponsePacketJunkSize config;
       size := to_int (messageResponseSize + responsePacketJunkSize config) |};
    {| isSet := hasCookieReplyPacketJunkSize config;
       size := to_int (messageCookieReplySize + cookieReplyPacketJunkSize config) |};
    {| isSet := hasTransportPacketJunkSize config;
       size := to_int (messageTransportSize + transportPacketJunkSize config) |} ].

Definition paddings (config : ASecConfigType) : list packetSizeCheck :=
  [ {| isSet := hasInitPacketJunkSize config; size := initPacketJunkSize config |};
    {| isSet := hasResponsePacketJunkSize config; size := responsePacketJunkSize config |};
    {| isSet := hasCookieReplyPacketJunkSize config; size := cookieReplyPacketJunkSize config |};
    {| isSet := hasTransportPacketJunkSize config; size := transportPacketJunkSize config |} ].

Definition ValidateASecConfig (config : option ASecConfigType) : result error unit :=
  match config with
  | None => Ok tt
  | Some config =>
      _ ← fail_if (hasJunkPacketCount config &&
                   ((junkPacketCount config <? 1) || (junkPacketCount config >? 128)))
            (errorString "value of the Jc field must be within the range of 1 to 128");
      _ ← fail_if (hasJunkPacketMinSize config && hasJunkPacketMaxSize config &&
                   (junkPacketMinSize config >? junkPacketMaxSize config))
            (errorString "value of the Jmin field must be less than or equal to Jmax field value");
      _ ← fail_if (hasJunkPacketMaxSize config && (junkPacketMaxSize config >? 1280))
            (errorString "value of the Jmax field must be less than or equal 1280");
      _ ← fail_if (existsb (fun p => isSet p.1 && isSet p.2 && (size p.1 =? size p.2))
                     (ordered_pairs (packetSizes config)))
            (if hasCookieReplyPacketJunkSize config || hasTransportPacketJunkSize config
             then errorString "value of the field S1 + message initiation size (148) must not equal S2 + message response size (92) + S3 + cookie reply size (64) + S4 + transport packet size (32)"
             else errorString "value of the field S1 + message initiation size (148) must not equal S2 + message response size (92)");
      let intervals := collectEffectiveHeaderIntervals (Some config) in
      _ ← fail_if (existsb (fun i => interval_min i >? interval_max i) intervals)
            (errorString "invalid magic header range: lower bound cannot exceed upper bound");
      _ ← fail_if (hasOverlappingHeaderIntervals intervals)
            (errorString "values of the H1-H4 fields must be unique");
      match headerProtectionKey config with
      | None => Ok tt
      | Some _ =>
          fail_if (existsb (fun p => negb (isSet p) || (size p <? headerCipherNonceSize))
                     (paddings config))
            (errorString "values of the S1-S4 fields must all be at least 12 when HeaderProtectionKey is set")
      end
  end.

End validate.

(** ** What each key writes *)

Definition write_Jc (value : Z) (c : ASecConfigType) : ASecConfigType :=
  c <| junkPacketCount := value |> <| hasJunkPacketCount := true |>.
Definition write_Jmin (value : Z) (c : ASecConfigType) : ASecConfigType :=
  c <| junkPacketMinSize := value |> <| hasJunkPacketMinSize := true |>.
Definition write_Jmax (value : Z) (c : ASecConfigType) : ASecConfigType :=
  c <| junkPacketMaxSize := value |> <| hasJunkPacketMaxSize := true |>.
Definition write_S1 (value : Z) (c : ASecConfigType) : ASecConfigType :=
  c <| initPacketJunkSize := value |> <| hasInitPacketJunkSize := true |>.
Definition write_S2 (value : Z) (c : ASecConfigType) : ASecConfigType :=
  c <| responsePacketJunkSize := value |> <| hasResponsePacketJunkSize := true |>.
Definition write_S3 (value : Z) (c : ASecConfigType) : ASecConfigType :=
  c <| cookieReplyPacketJunkSize := value |> <| hasCookieReplyPacketJunkSize := true |>.
Definition write_S4 (value : Z) (c : ASecConfigType) : ASecConfigType :=
  c <| transportPacketJunkSize := value |> <| hasTransportPacketJunkSize := true |>.
Definition write_H1 (value : uintRange) (c : ASecConfigType) : ASecConfigType :=
  c <| initPacketMagicHeader := range_min value |>
    <| initPacketMagicHeaderMax := range_max value |> <| hasInitPacketMagicHeader := true |>.
Definition write_H2 (value : uintRange) (c : ASecConfigType) : ASecConfigType :=
  c <| responsePacketMagicHeader := range_min value |>
    <| responsePacketMagicHeaderMax := range_max value |> <| hasResponsePacketMagicHeader := true |>.
Definition write_H3 (value : uintRange) (c : ASecConfigType) : ASecConfigType :=
  c <| underloadPacketMagicHeader := range_min value |>
    <| underloadPacketMagicHeaderMax := range_max value |> <| hasUnderloadPacketMagicHeader := true |>.
Definition write_H4 (value : uintRange) (c : ASecConfigType) : ASecConfigType :=
  c <| transportPacketMagicHeader := range_min value |>
    <| transportPacketMagicHeaderMax := range_max value |> <| hasTransportPacketMagicHeader := true |>.
Definition write_I1 (value : string) (c : ASecConfigType) : ASecConfigType :=
  c <| i1 := Some value |>.
Definition write_I2 (value : string) (c : ASecConfigType) : ASecConfigType :=
  c <| i2 := Some value |>.
Definition write_I3 (value : string) (c : ASecConfigType) : ASecConfigType :=
  c <| i3 := Some value |>.
Definition write_I4 (value : string) (c : ASecConfigType) : ASecConfigType :=
  c <| i4 := Some value |>.
Definition write_I5 (value : string) (c : ASecConfigType) : ASecConfigType :=
  c <| i5 := Some value |>.
Definition write_HeaderProtectionKey (value : string) (c : ASecConfigType) : ASecConfigType :=
  c <| headerProtectionKey := Some value |>.
Definition write_ContentPaddingAddition (value : uintRange) (c : ASecConfigType) : ASecConfigType :=
  c <| contentPaddingAddition := Some value |>.
Definition write_RekeyAfterTime (value : uintRange) (c : ASecConfigType) : ASecConfigType :=
  c <| rekeyAfterTime := Some value |>.
Definition write_RekeyTimeout (value : uintRange) (c : ASecConfigType) : ASecConfigType :=
  c <| rekeyTimeout := Some value |>.
Definition write_RejectAfterTime (value : uintRange) (c : ASecConfigType) : ASecConfigType :=
  c <| rejectAfterTime := Some value |>.
Definition write_KeepaliveTimeout (value : uintRange) (c : ASecConfigType) : ASecConfigType :=
  c <| keepaliveTimeout := Some value |>.
Definition write_MaxHandshakeAttempts (value : uintRange) (c : ASecConfigType) : ASecConfigType :=
  c <| maxHandshakeAttempts := Some value |>.
Definition write_RandomTrailers (value : bool) (c : ASecConfigType) : ASecConfigType :=
  c <| randomTrailers := Some value |>.
Definition write_DisableCookies (value : bool) (c : ASecConfigType) : ASecConfigType :=
  c <| disableCookies := Some value |>.

(** ** Parsing a section *)

Section parse.
Context `{IntSize, IniLib}.

(** One block [if sectionKey, err := section.GetKey(name); err == nil { ... }] of
    [ParseASecConfig]: [store] is what the block does with the key, an error it
    returns or the fields it writes. The block first makes the configuration
    non-nil. *)
Record key_block := {
  block_key : string;
  block_store : ini_Key -> result error (ASecConfigType -> ASecConfigType)
}.

Definition run_block (section : ini_Section) (aSecConfig : option ASecConfigType)
    (b : key_block) : result error (option ASecConfigType) :=
  match GetKey section (block_key b) with
  | Err _ => Ok aSecConfig
  | Ok sectionKey =>
      write ← block_store b sectionKey;
      mret (Some (write (default zeroASecConfig aSecConfig)))
  end.

Fixpoint run_blocks (section : ini_Section) (bs : list key_block)
    (aSecConfig : option ASecConfigType) : result error (option ASecConfigType) :=
  match bs with
  | [] => Ok aSecConfig
  | b :: bs => c ← run_block section aSecConfig b; run_blocks section bs c
  end.

Definition int_block (name : string) (write : Z -> ASecConfigType -> ASecConfigType) :=
  {| block_key := name;
     block_store := fun key => value ← Key_Int key; mret (write value) |}.

Definition range_block (name : string)
    (write : uintRange -> ASecConfigType -> ASecConfigType) :=
  {| block_key := name;
     block_store := fun key =>
       value ← map_err (wrapError ("invalid " +:+ name +:+ " value: "))
                 (parseUintRange (Key_String key));
       mret (write value) |}.

Definition string_block (name : string)
    (write : string -> ASecConfigType -> ASecConfigType) :=
  {| block_key := name; block_store := fun key => mret (write (Key_String key)) |}.

Definition bool_block (name : string) (write : bool -> ASecConfigType -> ASecConfigType) :=
  {| block_key := name;
     block_store := fun key =>
       value ← map_err (wrapError ("invalid " +:+ name +:+ " value: ")) (Key_Bool key);
       mret (write value) |}.

(** Jc, Jmin, Jmax and S1 to S4. *)
Definition sizeKeys : list key_block :=
  [ int_block "Jc" write_Jc;
    int_block "Jmin" write_Jmin;
    int_block "Jmax" write_Jmax;
    int_block "S1" write_S1;
    int_block "S2" write_S2;
    int_block "S3" write_S3;
    int_block "S4" write_S4 ].

(** H1 to H4. *)
Definition headerKeys : list key_block :=
  [ range_block "H1" write_H1;
    range_block "H2" write_H2;
    range_block "H3" write_H3;
    range_block "H4" write_H4 ].

(** I1 to I5. *)
Definition signatureKeys : list key_block :=
  [ string_block "I1" write_I1;
    string_block "I2" write_I2;
    string_block "I3" write_I3;
    string_block "I4" write_I4;
    string_block "I5" write_I5 ].

Definition headerProtectionBlock : key_block :=
  {| block_key := "HeaderProtectionKey";
     block_store := fun key =>
       value ← map_err (wrapError "invalid HeaderProtectionKey value: ")
                 (encodeBase64ToHex (Key_String key));
       mret (write_HeaderProtectionKey value) |}.

Definition rangeKeys : list key_block :=
  [ range_block "ContentPaddingAddition" write_ContentPaddingAddition;
    range_block "RekeyAfterTime" write_RekeyAfterTime;
    range_block "RekeyTimeout" write_RekeyTimeout;
    range_block "RejectAfterTime" write_RejectAfterTime;
    range_block "KeepaliveTimeout" write_KeepaliveTimeout;
    range_block "MaxHandshakeAttempts" write_MaxHandshakeAttempts ].

Definition boolKeys : list key_block :=
  [ bool_block "RandomTrailers" write_RandomTrailers;
    bool_block "DisableCookies" write_DisableCookies ].

Definition ParseASecConfig (section : ini_Section) : result error (option ASecConfigType) :=
  c ← run_blocks section sizeKeys None;
  c ← run_blocks section headerKeys c;
  c ← run_blocks section signatureKeys c;
  c ← run_block section c headerProtectionBlock;
  c ← run_blocks section rangeKeys c;
  c ← run_blocks section boolKeys c;
  _ ← ValidateASecConfig c;
  mret c.

End parse.

(** ** Lemmas: ranges *)

(** The texts of a range: a decimal number, or two with a dash between them. *)
Inductive range_text : string -> uintRange -> Prop :=
| range_single a :
    decimal a -> digits_value 0 a < 2 ^ 32 ->
    range_text a {| range_min := digits_value 0 a; range_max := digits_value 0 a |}
| range_interval a b :
    decimal a -> decimal b -> digits_value 0 a <= digits_value 0 b < 2 ^ 32 ->
    range_text (a +:+ "-" +:+ b)
      {| range_min := digits_value 0 a; range_max := digits_value 0 b |}.

Definition range_wf (r : uintRange) : Prop :=
  0 <= range_min r <= range_max r /\ range_max r < 2 ^ 32.

Lemma ParseUint32 s v :
  ParseUint s 32 = Ok v <-> decimal s /\ digits_value 0 s = v /\ v < 2 ^ 32.
Proof. apply ParseUint_Ok. lia. Qed.

Lemma uint32_digits s : digits_value 0 s < 2 ^ 32 -> uint 32 (digits_value 0 s) = digits_value 0 s.
Proof. intros. apply Z.mod_small. pose proof (digits_value_mono s 0). lia. Qed.

Lemma parseUintRange_inv s r : parseUintRange s = Ok r -> range_text (TrimSpace s) r.
Proof.
  unfold parseUintRange. destruct (String.eqb_spec (TrimSpace s) ""); [done|].
  pose proof (join_Split "-"%char (TrimSpace s)) as Hj.
  destruct (Split "-"%char (TrimSpace s)) as [|p0 [|p1 [|? ?]]]; try done.
  - destruct (String.eqb p0 ""); [done|]. intros Hr. res_inv.
    apply ParseUint32 in Ha as (Hd & <- & Hv). rewrite uint32_digits, <- Hj by done.
    by constructor.
  - destruct (String.eqb p0 ""); [done|]. intros Hr. res_inv.
    destruct (String.eqb p1 ""); [done|]. res_inv.
    apply ParseUint32 in Ha as (Hd & <- & Hv), Ha0 as (Hd' & <- & Hv').
    rewrite !uint32_digits in Hr by done. rewrite <- Hj.
    destruct (Z.gtb_spec (digits_value 0 p0) (digits_value 0 p1)); [done|]. res_inv.
    by constructor.
Qed.

Lemma parseUintRange_text s r : range_text (TrimSpace s) r -> parseUintRange s = Ok r.
Proof.
  unfold parseUintRange. intros Hr. remember (TrimSpace s) as t eqn:Ht. clear Ht.
  destruct Hr as [a [Hne Hd] Hv|a b [Hne Hd] [Hne' Hd'] [Hle Hv]].
  - rewrite (proj2 (String.eqb_neq a "") Hne).
    rewrite Split_no_sep by auto with go. rewrite (proj2 (String.eqb_neq a "") Hne).
    rewrite (proj2 (ParseUint32 a _)) by done. cbn. by rewrite uint32_digits.
  - replace (String.eqb (a +:+ "-" +:+ b) "") with false by (by destruct a).
    change (a +:+ "-" +:+ b) with (a +:+ String "-"%char b).
    rewrite Split_app_sep, Split_no_sep by auto with go.
    rewrite (proj2 (String.eqb_neq a "") Hne), (proj2 (String.eqb_neq b "") Hne').
    rewrite (proj2 (ParseUint32 a (digits_value 0 a))) by (split_and!; try done; lia).
    rewrite (proj2 (ParseUint32 b (digits_value 0 b))) by done. cbn.
    rewrite !uint32_digits by lia.
    by replace (digits_value 0 a >? digits_value 0 b) with false by lia.
Qed.

Lemma range_text_wf t r : range_text t r -> range_wf r.
Proof.
  intros [a Ha Hv|a b Ha Hb Hv]; unfold range_wf; cbn;
    pose proof (digits_value_mono a 0); lia.
Qed.

Lemma parseUintRange_wf_aux s r : parseUintRange s = Ok r -> range_wf r.
Proof. intros H%parseUintRange_inv. by eapply range_text_wf. Qed.

(** The printed form of a range is one of its texts, and has only printable bytes. *)
Lemma uintRange_String_text r : range_wf r -> range_text (uintRange_String r) r.
Proof.
  intros [[H0 Hle] Hlt]. destruct r as [a b]; cbn in *. unfold uintRange_String; cbn.
  assert (in_uint 64 a /\ in_uint 64 b) as [Ha Hb] by (unfold in_uint; lia).
  destruct (Z.eqb_spec a b) as [->|Hne].
  - pose proof (range_single (FormatUint b)) as R. rewrite FormatUint_value in R by done.
    auto with go.
  - pose proof (range_interval (FormatUint a) (FormatUint b)) as R.
    rewrite !FormatUint_value in R by done. auto with go.
Qed.

Lemma range_text_graphic t r : range_text t r -> string_forallb graphic t = true.
Proof.
  intros [a [_ Ha] _|a b [_ Ha] [_ Hb] _]; [auto with go|].
  by rewrite !string_forallb_app, (digits_graphic a), (digits_graphic b).
Qed.

Lemma uintRange_String_no_newline r :
  range_wf r -> no_byte (ascii_of_nat 10) (uintRange_String r) = true.
Proof.
  intros Hr%uintRange_String_text%range_text_graphic.
  eapply string_forallb_impl; [|exact Hr]. intros c Hc.
  destruct (Ascii.eqb_spec c (ascii_of_nat 10)) as [->|]; done.
Qed.

#[export] Hint Resolve parseUintRange_wf_aux uintRange_String_no_newline : go.

(** ** Lemmas: intervals *)

Definition in_interval (i : headerInterval) (x : Z) : Prop :=
  interval_min i <= x <= interval_max i.

(** Two intervals overlap when some value is in both. *)
Lemma overlap_common a b :
  interval_min a <= interval_max a -> interval_min b <= interval_max b ->
  (interval_min a <=? interval_max b) && (interval_min b <=? interval_max a) = true <->
  exists x, in_interval a x /\ in_interval b x.
Proof.
  intros Ha Hb. unfold in_interval. rewrite andb_true_iff, !Z.leb_le. split.
  - intros [H1 H2]. exists (Z.max (interval_min a) (interval_min b)). lia.
  - intros (x & H1 & H2). lia.
Qed.

Lemma hasOverlapping_false intervals :
  Forall (fun i => interval_min i <= interval_max i) intervals ->
  hasOverlappingHeaderIntervals intervals = false <->
  forall i j a b x, (i < j)%nat -> intervals !! i = Some a -> intervals !! j = Some b ->
    in_interval a x -> in_interval b x -> False.
Proof.
  intros Hwf. unfold hasOverlappingHeaderIntervals. rewrite existsb_false_iff. split.
  - intros Hn i j a b x Hij Ha Hb Hxa Hxb.
    specialize (Hn (a, b)). rewrite ordered_pairs_spec in Hn.
    specialize (Hn (ex_intro _ i (ex_intro _ j (conj Hij (conj Ha Hb))))). cbn in Hn.
    apply not_true_iff_false in Hn. apply Hn, overlap_common; [..|by exists x].
    all: by eapply Forall_lookup_1 in Hwf; [exact Hwf|].
  - intros Hd [a b] (i & j & Hij & Ha & Hb)%ordered_pairs_spec. cbn in *.
    apply not_true_iff_false. intros (x & Hxa & Hxb)%overlap_common; [by eapply Hd| |].
    all: by eapply Forall_lookup_1 in Hwf; [exact Hwf|].
Qed.

(** ** Properties: ranges *)

(** C16. Round trip: the text the request carries for a range parses back to that
    range, for every range of uint32 bounds in order. *)
Theorem parseUintRange_String r :
  range_wf r -> parseUintRange (uintRange_String r) = Ok r.
Proof.
  intros Hr. pose proof (uintRange_String_text r Hr) as Ht.
  apply parseUintRange_text. rewrite TrimSpace_graphic; [done|].
  by eapply range_text_graphic.
Qed.

Lemma parseUintRange_String_witness :
  parseUintRange (uintRange_String {| range_min := 2147483647; range_max := 4294967295 |})
  = Ok {| range_min := 2147483647; range_max := 4294967295 |}.
Proof. apply parseUintRange_String. unfold range_wf; cbn. lia. Defined.

(** C15. A text is accepted as a range exactly when, spaces around it aside, it is a
    decimal number below 2^32 or two of them in order with one dash between, and
    the result is what the text denotes: signs, missing or extra parts, inner
    spaces, reversed bounds and values of more than 32 bits are all refused. *)
Theorem parseUintRange_correct s r :
  parseUintRange s = Ok r <-> range_text (TrimSpace s) r.
Proof. split; [apply parseUintRange_inv|apply parseUintRange_text]. Qed.

(** ** Lemmas: validation *)

(** *** The messages of the protocol

    What follows is stated message by message with the numbers of the protocol,
    and names none of the lists and constants of the validation code. *)

Inductive message := Initiation | Response | CookieReply | Transport.

(** The length of the message without padding. *)
Definition message_size (m : message) : Z :=
  match m with
  | Initiation => 148
  | Response => 92
  | CookieReply => 64
  | Transport => 32
  end.

(** The message's padding (S1 to S4), when the configuration sets it. *)
Definition padding_of (c : ASecConfigType) (m : message) : option Z :=
  match m with
  | Initiation => if hasInitPacketJunkSize c then Some (initPacketJunkSize c) else None
  | Response => if hasResponsePacketJunkSize c then Some (responsePacketJunkSize c) else None
  | CookieReply =>
      if hasCookieReplyPacketJunkSize c then Some (cookieReplyPacketJunkSize c) else None
  | Transport => if hasTransportPacketJunkSize c then Some (transportPacketJunkSize c) else None
  end.

(** The bounds of the values of the message's type field: those configured (H1 to
    H4), or the type of the plain WireGuard message. *)
Definition header_of (c : ASecConfigType) (m : message) : Z * Z :=
  match m with
  | Initiation => if hasInitPacketMagicHeader c
      then (initPacketMagicHeader c, initPacketMagicHeaderMax c) else (1, 1)
  | Response => if hasResponsePacketMagicHeader c
      then (responsePacketMagicHeader c, responsePacketMagicHeaderMax c) else (2, 2)
  | CookieReply => if hasUnderloadPacketMagicHeader c
      then (underloadPacketMagicHeader c, underloadPacketMagicHeaderMax c) else (3, 3)
  | Transport => if hasTransportPacketMagicHeader c
      then (transportPacketMagicHeader c, transportPacketMagicHeaderMax c) else (4, 4)
  end.

Definition in_header (c : ASecConfigType) (m : message) (x : Z) : Prop :=
  (header_of c m).1 <= x <= (header_of c m).2.

(** What a valid AmneziaWG configuration is, rule by rule. *)
Record ASec_valid `{IntSize} (c : ASecConfigType) : Prop := {
  valid_jc : hasJunkPacketCount c = true -> 1 <= junkPacketCount c <= 128;
  valid_jmin : hasJunkPacketMinSize c = true -> hasJunkPacketMaxSize c = true ->
    junkPacketMinSize c <= junkPacketMaxSize c;
  valid_jmax : hasJunkPacketMaxSize c = true -> junkPacketMaxSize c <= 1280;
  valid_sizes : forall m m' p p', m <> m' ->
    padding_of c m = Some p -> padding_of c m' = Some p' ->
    to_int (message_size m + p) <> to_int (message_size m' + p');
  valid_ordered : forall m, (header_of c m).1 <= (header_of c m).2;
  valid_disjoint : forall m m' x, in_header c m x -> in_header c m' x -> m = m';
  valid_nonce : is_Some (headerProtectionKey c) ->
    forall m, exists p, padding_of c m = Some p /\ 12 <= p
}.

(** *** The lists of the code, message by message *)

#[global] Instance message_eq_dec : EqDecision message.
Proof. solve_decision. Defined.

Definition messages : list message := [Initiation; Response; CookieReply; Transport].

Lemma elem_messages m : m ∈ messages.
Proof. apply list_elem_of_In. destruct m; cbn; tauto. Qed.

Lemma messages_forall (P : message -> Prop) : Forall P messages <-> forall m, P m.
Proof.
  rewrite Forall_forall. split; [|auto].
  intros HP m. apply HP, elem_messages.
Qed.

Lemma messages_lookup m : exists i, messages !! i = Some m.
Proof. apply list_elem_of_lookup, elem_messages. Qed.

Lemma messages_NoDup : NoDup messages.
Proof. apply (bool_decide_unpack _). reflexivity. Qed.

(** A symmetric relation on the places of a list with one entry for each message,
    in order, is one on different messages. *)
Lemma messages_pairs {A} (f : message -> A) (R : A -> A -> Prop) :
  (forall a b, R a b -> R b a) ->
  (forall i j a b, (i < j)%nat -> map f messages !! i = Some a -> map f messages !! j = Some b ->
    R a b) <->
  (forall m m', m <> m' -> R (f m) (f m')).
Proof.
  intros Hsym.
  assert (forall i m, messages !! i = Some m -> map f messages !! i = Some (f m)) as Hf
    by (intros i m Hm; by rewrite list_lookup_fmap, Hm).
  split.
  - intros HR m m' Hne.
    destruct (messages_lookup m) as [i Hi], (messages_lookup m') as [j Hj].
    destruct (Nat.lt_trichotomy i j) as [L|[->|L]]; [|congruence|apply Hsym].
    all: eapply HR; eauto.
  - intros HR i j a b Hij (m & -> & Hm)%list_lookup_fmap_Some (m' & -> & Hm')%list_lookup_fmap_Some.
    apply HR. intros ->. pose proof (NoDup_lookup _ _ _ _ messages_NoDup Hm Hm'). lia.
Qed.

Definition has_junk (c : ASecConfigType) (m : message) : bool :=
  match m with
  | Initiation => hasInitPacketJunkSize c
  | Response => hasResponsePacketJunkSize c
  | CookieReply => hasCookieReplyPacketJunkSize c
  | Transport => hasTransportPacketJunkSize c
  end.

Definition junk_size (c : ASecConfigType) (m : message) : Z :=
  match m with
  | Initiation => initPacketJunkSize c
  | Response => responsePacketJunkSize c
  | CookieReply => cookieReplyPacketJunkSize c
  | Transport => transportPacketJunkSize c
  end.

Lemma padding_of_Some c m p :
  padding_of c m = Some p <-> has_junk c m = true /\ junk_size c m = p.
Proof. destruct m; cbn; case_match; naive_solver. Qed.

Definition interval_of (c : ASecConfigType) (m : message) : headerInterval :=
  {| interval_key := match m with
       Initiation => "h1" | Response => "h2" | CookieReply => "h3" | Transport => "h4" end;
     interval_min := (header_of c m).1; interval_max := (header_of c m).2 |}.

Lemma collectEffective_messages c :
  collectEffectiveHeaderIntervals (Some c) = map (interval_of c) messages.
Proof.
  unfold collectEffectiveHeaderIntervals, interval_of. cbn. by repeat case_match.
Qed.

Section validate_lemmas.
Context `{IntSize}.

Lemma packetSizes_messages c :
  packetSizes c = map (fun m => {| isSet := has_junk c m;
    size := to_int (message_size m + junk_size c m) |}) messages.
Proof. reflexivity. Qed.

Lemma paddings_messages c :
  paddings c = map (fun m => {| isSet := has_junk c m; size := junk_size c m |}) messages.
Proof. reflexivity. Qed.

Lemma sizes_distinct_iff l :
  existsb (fun p => isSet p.1 && isSet p.2 && (size p.1 =? size p.2)) (ordered_pairs l) = false
  <-> forall i j a b, (i < j)%nat -> l !! i = Some a -> l !! j = Some b ->
        isSet a = true -> isSet b = true -> size a <> size b.
Proof.
  rewrite existsb_false_iff. split.
  - intros Hn i j a b Hij Ha Hb Hsa Hsb Heq.
    specialize (Hn (a, b)). rewrite ordered_pairs_spec in Hn.
    specialize (Hn (ex_intro _ i (ex_intro _ j (conj Hij (conj Ha Hb))))). cbn in Hn.
    rewrite Hsa, Hsb, Heq, Z.eqb_refl in Hn. done.
  - intros Hd [a b] (i & j & Hij & Ha & Hb)%ordered_pairs_spec. cbn in *.
    destruct (isSet a) eqn:Ea, (isSet b) eqn:Eb; cbn; try done.
    apply Z.eqb_neq. by eapply Hd.
Qed.

(** Each check of the code is its rule. *)
Lemma sizes_check c :
  existsb (fun p => isSet p.1 && isSet p.2 && (size p.1 =? size p.2))
    (ordered_pairs (packetSizes c)) = false <->
  forall m m' p p', m <> m' -> padding_of c m = Some p -> padding_of c m' = Some p' ->
    to_int (message_size m + p) <> to_int (message_size m' + p').
Proof.
  rewrite sizes_distinct_iff, packetSizes_messages.
  rewrite (messages_pairs _ (fun a b => isSet a = true -> isSet b = true -> size a <> size b))
    by (intros ?? HR ?? E; by apply HR).
  setoid_rewrite padding_of_Some. cbn. split.
  - intros HR m m' p p' Hne [Hm <-] [Hm' <-]. by apply HR.
  - intros HR m m' Hne Hm Hm'. by apply (HR m m').
Qed.

Lemma ordered_check c :
  existsb (fun i => interval_min i >? interval_max i)
    (collectEffectiveHeaderIntervals (Some c)) = false <->
  forall m, (header_of c m).1 <= (header_of c m).2.
Proof.
  rewrite collectEffective_messages, existsb_false_iff, <- Forall_forall, Forall_fmap.
  rewrite messages_forall. cbn. split; intros Hm m; specialize (Hm m); lia.
Qed.

Lemma disjoint_check c :
  (forall m, (header_of c m).1 <= (header_of c m).2) ->
  hasOverlappingHeaderIntervals (collectEffectiveHeaderIntervals (Some c)) = false <->
  forall m m' x, in_header c m x -> in_header c m' x -> m = m'.
Proof.
  intros Hwf. rewrite collectEffective_messages, hasOverlapping_false
    by (rewrite Forall_fmap; by apply messages_forall).
  transitivity (forall m m', m <> m' ->
    forall x, in_interval (interval_of c m) x -> in_interval (interval_of c m') x -> False).
  - rewrite <- (messages_pairs (interval_of c)
      (fun a b => forall x, in_interval a x -> in_interval b x -> False)) by eauto.
    split; intros HR; intros; eapply HR; eauto.
  - split.
    + intros HR m m' x Hm Hm'. destruct (decide (m = m')) as [|Hne]; [done|].
      destruct (HR _ _ Hne x Hm Hm').
    + intros HR m m' Hne x Hm Hm'. by apply Hne, (HR m m' x).
Qed.

Lemma nonce_check c :
  existsb (fun p => negb (isSet p) || (size p <? headerCipherNonceSize)) (paddings c) = false <->
  forall m, exists p, padding_of c m = Some p /\ 12 <= p.
Proof.
  rewrite paddings_messages, existsb_false_iff, <- Forall_forall, Forall_fmap, messages_forall.
  setoid_rewrite padding_of_Some. cbn.
  split; intros Hm m; specialize (Hm m).
  - exists (junk_size c m). destruct (has_junk c m); cbn in *; [|done].
    unfold headerCipherNonceSize in *. split; [done|lia].
  - destruct Hm as (p & [-> <-] & Hp). cbn. unfold headerCipherNonceSize. lia.
Qed.

Lemma ValidateASecConfig_Ok c u : ValidateASecConfig (Some c) = Ok u <-> ASec_valid c.
Proof.
  unfold ValidateASecConfig. split.
  - intros Hv. res_inv.
    pose proof (proj1 (ordered_check c) Ha3) as Hord.
    split; [| | |by apply sizes_check|done|by apply disjoint_check|].
    + intros E. rewrite E in *. lia.
    + intros E E'. rewrite E, E' in *. lia.
    + intros E. rewrite E in *. lia.
    + intros [k E]. rewrite E in Hv. apply fail_if_Ok in Hv. by apply (nonce_check c).
  - intros [H1 H2 H3 H4 H5 H6 H7]. destruct u.
    replace (hasJunkPacketCount c && _) with false by (destruct (hasJunkPacketCount c); lia).
    replace (hasJunkPacketMinSize c && _ && _) with false
      by (destruct (hasJunkPacketMinSize c), (hasJunkPacketMaxSize c); lia).
    replace (hasJunkPacketMaxSize c && _) with false by (destruct (hasJunkPacketMaxSize c); lia).
    rewrite (proj2 (sizes_check c) H4), (proj2 (ordered_check c) H5).
    rewrite (proj2 (disjoint_check c H5) H6). cbn -[paddings].
    destruct (headerProtectionKey c) as [k|]; [|done].
    rewrite (proj2 (nonce_check c) (H7 (mk_is_Some _ _ eq_refl))). done.
Qed.

End validate_lemmas.

(** ** Properties: validation *)

(** C3. The validation accepts exactly the configurations that satisfy every rule:
    Jc within 1..128, Jmin <= Jmax <= 1280, the sizes of the messages whose padding
    is set (148+S1, 92+S2, 64+S3, 32+S4 as [int]s) pairwise different, the four
    header intervals (H1-H4 when set, the types 1-4 otherwise) non-empty and
    without a common value, and S1-S4 all set to at least 12 when a header
    protection key is set. *)
Theorem ValidateASecConfig_correct `{IntSize} c :
  ValidateASecConfig (Some c) = Ok tt <-> ASec_valid c.
Proof. apply ValidateASecConfig_Ok. Qed.



