(* ===== verification/AwgSpec.v ===== *)
(** * What [ParseASecConfig] promises.

    src/awg_config.go reads the AmneziaWG keys one after the other, each block
    making the configuration non-nil and writing its fields. The specification
    here has no order and no state: each field is a function of one key of the
    section. The theorem is that the code computes exactly that, and that it fails
    exactly when some key is malformed or the result is invalid. *)

From S2P Require Import Prelude GoStrings GoStrconv GoEncoding Ini Keys AwgConfig.
Local Open Scope Z_scope.

Section spec.
Context `{IntSize, IniLib}.
Implicit Types (sec : ini_Section) (n : string).

(** ** The value of one key *)

Definition key_present sec n : bool := is_Ok (GetKey sec n).

(** [parse] applied to the key, if the section has it. *)
Definition key_value {A} (parse : ini_Key -> result error A) sec n : option A :=
  match GetKey sec n with
  | Ok k => match parse k with Ok v => Some v | Err _ => None end
  | Err _ => None
  end.

(** The key is absent or parses. *)
Definition key_ok {A} (parse : ini_Key -> result error A) sec n : Prop :=
  forall k, GetKey sec n = Ok k -> exists v, parse k = Ok v.

Definition parse_range (k : ini_Key) : result error uintRange := parseUintRange (Key_String k).
Definition parse_key (k : ini_Key) : result error string := encodeBase64ToHex (Key_String k).
Definition parse_text (k : ini_Key) : result error string := Ok (Key_String k).

Definition int_keys : list string := ["Jc"; "Jmin"; "Jmax"; "S1"; "S2"; "S3"; "S4"].
Definition range_keys : list string :=
  ["H1"; "H2"; "H3"; "H4"; "ContentPaddingAddition"; "RekeyAfterTime"; "RekeyTimeout";
   "RejectAfterTime"; "KeepaliveTimeout"; "MaxHandshakeAttempts"].
Definition bool_keys : list string := ["RandomTrailers"; "DisableCookies"].
Definition text_keys : list string := ["I1"; "I2"; "I3"; "I4"; "I5"].

(** Every AmneziaWG key. *)
Definition asec_keys : list string :=
  int_keys ++ range_keys ++ bool_keys ++ text_keys ++ ["HeaderProtectionKey"].

(** Every key that is present is well formed. *)
Record keys_ok sec : Prop := {
  int_keys_ok : Forall (key_ok Key_Int sec) int_keys;
  range_keys_ok : Forall (key_ok parse_range sec) range_keys;
  bool_keys_ok : Forall (key_ok Key_Bool sec) bool_keys;
  protection_key_ok : key_ok parse_key sec "HeaderProtectionKey"
}.

Definition int_of sec n : Z := default 0 (key_value Key_Int sec n).
Definition range_of sec n : option uintRange := key_value parse_range sec n.
Definition lo_of sec n : Z := from_option range_min 0 (range_of sec n).
Definition hi_of sec n : Z := from_option range_max 0 (range_of sec n).
Definition text_of sec n : option string := key_value parse_text sec n.

(** ** The configuration of a section *)
Definition asec_of sec : ASecConfigType :=
  {| junkPacketCount := int_of sec "Jc"; hasJunkPacketCount := key_present sec "Jc";
     junkPacketMinSize := int_of sec "Jmin"; hasJunkPacketMinSize := key_present sec "Jmin";
     junkPacketMaxSize := int_of sec "Jmax"; hasJunkPacketMaxSize := key_present sec "Jmax";
     initPacketJunkSize := int_of sec "S1"; hasInitPacketJunkSize := key_present sec "S1";
     responsePacketJunkSize := int_of sec "S2";
     hasResponsePacketJunkSize := key_present sec "S2";
     cookieReplyPacketJunkSize := int_of sec "S3";
     hasCookieReplyPacketJunkSize := key_present sec "S3";
     transportPacketJunkSize := int_of sec "S4";
     hasTransportPacketJunkSize := key_present sec "S4";
     initPacketMagicHeader := lo_of sec "H1"; initPacketMagicHeaderMax := hi_of sec "H1";
     hasInitPacketMagicHeader := key_present sec "H1";
     responsePacketMagicHeader := lo_of sec "H2";
     responsePacketMagicHeaderMax := hi_of sec "H2";
     hasResponsePacketMagicHeader := key_present sec "H2";
     underloadPacketMagicHeader := lo_of sec "H3";
     underloadPacketMagicHeaderMax := hi_of sec "H3";
     hasUnderloadPacketMagicHeader := key_present sec "H3";
     transportPacketMagicHeader := lo_of sec "H4";
     transportPacketMagicHeaderMax := hi_of sec "H4";
     hasTransportPacketMagicHeader := key_present sec "H4";
     i1 := text_of sec "I1"; i2 := text_of sec "I2"; i3 := text_of sec "I3";
     i4 := text_of sec "I4"; i5 := text_of sec "I5";
     headerProtectionKey := key_value parse_key sec "HeaderProtectionKey";
     contentPaddingAddition := range_of sec "ContentPaddingAddition";
     rekeyAfterTime := range_of sec "RekeyAfterTime";
     rekeyTimeout := range_of sec "RekeyTimeout";
     rejectAfterTime := range_of sec "RejectAfterTime";
     keepaliveTimeout := range_of sec "KeepaliveTimeout";
     maxHandshakeAttempts := range_of sec "MaxHandshakeAttempts";
     randomTrailers := key_value Key_Bool sec "RandomTrailers";
     disableCookies := key_value Key_Bool sec "DisableCookies" |}.

Definition isSome {A} (o : option A) : bool := match o with Some _ => true | None => false end.

(** ** Blocks *)

Definition all_blocks : list key_block :=
  sizeKeys ++ headerKeys ++ signatureKeys ++ [headerProtectionBlock] ++ rangeKeys ++ boolKeys.

(** What a block writes, and that it does not fail. *)
Definition effect sec (c : ASecConfigType) (b : key_block) : ASecConfigType :=
  match key_value (block_store b) sec (block_key b) with Some f => f c | None => c end.

Definition block_ok sec (b : key_block) : Prop := key_ok (block_store b) sec (block_key b).

Lemma key_value_Some {A} (parse : ini_Key -> result error A) sec n v :
  key_value parse sec n = Some v <-> exists k, GetKey sec n = Ok k /\ parse k = Ok v.
Proof.
  unfold key_value. destruct (GetKey sec n) as [k|]; [|by split; [|intros (? & ? & _)]].
  split.
  - destruct (parse k) eqn:E; [|done]. intros [= <-]. eauto.
  - intros (k' & [= <-] & ->). done.
Qed.

Lemma key_value_absent {A} (parse : ini_Key -> result error A) sec n :
  key_present sec n = false -> key_value parse sec n = None.
Proof. unfold key_present, key_value. by destruct (GetKey sec n). Qed.

Lemma key_present_value {A} (parse : ini_Key -> result error A) sec n :
  key_ok parse sec n -> key_present sec n = isSome (key_value parse sec n).
Proof.
  unfold key_ok, key_present, key_value. destruct (GetKey sec n) as [k|]; [|done].
  intros Hk. by destruct (Hk k eq_refl) as [v ->].
Qed.

Lemma run_blocks_app sec bs bs' c :
  run_blocks sec (bs ++ bs') c = (c' ← run_blocks sec bs c; run_blocks sec bs' c').
Proof.
  revert c; induction bs as [|b bs IH]; intros c; [done|]. cbn.
  destruct (run_block sec c b); cbn; [apply IH|done].
Qed.

Lemma effect_absent sec c b : key_present sec (block_key b) = false -> effect sec c b = c.
Proof. intros Hb. unfold effect. by rewrite key_value_absent. Qed.

Lemma effects_absent sec c bs :
  existsb (fun b => key_present sec (block_key b)) bs = false -> foldl (effect sec) c bs = c.
Proof.
  induction bs as [|b bs IH] in c |- *; [done|]. cbn. rewrite orb_false_iff.
  intros [Hb Hbs]. by rewrite effect_absent, IH.
Qed.

Lemma run_block_Ok sec c b c' :
  run_block sec c b = Ok c' <->
  block_ok sec b /\
  c' = if key_present sec (block_key b) then Some (effect sec (default zeroASecConfig c) b) else c.
Proof.
  unfold run_block, block_ok, effect, key_ok, key_present, key_value.
  destruct (GetKey sec (block_key b)) as [k|e]; cbn.
  - destruct (block_store b k) as [f|e] eqn:E; cbn.
    + split; [intros [= <-]; split; [|done]; intros k' [= <-]; eauto|by intros [_ ->]].
    + split; [done|]. intros [Hk _]. destruct (Hk k eq_refl). congruence.
  - split; [by intros [= <-]|by intros [_ ->]].
Qed.

Lemma run_blocks_Ok sec bs c c' :
  run_blocks sec bs c = Ok c' <->
  Forall (block_ok sec) bs /\
  c' = if existsb (fun b => key_present sec (block_key b)) bs
       then Some (foldl (effect sec) (default zeroASecConfig c) bs) else c.
Proof.
  revert c; induction bs as [|b bs IH]; intros c; cbn.
  - split; [by intros [= <-]|by intros [_ ->]].
  - rewrite bind_Ok, Forall_cons. setoid_rewrite run_block_Ok. setoid_rewrite IH.
    assert (forall c', (c' = if existsb (fun b => key_present sec (block_key b)) bs
        then Some (foldl (effect sec) (default zeroASecConfig
          (if key_present sec (block_key b)
           then Some (effect sec (default zeroASecConfig c) b) else c)) bs)
        else if key_present sec (block_key b)
             then Some (effect sec (default zeroASecConfig c) b) else c) <->
      (c' = if key_present sec (block_key b) || existsb (fun b => key_present sec (block_key b)) bs
        then Some (foldl (effect sec) (effect sec (default zeroASecConfig c) b) bs) else c))
      as Hstep.
    { intros c''. destruct (key_present sec (block_key b)) eqn:Eb, (existsb _ bs) eqn:Ebs;
        cbn; rewrite ?effects_absent, ?(effect_absent _ _ b) by done; done. }
    split.
    + intros (c1 & [Hb ->] & Hbs & Hc). split; [done|]. by apply Hstep.
    + intros [[Hb Hbs] Hc]. eexists. split; [done|]. split; [done|]. by apply Hstep.
Qed.

(** ** The blocks together compute the specification *)

Lemma ParseASecConfig_blocks sec :
  ParseASecConfig sec =
  (c ← run_blocks sec all_blocks None; _ ← ValidateASecConfig c; mret c).
Proof.
  unfold ParseASecConfig, all_blocks.
  rewrite run_blocks_app. destruct (run_blocks sec sizeKeys None) as [c1|]; [|done].
  cbn [mbind result_bind].
  rewrite run_blocks_app. destruct (run_blocks sec headerKeys c1) as [c2|]; [|done].
  cbn [mbind result_bind].
  rewrite run_blocks_app. destruct (run_blocks sec signatureKeys c2) as [c3|]; [|done].
  cbn [mbind result_bind app run_blocks].
  destruct (run_block sec c3 headerProtectionBlock) as [c4|]; [|done].
  cbn [mbind result_bind].
  rewrite run_blocks_app. by destruct (run_blocks sec rangeKeys c4).
Qed.

Lemma block_ok_int sec n w : block_ok sec (int_block n w) <-> key_ok Key_Int sec n.
Proof.
  unfold block_ok, key_ok; cbn. split; intros Hk k E; destruct (Hk k E) as [v Hv].
  - res_inv. eauto.
  - rewrite Hv. eauto.
Qed.

Lemma block_ok_range sec n w : block_ok sec (range_block n w) <-> key_ok parse_range sec n.
Proof.
  unfold block_ok, key_ok, parse_range; cbn. split; intros Hk k E; destruct (Hk k E) as [v Hv].
  - res_inv. eauto.
  - rewrite Hv. eauto.
Qed.

Lemma block_ok_bool sec n w : block_ok sec (bool_block n w) <-> key_ok Key_Bool sec n.
Proof.
  unfold block_ok, key_ok; cbn. split; intros Hk k E; destruct (Hk k E) as [v Hv].
  - res_inv. eauto.
  - rewrite Hv. eauto.
Qed.

Lemma block_ok_string sec n w : block_ok sec (string_block n w).
Proof. intros k _. cbn. eauto. Qed.

Lemma block_ok_protection sec :
  block_ok sec headerProtectionBlock <-> key_ok parse_key sec "HeaderProtectionKey".
Proof.
  unfold block_ok, key_ok, parse_key; cbn. split; intros Hk k E; destruct (Hk k E) as [v Hv].
  - res_inv. eauto.
  - rewrite Hv. eauto.
Qed.

Lemma all_blocks_ok sec : Forall (block_ok sec) all_blocks <-> keys_ok sec.
Proof.
  unfold all_blocks, sizeKeys, headerKeys, signatureKeys, rangeKeys, boolKeys.
  rewrite !Forall_app, !Forall_cons, !Forall_nil.
  rewrite !block_ok_int, !block_ok_range, !block_ok_bool, block_ok_protection.
  split.
  - intros. destruct_and!. split; repeat (apply Forall_cons; split); done.
  - intros [Hi Hr Hb Hp]. unfold int_keys, range_keys, bool_keys in *.
    rewrite !Forall_cons in Hi. rewrite !Forall_cons in Hr. rewrite !Forall_cons in Hb.
    destruct_and!.
    split_and!; try done; apply block_ok_string.
Qed.

(** A field that a block does not write. *)
Definition untouched {A} (proj : ASecConfigType -> A) (b : key_block) : Prop :=
  forall k f c, block_store b k = Ok f -> proj (f c) = proj c.

(** The field of the configuration that the block at place [i] writes, and no other
    block does, has the value that block gives it. *)
Lemma field_value {A} (proj : ASecConfigType -> A) sec bs i b c :
  bs !! i = Some b ->
  Forall (untouched proj) (take i bs ++ drop (S i) bs) ->
  (forall k f c, block_store b k = Ok f -> proj (f c) = proj (f zeroASecConfig)) ->
  proj (foldl (effect sec) c bs) =
  from_option (fun f => proj (f zeroASecConfig)) (proj c)
    (key_value (block_store b) sec (block_key b)).
Proof.
  intros Hb [Hpre Hpost]%Forall_app Hover.
  assert (forall l c, Forall (untouched proj) l -> proj (foldl (effect sec) c l) = proj c) as Hskip.
  { intros l c0 Hl. induction Hl as [|x l Hx Hl IH] in c0 |- *; [done|]. cbn. rewrite IH.
    unfold effect. destruct (key_value _ sec _) as [f|] eqn:E; [|done].
    apply key_value_Some in E as (k & _ & E). by apply (Hx k). }
  rewrite <- (take_drop_middle bs i b Hb) at 1. rewrite foldl_app. cbn. rewrite Hskip by done.
  unfold effect at 1. destruct (key_value _ sec _) as [f|] eqn:E; cbn.
  - apply key_value_Some in E as (k & _ & E). by apply (Hover k).
  - by apply Hskip.
Qed.

Ltac untouched_tac :=
  let k := fresh "k" in let f := fresh "f" in let c := fresh "c" in
  intros k f c ?; cbn in *; res_inv; reflexivity.

(** Values of the blocks of each kind. *)
Lemma int_block_value sec n w {A} (g : (ASecConfigType -> ASecConfigType) -> A) d :
  from_option g d (key_value (block_store (int_block n w)) sec n) =
  from_option (fun v => g (w v)) d (key_value Key_Int sec n).
Proof. unfold key_value; cbn. destruct (GetKey sec n) as [k|]; [|done]. by destruct (Key_Int k). Qed.

Lemma range_block_value sec n w {A} (g : (ASecConfigType -> ASecConfigType) -> A) d :
  from_option g d (key_value (block_store (range_block n w)) sec n) =
  from_option (fun v => g (w v)) d (range_of sec n).
Proof.
  unfold range_of, key_value, parse_range; cbn. destruct (GetKey sec n) as [k|]; [|done].
  by destruct (parseUintRange (Key_String k)).
Qed.

Lemma bool_block_value sec n w {A} (g : (ASecConfigType -> ASecConfigType) -> A) d :
  from_option g d (key_value (block_store (bool_block n w)) sec n) =
  from_option (fun v => g (w v)) d (key_value Key_Bool sec n).
Proof. unfold key_value; cbn. destruct (GetKey sec n) as [k|]; [|done]. by destruct (Key_Bool k). Qed.

Lemma string_block_value sec n w {A} (g : (ASecConfigType -> ASecConfigType) -> A) d :
  from_option g d (key_value (block_store (string_block n w)) sec n) =
  from_option (fun v => g (w v)) d (text_of sec n).
Proof. unfold text_of, key_value, parse_text; cbn. by destruct (GetKey sec n). Qed.

Lemma protection_block_value sec {A} (g : (ASecConfigType -> ASecConfigType) -> A) d :
  from_option g d (key_value (block_store headerProtectionBlock) sec "HeaderProtectionKey") =
  from_option (fun v => g (write_HeaderProtectionKey v)) d
    (key_value parse_key sec "HeaderProtectionKey").
Proof.
  unfold key_value, parse_key; cbn. destruct (GetKey sec "HeaderProtectionKey") as [k|]; [|done].
  by destruct (encodeBase64ToHex (Key_String k)).
Qed.

Lemma ASecConfig_ext (c c' : ASecConfigType) :
  junkPacketCount c = junkPacketCount c' ->
  junkPacketMinSize c = junkPacketMinSize c' ->
  junkPacketMaxSize c = junkPacketMaxSize c' ->
  initPacketJunkSize c = initPacketJunkSize c' ->
  responsePacketJunkSize c = responsePacketJunkSize c' ->
  cookieReplyPacketJunkSize c = cookieReplyPacketJunkSize c' ->
  transportPacketJunkSize c = transportPacketJunkSize c' ->
  initPacketMagicHeader c = initPacketMagicHeader c' ->
  initPacketMagicHeaderMax c = initPacketMagicHeaderMax c' ->
  responsePacketMagicHeader c = responsePacketMagicHeader c' ->
  responsePacketMagicHeaderMax c = responsePacketMagicHeaderMax c' ->
  underloadPacketMagicHeader c = underloadPacketMagicHeader c' ->
  underloadPacketMagicHeaderMax c = underloadPacketMagicHeaderMax c' ->
  transportPacketMagicHeader c = transportPacketMagicHeader c' ->
  transportPacketMagicHeaderMax c = transportPacketMagicHeaderMax c' ->
  hasJunkPacketCount c = hasJunkPacketCount c' ->
  hasJunkPacketMinSize c = hasJunkPacketMinSize c' ->
  hasJunkPacketMaxSize c = hasJunkPacketMaxSize c' ->
  hasInitPacketJunkSize c = hasInitPacketJunkSize c' ->
  hasResponsePacketJunkSize c = hasResponsePacketJunkSize c' ->
  hasCookieReplyPacketJunkSize c = hasCookieReplyPacketJunkSize c' ->
  hasTransportPacketJunkSize c = hasTransportPacketJunkSize c' ->
  hasInitPacketMagicHeader c = hasInitPacketMagicHeader c' ->
  hasResponsePacketMagicHeader c = hasResponsePacketMagicHeader c' ->
  hasUnderloadPacketMagicHeader c = hasUnderloadPacketMagicHeader c' ->
  hasTransportPacketMagicHeader c = hasTransportPacketMagicHeader c' ->
  i1 c = i1 c' ->
  i2 c = i2 c' ->
  i3 c = i3 c' ->
  i4 c = i4 c' ->
  i5 c = i5 c' ->
  headerProtectionKey c = headerProtectionKey c' ->
  contentPaddingAddition c = contentPaddingAddition c' ->
  rekeyAfterTime c = rekeyAfterTime c' ->
  rekeyTimeout c = rekeyTimeout c' ->
  rejectAfterTime c = rejectAfterTime c' ->
  keepaliveTimeout c = keepaliveTimeout c' ->
  maxHandshakeAttempts c = maxHandshakeAttempts c' ->
  randomTrailers c = randomTrailers c' ->
  disableCookies c = disableCookies c' ->
  c = c'.
Proof. destruct c, c'; cbn; intros; subst; reflexivity. Qed.

(** Place [i] of the blocks writes this field. *)
Ltac field_tac i :=
  rewrite (field_value _ _ all_blocks i _ zeroASecConfig eq_refl);
  [| cbn [all_blocks app take drop sizeKeys headerKeys signatureKeys rangeKeys boolKeys];
     repeat (apply Forall_cons_2; [untouched_tac|]); apply Forall_nil_2
   | untouched_tac ];
  rewrite ?int_block_value, ?range_block_value, ?bool_block_value, ?string_block_value,
    ?protection_block_value;
  unfold int_of, lo_of, hi_of, range_of, text_of;
  cbn [block_key int_block range_block bool_block string_block headerProtectionBlock];
  lazymatch goal with |- from_option _ _ ?o = _ => destruct o; reflexivity end.

Lemma all_effects sec : keys_ok sec -> foldl (effect sec) zeroASecConfig all_blocks = asec_of sec.
Proof.
  intros [Hi Hr _ _]. unfold int_keys, range_keys in Hi, Hr.
  rewrite !Forall_cons in Hi. rewrite !Forall_cons in Hr. destruct_and!.
  apply ASecConfig_ext.
  all: match goal with |- ?f ?x = ?f ?y =>
    let v := eval cbv [asec_of f] in (f y) in change (f x = v) end.
  all: rewrite ?(key_present_value Key_Int), ?(key_present_value parse_range) by done.
  { field_tac 0%nat. } { field_tac 1%nat. } { field_tac 2%nat. } { field_tac 3%nat. }
  { field_tac 4%nat. } { field_tac 5%nat. } { field_tac 6%nat. } { field_tac 7%nat. }
  { field_tac 7%nat. } { field_tac 8%nat. } { field_tac 8%nat. } { field_tac 9%nat. }
  { field_tac 9%nat. } { field_tac 10%nat. } { field_tac 10%nat. } { field_tac 0%nat. }
  { field_tac 1%nat. } { field_tac 2%nat. } { field_tac 3%nat. } { field_tac 4%nat. }
  { field_tac 5%nat. } { field_tac 6%nat. } { field_tac 7%nat. } { field_tac 8%nat. }
  { field_tac 9%nat. } { field_tac 10%nat. } { field_tac 11%nat. } { field_tac 12%nat. }
  { field_tac 13%nat. } { field_tac 14%nat. } { field_tac 15%nat. } { field_tac 16%nat. }
  { field_tac 17%nat. } { field_tac 18%nat. } { field_tac 19%nat. } { field_tac 20%nat. }
  { field_tac 21%nat. } { field_tac 22%nat. } { field_tac 23%nat. } { field_tac 24%nat. }
Qed.

Lemma existsb_perm {A} (f : A -> bool) l l' :
  (forall x, x ∈ l <-> x ∈ l') -> existsb f l = existsb f l'.
Proof.
  intros Hl. apply Bool.eq_true_iff_eq. rewrite !existsb_exists.
  setoid_rewrite <- list_elem_of_In. by setoid_rewrite Hl.
Qed.

Lemma existsb_asec_keys sec :
  existsb (fun b => key_present sec (block_key b)) all_blocks =
  existsb (key_present sec) asec_keys.
Proof.
  transitivity (existsb (key_present sec) (map block_key all_blocks)).
  { induction all_blocks as [|b bs IH]; cbn; congruence. }
  apply existsb_perm. intros x. unfold asec_keys, int_keys, range_keys, bool_keys, text_keys.
  cbn. set_solver.
Qed.

(** The configuration a section denotes: none when it has no AmneziaWG key. *)
Definition asec_config sec : option ASecConfigType :=
  if existsb (key_present sec) asec_keys then Some (asec_of sec) else None.

Lemma ParseASecConfig_spec sec oc :
  ParseASecConfig sec = Ok oc <->
  keys_ok sec /\ oc = asec_config sec /\ ValidateASecConfig oc = Ok tt.
Proof.
  rewrite ParseASecConfig_blocks. unfold asec_config. rewrite <- existsb_asec_keys. split.
  - intros Hp. res_inv. apply run_blocks_Ok in Ha as [Hb ->]. apply all_blocks_ok in Hb as Hk.
    destruct a0. split; [done|]. by rewrite all_effects in *.
  - intros (Hk & Hc & Hv). apply bind_Ok. exists oc. split.
    + apply run_blocks_Ok. split; [by apply all_blocks_ok|]. cbn [default]. by rewrite all_effects.
    + by rewrite Hv.
Qed.

End spec.

(** ** The header ranges a section writes *)

(** The key with the range of a message's type field, and the type of the plain
    WireGuard message. *)
Definition header_key (m : message) : string :=
  match m with
  | Initiation => "H1" | Response => "H2" | CookieReply => "H3" | Transport => "H4"
  end.

Definition plain_type (m : message) : Z :=
  match m with Initiation => 1 | Response => 2 | CookieReply => 3 | Transport => 4 end.

Section headers.
Context `{IntSize, IniLib}.
Implicit Types (sec : ini_Section).

(** The section gives the message the range [r]: the text of its key denotes [r],
    or there is no such key and [r] is the plain type alone. *)
Definition message_range sec (m : message) (r : uintRange) : Prop :=
  match GetKey sec (header_key m) with
  | Ok k => range_text (TrimSpace (Key_String k)) r
  | Err _ => r = {| range_min := plain_type m; range_max := plain_type m |}
  end.

Lemma header_of_section sec m r :
  message_range sec m r -> header_of (asec_of sec) m = (range_min r, range_max r).
Proof.
  assert (forall n, GetKey sec n = GetKey sec (header_key m) ->
    message_range sec m r ->
    (if key_present sec n then (lo_of sec n, hi_of sec n) else (plain_type m, plain_type m))
    = (range_min r, range_max r)) as Hn.
  { intros n E. unfold message_range, key_present, lo_of, hi_of, range_of, key_value, parse_range.
    rewrite E. destruct (GetKey sec (header_key m)) as [k|e]; cbn.
    - intros Hr. by rewrite (parseUintRange_text _ _ Hr).
    - by intros ->. }
  intros Hr. specialize (Hn (header_key m) eq_refl Hr). by destruct m.
Qed.

Lemma message_range_exists sec m : keys_ok sec -> exists r, message_range sec m r.
Proof.
  intros [_ Hr _ _]. unfold message_range.
  destruct (GetKey sec (header_key m)) as [k|e] eqn:E; [|eauto].
  assert (header_key m ∈ range_keys) as Hm
    by (destruct m; apply list_elem_of_In; cbn; tauto).
  destruct (proj1 (Forall_forall _ _) Hr _ Hm k E) as [r Hp].
  exists r. by apply parseUintRange_inv.
Qed.

Lemma message_range_wf sec m r : message_range sec m r -> range_wf r.
Proof.
  unfold message_range. case_match; [apply range_text_wf|].
  intros ->. unfold range_wf. destruct m; cbn; lia.
Qed.

Lemma parsed_section sec c :
  ParseASecConfig sec = Ok (Some c) -> keys_ok sec /\ c = asec_of sec /\ ASec_valid c.
Proof.
  rewrite ParseASecConfig_spec, ValidateASecConfig_Ok. unfold asec_config.
  case_match; naive_solver.
Qed.

End headers.

(** ** Types of a parsed configuration *)

Definition opt_range_wf (o : option uintRange) : Prop := forall r, o = Some r -> range_wf r.

(** The values fit the Go types of the fields, and the texts that end up in the
    device request are well formed. *)
Record ASec_typed `{IntSize} (c : ASecConfigType) : Prop := {
  typed_ints : Forall (fun f => in_int (f c))
    [junkPacketCount; junkPacketMinSize; junkPacketMaxSize; initPacketJunkSize;
     responsePacketJunkSize; cookieReplyPacketJunkSize; transportPacketJunkSize];
  typed_headers : Forall
    (fun f => 0 <= (f c).1 <= (f c).2 /\ (f c).2 < 2 ^ 32)
    [fun c => (initPacketMagicHeader c, initPacketMagicHeaderMax c);
     fun c => (responsePacketMagicHeader c, responsePacketMagicHeaderMax c);
     fun c => (underloadPacketMagicHeader c, underloadPacketMagicHeaderMax c);
     fun c => (transportPacketMagicHeader c, transportPacketMagicHeaderMax c)];
  typed_ranges : Forall (fun f => opt_range_wf (f c))
    [contentPaddingAddition; rekeyAfterTime; rekeyTimeout; rejectAfterTime;
     keepaliveTimeout; maxHandshakeAttempts];
  typed_key : forall k, headerProtectionKey c = Some k -> hex_key k = true
}.

Section typed.
Context `{IntSize, L : IniLib, !IniLaws L}.

Lemma int_of_range sec n : in_int (int_of sec n).
Proof.
  unfold int_of. destruct (key_value Key_Int sec n) as [v|] eqn:E; cbn.
  - apply key_value_Some in E as (k & _ & E). by eapply Key_Int_range.
  - apply in_int_small. lia.
Qed.

Lemma range_of_wf sec n r : range_of sec n = Some r -> range_wf r.
Proof. intros (k & _ & E)%key_value_Some. by eapply parseUintRange_wf_aux. Qed.

Lemma lo_hi_of sec n : 0 <= lo_of sec n <= hi_of sec n /\ hi_of sec n < 2 ^ 32.
Proof.
  unfold lo_of, hi_of. destruct (range_of sec n) as [r|] eqn:E; cbn; [|lia].
  by apply range_of_wf in E.
Qed.

Lemma asec_of_typed sec : ASec_typed (asec_of sec).
Proof.
  split.
  - repeat (apply Forall_cons; split); [apply int_of_range..|apply Forall_nil; done].
  - repeat (apply Forall_cons; split); [apply lo_hi_of..|apply Forall_nil; done].
  - repeat (apply Forall_cons; split); [intros r; apply range_of_wf..|apply Forall_nil; done].
  - intros k (key & _ & E)%key_value_Some. by eapply encodeBase64ToHex_hex_key.
Qed.

Lemma ParseASecConfig_typed_aux sec c : ParseASecConfig sec = Ok (Some c) -> ASec_typed c.
Proof.
  rewrite ParseASecConfig_spec. unfold asec_config. intros (_ & Hc & _).
  case_match; [|done]. injection Hc as ->. apply asec_of_typed.
Qed.

End typed.

(** ** Properties *)

(** C2. Functional correctness of the AmneziaWG parser, on every branch: it succeeds
    exactly when every AmneziaWG key that is present is well formed and the result
    is valid, and the result is nil when the section has none of the keys and
    otherwise has each field set from its own key alone. The order of the blocks,
    the lazy allocation and the three styles of blocks make no difference. *)
Theorem ParseASecConfig_correct `{IntSize, IniLib} sec oc :
  ParseASecConfig sec = Ok oc <->
  keys_ok sec /\ oc = asec_config sec /\ (forall c, oc = Some c -> ASec_valid c).
Proof.
  rewrite ParseASecConfig_spec. destruct oc as [c|].
  - rewrite ValidateASecConfig_Ok. split; intros (? & ? & Hv); split_and!; try done.
    + by intros ? [= <-].
    + by apply Hv.
  - split; intros (? & ? & ?); done.
Qed.

(** C13. In a section the parser accepts, the type field of a packet identifies its
    message: every message has a range, the one its key H1-H4 writes in the file or
    its plain type when the key is absent, this range is what the configuration
    holds for it, and no value is in the ranges of two messages. *)
Theorem parsed_headers_identify_message `{IntSize, IniLib} sec c :
  ParseASecConfig sec = Ok (Some c) ->
  (forall m, exists r, message_range sec m r /\ range_wf r /\
    header_of c m = (range_min r, range_max r)) /\
  (forall m m' r r' x, message_range sec m r -> message_range sec m' r' ->
    range_min r <= x <= range_max r -> range_min r' <= x <= range_max r' -> m = m').
Proof.
  intros (Hk & -> & Hv)%parsed_section. split.
  - intros m. destruct (message_range_exists sec m Hk) as [r Hr]. exists r.
    split_and!; [done|by apply (message_range_wf sec m)|by apply header_of_section].
  - intros m m' r r' x Hr Hr' Hx Hx'. apply (valid_disjoint _ Hv m m' x); unfold in_header.
    + by rewrite (header_of_section sec m r).
    + by rewrite (header_of_section sec m' r').
Qed.

(** C19. A configuration that the parser returns fits its Go types: sizes are
    [int]s, header bounds ordered uint32s, ranges ordered uint32 pairs, and the
    header protection key is 64 hex digits. *)
Theorem ParseASecConfig_typed `{IntSize, L : IniLib, !IniLaws L} sec c :
  ParseASecConfig sec = Ok (Some c) -> ASec_typed c.
Proof. apply ParseASecConfig_typed_aux. Qed.

(** A section with keys of every kind. *)
Definition example_section : list_section :=
  [("jc", "5"); ("s1", "12"); ("s2", "15"); ("s3", "18"); ("s4", "21"); ("h1", "100-101");
   ("i1", "<b 0xA1B2C3D4E5F6>"); ("rekeyaftertime", "100-120"); ("randomtrailers", "on");
   ("headerprotectionkey", "e8LKAc+f9xEzq9Ar7+MfKRrs+gZ/4yzvpRJLRJ/VJ1w=")].

Definition example_parsed : option ASecConfigType :=
  match ParseASecConfig (H := int64_platform) (H0 := list_ini (W := int64_platform)) example_section with
  | Ok oc => oc
  | Err _ => None
  end.

Lemma ParseASecConfig_typed_witness :
  exists c, example_parsed = Some c /\ junkPacketCount c = 5 /\
    ASec_typed (H := int64_platform) c.
Proof.
  eexists. split; [vm_compute; reflexivity|]. split; [reflexivity|].
  apply (ParseASecConfig_typed (H := int64_platform) (L := list_ini (W := int64_platform))
    (IniLaws0 := list_ini_laws (W := int64_platform)) example_section).
  vm_compute. reflexivity.
Defined.

(** The value 101 of a packet read under [example_section] is an initiation, since
    H1 is 100-101, and no transport message. *)
Lemma parsed_headers_identify_message_witness :
  message_range (H0 := list_ini (W := int64_platform)) example_section Initiation
    {| range_min := 100; range_max := 101 |} /\
  (forall r, message_range (H0 := list_ini (W := int64_platform)) example_section Transport r ->
     ~ (range_min r <= 101 <= range_max r)).
Proof.
  assert (message_range (H0 := list_ini (W := int64_platform)) example_section Initiation
    {| range_min := 100; range_max := 101 |}) as Hi.
  { apply (range_interval "100" "101"); [by split|by split|vm_compute; split; [discriminate|reflexivity]]. }
  split; [exact Hi|]. intros r Hr Hx.
  destruct example_parsed as [c|] eqn:Hc; [|discriminate Hc].
  assert (ParseASecConfig (H := int64_platform) (H0 := list_ini (W := int64_platform))
    example_section = Ok (Some c)) as Hp by (rewrite <- Hc; vm_compute; reflexivity).
  destruct (parsed_headers_identify_message (H := int64_platform)
    (H0 := list_ini (W := int64_platform)) example_section c Hp) as [_ Hd].
  assert (Initiation = Transport) as E; [|discriminate E].
  exact (Hd Initiation Transport _ _ 101 Hi Hr (conj (Z.le_succ_diag_r 100) (Z.le_refl 101)) Hx).
Defined.
