(* ===== verification/Config.v ===== *)
(** * Configuration: src/config.go.

    The parser of the configuration file, section by section, from the INI library
    to [Configuration]. What the parser asks of its surroundings, environment
    variables, name resolution and files, is the class [Env]. *)

From S2P Require Import Prelude GoStrings GoStrconv GoEncoding GoNet Ini Keys AwgConfig AwgSpec.
Local Open Scope Z_scope.

(** ** Data *)

Record PeerConfig := {
  PublicKey : string;
  PreSharedKey : string;
  Peer_Endpoint : option string;
  KeepAlive : Z;
  KeepAliveMax : Z;
  AllowedIPs : list Prefix;
  keepAliveRange : option uintRange
}.

Record DeviceConfig := {
  SecretKey : string;
  Device_Endpoint : list Addr;
  Peers : list PeerConfig;
  DNS : list Addr;
  MTU : Z;
  Device_ListenPort : option Z;
  CheckAlive : list Addr;
  CheckAliveInterval : Z;
  ASecConfig : option ASecConfigType
}.

Record UDPProxyTunnelConfig := {
  UDP_BindAddress : string;
  UDP_Target : string;
  InactivityTimeout : Z
}.

Record TCPClientTunnelConfig := { Client_BindAddress : TCPAddr; Client_Target : string }.

(** The two files of the process a [STDIOTunnelConfig] names. *)
Inductive StdFile := Stdin | Stdout.

Record STDIOTunnelConfig := {
  STDIO_Target : string; STDIO_Input : StdFile; STDIO_Output : StdFile
}.

Record TCPServerTunnelConfig := { Server_ListenPort : Z; Server_Target : string }.

Record Socks5Config := {
  Socks5_BindAddress : string; Socks5_Username : string; Socks5_Password : string
}.

Record HTTPConfig := {
  HTTP_BindAddress : string; HTTP_Username : string; HTTP_Password : string;
  CertFile : string; KeyFile : string
}.

Record ResolveConfig := { ResolveStrategy : string }.

(** The types that implement the [RoutineSpawner] interface. *)
Inductive RoutineSpawner :=
| TCPClientTunnel (config : TCPClientTunnelConfig)
| STDIOTunnel (config : STDIOTunnelConfig)
| TCPServerTunnel (config : TCPServerTunnelConfig)
| Socks5 (config : Socks5Config)
| HTTP (config : HTTPConfig)
| UDPProxyTunnel (config : UDPProxyTunnelConfig).

Record Configuration := {
  Device : DeviceConfig;
  Routines : list RoutineSpawner;
  Conf_Resolve : ResolveConfig
}.

(** [DeviceConfig{MTU: 1420}], [PeerConfig{...}] before parsing. *)
Definition initialDevice : DeviceConfig :=
  {| SecretKey := ""; Device_Endpoint := []; Peers := []; DNS := []; MTU := 1420;
     Device_ListenPort := None; CheckAlive := []; CheckAliveInterval := 0;
     ASecConfig := None |}.

Definition zeroPreSharedKey : string :=
  "0000000000000000000000000000000000000000000000000000000000000000".

Definition initialPeer : PeerConfig :=
  {| PublicKey := ""; PreSharedKey := zeroPreSharedKey; Peer_Endpoint := None;
     KeepAlive := 0; KeepAliveMax := 0; AllowedIPs := []; keepAliveRange := None |}.

(** ** Surroundings *)

Class Env `{IniLib} := {
  (** [os.LookupEnv] *)
  LookupEnv : string -> option string;
  (** [net.ResolveIPAddr("ip", host)], the address in its printed form *)
  ResolveIPAddr : string -> result error string;
  (** [net.ResolveTCPAddr("tcp", addr)] *)
  ResolveTCPAddr : string -> result error TCPAddr;
  (** [ini.LoadSources(iniOpt, path)] *)
  LoadSources : string -> result error ini_File
}.

Section config.
Context `{W : IntSize, U : UnicodeTables, L : IniLib, Ev : @Env L}.
Implicit Types (section : ini_Section) (cfg : ini_File).

(** ** Values *)

(** Its errors are all [errors.New] values, represented by their text. *)
Definition parseString section (keyName : string) : result string string :=
  match Section_Key section (ToLower keyName) with
  | None => Err (keyName +:+ " should not be empty")
  | Some key =>
      let value := Key_String key in
      if HasPrefix value "$" then
        if HasPrefix value "$$" then Ok (Replace1 value "$$" "$")
        else
          match LookupEnv (TrimPrefix value "$") with
          | None => Err (keyName +:+ " references unset environment variable "
                          +:+ Key_String key)
          | Some value => Ok value
          end
      else Ok (Key_String key)
  end.

(** The error as a Go error. *)
Definition lift {A} (m : result string A) : result error A := map_err errorString m.

Definition parsePort section (keyName : string) : result error Z :=
  match Section_Key section keyName with
  | None => Err (errorString (keyName +:+ " should not be empty"))
  | Some key =>
      port ← Key_Int key;
      if (port <? 0) || (port >=? 65536)
      then Err (errorString "port should be >= 0 and < 65536")
      else Ok port
  end.

Definition parseTCPAddr section (keyName : string) : result error TCPAddr :=
  addrStr ← lift (parseString section keyName); ResolveTCPAddr addrStr.

Definition parseBase64KeyToHex section (keyName : string) : result error string :=
  key ← lift (parseString section keyName); encodeBase64ToHex key.

(** The loop over the entries of a comma separated list. *)
Fixpoint parse_entries {A} (parse : string -> result error A) (keys : list string)
    (ips : list A) : result error (list A) :=
  match keys with
  | [] => Ok ips
  | str :: keys =>
      let str := TrimSpace str in
      if String.eqb str "" then parse_entries parse keys ips
      else ip ← parse str; parse_entries parse keys (ips ++ [ip])
  end.

(** A list that is missing altogether is empty. *)
Definition parse_list {A} (parse : string -> result error A) (key : result string string) :
    result error (list A) :=
  match key with
  | Err msg =>
      if Contains msg "should not be empty" then Ok [] else Err (errorString msg)
  | Ok key => parse_entries parse (Split ","%char key) []
  end.

Definition parseNetIP section (keyName : string) : result error (list Addr) :=
  parse_list ParseAddr (parseString section keyName).

(** An address, or the address of a prefix. *)
Definition parse_cidr_entry (str : string) : result error Addr :=
  match ParseAddr str with
  | Ok addr => Ok addr
  | Err _ => prefix_ip <$> ParsePrefix str
  end.

Definition parseCIDRNetIP section (keyName : string) : result error (list Addr) :=
  parse_list parse_cidr_entry (parseString section keyName).

Definition parseAllowedIPs section : result error (list Prefix) :=
  parse_list ParsePrefix (parseString section "AllowedIPs").

Definition resolveIP (ip : string) : result error string := ResolveIPAddr ip.

Definition resolveIPPAndPort (addr : string) : result error string :=
  '(host, port) ← SplitHostPort addr;
  ip ← resolveIP host;
  mret (JoinHostPort ip port).

(** [if sectionKey, err := section.GetKey(name); err == nil { x, err = f(key) ... }] *)
Definition optional_key {A} section (name : string) (absent : A)
    (f : ini_Key -> result error A) : result error A :=
  match GetKey section name with
  | Err _ => Ok absent
  | Ok sectionKey => f sectionKey
  end.

(** ** Sections *)

Definition ParseInterface cfg (device : DeviceConfig) : result error DeviceConfig :=
  match SectionsByName cfg "Interface" with
  | Ok [section] =>
      address ← parseCIDRNetIP section "Address";
      privKey ← parseBase64KeyToHex section "PrivateKey";
      dns ← parseNetIP section "DNS";
      mtu ← optional_key section "MTU" (MTU device) Key_Int;
      listenPort ← optional_key section "ListenPort" (Device_ListenPort device)
                     (fun key => value ← Key_Int key; mret (Some value));
      checkAlive ← parseNetIP section "CheckAlive";
      checkAliveInterval ← optional_key section "CheckAliveInterval" 5
        (fun key =>
           value ← Key_Int key;
           if (length checkAlive =? 0)%nat
           then Err (errorString "CheckAliveInterval is only valid when CheckAlive is set")
           else Ok value);
      aSecConfig ← ParseASecConfig section;
      mret {| SecretKey := privKey; Device_Endpoint := address; Peers := Peers device;
              DNS := dns; MTU := mtu; Device_ListenPort := listenPort;
              CheckAlive := checkAlive; CheckAliveInterval := checkAliveInterval;
              ASecConfig := aSecConfig |}
  | _ => Err (errorString "one and only one [Interface] is expected")
  end.

(** The [PersistentKeepalive] value of a peer. *)
Definition parse_keepalive (key : ini_Key) : result error uintRange :=
  let raw := TrimSpace (Key_String key) in
  let raw := if EqualFold raw "off" then "0" else raw in
  map_err (wrapError "invalid PersistentKeepalive value: ") (parseUintRange raw).

(** The body of the loop of [ParsePeers]. *)
Definition parse_peer section : result error PeerConfig :=
  decoded ← parseBase64KeyToHex section "PublicKey";
  preSharedKey ← optional_key section "PreSharedKey" zeroPreSharedKey
    (fun key => encodeBase64ToHex (Key_String key));
  endpoint ← optional_key section "Endpoint" None
    (fun key => decoded ← resolveIPPAndPort (ToLower (Key_String key)); mret (Some decoded));
  keepAlive ← optional_key section "PersistentKeepalive" None
    (fun key => value ← parse_keepalive key; mret (Some value));
  allowedIPs ← parseAllowedIPs section;
  mret {| PublicKey := decoded; PreSharedKey := preSharedKey; Peer_Endpoint := endpoint;
          KeepAlive := from_option (fun r => to_int (range_min r)) 0 keepAlive;
          KeepAliveMax := from_option (fun r => to_int (range_max r)) 0 keepAlive;
          AllowedIPs := allowedIPs; keepAliveRange := keepAlive |}.

Fixpoint parse_peers (sections : list ini_Section) (peers : list PeerConfig) :
    result error (list PeerConfig) :=
  match sections with
  | [] => Ok peers
  | section :: sections =>
      peer ← parse_peer section; parse_peers sections (peers ++ [peer])
  end.

Definition ParsePeers cfg (peers : list PeerConfig) : result error (list PeerConfig) :=
  match SectionsByName cfg "Peer" with
  | Ok (section :: sections) => parse_peers (section :: sections) peers
  | _ => Err (errorString "at least one [Peer] is expected")
  end.

(** ** Routines *)

Definition parseTCPClientTunnelConfig section : result error RoutineSpawner :=
  tcpAddr ← parseTCPAddr section "BindAddress";
  target ← lift (parseString section "Target");
  mret (TCPClientTunnel {| Client_BindAddress := tcpAddr; Client_Target := target |}).

Definition parseSTDIOTunnelConfig section : result error RoutineSpawner :=
  target ← lift (parseString section "Target");
  mret (STDIOTunnel {| STDIO_Target := target; STDIO_Input := Stdin; STDIO_Output := Stdout |}).

Definition parseTCPServerTunnelConfig section : result error RoutineSpawner :=
  listenPort ← parsePort section "ListenPort";
  target ← lift (parseString section "Target");
  mret (TCPServerTunnel {| Server_ListenPort := listenPort; Server_Target := target |}).

Definition parseSocks5Config section : result error RoutineSpawner :=
  bindAddress ← lift (parseString section "BindAddress");
  let username := ignore_err "" (parseString section "Username") in
  let password := ignore_err "" (parseString section "Password") in
  mret (Socks5 {| Socks5_BindAddress := bindAddress; Socks5_Username := username;
                  Socks5_Password := password |}).

Definition parseHTTPConfig section : result error RoutineSpawner :=
  bindAddress ← lift (parseString section "BindAddress");
  let username := ignore_err "" (parseString section "Username") in
  let password := ignore_err "" (parseString section "Password") in
  let certFile := ignore_err "" (parseString section "CertFile") in
  let keyFile := ignore_err "" (parseString section "KeyFile") in
  mret (HTTP {| HTTP_BindAddress := bindAddress; HTTP_Username := username;
                HTTP_Password := password; CertFile := certFile; KeyFile := keyFile |}).

Definition parseResolveConfig section : result error ResolveConfig :=
  let resolvStrategy := ignore_err "" (parseString section "ResolveStrategy") in
  mret {| ResolveStrategy := resolvStrategy |}.

Definition parseUDPProxyTunnelConfig section : result error RoutineSpawner :=
  bindAddress ← lift (parseString section "BindAddress");
  target ← lift (parseString section "Target");
  inactivityTimeout ← optional_key section "InactivityTimeout" 0 Key_Int;
  mret (UDPProxyTunnel {| UDP_BindAddress := bindAddress; UDP_Target := target;
                          InactivityTimeout := inactivityTimeout |}).

Fixpoint parse_routines (f : ini_Section -> result error RoutineSpawner)
    (sections : list ini_Section) (routines : list RoutineSpawner) :
    result error (list RoutineSpawner) :=
  match sections with
  | [] => Ok routines
  | section :: sections =>
      config ← f section; parse_routines f sections (routines ++ [config])
  end.

Definition parseRoutinesConfig (routines : list RoutineSpawner) cfg (sectionName : string)
    (f : ini_Section -> result error RoutineSpawner) : result error (list RoutineSpawner) :=
  match SectionsByName cfg sectionName with
  | Err _ => Ok routines
  | Ok sections => parse_routines f sections routines
  end.

Definition ParseConfig (path : string) : result error Configuration :=
  cfg ← LoadSources path;
  wgCfg ← match GetKey (File_Section cfg "") "WGConfig" with
          | Ok wgConf => LoadSources (Key_String wgConf)
          | Err _ => Ok cfg
          end;
  device ← ParseInterface wgCfg initialDevice;
  peers ← ParsePeers wgCfg (Peers device);
  let device := device <| Peers := peers |> in
  routines ← parseRoutinesConfig [] cfg "TCPClientTunnel" parseTCPClientTunnelConfig;
  routines ← parseRoutinesConfig routines cfg "STDIOTunnel" parseSTDIOTunnelConfig;
  routines ← parseRoutinesConfig routines cfg "TCPServerTunnel" parseTCPServerTunnelConfig;
  routines ← parseRoutinesConfig routines cfg "Socks5" parseSocks5Config;
  routines ← parseRoutinesConfig routines cfg "http" parseHTTPConfig;
  resolve ← match GetSection cfg "Resolve" with
            | Ok resolveSection => parseResolveConfig resolveSection
            | Err _ => Ok {| ResolveStrategy := "auto" |}
            end;
  routines ← parseRoutinesConfig routines cfg "UDPProxyTunnel" parseUDPProxyTunnelConfig;
  mret {| Device := device; Routines := routines; Conf_Resolve := resolve |}.

End config.

(** ** Lemmas: lists of entries *)

(** The entries of a comma separated list: trimmed, empty ones dropped. *)
Definition entries (text : string) : list string :=
  filter (fun e => e <> "") (map TrimSpace (Split ","%char text)).

Lemma parse_entries_spec {A} (parse : string -> result error A) keys ips :
  parse_entries parse keys ips =
  (app ips <$> mapM_res parse (filter (fun e => e <> "") (map TrimSpace keys))).
Proof.
  revert ips; induction keys as [|str keys IH]; intros ips; cbn [parse_entries map].
  - cbn. by rewrite app_nil_r.
  - rewrite filter_cons. destruct (String.eqb_spec (TrimSpace str) "") as [E|E].
    + rewrite decide_False by (by intros ?). apply IH.
    + rewrite decide_True by done. cbn [mapM_res].
      destruct (parse (TrimSpace str)) as [ip|e]; [|done].
      cbn [mbind result_bind]. rewrite IH.
      destruct (mapM_res parse _) as [l|e]; cbn; [by rewrite <- app_assoc|done].
Qed.

Lemma parse_list_Ok {A} (parse : string -> result error A) key ips :
  parse_list parse key = Ok ips <->
  (exists text, key = Ok text /\ Forall2 (fun e ip => parse e = Ok ip) (entries text) ips) \/
  (exists msg, key = Err msg /\ Contains msg "should not be empty" = true /\ ips = []).
Proof.
  unfold parse_list. destruct key as [text|msg].
  - rewrite parse_entries_spec, fmap_Ok. fold (entries text). setoid_rewrite mapM_res_Ok. split.
    + intros (l & Hl & <-). left. eauto.
    + intros [(t & [= <-] & Hl)|(? & [=] & _)]. exists ips. done.
  - split.
    + case_match; [|done]. intros [= <-]. right. eauto.
    + intros [(? & [=] & _)|(? & [= <-] & -> & ->)]. done.
Qed.

(** ** Lemmas: keys *)

Section config_lemmas.
Context `{W : IntSize, U : UnicodeTables, L : IniLib, Ev : @Env L, Laws : @IniLaws W L}.
Implicit Types (section : ini_Section) (cfg : ini_File).

(** The value of a key, with its reference to the environment expanded: a leading
    [$$] is an escaped dollar, a leading [$] names a variable. *)
Definition expand (keyName value : string) : result string string :=
  match value with
  | String "$"%char (String "$"%char rest) => Ok (String "$"%char rest)
  | String "$"%char name =>
      match LookupEnv name with
      | Some v => Ok v
      | None => Err (keyName +:+ " references unset environment variable " +:+ value)
      end
  | _ => Ok value
  end.

Lemma expand_eq keyName value :
  expand keyName value =
  (if HasPrefix value "$" then
     if HasPrefix value "$$" then Ok (Replace1 value "$$" "$")
     else
       match LookupEnv (TrimPrefix value "$") with
       | None => Err (keyName +:+ " references unset environment variable " +:+ value)
       | Some value => Ok value
       end
   else Ok value).
Proof.
  destruct value as [|c rest]; [done|].
  unfold HasPrefix, TrimPrefix; cbn. destruct (Ascii.eqb_spec "$"%char c) as [<-|Hc].
  - destruct rest as [|d rest]; [done|]. cbn.
    destruct (Ascii.eqb_spec "$"%char d) as [<-|Hd]; [done|].
    by destruct d as [[] [] [] [] [] [] [] []].
  - by destruct c as [[] [] [] [] [] [] [] []].
Qed.

Lemma parseString_spec section keyName :
  string_forallb is_ascii_byte keyName = true ->
  parseString section keyName =
  match GetKey section keyName with
  | Ok key => expand keyName (Key_String key)
  | Err _ => Ok ""
  end.
Proof.
  intros Hascii. unfold parseString, ToLower. rewrite Hascii.
  destruct (GetKey section keyName) as [k|e] eqn:E;
    rewrite <- GetKey_insensitive in E.
  - rewrite (Section_Key_present _ _ _ E). by rewrite expand_eq.
  - destruct (Section_Key_absent _ _ _ E) as (k & -> & Hk). by rewrite Hk.
Qed.

Lemma parseString_unset section keyName key name :
  string_forallb is_ascii_byte keyName = true ->
  GetKey section keyName = Ok key -> Key_String key = String "$"%char name ->
  HasPrefix name "$" = false -> LookupEnv name = None ->
  exists msg, parseString section keyName = Err msg.
Proof.
  intros Hascii Hk Hv Hd Hn. rewrite parseString_spec, Hk, Hv by done.
  destruct name as [|c name]; cbn; [rewrite Hn; eauto|].
  destruct c as [[] [] [] [] [] [] [] []]; cbn in Hd; rewrite ?Hn; eauto; done.
Qed.

Lemma optional_key_Ok {A} section name (absent : A) f a :
  optional_key section name absent f = Ok a <->
  (exists k, GetKey section name = Ok k /\ f k = Ok a) \/
  (exists e, GetKey section name = Err e /\ a = absent).
Proof.
  unfold optional_key. destruct (GetKey section name) as [k|e].
  - split; [eauto|]. intros [(k' & [= <-] & E)|(? & [=] & _)]. done.
  - split; [intros [= <-]; eauto|]. intros [(? & [=] & _)|(? & _ & ->)]. done.
Qed.

(** ** Lemmas: sections *)

Lemma parse_peers_spec sections peers :
  parse_peers sections peers = (app peers <$> mapM_res parse_peer sections).
Proof.
  revert peers; induction sections as [|s ss IH]; intros peers; cbn [parse_peers].
  - cbn. by rewrite app_nil_r.
  - cbn [mapM_res].
    destruct (parse_peer s) as [p|e]; [|done]. cbn [mbind result_bind]. rewrite IH.
    destruct (mapM_res parse_peer ss); cbn; [by rewrite <- app_assoc|done].
Qed.

Lemma parse_routines_spec f sections routines :
  parse_routines f sections routines = (app routines <$> mapM_res f sections).
Proof.
  revert routines; induction sections as [|s ss IH]; intros routines; cbn [parse_routines].
  - cbn. by rewrite app_nil_r.
  - cbn [mapM_res].
    destruct (f s) as [p|e]; [|done]. cbn [mbind result_bind]. rewrite IH.
    destruct (mapM_res f ss); cbn; [by rewrite <- app_assoc|done].
Qed.

(** The sections of a name, none when there are none. *)
Definition sections_named cfg name : list ini_Section :=
  match SectionsByName cfg name with Ok l => l | Err _ => [] end.

Lemma parseRoutinesConfig_Ok routines cfg name f routines' :
  parseRoutinesConfig routines cfg name f = Ok routines' <->
  exists new, routines' = routines ++ new /\
    Forall2 (fun s r => f s = Ok r) (sections_named cfg name) new.
Proof.
  unfold parseRoutinesConfig, sections_named. destruct (SectionsByName cfg name) as [l|e].
  - rewrite parse_routines_spec, fmap_Ok. setoid_rewrite mapM_res_Ok. split.
    + intros (new & Hf & <-). eauto.
    + intros (new & -> & Hf). eauto.
  - split.
    + intros [= <-]. exists []. by rewrite app_nil_r.
    + intros (new & -> & ->%Forall2_nil_inv_l). by rewrite app_nil_r.
Qed.

(** *** What a [Peer] section says, field by field *)

(** A text of a key and the hex digits of its 32 bytes. *)
Definition key_text (text hex : string) : Prop :=
  exists bytes, base64_DecodeString text = Ok bytes /\ String.length bytes = 32%nat /\
    hex = hex_EncodeToString bytes.

(** A text of a keepalive and its range: [off] in any case, or a range. *)
Definition keepalive_text (text : string) (r : uintRange) : Prop :=
  (lower_bytes (TrimSpace text) = "off" /\ r = {| range_min := 0; range_max := 0 |}) \/
  (lower_bytes (TrimSpace text) <> "off" /\ range_text (TrimSpace (TrimSpace text)) r).

(** A text of an endpoint and the address its host resolves to, with its port. *)
Definition endpoint_text (text address : string) : Prop :=
  exists host port ip, SplitHostPort (ToLower text) = Ok (host, port) /\
    ResolveIPAddr host = Ok ip /\ address = JoinHostPort ip port.

(** The section has the key and [present] holds of its text, or it does not have the
    key and [absent] holds. *)
Definition key_says section (name : string) (present : string -> Prop) (absent : Prop) : Prop :=
  match GetKey section name with Ok k => present (Key_String k) | Err _ => absent end.

Record peer_reads section (p : PeerConfig) : Prop := {
  reads_public : exists text, parseString section "PublicKey" = Ok text /\
    key_text text (PublicKey p);
  reads_preshared : key_says section "PreSharedKey" (fun text => key_text text (PreSharedKey p))
    (PreSharedKey p = "0000000000000000000000000000000000000000000000000000000000000000");
  reads_endpoint : key_says section "Endpoint"
    (fun text => exists address, Peer_Endpoint p = Some address /\ endpoint_text text address)
    (Peer_Endpoint p = None);
  reads_keepalive : key_says section "PersistentKeepalive"
    (fun text => exists r, keepalive_text text r /\ keepAliveRange p = Some r /\
       KeepAlive p = to_int (range_min r) /\ KeepAliveMax p = to_int (range_max r))
    (keepAliveRange p = None /\ KeepAlive p = 0 /\ KeepAliveMax p = 0);
  reads_allowed :
    (exists text, parseString section "AllowedIPs" = Ok text /\
       Forall2 (fun e prefix => ParsePrefix e = Ok prefix) (entries text) (AllowedIPs p)) \/
    (exists msg, parseString section "AllowedIPs" = Err msg /\
       Contains msg "should not be empty" = true /\ AllowedIPs p = [])
}.

Lemma parse_keepalive_text key r :
  parse_keepalive key = Ok r <-> keepalive_text (Key_String key) r.
Proof.
  unfold parse_keepalive, keepalive_text, EqualFold. rewrite map_err_Ok.
  change (lower_bytes "off") with "off".
  destruct (String.eqb_spec (lower_bytes (TrimSpace (Key_String key))) "off") as [E|E].
  - change (parseUintRange "0") with (Ok {| range_min := 0; range_max := 0 |} : result error uintRange).
    split; [intros [= <-]; by left|]. by intros [[_ ->]|[? _]].
  - split.
    + intros Hr. right. split; [done|]. by apply parseUintRange_inv.
    + intros [[? _]|[_ Hr]]; [done|]. by apply parseUintRange_text.
Qed.

Lemma resolveIPPAndPort_text text address :
  resolveIPPAndPort (ToLower text) = Ok address <-> endpoint_text text address.
Proof.
  unfold resolveIPPAndPort, resolveIP, endpoint_text. split.
  - intros E. apply bind_Ok in E as ([host port] & Hs & E). res_inv. eauto 7.
  - by intros (host & port & ip & -> & Hr & ->); cbn; rewrite Hr.
Qed.

Lemma parseBase64KeyToHex_text section name h :
  parseBase64KeyToHex section name = Ok h <->
  exists text, parseString section name = Ok text /\ key_text text h.
Proof.
  unfold parseBase64KeyToHex, key_text. setoid_rewrite <- encodeBase64ToHex_inv.
  rewrite bind_Ok. split; intros (text & Ht & Hk); exists text; (split; [|done]).
  - by apply map_err_Ok in Ht.
  - unfold lift. by rewrite Ht.
Qed.

(** The body of the loop reads exactly that. *)
Lemma parse_peer_reads section p : parse_peer section = Ok p <-> peer_reads section p.
Proof.
  unfold parse_peer, optional_key. split.
  - intros Hp. res_inv. split; cbn; unfold key_says.
    + by apply parseBase64KeyToHex_text.
    + destruct (GetKey section "PreSharedKey"); [by apply encodeBase64ToHex_inv|by simplify_eq].
    + destruct (GetKey section "Endpoint"); [|by simplify_eq]. res_inv.
      eexists. split; [done|]. by apply resolveIPPAndPort_text.
    + destruct (GetKey section "PersistentKeepalive"); [|by simplify_eq]. res_inv.
      eexists. split; [by apply parse_keepalive_text|]. done.
    + by apply parse_list_Ok.
  - intros [H1 H2 H3 H4 H5]. unfold key_says in *.
    rewrite (proj2 (parseBase64KeyToHex_text _ _ _) H1). cbn.
    replace (match GetKey section "PreSharedKey" with Err _ => _ | Ok _ => _ end)
      with (Ok (PreSharedKey p) : result error string)
      by (destruct (GetKey section "PreSharedKey"); [by rewrite (proj2 (encodeBase64ToHex_inv _ _) H2)|by rewrite H2]).
    replace (match GetKey section "Endpoint" with Err _ => _ | Ok _ => _ end)
      with (Ok (Peer_Endpoint p) : result error (option string))
      by (destruct (GetKey section "Endpoint"); [|by rewrite H3];
          destruct H3 as (adr & -> & Hadr); by rewrite (proj2 (resolveIPPAndPort_text _ _) Hadr)).
    replace (match GetKey section "PersistentKeepalive" with Err _ => _ | Ok _ => _ end)
      with (Ok (keepAliveRange p) : result error (option uintRange))
      by (destruct (GetKey section "PersistentKeepalive");
          [destruct H4 as (r & Hr & -> & _); by rewrite (proj2 (parse_keepalive_text _ _) Hr)
          |by destruct H4 as [-> _]]).
    unfold parseAllowedIPs. rewrite (proj2 (parse_list_Ok _ _ _) H5). cbn.
    destruct p as [? ? ? ? ? ? ka]. cbn in *. do 2 f_equal.
    + destruct (GetKey section "PersistentKeepalive"); naive_solver.
    + destruct (GetKey section "PersistentKeepalive"); naive_solver.
Qed.

(** What a peer that parses looks like. *)
Record peer_typed (p : PeerConfig) : Prop := {
  peer_public : hex_key (PublicKey p) = true;
  peer_preshared : hex_key (PreSharedKey p) = true;
  peer_keepalive : match keepAliveRange p with
    | Some r => range_wf r /\ KeepAlive p = to_int (range_min r) /\
                KeepAliveMax p = to_int (range_max r)
    | None => KeepAlive p = 0 /\ KeepAliveMax p = 0
    end;
  peer_allowed : Forall (fun ip => prefix_ip ip <> AddrZero /\
    has_zone (prefix_ip ip) = false) (AllowedIPs p)
}.

Lemma parseBase64KeyToHex_hex_key section name k :
  parseBase64KeyToHex section name = Ok k -> hex_key k = true.
Proof. unfold parseBase64KeyToHex. intros Hk. res_inv. eauto with go. Qed.

Lemma parse_keepalive_wf key r : parse_keepalive key = Ok r -> range_wf r.
Proof. unfold parse_keepalive. intros Hr. res_inv. eauto with go. Qed.

Lemma parse_peer_typed section p : parse_peer section = Ok p -> peer_typed p.
Proof.
  unfold parse_peer. intros Hp. res_inv. split; cbn.
  - by eapply parseBase64KeyToHex_hex_key.
  - apply optional_key_Ok in Ha0 as [(k & _ & E)|(e & _ & ->)]; eauto with go.
  - apply optional_key_Ok in Ha2 as [(k & _ & E)|(e & _ & ->)]; [|done].
    res_inv. split; [by eapply parse_keepalive_wf|done].
  - apply parse_list_Ok in Ha3 as [(t & _ & Hf)|(? & _ & _ & ->)]; [|by apply Forall_nil].
    induction Hf as [|e ip es ips He Hf IH]; [by apply Forall_nil|].
    constructor; [|done]. by apply ParsePrefix_inv in He as (? & ? & _).
Qed.

(** What the program relies on in a device configuration. *)
Record device_wf (d : DeviceConfig) : Prop := {
  wf_secret : hex_key (SecretKey d) = true;
  wf_peers : Forall peer_typed (Peers d);
  wf_asec : forall c, ASecConfig d = Some c -> ASec_valid c /\ ASec_typed c
}.

Lemma ParseInterface_inv cfg device d :
  ParseInterface cfg device = Ok d ->
  exists section, SectionsByName cfg "Interface" = Ok [section] /\
    parseCIDRNetIP section "Address" = Ok (Device_Endpoint d) /\
    parseBase64KeyToHex section "PrivateKey" = Ok (SecretKey d) /\
    parseNetIP section "DNS" = Ok (DNS d) /\
    optional_key section "MTU" (MTU device) Key_Int = Ok (MTU d) /\
    parseNetIP section "CheckAlive" = Ok (CheckAlive d) /\
    (CheckAliveInterval d = 5 \/ CheckAlive d <> []) /\
    ParseASecConfig section = Ok (ASecConfig d) /\
    Peers d = Peers device.
Proof.
  unfold ParseInterface. destruct (SectionsByName cfg "Interface") as [[|section [|? ?]]|]; try done.
  intros Hp. exists section. res_inv. cbn. split_and!; try done.
  apply optional_key_Ok in Ha5 as [(k & _ & E)|(e & _ & ->)]; [|by left].
  right. res_inv. by destruct a4.
Qed.

Lemma ParseInterface_Ok cfg device d :
  ParseInterface cfg device = Ok d <->
  exists section, SectionsByName cfg "Interface" = Ok [section] /\
    parseCIDRNetIP section "Address" = Ok (Device_Endpoint d) /\
    parseBase64KeyToHex section "PrivateKey" = Ok (SecretKey d) /\
    parseNetIP section "DNS" = Ok (DNS d) /\
    optional_key section "MTU" (MTU device) Key_Int = Ok (MTU d) /\
    optional_key section "ListenPort" (Device_ListenPort device)
      (fun key => value ← Key_Int key; mret (Some value)) = Ok (Device_ListenPort d) /\
    parseNetIP section "CheckAlive" = Ok (CheckAlive d) /\
    optional_key section "CheckAliveInterval" 5
      (fun key =>
         value ← Key_Int key;
         if (length (CheckAlive d) =? 0)%nat
         then Err (errorString "CheckAliveInterval is only valid when CheckAlive is set")
         else Ok value) = Ok (CheckAliveInterval d) /\
    ParseASecConfig section = Ok (ASecConfig d) /\
    Peers d = Peers device.
Proof.
  unfold ParseInterface.
  destruct (SectionsByName cfg "Interface") as [[|section [|? ?]]|];
    [by split; [|naive_solver]| |by split; [|naive_solver]..].
  split.
  - intros Hp. exists section. split; [done|]. res_inv. cbn. by split_and!.
  - intros (s & [= <-] & -> & -> & -> & H5 & H6 & -> & H8 & H9 & H10).
    cbn [mbind result_bind]. rewrite H5. cbn [mbind result_bind]. rewrite H6.
    cbn [mbind result_bind]. rewrite H8. cbn [mbind result_bind]. rewrite H9.
    cbn. rewrite <- H10. by destruct d.
Qed.

Lemma ParsePeers_Ok cfg peers peers' :
  ParsePeers cfg peers = Ok peers' <->
  exists s ss new, SectionsByName cfg "Peer" = Ok (s :: ss) /\ peers' = peers ++ new /\
    Forall2 (fun sec p => parse_peer sec = Ok p) (s :: ss) new.
Proof.
  unfold ParsePeers. destruct (SectionsByName cfg "Peer") as [[|s ss]|e].
  - split; [done|]. by intros (? & ? & ? & [=] & _).
  - rewrite parse_peers_spec, fmap_Ok. setoid_rewrite mapM_res_Ok. split.
    + intros (new & Hf & <-). eauto 6.
    + intros (s' & ss' & new & [= <- <-] & -> & Hf). eauto.
  - split; [done|]. by intros (? & ? & ? & [=] & _).
Qed.

Lemma Forall2_typed sections peers :
  Forall2 (fun sec p => parse_peer sec = Ok p) sections peers -> Forall peer_typed peers.
Proof. induction 1; constructor; eauto using parse_peer_typed. Qed.

Lemma ParseInterface_wf cfg device d :
  Peers device = [] -> ParseInterface cfg device = Ok d -> device_wf d.
Proof.
  intros Hdev Hd. apply ParseInterface_inv in Hd as (s & _ & _ & Hk & _ & _ & _ & _ & Ha & Hp).
  split.
  - by eapply parseBase64KeyToHex_hex_key.
  - rewrite Hp, Hdev. apply Forall_nil. done.
  - intros c Hc. rewrite Hc in Ha. split; [|by eapply ParseASecConfig_typed_aux].
    apply ParseASecConfig_spec in Ha as (_ & _ & Hv). by eapply ValidateASecConfig_Ok.
Qed.

Lemma ParseConfig_Ok path conf :
  ParseConfig path = Ok conf <->
  exists cfg wgCfg device r1 r2 r3 r4 r5 r6,
    LoadSources path = Ok cfg /\
    match GetKey (File_Section cfg "") "WGConfig" with
    | Ok k => LoadSources (Key_String k) = Ok wgCfg
    | Err _ => wgCfg = cfg
    end /\
    ParseInterface wgCfg initialDevice = Ok device /\
    ParsePeers wgCfg [] = Ok (Peers (Device conf)) /\
    Device conf = device <| Peers := Peers (Device conf) |> /\
    Routines conf = r1 ++ r2 ++ r3 ++ r4 ++ r5 ++ r6 /\
    Forall2 (fun s r => parseTCPClientTunnelConfig s = Ok r) (sections_named cfg "TCPClientTunnel") r1 /\
    Forall2 (fun s r => parseSTDIOTunnelConfig s = Ok r) (sections_named cfg "STDIOTunnel") r2 /\
    Forall2 (fun s r => parseTCPServerTunnelConfig s = Ok r) (sections_named cfg "TCPServerTunnel") r3 /\
    Forall2 (fun s r => parseSocks5Config s = Ok r) (sections_named cfg "Socks5") r4 /\
    Forall2 (fun s r => parseHTTPConfig s = Ok r) (sections_named cfg "http") r5 /\
    Forall2 (fun s r => parseUDPProxyTunnelConfig s = Ok r) (sections_named cfg "UDPProxyTunnel") r6 /\
    match GetSection cfg "Resolve" with
    | Ok s => parseResolveConfig s = Ok (Conf_Resolve conf)
    | Err _ => Conf_Resolve conf = {| ResolveStrategy := "auto" |}
    end.
Proof.
  assert (forall wgCfg device, ParseInterface wgCfg initialDevice = Ok device -> Peers device = []) as Hnil
    by (intros ? ? (? & _ & _ & _ & _ & _ & _ & _ & _ & _ & ->)%ParseInterface_Ok; done).
  unfold ParseConfig. split.
  - intros Hc. repeat setoid_rewrite bind_Ok in Hc.
    destruct Hc as (cfg & Hcfg & wgCfg & Hwg & device & Hd & peers & Hp & l1 & H1' & l2 & H2' & l3 &
      H3' & l4 & H4' & l5 & H5' & resolve & Hres & l6 & H6' & Hc). injection Hc as <-.
    apply parseRoutinesConfig_Ok in H1' as (r1 & -> & F1), H2' as (r2 & -> & F2),
      H3' as (r3 & -> & F3), H4' as (r4 & -> & F4), H5' as (r5 & -> & F5), H6' as (r6 & -> & F6).
    exists cfg, wgCfg, device, r1, r2, r3, r4, r5, r6. rewrite (Hnil _ _ Hd) in Hp.
    cbn. rewrite <- !app_assoc. split_and!; try done.
    + by destruct (GetKey _ "WGConfig"); [|injection Hwg as ->].
    + by destruct (GetSection cfg "Resolve"); [|injection Hres as <-].
  - intros (cfg & wgCfg & device & r1 & r2 & r3 & r4 & r5 & r6 & Hcfg & Hwg & Hd & Hp & Hdev & Hr &
      F1 & F2 & F3 & F4 & F5 & F6 & Hres).
    repeat setoid_rewrite bind_Ok. exists cfg. split; [done|]. exists wgCfg.
    split; [by destruct (GetKey _ "WGConfig"); [|subst]|]. exists device. split; [done|].
    exists (Peers (Device conf)). split; [by rewrite (Hnil _ _ Hd)|].
    do 5 (eexists; split; [apply parseRoutinesConfig_Ok; eexists; split; [reflexivity|eassumption]|]).
    exists (Conf_Resolve conf). split; [by destruct (GetSection cfg "Resolve"); [|rewrite Hres]|].
    eexists; split; [apply parseRoutinesConfig_Ok; eexists; split; [reflexivity|eassumption]|].
    rewrite <- Hdev. cbn [app]. rewrite <- !app_assoc, <- Hr. by destruct conf.
Qed.

Lemma ParseConfig_wf path conf : ParseConfig path = Ok conf -> device_wf (Device conf).
Proof.
  intros Hc. apply ParseConfig_Ok in Hc as
    (cfg & wgCfg & device & _ & _ & _ & _ & _ & _ & _ & _ & Hd & Hp & Hdev & _).
  apply ParseInterface_wf in Hd as [Hs _ Ha]; [|done].
  apply ParsePeers_Ok in Hp as (s & ss & new & _ & Hnew & Hf). cbn in Hnew.
  rewrite Hdev. split; cbn; [done| |done].
  rewrite Hnew. by eapply Forall2_typed.
Qed.

End config_lemmas.

(** ** A concrete configuration *)

Definition example_unicode : UnicodeTables := {| map_unicode_ToLower := fun s => s |}.

Definition example_file : list_file :=
  [ ("", []);
    ("interface",
      [("privatekey", "$WG_KEY"); ("address", "10.5.0.2, fd00::2/128");
       ("dns", "1.1.1.1"); ("jc", "5"); ("s1", "15"); ("s2", "18")]);
    ("peer",
      [("publickey", "e8LKAc+f9xEzq9Ar7+MfKRrs+gZ/4yzvpRJLRJ/VJ1w=");
       ("allowedips", "0.0.0.0/0, ::/0"); ("endpoint", "94.140.11.15:51820");
       ("persistentkeepalive", "15-25")]);
    ("peer",
      [("publickey", "e8LKAc+f9xEzq9Ar7+MfKRrs+gZ/4yzvpRJLRJ/VJ1w=");
       ("persistentkeepalive", "Off")]);
    ("socks5", [("bindaddress", "127.0.0.1:25344"); ("username", "$NO_SUCH_VARIABLE");
                ("password", "secret")]);
    ("tcpclienttunnel", [("bindaddress", "127.0.0.1:25565"); ("target", "example.com:25565")]);
    ("udpproxytunnel", [("bindaddress", "127.0.0.1:53"); ("target", "1.1.1.1:53")]) ].

Definition example_env `{W : IntSize} : @Env list_ini := {|
  LookupEnv name :=
    if String.eqb name "WG_KEY"
    then Some "LAr1aNSNF9d0MjwUgAVC4020T0N/E5NUtqVv5EnsSz0=" else None;
  ResolveIPAddr host := Ok host;
  ResolveTCPAddr addr :=
    '(host, port) ← SplitHostPort addr; p ← Atoi port;
    mret {| TCPAddr_IP := host; TCPAddr_Port := p |};
  LoadSources path := Ok example_file : result error (@ini_File list_ini)
|}.

Definition example_config `{W : IntSize} : result error Configuration :=
  ParseConfig (U := example_unicode) (L := list_ini) (Ev := example_env) "wireproxy.conf".

(** The concrete configuration is accepted, on both widths of [int]. *)
Example example_config_Ok :
  is_Ok (example_config (W := int32_platform)) = true /\
  is_Ok (example_config (W := int64_platform)) = true.
Proof. split; vm_compute; reflexivity. Qed.

(** ** Properties *)

Section config_properties.
Context `{W : IntSize, U : UnicodeTables, L : IniLib, Ev : @Env L, Laws : @IniLaws W L}.

(** C26. Reading a text key: the key is found whatever the case of its name; a
    leading [$$] stands for one dollar and the rest is taken as it is, a leading [$]
    for the value of the variable named by the whole rest, and it is an error when
    that variable is not set; any other value is returned unchanged. A key that is
    missing reads as the empty text, never as an error. *)
Theorem parseString_correct section keyName :
  string_forallb is_ascii_byte keyName = true ->
  parseString section keyName =
  match GetKey section keyName with
  | Ok key => expand keyName (Key_String key)
  | Err _ => Ok ""
  end.
Proof. apply parseString_spec. Qed.

(** C25. Address lists (Address, DNS, CheckAlive, AllowedIPs): when the key has a
    text the result has one address or prefix for each non-empty entry, in the
    order written, and parsing succeeds exactly when every entry does; a key whose
    text is not available for the reason that it is empty is the empty list. *)
Theorem address_lists_correct section name addrs cidrs prefixes :
  (parseNetIP section name = Ok addrs <->
     (exists text, parseString section name = Ok text /\
        Forall2 (fun e ip => ParseAddr e = Ok ip) (entries text) addrs) \/
     (exists msg, parseString section name = Err msg /\
        Contains msg "should not be empty" = true /\ addrs = [])) /\
  (parseCIDRNetIP section name = Ok cidrs <->
     (exists text, parseString section name = Ok text /\
        Forall2 (fun e ip => parse_cidr_entry e = Ok ip) (entries text) cidrs) \/
     (exists msg, parseString section name = Err msg /\
        Contains msg "should not be empty" = true /\ cidrs = [])) /\
  (parseAllowedIPs section = Ok prefixes <->
     (exists text, parseString section "AllowedIPs" = Ok text /\
        Forall2 (fun e p => ParsePrefix e = Ok p) (entries text) prefixes) \/
     (exists msg, parseString section "AllowedIPs" = Err msg /\
        Contains msg "should not be empty" = true /\ prefixes = [])).
Proof. split_and!; apply parse_list_Ok. Qed.

(** A port is accepted exactly when the key is a number that fits 16 bits, and
    the value is that number; a missing key is not a port unless the library reads
    the empty value as one. *)
Theorem parsePort_correct section keyName port :
  parsePort section keyName = Ok port <->
  exists key, Section_Key section keyName = Some key /\ Key_Int key = Ok port /\
    in_uint 16 port.
Proof.
  unfold parsePort, in_uint. destruct (Section_Key section keyName) as [key|].
  - rewrite bind_Ok. split.
    + intros (p & Hp & E). exists key. case_match eqn:C; [done|]. injection E as <-.
      split_and!; try done; lia.
    + intros (k & [= <-] & Hp & Hr). exists port. split; [done|].
      by replace ((port <? 0) || (port >=? 65536)) with false by lia.
  - split; [done|]. by intros (? & [=] & _).
Qed.

(** C22. The interface section: parsing succeeds exactly when there is one [Interface]
    section, its address and name server lists and its private key are well formed,
    MTU, ListenPort and CheckAliveInterval are numbers where they are present, the
    interval only together with addresses to check, and the AmneziaWG keys are well
    formed and denote a valid configuration. The device then has exactly these
    values, and where a key is absent the MTU and port it had, an interval of 5 and no
    AmneziaWG configuration; its peers are left alone. *)
Theorem ParseInterface_correct cfg device d :
  ParseInterface cfg device = Ok d <->
  exists section, SectionsByName cfg "Interface" = Ok [section] /\
    parseCIDRNetIP section "Address" = Ok (Device_Endpoint d) /\
    (exists text, parseString section "PrivateKey" = Ok text /\
       encodeBase64ToHex text = Ok (SecretKey d)) /\
    parseNetIP section "DNS" = Ok (DNS d) /\
    match GetKey section "MTU" with
    | Ok k => Key_Int k = Ok (MTU d)
    | Err _ => MTU d = MTU device
    end /\
    match GetKey section "ListenPort" with
    | Ok k => exists p, Key_Int k = Ok p /\ Device_ListenPort d = Some p
    | Err _ => Device_ListenPort d = Device_ListenPort device
    end /\
    parseNetIP section "CheckAlive" = Ok (CheckAlive d) /\
    match GetKey section "CheckAliveInterval" with
    | Ok k => CheckAlive d <> [] /\ Key_Int k = Ok (CheckAliveInterval d)
    | Err _ => CheckAliveInterval d = 5
    end /\
    keys_ok section /\ ASecConfig d = asec_config section /\
    (forall c, ASecConfig d = Some c -> ASec_valid c) /\
    Peers d = Peers device.
Proof.
  rewrite ParseInterface_Ok. unfold optional_key.
  split; intros (s & H1 & H2 & H3 & H4 & H5 & H6 & H7 & H8 & H9); exists s.
  - destruct H9 as [(H9 & H10 & H11)%ParseASecConfig_spec H12].
    apply bind_Ok in H3 as (text & Ht & H3). apply map_err_Ok in Ht.
    split_and!; try done; [eauto|..].
    + destruct (GetKey s "MTU"); [done|by injection H5 as <-].
    + destruct (GetKey s "ListenPort"); [res_inv; eauto|by injection H6 as <-].
    + destruct (GetKey s "CheckAliveInterval"); [|by injection H8 as <-].
      res_inv. by destruct (CheckAlive d); [|injection H8 as ->].
    + intros c Hc. rewrite Hc in H11. by eapply ValidateASecConfig_Ok.
  - destruct H3 as (text & Ht & H3), H9 as (H9 & H10 & H11 & H12).
    split_and!; try done.
    + unfold parseBase64KeyToHex, lift. by rewrite Ht.
    + destruct (GetKey s "MTU"); [done|by rewrite H5].
    + destruct (GetKey s "ListenPort"); [destruct H6 as (p & -> & ->); done|by rewrite H6].
    + destruct (GetKey s "CheckAliveInterval"); [|by rewrite H8]. destruct H8 as [Hne ->]. cbn.
      by destruct (CheckAlive d).
    + apply ParseASecConfig_spec. split; [done|]. split; [done|].
      destruct (ASecConfig d) as [c|]; [|done]. apply ValidateASecConfig_Ok. by apply H11.
Qed.

(** C23. The peers: parsing succeeds exactly when there is at least one [Peer]
    section and every one of them is well formed, and then one peer per section is
    appended, in the order of the file. Each field comes from its own key: the public
    key and the preshared key are the hex digits of 32 bytes in base64 (64 zeros when
    there is no preshared key), the endpoint is the address that the host of the lower
    case text resolves to with its port (none when absent), the keepalive is the range
    or "off" (0 when absent), and the allowed addresses are the entries of the list. *)
Theorem ParsePeers_correct cfg peers peers' :
  ParsePeers cfg peers = Ok peers' <->
  exists s ss new, SectionsByName cfg "Peer" = Ok (s :: ss) /\ peers' = peers ++ new /\
    Forall2 peer_reads (s :: ss) new.
Proof.
  rewrite ParsePeers_Ok. split; intros (s & ss & new & Hs & Hn & Hf); exists s, ss, new.
  all: split_and!; try done.
  all: eapply Forall2_impl; [exact Hf|]; intros; by apply parse_peer_reads.
Qed.

(** C24. The keepalive of a peer: the text "off" in any case, spaces around it
    aside, disables it; every other text has to be a range. *)
Theorem parse_keepalive_correct key r :
  parse_keepalive key = Ok r <->
  (lower_bytes (TrimSpace (Key_String key)) = "off" /\
     r = {| range_min := 0; range_max := 0 |}) \/
  (lower_bytes (TrimSpace (Key_String key)) <> "off" /\
     range_text (TrimSpace (TrimSpace (Key_String key))) r).
Proof.
  apply parse_keepalive_text.
Qed.

(** C9. The configuration file: parsing succeeds exactly when the file and the one that
    its WGConfig key names, if there is such a key, can be read, and every section
    parses. Interface and peers come from the named file, or from the main one; the
    routines are those of the TCPClientTunnel, STDIOTunnel, TCPServerTunnel, Socks5,
    http and UDPProxyTunnel sections of the main file, in that order of kinds and
    within a kind in the order of the file, one per section; the resolve strategy is
    that of the Resolve section, or "auto". *)
Theorem ParseConfig_correct path conf :
  ParseConfig path = Ok conf <->
  exists cfg wgCfg device r1 r2 r3 r4 r5 r6,
    LoadSources path = Ok cfg /\
    match GetKey (File_Section cfg "") "WGConfig" with
    | Ok k => LoadSources (Key_String k) = Ok wgCfg
    | Err _ => wgCfg = cfg
    end /\
    ParseInterface wgCfg initialDevice = Ok device /\
    ParsePeers wgCfg [] = Ok (Peers (Device conf)) /\
    Device conf = device <| Peers := Peers (Device conf) |> /\
    Routines conf = r1 ++ r2 ++ r3 ++ r4 ++ r5 ++ r6 /\
    Forall2 (fun s r => parseTCPClientTunnelConfig s = Ok r) (sections_named cfg "TCPClientTunnel") r1 /\
    Forall2 (fun s r => parseSTDIOTunnelConfig s = Ok r) (sections_named cfg "STDIOTunnel") r2 /\
    Forall2 (fun s r => parseTCPServerTunnelConfig s = Ok r) (sections_named cfg "TCPServerTunnel") r3 /\
    Forall2 (fun s r => parseSocks5Config s = Ok r) (sections_named cfg "Socks5") r4 /\
    Forall2 (fun s r => parseHTTPConfig s = Ok r) (sections_named cfg "http") r5 /\
    Forall2 (fun s r => parseUDPProxyTunnelConfig s = Ok r) (sections_named cfg "UDPProxyTunnel") r6 /\
    match GetSection cfg "Resolve" with
    | Ok s => parseResolveConfig s = Ok (Conf_Resolve conf)
    | Err _ => Conf_Resolve conf = {| ResolveStrategy := "auto" |}
    end.
Proof. apply ParseConfig_Ok. Qed.

(** C33. A reference to a variable that is not set: it is an error for the address a
    proxy listens on, but the user name and the password of a socks5 or http proxy
    silently become empty. *)
Theorem proxy_credentials_fail_open section addr name pass keyu keyp :
  GetKey section "Username" = Ok keyu -> Key_String keyu = String "$"%char name ->
  HasPrefix name "$" = false -> LookupEnv name = None ->
  GetKey section "Password" = Ok keyp -> Key_String keyp = String "$"%char pass ->
  HasPrefix pass "$" = false -> LookupEnv pass = None ->
  parseString section "BindAddress" = Ok addr ->
  parseSocks5Config section =
    Ok (Socks5 {| Socks5_BindAddress := addr; Socks5_Username := ""; Socks5_Password := "" |}) /\
  exists cert key, parseHTTPConfig section =
    Ok (HTTP {| HTTP_BindAddress := addr; HTTP_Username := ""; HTTP_Password := "";
                CertFile := cert; KeyFile := key |}).
Proof.
  intros Hu Eu Du Nu Hp Ep Dp Np Ha.
  destruct (parseString_unset section "Username" keyu name) as [mu Hmu]; try done.
  destruct (parseString_unset section "Password" keyp pass) as [mp Hmp]; try done.
  unfold parseSocks5Config, parseHTTPConfig. rewrite Ha, Hmu, Hmp. cbn. eauto.
Qed.

End config_properties.

(** *** Witnesses *)

Definition example_interface : list_section := snd (nth 1 example_file ("", [])).

Lemma parseString_correct_witness :
  parseString (U := example_unicode) (L := list_ini (W := int64_platform))
    (Ev := example_env (W := int64_platform)) example_interface "PrivateKey"
  = Ok "LAr1aNSNF9d0MjwUgAVC4020T0N/E5NUtqVv5EnsSz0=".
Proof.
  rewrite (parseString_correct (W := int64_platform) (U := example_unicode)
    (L := list_ini (W := int64_platform)) (Ev := example_env (W := int64_platform))
    (Laws := list_ini_laws (W := int64_platform)) example_interface "PrivateKey" eq_refl).
  reflexivity.
Defined.

Definition example_device : DeviceConfig :=
  match ParseInterface (W := int64_platform) (U := example_unicode)
    (L := list_ini (W := int64_platform)) (Ev := example_env (W := int64_platform))
    example_file initialDevice with
  | Ok d => d
  | Err _ => initialDevice
  end.

Example example_device_parsed :
  hex_key (SecretKey example_device) = true /\ CheckAliveInterval example_device = 5 /\
  ASecConfig example_device <> None.
Proof. vm_compute. split_and!; [reflexivity..|discriminate]. Qed.

Definition example_configuration : Configuration :=
  match example_config (W := int64_platform) with
  | Ok conf => conf
  | Err _ => {| Device := initialDevice; Routines := [];
                Conf_Resolve := {| ResolveStrategy := "" |} |}
  end.

Example example_configuration_parsed :
  length (Routines example_configuration) = 3%nat /\
  length (Peers (Device example_configuration)) = 2%nat.
Proof. vm_compute. split; reflexivity. Qed.

Definition unset_section : list_section :=
  [("bindaddress", "127.0.0.1:25344"); ("username", "$PROXY_USER"); ("password", "$PROXY_PASS")].

Lemma proxy_credentials_fail_open_witness :
  parseSocks5Config (U := example_unicode) (L := list_ini (W := int64_platform))
    (Ev := example_env (W := int64_platform)) unset_section =
  Ok (Socks5 {| Socks5_BindAddress := "127.0.0.1:25344"; Socks5_Username := "";
                Socks5_Password := "" |}).
Proof.
  refine (proj1 (proxy_credentials_fail_open (W := int64_platform) (U := example_unicode)
    (L := list_ini (W := int64_platform)) (Ev := example_env (W := int64_platform))
    (Laws := list_ini_laws (W := int64_platform)) unset_section "127.0.0.1:25344"
    "PROXY_USER" "PROXY_PASS" "$PROXY_USER" "$PROXY_PASS" _ _ _ _ _ _ _ _ _));
    reflexivity.
Defined.
