(* ===== verification/Wireguard.v ===== *)
(** * The device request: src/wireguard.go.

    [CreateIPCRequest] turns a [DeviceConfig] into the text the device reads line
    by line; [StartWireguard] creates the device with it. The abstract view of a
    request is the list of its settings; the theorems relate the text to it. *)

From S2P Require Import Prelude GoStrings GoStrconv GoEncoding GoNet Ini Keys AwgConfig AwgSpec Config.
Local Open Scope Z_scope.

(** ** Text *)

Definition newline : ascii := ascii_of_nat 10.
Definition nl : string := String newline "".

(** [fmt.Fprintf(w, "key=%v\n", value)], the value already printed. *)
Definition line (key value : string) : string := key +:+ "=" +:+ value +:+ nl.

(** The [%t] verb. *)
Definition bool_string (b : bool) : string := if b then "true" else "false".

(** [fmt.Sprintf] for a format whose verbs are [%s], the arguments printed. *)
Fixpoint sprintf (format : string) (args : list string) : string :=
  match format with
  | String "%"%char (String "s"%char rest) =>
      match args with
      | a :: args => a +:+ sprintf rest args
      | [] => "%!s(MISSING)" +:+ sprintf rest []
      end
  | String c rest => String c (sprintf rest args)
  | "" => ""
  end.

Definition tabs (n : nat) (s : string) : string :=
  Nat.iter n (String (ascii_of_nat 9)) s.

(** The two raw string literals that go through heredoc. *)
Definition peer_doc : string :=
  nl +:+ tabs 4 "public_key=%s" +:+ nl +:+ tabs 4 "persistent_keepalive_interval=%s"
     +:+ nl +:+ tabs 4 "preshared_key=%s" +:+ nl +:+ tabs 3 "".
Definition routes_doc : string :=
  nl +:+ tabs 4 "allowed_ip=0.0.0.0/0" +:+ nl +:+ tabs 4 "allowed_ip=::0/0" +:+ nl +:+ tabs 3 "".

(** github.com/MakeNowJust/heredoc: [Doc] removes the indentation of a literal. *)
Class Heredoc := { Doc : string -> string }.

Class HeredocLaws (D : Heredoc) : Prop := {
  Doc_peer : Doc peer_doc =
    "public_key=%s" +:+ nl +:+ "persistent_keepalive_interval=%s" +:+ nl
      +:+ "preshared_key=%s" +:+ nl;
  Doc_routes : Doc routes_doc = "allowed_ip=0.0.0.0/0" +:+ nl +:+ "allowed_ip=::0/0" +:+ nl
}.

(** ** Data *)

Record DeviceSetting := {
  IpcRequest : string;
  Setting_DNS : list Addr;
  DeviceAddr : list Addr;
  Setting_MTU : Z
}.

Section wireguard.
Context `{W : IntSize, D : Heredoc}.

Definition persistentKeepaliveRange (peer : PeerConfig) : result error uintRange :=
  let programmatic :=
    let maxUint32 := 2 ^ 32 - 1 in
    if (KeepAlive peer <? 0) || (uint 64 (KeepAlive peer) >? maxUint32) then
      Err (errorString ("PersistentKeepalive must be between 0 and " +:+ FormatUint maxUint32))
    else if (KeepAliveMax peer <? 0) || (uint 64 (KeepAliveMax peer) >? maxUint32) then
      Err (errorString ("PersistentKeepalive maximum must be between 0 and " +:+ FormatUint maxUint32))
    else
      Ok {| range_min := uint 32 (KeepAlive peer);
            range_max := if KeepAliveMax peer >? KeepAlive peer
                         then uint 32 (KeepAliveMax peer) else uint 32 (KeepAlive peer) |} in
  match keepAliveRange peer with
  | Some r =>
      if (to_int (range_min r) =? KeepAlive peer) && (to_int (range_max r) =? KeepAliveMax peer)
      then Ok r else programmatic
  | None => programmatic
  end.

(** [if cond { fmt.Fprintf(&b, "key=...\n", value) }] *)
Definition line_if (cond : bool) (key value : string) : string :=
  if cond then line key value else "".

(** [if p != nil { fmt.Fprintf(&b, "key=...\n", *p) }] *)
Definition line_opt {A} (print : A -> string) (key : string) (p : option A) : string :=
  match p with Some a => line key (print a) | None => "" end.

(** What the block [if conf.ASecConfig != nil] writes. *)
Definition asec_request (c : ASecConfigType) : string :=
  line_if (hasJunkPacketCount c) "jc" (Itoa (junkPacketCount c)) +:+
  line_if (hasJunkPacketMinSize c) "jmin" (Itoa (junkPacketMinSize c)) +:+
  line_if (hasJunkPacketMaxSize c) "jmax" (Itoa (junkPacketMaxSize c)) +:+
  line_if (hasInitPacketJunkSize c) "s1" (Itoa (initPacketJunkSize c)) +:+
  line_if (hasResponsePacketJunkSize c) "s2" (Itoa (responsePacketJunkSize c)) +:+
  line_if (hasCookieReplyPacketJunkSize c) "s3" (Itoa (cookieReplyPacketJunkSize c)) +:+
  line_if (hasTransportPacketJunkSize c) "s4" (Itoa (transportPacketJunkSize c)) +:+
  line_if (hasInitPacketMagicHeader c) "h1"
    (formatMagicHeaderInterval (initPacketMagicHeader c) (initPacketMagicHeaderMax c)) +:+
  line_if (hasResponsePacketMagicHeader c) "h2"
    (formatMagicHeaderInterval (responsePacketMagicHeader c) (responsePacketMagicHeaderMax c)) +:+
  line_if (hasUnderloadPacketMagicHeader c) "h3"
    (formatMagicHeaderInterval (underloadPacketMagicHeader c) (underloadPacketMagicHeaderMax c)) +:+
  line_if (hasTransportPacketMagicHeader c) "h4"
    (formatMagicHeaderInterval (transportPacketMagicHeader c) (transportPacketMagicHeaderMax c)) +:+
  line_opt id "i1" (i1 c) +:+ line_opt id "i2" (i2 c) +:+ line_opt id "i3" (i3 c) +:+
  line_opt id "i4" (i4 c) +:+ line_opt id "i5" (i5 c) +:+
  line_opt id "header_protection_key" (headerProtectionKey c) +:+
  line_opt uintRange_String "content_padding_addition" (contentPaddingAddition c) +:+
  line_opt uintRange_String "rekey_after_time" (rekeyAfterTime c) +:+
  line_opt uintRange_String "rekey_timeout" (rekeyTimeout c) +:+
  line_opt uintRange_String "reject_after_time" (rejectAfterTime c) +:+
  line_opt uintRange_String "keepalive_timeout" (keepaliveTimeout c) +:+
  line_opt uintRange_String "max_handshake_attempts" (maxHandshakeAttempts c) +:+
  line_opt bool_string "random_trailers" (randomTrailers c) +:+
  line_opt bool_string "disable_cookies" (disableCookies c).

(** What the body of the loop over the peers writes. *)
Definition peer_request (peer : PeerConfig) (keepAlive : uintRange) : string :=
  sprintf (Doc peer_doc) [PublicKey peer; uintRange_String keepAlive; PreSharedKey peer] +:+
  line_opt id "endpoint" (Peer_Endpoint peer) +:+
  match AllowedIPs peer with
  | [] => Doc routes_doc
  | ips => foldr (fun ip acc => line "allowed_ip" (Prefix_String ip) +:+ acc) "" ips
  end.

Fixpoint peers_request (request : string) (peers : list PeerConfig) : result error string :=
  match peers with
  | [] => Ok request
  | peer :: peers =>
      keepAlive ← persistentKeepaliveRange peer;
      peers_request (request +:+ peer_request peer keepAlive) peers
  end.

Definition CreateIPCRequest (conf : DeviceConfig) : result error DeviceSetting :=
  let request := line "private_key" (SecretKey conf) in
  let request := request +:+ line_opt Itoa "listen_port" (Device_ListenPort conf) in
  let request := request +:+
    match ASecConfig conf with Some c => asec_request c | None => "" end in
  request ← peers_request request (Peers conf);
  mret {| IpcRequest := request; Setting_DNS := DNS conf;
          DeviceAddr := Device_Endpoint conf; Setting_MTU := MTU conf |}.

End wireguard.

(** ** Starting the device *)

(** The tunnel library (amneziawg-go, its netstack): the device is a value that
    [IpcSet] and [Up] change. *)
Class Amnezia := {
  Tun : Type;
  netstack_Net : Type;
  device_Device : Type;
  CreateNetTUN : list Addr -> list Addr -> Z -> result error (Tun * netstack_Net);
  NewDevice : Tun -> Z -> device_Device;
  IpcSet : device_Device -> string -> result error device_Device;
  Device_Up : device_Device -> result error device_Device
}.

Record VirtualTun `{Amnezia} := {
  Tnet : netstack_Net;
  Dev : device_Device;
  SystemDNS : bool;
  Conf : DeviceConfig;
  PingRecord : gmap string Z
}.

Definition StartWireguard `{IntSize, Heredoc, Amnezia} (conf : DeviceConfig) (logLevel : Z) :
    result error VirtualTun :=
  setting ← CreateIPCRequest conf;
  '(tun, tnet) ← CreateNetTUN (DeviceAddr setting) (Setting_DNS setting) (Setting_MTU setting);
  let dev := NewDevice tun logLevel in
  dev ← IpcSet dev (IpcRequest setting);
  dev ← Device_Up dev;
  mret {| Tnet := tnet; Dev := dev; Conf := conf;
          SystemDNS := (length (Setting_DNS setting) =? 0)%nat; PingRecord := ∅ |}.

(** ** The settings of a request *)

(** A request is a sequence of settings, each a key with its value. *)
Definition setting : Type := string * string.

Fixpoint render (l : list setting) : string :=
  match l with [] => "" | s :: l => line s.1 s.2 +:+ render l end.

(** How the device reads a request: the lines, each cut at its first ["="]; the text
    ends with a newline. *)
Fixpoint read_lines (ls : list string) : option (list setting) :=
  match ls with
  | [] => None
  | [""] => Some []
  | l :: ls => s ← Cut "="%char l; ss ← read_lines ls; Some (s :: ss)
  end.

Definition read_request (text : string) : option (list setting) :=
  read_lines (Split newline text).

Definition setting_if (cond : bool) (key value : string) : list setting :=
  if cond then [(key, value)] else [].

Definition setting_opt {A} (print : A -> string) (key : string) (p : option A) : list setting :=
  match p with Some a => [(key, print a)] | None => [] end.

Definition asec_settings (c : ASecConfigType) : list setting :=
  setting_if (hasJunkPacketCount c) "jc" (Itoa (junkPacketCount c)) ++
  setting_if (hasJunkPacketMinSize c) "jmin" (Itoa (junkPacketMinSize c)) ++
  setting_if (hasJunkPacketMaxSize c) "jmax" (Itoa (junkPacketMaxSize c)) ++
  setting_if (hasInitPacketJunkSize c) "s1" (Itoa (initPacketJunkSize c)) ++
  setting_if (hasResponsePacketJunkSize c) "s2" (Itoa (responsePacketJunkSize c)) ++
  setting_if (hasCookieReplyPacketJunkSize c) "s3" (Itoa (cookieReplyPacketJunkSize c)) ++
  setting_if (hasTransportPacketJunkSize c) "s4" (Itoa (transportPacketJunkSize c)) ++
  setting_if (hasInitPacketMagicHeader c) "h1"
    (uintRange_String {| range_min := initPacketMagicHeader c; range_max := initPacketMagicHeaderMax c |}) ++
  setting_if (hasResponsePacketMagicHeader c) "h2"
    (uintRange_String {| range_min := responsePacketMagicHeader c; range_max := responsePacketMagicHeaderMax c |}) ++
  setting_if (hasUnderloadPacketMagicHeader c) "h3"
    (uintRange_String {| range_min := underloadPacketMagicHeader c; range_max := underloadPacketMagicHeaderMax c |}) ++
  setting_if (hasTransportPacketMagicHeader c) "h4"
    (uintRange_String {| range_min := transportPacketMagicHeader c; range_max := transportPacketMagicHeaderMax c |}) ++
  setting_opt id "i1" (i1 c) ++ setting_opt id "i2" (i2 c) ++ setting_opt id "i3" (i3 c) ++
  setting_opt id "i4" (i4 c) ++ setting_opt id "i5" (i5 c) ++
  setting_opt id "header_protection_key" (headerProtectionKey c) ++
  setting_opt uintRange_String "content_padding_addition" (contentPaddingAddition c) ++
  setting_opt uintRange_String "rekey_after_time" (rekeyAfterTime c) ++
  setting_opt uintRange_String "rekey_timeout" (rekeyTimeout c) ++
  setting_opt uintRange_String "reject_after_time" (rejectAfterTime c) ++
  setting_opt uintRange_String "keepalive_timeout" (keepaliveTimeout c) ++
  setting_opt uintRange_String "max_handshake_attempts" (maxHandshakeAttempts c) ++
  setting_opt bool_string "random_trailers" (randomTrailers c) ++
  setting_opt bool_string "disable_cookies" (disableCookies c).

(** A peer without allowed addresses is given all of them. *)
Definition allowed_settings (ips : list Prefix) : list setting :=
  match ips with
  | [] => [("allowed_ip", "0.0.0.0/0"); ("allowed_ip", "::0/0")]
  | _ => map (fun ip => ("allowed_ip", Prefix_String ip)) ips
  end.

Definition peer_settings (peer : PeerConfig) (keepAlive : uintRange) : list setting :=
  [("public_key", PublicKey peer);
   ("persistent_keepalive_interval", uintRange_String keepAlive);
   ("preshared_key", PreSharedKey peer)] ++
  setting_opt id "endpoint" (Peer_Endpoint peer) ++ allowed_settings (AllowedIPs peer).

Definition request_settings (conf : DeviceConfig) (keeps : list uintRange) : list setting :=
  [("private_key", SecretKey conf)] ++
  setting_opt Itoa "listen_port" (Device_ListenPort conf) ++
  from_option asec_settings [] (ASecConfig conf) ++
  concat (zip_with peer_settings (Peers conf) keeps).

(** ** Lemmas: text and settings *)

Lemma render_app a b : render (a ++ b) = render a +:+ render b.
Proof. induction a as [|s a IH]; [done|]. cbn. by rewrite IH, string_app_assoc. Qed.

Lemma render_if cond k v : render (setting_if cond k v) = line_if cond k v.
Proof. destruct cond; [|done]. apply string_app_nil_r. Qed.

Lemma render_opt {A} (print : A -> string) k p :
  render (setting_opt print k p) = line_opt print k p.
Proof. destruct p; [|done]. apply string_app_nil_r. Qed.

Lemma asec_request_render c : asec_request c = render (asec_settings c).
Proof. unfold asec_settings. rewrite !render_app, !render_if, !render_opt. reflexivity. Qed.

(** No ["%s"] in a text: [sprintf] copies it. *)
Lemma sprintf_peer a b c :
  sprintf ("public_key=%s" +:+ nl +:+ "persistent_keepalive_interval=%s" +:+ nl
      +:+ "preshared_key=%s" +:+ nl) [a; b; c] =
  render [("public_key", a); ("persistent_keepalive_interval", b); ("preshared_key", c)].
Proof. cbn. unfold line, nl. repeat rewrite ?string_app_cons, ?string_app_nil_l, <- ?string_app_assoc. reflexivity. Qed.

Section request_lemmas.
Context `{W : IntSize, D : Heredoc, DL : !HeredocLaws D}.

Lemma peer_request_render peer r : peer_request peer r = render (peer_settings peer r).
Proof.
  unfold peer_request, peer_settings.
  rewrite Doc_peer, sprintf_peer, !render_app, render_opt. do 2 f_equal.
  destruct (AllowedIPs peer) as [|ip ips]; cbn [allowed_settings]; [by rewrite Doc_routes|].
  generalize (ip :: ips). clear. intros l. induction l as [|ip l IH]; [done|].
  cbn. by rewrite IH.
Qed.

Lemma peers_request_spec peers request :
  peers_request request peers =
  (keeps ← mapM_res persistentKeepaliveRange peers;
   mret (request +:+ render (concat (zip_with peer_settings peers keeps)))).
Proof.
  revert request; induction peers as [|p ps IH]; intros request; cbn [peers_request mapM_res].
  - cbn. by rewrite string_app_nil_r.
  - destruct (persistentKeepaliveRange p) as [r|e]; [|done]. cbn [mbind result_bind].
    rewrite IH. destruct (mapM_res persistentKeepaliveRange ps) as [rs|e]; [|done].
    cbn [mbind result_bind mret result_ret zip_with concat].
    by rewrite render_app, peer_request_render, <- string_app_assoc.
Qed.

Lemma CreateIPCRequest_spec conf :
  CreateIPCRequest conf =
  (keeps ← mapM_res persistentKeepaliveRange (Peers conf);
   mret {| IpcRequest := render (request_settings conf keeps); Setting_DNS := DNS conf;
           DeviceAddr := Device_Endpoint conf; Setting_MTU := MTU conf |}).
Proof.
  unfold CreateIPCRequest. rewrite peers_request_spec.
  destruct (mapM_res persistentKeepaliveRange (Peers conf)) as [keeps|e]; [|done].
  cbn [mbind result_bind mret result_ret].
  unfold request_settings. rewrite !render_app, render_opt. do 2 f_equal.
  rewrite <- !string_app_assoc. f_equal; [by cbn; rewrite string_app_nil_r|].
  do 2 f_equal. destruct (ASecConfig conf); [apply asec_request_render|done].
Qed.

(** *** Keepalive *)

Lemma keepalive_parsed peer :
  peer_typed peer ->
  persistentKeepaliveRange peer =
    Ok (default {| range_min := 0; range_max := 0 |} (keepAliveRange peer)).
Proof.
  intros [_ _ Hk _]. unfold persistentKeepaliveRange.
  destruct (keepAliveRange peer) as [r|].
  - destruct Hk as (_ & -> & ->). by rewrite !Z.eqb_refl.
  - destruct Hk as [-> ->]. done.
Qed.

End request_lemmas.

(** *** Reading back *)

(** The value is on one line. *)
Definition clean (s : setting) : Prop :=
  no_byte newline s.1 = true /\ no_byte "="%char s.1 = true /\ no_byte newline s.2 = true.

Lemma no_byte_graphic d s :
  graphic d = false -> string_forallb graphic s = true -> no_byte d s = true.
Proof.
  intros Hd. apply string_forallb_impl. intros c Hc.
  destruct (Ascii.eqb_spec c d) as [->|]; [by rewrite Hd in Hc|done].
Qed.

Lemma Split_line k v rest :
  clean (k, v) -> Split newline (line k v +:+ rest) = (k +:+ "=" +:+ v) :: Split newline rest.
Proof.
  intros (Hk & _ & Hv). cbn [fst snd] in Hk, Hv. unfold line.
  replace ((k +:+ "=" +:+ v +:+ nl) +:+ rest) with ((k +:+ "=" +:+ v) +:+ String newline rest).
  2: { unfold nl. repeat rewrite <- ?string_app_assoc. reflexivity. }
  apply Split_app_sep. change (no_byte newline (k +:+ String "="%char v) = true).
  rewrite no_byte_app, Hk; cbn; exact Hv.
Qed.

Lemma read_render l : Forall clean l -> read_request (render l) = Some l.
Proof.
  unfold read_request. induction 1 as [|[k v] l Hc Hl IH]; [done|].
  cbn [render fst snd] in *. rewrite Split_line by done. destruct Hc as (Hk & Hk' & Hv).
  destruct (k +:+ "=" +:+ v) as [|c text] eqn:E; [by destruct k|].
  assert (Cut "="%char (String c text) = Some (k, v)) as Hcut.
  { rewrite <- E. by apply Cut_Some. }
  destruct (Split newline (render l)) as [|x xs] eqn:Es; [by apply Split_nonempty in Es|].
  change (read_lines (String c text :: x :: xs)) with
    (s ← Cut "="%char (String c text); ss ← read_lines (x :: xs); Some (s :: ss)).
  by rewrite Hcut; cbn [mbind option_bind]; rewrite IH.
Qed.

Lemma uintRange_String_graphic r : string_forallb graphic (uintRange_String r) = true.
Proof.
  unfold uintRange_String. case_match; [apply FormatUint_graphic|].
  by rewrite !string_forallb_app, !FormatUint_graphic.
Qed.

Lemma bool_string_graphic b : string_forallb graphic (bool_string b) = true.
Proof. by destruct b. Qed.

Lemma clean_graphic k v :
  no_byte newline k = true -> no_byte "="%char k = true ->
  string_forallb graphic v = true -> clean (k, v).
Proof. intros. split_and!; [done..|]. by apply no_byte_graphic. Qed.

Lemma clean_if cond k v :
  no_byte newline k = true -> no_byte "="%char k = true ->
  string_forallb graphic v = true -> Forall clean (setting_if cond k v).
Proof. intros. destruct cond; [|by apply Forall_nil]. apply Forall_singleton. by apply clean_graphic. Qed.

Lemma clean_opt {A} (print : A -> string) k p :
  no_byte newline k = true -> no_byte "="%char k = true ->
  (forall a, p = Some a -> no_byte newline (print a) = true) ->
  Forall clean (setting_opt print k p).
Proof.
  intros ? ? Hp. destruct p as [a|]; [|by apply Forall_nil]. apply Forall_singleton.
  split_and!; [done..|]. by apply Hp.
Qed.

(** The texts of a configuration that are copied into the request as they are. *)
Definition free_texts (conf : DeviceConfig) : list string :=
  from_option (fun c => omap id [i1 c; i2 c; i3 c; i4 c; i5 c]) [] (ASecConfig conf) ++
  omap Peer_Endpoint (Peers conf).

Lemma asec_settings_clean `{IntSize} c :
  ASec_typed c -> Forall (fun t => no_byte newline t = true) (omap id [i1 c; i2 c; i3 c; i4 c; i5 c]) ->
  Forall clean (asec_settings c).
Proof.
  intros [_ _ _ Hkey] Htexts. rewrite Forall_forall in Htexts. unfold asec_settings.
  repeat (apply Forall_app; split).
  all: first [apply clean_if | apply clean_opt]; try done.
  all: try (apply Itoa_graphic || apply uintRange_String_graphic).
  all: intros a Ha.
  1-5: apply Htexts, list_elem_of_omap; exists (Some a); split; [rewrite <- Ha; set_solver|done].
  1: eapply hex_key_no_byte; [done|]; by apply Hkey.
  all: apply no_byte_graphic; [done|].
  all: apply uintRange_String_graphic || apply bool_string_graphic.
Qed.

Lemma peer_settings_clean `{IntSize} peer r :
  peer_typed peer ->
  (forall t, Peer_Endpoint peer = Some t -> no_byte newline t = true) ->
  Forall clean (peer_settings peer r).
Proof.
  intros [Hpub Hpsk _ Hips] Hend. unfold peer_settings.
  repeat (apply Forall_app; split).
  - repeat apply Forall_cons_2; [..|apply Forall_nil_2].
    + split_and!; [done..|]. by eapply hex_key_no_byte.
    + by apply clean_graphic, uintRange_String_graphic.
    + split_and!; [done..|]. by eapply hex_key_no_byte.
  - by apply clean_opt.
  - unfold allowed_settings. destruct (AllowedIPs peer) as [|ip ips]; [by repeat constructor|].
    apply Forall_fmap. eapply Forall_impl; [exact Hips|]. intros p [Hz Hn]; cbn.
    apply clean_graphic; [done..|]. by apply Prefix_String_graphic.
Qed.

Lemma request_settings_clean `{IntSize} conf keeps :
  device_wf conf -> Forall (fun t => no_byte newline t = true) (free_texts conf) ->
  Forall clean (request_settings conf keeps).
Proof.
  intros [Hs Hp Ha] [Ht Ht']%Forall_app. unfold request_settings.
  repeat (apply Forall_app; split).
  - apply Forall_singleton. split_and!; [done..|]. by eapply hex_key_no_byte.
  - apply clean_opt; [done..|]. intros p _. by apply no_byte_graphic, Itoa_graphic.
  - destruct (ASecConfig conf) as [c|]; [|by apply Forall_nil].
    apply asec_settings_clean; [by apply Ha|done].
  - clear Hs Ha Ht. revert keeps Ht'. induction Hp as [|p ps Hp Hps IH]; intros keeps Ht; [by apply Forall_nil|].
    destruct keeps as [|r keeps]; [by apply Forall_nil|].
    cbn [zip_with concat]. apply Forall_app. split.
    + apply peer_settings_clean; [done|]. intros t E. rewrite Forall_forall in Ht.
      apply Ht. cbn. rewrite E. apply list_elem_of_here.
    + apply IH. cbn in Ht. destruct (Peer_Endpoint p); [by apply Forall_cons_1 in Ht as [_ ?]|done].
Qed.

Lemma keepalives_parsed `{IntSize} peers :
  Forall peer_typed peers ->
  mapM_res persistentKeepaliveRange peers =
  Ok (map (fun p => default {| range_min := 0; range_max := 0 |} (keepAliveRange p)) peers).
Proof.
  intros Hp. apply mapM_res_Ok. induction Hp as [|p ps Hp Hps IH]; constructor; [|done].
  by apply keepalive_parsed.
Qed.

(** Names are resolved by the system exactly when no name server is configured. *)
Lemma StartWireguard_DNS `{IntSize, Heredoc, Amnezia} conf logLevel vt :
  StartWireguard conf logLevel = Ok vt -> SystemDNS vt = true <-> DNS conf = [].
Proof.
  unfold StartWireguard. intros Hv. apply bind_Ok in Hv as (s & Hs & Hv).
  assert (Setting_DNS s = DNS conf) as HD by (unfold CreateIPCRequest in Hs; res_inv; done).
  apply bind_Ok in Hv as ([tun tnet] & _ & Hv). apply bind_Ok in Hv as (dev & _ & Hv).
  apply bind_Ok in Hv as (dev' & _ & Hv). injection Hv as <-. cbn. rewrite HD, Nat.eqb_eq.
  by destruct (DNS conf).
Qed.

(** A concrete [Doc]: it drops the first newline and the leading tabs of each line. *)
Fixpoint drop_tabs (s : string) : string :=
  match s with
  | String c rest => if Ascii.eqb c (ascii_of_nat 9) then drop_tabs rest else s
  | "" => ""
  end.

Definition example_heredoc : Heredoc :=
  {| Doc s := join newline (map drop_tabs (Split newline (TrimPrefix s nl))) |}.

(** A concrete tunnel library, which accepts everything. *)
Definition example_amnezia : Amnezia :=
  {| Tun := unit; netstack_Net := unit; device_Device := string;
     CreateNetTUN addrs dns mtu := Ok (tt, tt); NewDevice tun level := "";
     IpcSet dev text := Ok (dev +:+ text); Device_Up dev := Ok dev |}.

Lemma example_heredoc_laws : HeredocLaws example_heredoc.
Proof. split; vm_compute; reflexivity. Qed.

(** ** Properties *)

(** C1. From file to device: a configuration that parses always yields a request, and
    its text is exactly the settings of the configuration, one line each, in order: the
    private key, the listen port, the AmneziaWG parameters that are set and no others,
    then for each peer its keys, its keepalive range as written, its endpoint and its
    allowed addresses. When the texts that the parser takes as they are (the signature
    packets I1-I5 and the endpoints) have no newline, a device that reads the request
    line by line gets exactly these settings. Addresses, name servers and MTU are passed
    on unchanged. *)
Theorem parsed_config_request
    `{W : IntSize, U : UnicodeTables, L : IniLib, Ev : @Env L, Laws : @IniLaws W L,
      D : Heredoc, DL : !HeredocLaws D} path conf :
  ParseConfig path = Ok conf ->
  let settings := request_settings (Device conf)
    (map (fun p => default {| range_min := 0; range_max := 0 |} (keepAliveRange p))
      (Peers (Device conf))) in
  exists s, CreateIPCRequest (Device conf) = Ok s /\
    IpcRequest s = render settings /\
    (Forall (fun t => no_byte newline t = true) (free_texts (Device conf)) ->
       read_request (IpcRequest s) = Some settings) /\
    Setting_DNS s = DNS (Device conf) /\ DeviceAddr s = Device_Endpoint (Device conf) /\
    Setting_MTU s = MTU (Device conf).
Proof.
  intros Hc%ParseConfig_wf settings. eexists. split.
  { rewrite CreateIPCRequest_spec, keepalives_parsed by apply Hc. reflexivity. }
  cbn [IpcRequest Setting_DNS DeviceAddr Setting_MTU]. split_and!; [done| |done..].
  intros Ht. by apply read_render, request_settings_clean.
Qed.

Lemma parsed_config_request_witness :
  exists s, CreateIPCRequest (W := int64_platform) (D := example_heredoc)
      (Device example_configuration) = Ok s /\
    (ss ← read_request (IpcRequest s); ss !! 2%nat) = Some ("s1", "15").
Proof.
  destruct (parsed_config_request (W := int64_platform) (U := example_unicode)
    (L := list_ini (W := int64_platform)) (Ev := example_env (W := int64_platform))
    (Laws := list_ini_laws (W := int64_platform)) (D := example_heredoc)
    (DL := example_heredoc_laws) "wireproxy.conf" example_configuration)
    as (s & Hs & _ & Hr & _).
  - vm_compute. reflexivity.
  - exists s. split; [exact Hs|]. rewrite Hr; [vm_compute; reflexivity|].
    apply (bool_decide_unpack _). vm_compute. exact I.
Defined.

(** [l] has the part [m] somewhere. *)
Definition has_part {A} (m l : list A) : Prop := exists a b, l = a ++ m ++ b.

Lemma has_part_here {A} (m l : list A) : has_part m (m ++ l).
Proof. by exists [], l. Qed.

Lemma has_part_app {A} (m l l' : list A) : has_part m l -> has_part m (l' ++ l).
Proof. intros (a & b & ->). exists (l' ++ a), b. by rewrite <- app_assoc. Qed.

Lemma has_part_app_l {A} (m l l' : list A) : has_part m l -> has_part m (l ++ l').
Proof. intros (a & b & ->). exists a, (b ++ l'). by rewrite <- !app_assoc. Qed.

(** The condition is needed: a signature packet with a newline, which a multi-line value
    of the file can have, adds a setting to the request. When [I1] is a packet, a newline
    and [key=value], the request is that of a configuration with the packet alone and the
    setting of [key] to [value] after it. *)
Theorem signature_newline_injects `{W : IntSize, D : Heredoc, DL : !HeredocLaws D}
    conf c packet key value s :
  ASecConfig conf = Some c -> i1 c = Some (packet +:+ nl +:+ key +:+ "=" +:+ value) ->
  CreateIPCRequest conf = Ok s ->
  exists keeps before after,
    request_settings conf keeps =
      before ++ [("i1", packet +:+ nl +:+ key +:+ "=" +:+ value)] ++ after /\
    IpcRequest s = render (before ++ [("i1", packet); (key, value)] ++ after).
Proof.
  intros Hc Hi Hs. rewrite CreateIPCRequest_spec in Hs. res_inv.
  assert (has_part (setting_opt id "i1" (i1 c)) (request_settings conf a)) as (before & after & E).
  { unfold request_settings. rewrite Hc. cbn [from_option].
    do 2 apply has_part_app. apply has_part_app_l. unfold asec_settings.
    do 11 apply has_part_app. apply has_part_here. }
  rewrite Hi in E. exists a, before, after. split; [exact E|].
  change (render (request_settings conf a) =
    render (before ++ [("i1", packet); (key, value)] ++ after)).
  rewrite E, !render_app. do 2 f_equal. cbn. unfold line, id. by rewrite <- !string_app_assoc.
Qed.

Definition injecting_section : list_section :=
  [("i1", "<b 0x01>" +:+ nl +:+ "listen_port=1")].

Lemma signature_newline_injects_witness :
  exists conf s before after, ASecConfig conf <> None /\
    CreateIPCRequest (W := int64_platform) (D := example_heredoc) conf = Ok s /\
    IpcRequest s = render (before ++ [("i1", "<b 0x01>"); ("listen_port", "1")] ++ after).
Proof.
  set (c := ignore_err None (ParseASecConfig (H := int64_platform)
    (H0 := list_ini (W := int64_platform)) injecting_section)).
  set (conf := (Device example_configuration) <| ASecConfig := c |>).
  destruct (signature_newline_injects (W := int64_platform) (D := example_heredoc)
    (DL := example_heredoc_laws) conf (default zeroASecConfig c) "<b 0x01>" "listen_port" "1"
    (ignore_err {| IpcRequest := ""; Setting_DNS := []; DeviceAddr := []; Setting_MTU := 0 |}
      (CreateIPCRequest (W := int64_platform) (D := example_heredoc) conf)))
    as (keeps & before & after & _ & Hr); [vm_compute; reflexivity..|].
  eexists conf, _, before, after. split; [vm_compute; discriminate|].
  split; [|exact Hr]. vm_compute. reflexivity.
Defined.

(** C20. The keepalive of a parsed peer reaches the device exactly as it was
    written, on 32-bit platforms too, where bounds above 2^31 - 1 do not fit the
    [int] fields of the peer; a peer without the key has it disabled. *)
Theorem persistentKeepaliveRange_parsed `{W : IntSize, U : UnicodeTables, L : IniLib, Ev : @Env L}
    section peer :
  parse_peer section = Ok peer ->
  persistentKeepaliveRange peer =
    Ok (default {| range_min := 0; range_max := 0 |} (keepAliveRange peer)) /\
  (forall key, GetKey section "PersistentKeepalive" = Ok key ->
     exists r, parse_keepalive key = Ok r /\ persistentKeepaliveRange peer = Ok r).
Proof.
  intros Hp. pose proof (keepalive_parsed peer (parse_peer_typed _ _ Hp)) as Hk.
  split; [done|]. intros key Hkey. rewrite Hk. unfold parse_peer in Hp. res_inv. cbn.
  unfold optional_key in Ha2. rewrite Hkey in Ha2. res_inv. eauto.
Qed.

Definition wide_peer : list_section :=
  [("publickey", "e8LKAc+f9xEzq9Ar7+MfKRrs+gZ/4yzvpRJLRJ/VJ1w=");
   ("persistentkeepalive", "2147483647-2147483648")].

Lemma persistentKeepaliveRange_parsed_witness :
  exists peer, persistentKeepaliveRange (W := int32_platform) peer =
    Ok {| range_min := 2147483647; range_max := 2147483648 |} /\
    KeepAliveMax peer = -2147483648.
Proof.
  exists (ignore_err initialPeer (parse_peer (W := int32_platform) (U := example_unicode)
    (L := list_ini (W := int32_platform)) (Ev := example_env (W := int32_platform)) wide_peer)).
  split; [|vm_compute; reflexivity].
  match goal with |- persistentKeepaliveRange ?p = _ =>
    refine (eq_trans (proj1 (persistentKeepaliveRange_parsed (W := int32_platform)
      (U := example_unicode) (L := list_ini (W := int32_platform))
      (Ev := example_env (W := int32_platform)) wide_peer p _)) _)
  end; vm_compute; reflexivity.
Defined.

(** C21. A peer built by a program, without a parsed range: the request is refused
    exactly when a bound is negative or does not fit 32 bits, and otherwise the
    range starts at KeepAlive and ends at KeepAliveMax, or at KeepAlive when the
    maximum is below it. *)
Theorem persistentKeepaliveRange_programmatic `{W : IntSize} peer r :
  keepAliveRange peer = None -> in_int (KeepAlive peer) -> in_int (KeepAliveMax peer) ->
  persistentKeepaliveRange peer = Ok r <->
  in_uint 32 (KeepAlive peer) /\ in_uint 32 (KeepAliveMax peer) /\
  r = {| range_min := KeepAlive peer; range_max := Z.max (KeepAlive peer) (KeepAliveMax peer) |}.
Proof.
  intros HN Hk Hm. unfold persistentKeepaliveRange. rewrite HN.
  unfold in_int, in_sint, in_uint in *.
  assert (2 ^ (int_size - 1) <= 2 ^ 63) by (destruct int_size_cases as [-> | ->]; cbn; lia).
  destruct (Z.ltb_spec (KeepAlive peer) 0); [split; [done|lia]|]. cbn [orb].
  assert (forall z, 0 <= z < 2 ^ 63 -> uint 64 z = z) as Hu64
    by (intros; apply Z.mod_small; lia).
  assert (forall z, 0 <= z < 2 ^ 32 -> uint 32 z = z) as Hu32
    by (intros; apply Z.mod_small; lia).
  rewrite Hu64 by lia. destruct (Z.gtb_spec (KeepAlive peer) (2 ^ 32 - 1)); [split; [done|lia]|].
  destruct (Z.ltb_spec (KeepAliveMax peer) 0); [split; [done|lia]|]. cbn [orb].
  rewrite Hu64 by lia. destruct (Z.gtb_spec (KeepAliveMax peer) (2 ^ 32 - 1)); [split; [done|lia]|].
  rewrite !Hu32 by lia.
  assert ((if KeepAliveMax peer >? KeepAlive peer then KeepAliveMax peer else KeepAlive peer) =
    Z.max (KeepAlive peer) (KeepAliveMax peer)) as -> by (case_match; lia).
  split; [intros [= <-]; split_and!; lia || done|by intros (_ & _ & ->)].
Qed.

Definition built_peer : PeerConfig :=
  initialPeer <| KeepAlive := 25 |> <| KeepAliveMax := 10 |>.

Lemma persistentKeepaliveRange_programmatic_witness :
  persistentKeepaliveRange (W := int32_platform) built_peer =
  Ok {| range_min := 25; range_max := 25 |}.
Proof.
  apply (persistentKeepaliveRange_programmatic (W := int32_platform) built_peer);
    [reflexivity|vm_compute; intuition discriminate|vm_compute; intuition discriminate|].
  split; [vm_compute; intuition discriminate|].
  split; [vm_compute; intuition discriminate|reflexivity].
Defined.

(** Without AmneziaWG parameters the request is a plain WireGuard one: every
    setting has one of the seven WireGuard keys. *)
Theorem plain_request_keys `{W : IntSize, D : Heredoc, DL : !HeredocLaws D} conf s :
  ASecConfig conf = None -> CreateIPCRequest conf = Ok s ->
  exists keeps, IpcRequest s = render (request_settings conf keeps) /\
    Forall (fun kv => kv.1 ∈ ["private_key"; "listen_port"; "public_key";
      "persistent_keepalive_interval"; "preshared_key"; "endpoint"; "allowed_ip"])
      (request_settings conf keeps).
Proof.
  intros HN Hs. rewrite CreateIPCRequest_spec in Hs. res_inv. exists a. split; [done|].
  unfold request_settings. rewrite HN. repeat (apply Forall_app; split).
  - apply Forall_singleton. set_solver.
  - destruct (Device_ListenPort conf); [apply Forall_singleton; set_solver|by apply Forall_nil].
  - by apply Forall_nil.
  - apply Forall_concat, Forall_lookup. intros i l Hl.
    apply lookup_zip_with_Some in Hl as (p & r & -> & _ & _).
    unfold peer_settings. repeat (apply Forall_app; split).
    + repeat apply Forall_cons_2; [..|apply Forall_nil_2]; set_solver.
    + destruct (Peer_Endpoint p); [apply Forall_singleton; set_solver|by apply Forall_nil].
    + unfold allowed_settings. destruct (AllowedIPs p) as [|ip ips].
      * repeat apply Forall_cons_2; [..|apply Forall_nil_2]; set_solver.
      * apply Forall_fmap, Forall_forall. intros; cbn. set_solver.
Qed.

Definition built_device : DeviceConfig :=
  {| SecretKey := ""; Device_Endpoint := []; Peers := [built_peer]; DNS := []; MTU := 1420;
     Device_ListenPort := None; CheckAlive := []; CheckAliveInterval := 0;
     ASecConfig := None |}.

Lemma plain_request_keys_witness :
  exists s keeps, CreateIPCRequest (W := int64_platform) (D := example_heredoc) built_device = Ok s /\
    IpcRequest s = render (request_settings built_device keeps).
Proof.
  destruct (plain_request_keys (W := int64_platform) (D := example_heredoc)
    (DL := example_heredoc_laws) built_device
    (ignore_err {| IpcRequest := ""; Setting_DNS := []; DeviceAddr := []; Setting_MTU := 0 |}
      (CreateIPCRequest (W := int64_platform) (D := example_heredoc) built_device)) eq_refl)
    as (keeps & E & _).
  - vm_compute. reflexivity.
  - eexists. exists keeps. split; [|exact E]. vm_compute. reflexivity.
Defined.

(** Starting the tunnel: it succeeds exactly when the request can be built, the
    network stack accepts the addresses, name servers and MTU, the device accepts
    the whole request and comes up, tried in that order; names are then resolved
    through the system exactly when no name server is configured. *)
Theorem StartWireguard_correct `{W : IntSize, D : Heredoc, A : Amnezia} conf logLevel vt :
  StartWireguard conf logLevel = Ok vt <->
  exists setting tun dev,
    CreateIPCRequest conf = Ok setting /\
    CreateNetTUN (Device_Endpoint conf) (DNS conf) (MTU conf) = Ok (tun, Tnet vt) /\
    IpcSet (NewDevice tun logLevel) (IpcRequest setting) = Ok dev /\
    Device_Up dev = Ok (Dev vt) /\
    (SystemDNS vt = true <-> DNS conf = []) /\
    Conf vt = conf /\ PingRecord vt = ∅.
Proof.
  assert (forall s, CreateIPCRequest conf = Ok s ->
    DeviceAddr s = Device_Endpoint conf /\ Setting_DNS s = DNS conf /\ Setting_MTU s = MTU conf)
    as Hset by (intros s Hs; unfold CreateIPCRequest in Hs; res_inv; done).
  unfold StartWireguard. split.
  - intros Hv. apply bind_Ok in Hv as (s & Hs & Hv). destruct (Hset s Hs) as (H1 & H2 & H3).
    apply bind_Ok in Hv as ([tun tnet] & Ht & Hv). apply bind_Ok in Hv as (dev & Hd & Hv).
    apply bind_Ok in Hv as (dev' & Hu & Hv). injection Hv as <-. cbn.
    rewrite H1, H2, H3 in *. exists s, tun, dev. split_and!; try done.
    rewrite Nat.eqb_eq. by destruct (DNS conf).
  - intros (s & tun & dev & Hs & Ht & Hd & Hu & Hsys & Hc & Hp).
    destruct (Hset s Hs) as (H1 & H2 & H3). rewrite Hs. cbn. rewrite H1, H2, H3, Ht. cbn.
    rewrite Hd. cbn. rewrite Hu. cbn. do 2 f_equal. destruct vt; cbn in *. subst. f_equal.
    destruct (DNS conf), SystemDNS0; cbn; naive_solver.
Qed.
