(* ===== verification/Io.v ===== *)
(** * Input and output.

    A handler of the program is a value of [io E A]: it is run on the list of what
    it did so far, extends that list with the events of type [E] it performs, and
    ends with an [outcome]. What the surroundings answer to its [n]th action is a
    function of [n]; every environment behaves as some such function on a given
    run, so that a theorem for all of them covers every run. *)

From S2P Require Import Prelude.

Inductive outcome (A : Type) : Type :=
| Done (a : A)
| Exited        (* log.Fatal ends the process *)
| Panicked.
Arguments Done {A} a.
Arguments Exited {A}.
Arguments Panicked {A}.

Definition io (E A : Type) : Type := list E -> outcome A * list E.

#[global] Instance io_ret {E} : MRet (io E) := fun A a tr => (Done a, tr).
#[global] Instance io_bind {E} : MBind (io E) := fun A B f m tr =>
  match m tr with
  | (Done a, tr) => f a tr
  | (Exited, tr) => (Exited, tr)
  | (Panicked, tr) => (Panicked, tr)
  end.

(** An action without an answer. *)
Definition emit {E} (e : E) : io E unit := fun tr => (Done tt, tr ++ [e]).

(** An action and the answer of the surroundings. *)
Definition ask {E A} (answer : nat -> A) (event : A -> E) : io E A := fun tr =>
  let a := answer (length tr) in (Done a, tr ++ [event a]).

(** A value the surroundings choose, such as a random number, without an action. *)
Definition choose {E A} (answer : nat -> A) : io E A := fun tr => (Done (answer (length tr)), tr).

Definition log_Fatal {E A} (e : E) : io E A := fun tr => (Exited, tr ++ [e]).

Definition panic {E A} : io E A := fun tr => (Panicked, tr).

(** A handler run on its own. *)
Definition run {E A} (m : io E A) : outcome A * list E := m [].
Definition events {E A} (m : io E A) : list E := (run m).2.

(** Connections and files are known by a number. *)
Definition conn : Type := nat.

(** [for { conn, err := server.Accept(); if err != nil { ... }; go serve(conn) }] :
    the answers [Accept] has given so far; [None] when the loop waits for the next. *)
Fixpoint accept_loop {E A} (accepts : list (result error conn)) (on_conn : conn -> io E unit)
    (on_err : error -> io E A) : io E (option A) :=
  match accepts with
  | [] => mret None
  | Ok c :: accepts => on_conn c ;; accept_loop accepts on_conn on_err
  | Err e :: _ => a ← on_err e; mret (Some a)
  end.

(** ** Lemmas *)

Lemma bind_emit {E A} (e : E) (k : io E A) tr : (emit e ;; k) tr = k (tr ++ [e]).
Proof. done. Qed.

(** A loop that starts one goroutine for each connection: the ones accepted before
    the first error, in order. *)
Lemma accept_loop_waits {E A} (go : conn -> E) (on_err : error -> io E A) cs tr :
  accept_loop (Ok <$> cs) (fun c => emit (go c)) on_err tr = (Done None, tr ++ (go <$> cs)).
Proof.
  revert tr; induction cs as [|c cs IH]; intros tr; cbn; [by rewrite app_nil_r|].
  unfold mbind, io_bind; cbn. rewrite IH. by rewrite <- app_assoc.
Qed.

Lemma accept_loop_ends {E A} (go : conn -> E) (on_err : error -> io E A) cs e rest tr :
  accept_loop ((Ok <$> cs) ++ Err e :: rest) (fun c => emit (go c)) on_err tr =
  (a ← on_err e; mret (Some a)) (tr ++ (go <$> cs)).
Proof.
  revert tr; induction cs as [|c cs IH]; intros tr; cbn; [by rewrite app_nil_r|].
  unfold mbind at 1, io_bind at 1; cbn. rewrite IH. by rewrite <- app_assoc.
Qed.

(** Case analysis on an event of a concrete trace. *)
Ltac elem_cases H :=
  repeat (apply elem_of_cons in H; destruct H as [H|H]);
  try (by apply not_elem_of_nil in H); try discriminate H.

(** Find an event in a concrete trace. *)
Ltac elem_here := cbn; repeat first [apply list_elem_of_here | apply list_elem_of_further].
