(* ===== verification/HttpProxy.v ===== *)
(** * The HTTP proxy: src/http.go, src/util.go and the credential check of
    src/routine.go.

    [serve] handles one client connection: it reads a request, authenticates it,
    dials the target through the tunnel and starts the two copiers. Reading and
    writing are actions of [io]; the theorems say when the proxy dials, where, and
    what becomes of the connections. *)

From S2P Require Import Prelude GoStrings GoStrconv GoEncoding GoNet Config Io.
Local Open Scope Z_scope.

(** ** [crypto/subtle] *)

(** [ConstantTimeByteEq(x, y)]: [int((uint32(x^y) - 1) >> 31)] *)
Definition ConstantTimeByteEq (x y : Z) : Z :=
  Z.shiftr (uint 32 (Z.lxor x y - 1)) 31.

(** The loop [v |= x[i] ^ y[i]]. *)
Fixpoint xor_fold (v : Z) (x y : string) : Z :=
  match x, y with
  | String a x, String b y => xor_fold (Z.lor v (Z.lxor (byte_val a) (byte_val b))) x y
  | _, _ => v
  end.

Definition ConstantTimeCompare (x y : string) : Z :=
  if (String.length x =? String.length y)%nat then ConstantTimeByteEq (xor_fold 0 x y) 0
  else 0.

Record CredentialValidator := { username : string; password : string }.

Definition Valid (c : CredentialValidator) (user pass : string) : bool :=
  let u := ConstantTimeCompare (username c) user in
  let p := ConstantTimeCompare (password c) pass in
  Z.land u p =? 1.

(** ** [net/http] *)

Definition header : Type := gmap string (list string).

(** [Header.Get] and [Header.Set] for a key in canonical form. *)
Definition Header_Get (h : header) (key : string) : string :=
  match h !! key with Some (v :: _) => v | _ => "" end.
Definition Header_Set (h : header) (key value : string) : header := <[key := [value]]> h.

Record Request := {
  Method : string; Host : string; Proto : string; ProtoMajor : Z; ProtoMinor : Z;
  Header : header; Req_Body : string
}.

Record Response := {
  StatusCode : Z; Status : string; Resp_Proto : string; Resp_ProtoMajor : Z;
  Resp_ProtoMinor : Z; Resp_Header : header; Resp_Body : string
}.

Definition StatusProxyAuthRequired : Z := 407.
Definition StatusNotAcceptable : Z := 406.
Definition StatusLengthRequired : Z := 411.
Definition StatusUnauthorized : Z := 401.

(** [http.StatusText] on the codes the proxy answers with. *)
Definition StatusText (code : Z) : string :=
  if code =? 401 then "Unauthorized"
  else if code =? 406 then "Not Acceptable"
  else if code =? 407 then "Proxy Authentication Required"
  else if code =? 411 then "Length Required"
  else "".

Definition dquote : string := bytes_string [34]%nat.
Definition crlf : string := bytes_string [13; 10]%nat.
Definition space : string := " ".

Definition responseWith (req : Request) (statusCode : Z) : Response :=
  let statusText := StatusText statusCode in
  let body := "wireproxy:" +:+ space +:+ Proto req +:+ space +:+ Itoa statusCode +:+ space
    +:+ statusText +:+ crlf in
  {| StatusCode := statusCode; Status := statusText; Resp_Proto := Proto req;
     Resp_ProtoMajor := ProtoMajor req; Resp_ProtoMinor := ProtoMinor req;
     Resp_Header := ∅; Resp_Body := body |}.

(** ** The server *)

Definition proxyAuthHeaderKey : string := "Proxy-Authorization".

Record HTTPServer := {
  Server_config : HTTPConfig;
  auth : CredentialValidator;
  dial : nat -> string -> string -> result error conn;
  authRequired : bool
}.

(** The HTTP status of a refusal, and the error. *)
Definition authenticate (s : HTTPServer) (req : Request) : Z * option error :=
  if negb (authRequired s) then (0, None)
  else
    let auth_text := Header_Get (Header req) proxyAuthHeaderKey in
    if String.eqb auth_text "" then
      (StatusProxyAuthRequired, Some (errorString (StatusText StatusProxyAuthRequired)))
    else
      let enc := TrimPrefix auth_text "Basic " in
      match base64_DecodeString enc with
      | Err err =>
          (StatusNotAcceptable, Some (wrapError "decode username and password failed: " err))
      | Ok str =>
          match SplitN2 ":"%char str with
          | [user; pass] =>
              if Valid (auth s) user pass then (0, None)
              else (StatusUnauthorized, Some (errorString "username and password not matching"))
          | _ =>
              (StatusLengthRequired, Some (errorString "username and password format invalid"))
          end
      end.

(** The goroutines the proxy starts. *)
Inductive goroutine :=
| Serve (c : conn)
| CopyToClient (c peer : conn)
| CopyToPeer (c peer : conn).

Inductive event :=
| ReadRequest (c : conn) (r : result error Request)
| Dial (network address : string) (r : result error conn)
| Write (c : conn) (data : string) (err : option error)
| WriteRequest (c : conn) (req : Request) (err : option error)
| WriteResponse (c : conn) (resp : Response) (err : option error)
| Copy (dst src : conn) (err : option error)
| Close (c : conn)
| Log (text : string) (err : option error)
| Go (g : goroutine)
| Listen (network address : string) (r : result error unit)
| CloseListener.

(** What the surroundings answer to the actions on connections. *)
Class HttpWorld := {
  read_request : nat -> conn -> result error Request;
  conn_write : nat -> conn -> option error;
  io_copy : nat -> conn -> conn -> option error;
  net_listen : nat -> string -> string -> result error unit
}.

Section http.
Context `{HttpWorld}.
Implicit Types (s : HTTPServer) (req : Request) (c peer : conn).

Definition connection_established : string :=
  "HTTP/1.1 200 Connection established" +:+ crlf +:+ crlf.

Definition handleConn s req c : io event (option conn * option error) :=
  let addr := Host req in
  let addr := if negb (Contains addr ":") then JoinHostPort addr "443" else addr in
  r ← ask (fun n => dial s n "tcp" addr) (Dial "tcp" addr);
  match r with
  | Err err => mret (None, Some (wrapError "tun tcp dial failed: " err))
  | Ok peer =>
      err ← ask (fun n => conn_write n c) (Write c connection_established);
      match err with
      | Some err => emit (Close peer) ;; mret (None, Some err)
      | None => mret (Some peer, None)
      end
  end.

Definition handle s req : io event (option conn * option error) :=
  let addr := Host req in
  let addr := if negb (Contains addr ":") then JoinHostPort addr "80" else addr in
  r ← ask (fun n => dial s n "tcp" addr) (Dial "tcp" addr);
  match r with
  | Err err => mret (None, Some (wrapError "tun tcp dial failed: " err))
  | Ok peer =>
      err ← ask (fun n => conn_write n peer) (WriteRequest peer req);
      match err with
      | Some err => emit (Close peer) ;; mret (None, Some (wrapError "conn write failed: " err))
      | None => mret (Some peer, None)
      end
  end.

Definition serve s c : io event unit :=
  r ← ask (fun n => read_request n c) (ReadRequest c);
  match r with
  | Err err => emit (Log "read request failed: %s" (Some err))
  | Ok req =>
      match authenticate s req with
      | (code, Some err) =>
          let resp := responseWith req code in
          let resp :=
            if code =? StatusProxyAuthRequired
            then resp <| Resp_Header :=
              Header_Set (Resp_Header resp) "Proxy-Authenticate" ("Basic realm=" +:+ dquote +:+ "Proxy" +:+ dquote) |>
            else resp in
          ask (fun n => conn_write n c) (WriteResponse c resp) ;;
          emit (Log "" (Some err))
      | (_, None) =>
          '(peer, err) ← (if String.eqb (Method req) "CONNECT" then handleConn s req c
                          else handle s req);
          match err, peer with
          | Some err, _ => emit (Log "dial proxy failed: %s" (Some err))
          | None, None => emit (Log "dial proxy failed: peer nil" None)
          | None, Some peer =>
              emit (Go (CopyToClient c peer)) ;; emit (Go (CopyToPeer c peer))
          end
      end
  end.

(** The bodies of the goroutines; deferred calls run last to first. *)
Definition goroutine_body s (g : goroutine) : io event unit :=
  match g with
  | Serve c => serve s c
  | CopyToClient c peer =>
      ask (fun n => io_copy n c peer) (Copy c peer) ;; emit (Close peer) ;; emit (Close c)
  | CopyToPeer c peer =>
      ask (fun n => io_copy n peer c) (Copy peer c) ;; emit (Close peer) ;; emit (Close c)
  end.

(** The answers of [Accept] so far; [None] while the server waits for a connection. *)
Definition ListenAndServe (network addr : string) (accepts : list (result error conn)) :
    io event (option error) :=
  r ← ask (fun n => net_listen n network addr) (Listen network addr);
  match r with
  | Err err => mret (Some (wrapError "listen tcp failed: " err))
  | Ok _ =>
      accept_loop accepts (fun c => emit (Go (Serve c)))
        (fun err => emit CloseListener ;; mret (wrapError "accept request failed: " err))
  end.

(** [HTTPConfig.SpawnRoutine]; [tunnel_dial] is [vt.Tnet.Dial]. *)
Definition newHTTPServer (config : HTTPConfig)
    (tunnel_dial : nat -> string -> string -> result error conn) : HTTPServer :=
  {| Server_config := config; dial := tunnel_dial;
     auth := {| username := HTTP_Username config; password := HTTP_Password config |};
     authRequired := negb (String.eqb (HTTP_Username config) "")
                     || negb (String.eqb (HTTP_Password config) "") |}.

Definition HTTP_SpawnRoutine (config : HTTPConfig) (accepts : list (result error conn)) :
    io event unit :=
  r ← ListenAndServe "tcp" (HTTP_BindAddress config) accepts;
  match r with Some err => log_Fatal (Log "" (Some err)) | None => mret tt end.

End http.

(** ** Lemmas: credentials *)

Lemma ConstantTimeByteEq_zero v :
  0 <= v < 256 -> ConstantTimeByteEq v 0 = if v =? 0 then 1 else 0.
Proof. intros Hv. pattern v. by_enumeration 256%nat. Qed.

Lemma byte_log2 v : 0 <= v -> Z.log2 v < 8 <-> v < 256.
Proof.
  intros Hv. destruct (Z.eqb_spec v 0) as [->|]; [done|].
  by rewrite (Z.log2_lt_pow2 v 8) by lia.
Qed.

Lemma lor_byte a b : 0 <= a < 256 -> 0 <= b < 256 -> 0 <= Z.lor a b < 256.
Proof.
  intros. assert (0 <= Z.lor a b) by (apply Z.lor_nonneg; lia). split; [done|].
  apply byte_log2; [done|]. rewrite Z.log2_lor by lia. apply Z.max_lub_lt; apply byte_log2; lia.
Qed.

Lemma lxor_byte a b : 0 <= a < 256 -> 0 <= b < 256 -> 0 <= Z.lxor a b < 256.
Proof.
  intros. assert (0 <= Z.lxor a b) by (apply Z.lxor_nonneg; lia). split; [done|].
  apply byte_log2; [done|]. eapply Z.le_lt_trans; [by apply Z.log2_lxor; lia|].
  apply Z.max_lub_lt; apply byte_log2; lia.
Qed.

Lemma xor_fold_spec v x y :
  0 <= v < 256 -> String.length x = String.length y ->
  0 <= xor_fold v x y < 256 /\ (xor_fold v x y = 0 <-> v = 0 /\ x = y).
Proof.
  revert v y; induction x as [|a x IH]; intros v [|b y] Hv Hl; try done; cbn in *;
    [naive_solver|].
  pose proof (byte_val_range a). pose proof (byte_val_range b).
  destruct (IH (Z.lor v (Z.lxor (byte_val a) (byte_val b))) y) as [? Hz];
    [by apply lor_byte; [|apply lxor_byte]|lia|].
  split; [done|]. rewrite Hz, Z.lor_eq_0_iff, Z.lxor_eq_0_iff. split.
  - intros [[-> E] ->]. split; [done|]. f_equal. rewrite <- (byte_chr_val a), E. apply byte_chr_val.
  - by intros [-> [= -> ->]].
Qed.

Lemma ConstantTimeCompare_spec x y :
  ConstantTimeCompare x y = if String.eqb x y then 1 else 0.
Proof.
  unfold ConstantTimeCompare. destruct (Nat.eqb_spec (String.length x) (String.length y)) as [E|E].
  - destruct (xor_fold_spec 0 x y) as [Hr Hz]; [lia|done|]. rewrite ConstantTimeByteEq_zero by done.
    destruct (String.eqb_spec x y), (Z.eqb_spec (xor_fold 0 x y) 0); naive_solver.
  - destruct (String.eqb_spec x y); [by subst|done].
Qed.

Lemma Valid_spec c user pass : Valid c user pass = true <-> username c = user /\ password c = pass.
Proof.
  unfold Valid. rewrite !ConstantTimeCompare_spec.
  destruct (String.eqb_spec (username c) user), (String.eqb_spec (password c) pass);
    cbn; naive_solver.
Qed.

(** ** Lemmas: authentication *)

Lemma authenticate_ok s req :
  authenticate s req = (0, None) <->
  authRequired s = false \/
  exists enc, Header_Get (Header req) proxyAuthHeaderKey <> "" /\
    enc = TrimPrefix (Header_Get (Header req) proxyAuthHeaderKey) "Basic " /\
    base64_DecodeString enc = Ok (username (auth s) +:+ ":" +:+ password (auth s)) /\
    no_byte ":"%char (username (auth s)) = true.
Proof.
  unfold authenticate. destruct (authRequired s); cbn [negb]; [|by split; [left|]].
  destruct (String.eqb_spec (Header_Get (Header req) proxyAuthHeaderKey) "") as [E|E];
    [by split; [|intros [|(? & ? & _)]]|].
  destruct (base64_DecodeString _) as [str|err] eqn:Hd;
    [|split; [done|intros [|(? & _ & -> & ? & _)]; congruence]].
  unfold SplitN2. destruct (Cut ":"%char str) as [[user pass]|] eqn:Hc.
  - apply Cut_Some in Hc as [-> Hu].
    destruct (Valid (auth s) user pass) eqn:Hv; 
      [apply Valid_spec in Hv as [<- <-]; split; [intros _; right; eauto|done]|].
    split; [done|]. intros [[=]|(enc & _ & -> & Hd' & Hu')].
    rewrite Hd in Hd'. injection Hd' as Hd'.
    assert (Cut ":"%char (user +:+ String ":"%char pass) = Some (user, pass)) as Hc1
      by (by apply Cut_Some).
    assert (Cut ":"%char (user +:+ String ":"%char pass) =
      Some (username (auth s), password (auth s))) as Hc2 by (by apply Cut_Some).
    rewrite Hc1 in Hc2. injection Hc2 as -> ->.
    rewrite <- not_true_iff_false, Valid_spec in Hv. by destruct Hv.
  - split; [done|]. intros [[=]|(enc & _ & -> & Hd' & _)]. rewrite Hd in Hd'. injection Hd' as ->.
    apply Cut_None in Hc. rewrite no_byte_app in Hc. by apply andb_true_iff in Hc as [_ [=]].
Qed.

(** A refusal has one of four codes. *)
Lemma authenticate_codes s req code err :
  authenticate s req = (code, Some err) ->
  code ∈ [StatusProxyAuthRequired; StatusNotAcceptable; StatusLengthRequired; StatusUnauthorized].
Proof.
  unfold authenticate. intros E. repeat (case_match; simplify_eq); set_solver.
Qed.

(** The code of a refusal: the first check that fails decides. *)
Lemma authenticate_status s req code err :
  authenticate s req = (code, Some err) ->
  code = if String.eqb (Header_Get (Header req) proxyAuthHeaderKey) "" then 407
    else match base64_DecodeString
           (TrimPrefix (Header_Get (Header req) proxyAuthHeaderKey) "Basic ") with
         | Err _ => 406
         | Ok str => if no_byte ":"%char str then 411 else 401
         end.
Proof.
  unfold authenticate, SplitN2. destruct (authRequired s); [cbn [negb]|done].
  destruct (String.eqb _ _); [by intros [= <-]|].
  destruct (base64_DecodeString _) as [str|e]; [|by intros [= <-]].
  destruct (Cut ":"%char str) as [[user pass]|] eqn:Hc.
  - apply Cut_Some in Hc as [-> _]. rewrite no_byte_app, andb_false_r.
    destruct (Valid _ _ _); [done|by intros [= <-]].
  - apply Cut_None in Hc as ->. by intros [= <-].
Qed.

Lemma authenticate_cases s req :
  authenticate s req = (0, None) \/ exists code err, authenticate s req = (code, Some err).
Proof. unfold authenticate. repeat case_match; eauto. Qed.

(** ** Lemmas: a served connection *)

(** The address a request is sent to: its host, with the default port of the scheme
    when the host has no colon. *)
Definition target_port (req : Request) : string :=
  if String.eqb (Method req) "CONNECT" then "443" else "80".
Definition target_address (req : Request) : string :=
  if Contains (Host req) ":" then Host req else JoinHostPort (Host req) (target_port req).

(** What [serve] does after it has read a request that may pass. *)
Inductive served `{HttpWorld} (s : HTTPServer) (c : conn) (req : Request) : list event -> Prop :=
| served_dial_failed err :
    dial s 1 "tcp" (target_address req) = Err err ->
    served s c req [Dial "tcp" (target_address req) (Err err);
      Log "dial proxy failed: %s" (Some (wrapError "tun tcp dial failed: " err))]
| served_write_failed peer w err err' :
    dial s 1 "tcp" (target_address req) = Ok peer ->
    w = Write c connection_established (Some err) \/ w = WriteRequest peer req (Some err) ->
    served s c req [Dial "tcp" (target_address req) (Ok peer); w; Close peer;
      Log "dial proxy failed: %s" (Some err')]
| served_started peer w :
    dial s 1 "tcp" (target_address req) = Ok peer ->
    w = (if String.eqb (Method req) "CONNECT" then Write c connection_established None
         else WriteRequest peer req None) ->
    served s c req [Dial "tcp" (target_address req) (Ok peer); w;
      Go (CopyToClient c peer); Go (CopyToPeer c peer)].

Lemma serve_cases `{HttpWorld} s c :
  exists tr, run (serve s c) = (Done tt, ReadRequest c (read_request 0 c) :: tr) /\
    match read_request 0 c with
    | Err err => tr = [Log "read request failed: %s" (Some err)]
    | Ok req =>
        (authenticate s req = (0, None) /\ served s c req tr) \/
        (exists code err resp werr, authenticate s req = (code, Some err) /\
           tr = [WriteResponse c resp werr; Log "" (Some err)] /\
           StatusCode resp = code /\ Resp_Body resp = Resp_Body (responseWith req code) /\
           (Header_Get (Resp_Header resp) "Proxy-Authenticate" <> "" <-> code = 407))
    end.
Proof.
  unfold run, serve, mbind, io_bind, ask at 1; cbn [length app].
  destruct (read_request 0 c) as [req|err] eqn:Hr; [|by eexists].
  destruct (authenticate_cases s req) as [Ha|(code & err & Ha)]; rewrite Ha.
  - assert ((if negb (Contains (Host req) ":") then JoinHostPort (Host req) (target_port req)
             else Host req) = target_address req) as Hadr
      by (unfold target_address; by destruct (Contains _ _)).
    unfold handleConn, handle. unfold target_port in Hadr.
    destruct (String.eqb (Method req) "CONNECT") eqn:Hm; rewrite Hadr.
    all: unfold ask, mbind, io_bind; cbn [length app].
    all: destruct (dial s 1 "tcp" _) as [peer|err] eqn:Hd; cbn [length app];
      [|eexists; split; [reflexivity|left; split; [done|by constructor]]].
    all: destruct (conn_write 2 _) as [err|]; cbn; eexists; (split; [reflexivity|]);
      left; (split; [done|]); econstructor; rewrite ?Hm; eauto.
  - unfold ask, mbind, io_bind; cbn [length app]. eexists. split; [reflexivity|]. right.
    do 4 eexists. split; [done|]. split; [reflexivity|].
    destruct (Z.eqb_spec code StatusProxyAuthRequired) as [->|Hc]; cbn; [done|].
    split_and!; [done..|]. split; [done|by intros ->].
Qed.

(** The proxy dials only for a request that passed, at the address it names. *)
Lemma serve_dial `{HttpWorld} s c network address r :
  Dial network address r ∈ events (serve s c) ->
  exists req, read_request 0 c = Ok req /\ authenticate s req = (0, None) /\
    network = "tcp" /\ address = target_address req.
Proof.
  unfold events. destruct (serve_cases s c) as (tr & -> & Hcase). intros Hin.
  apply elem_of_cons in Hin as [[=]|Hin].
  destruct (read_request 0 c) as [req|err]; [|by subst; elem_cases Hin].
  exists req. split; [done|].
  destruct Hcase as [[Ha Hs]|(code & err & resp & werr & _ & -> & _)]; [|by elem_cases Hin].
  split; [done|].
  destruct Hs as [|? ? ? ? ? []|]; subst; elem_cases Hin; by simplify_eq || (by case_match).
Qed.

(** The two texts around the first colon are determined. *)
Lemma credentials_inj user pass user' pass' :
  no_byte ":"%char user = true -> no_byte ":"%char user' = true ->
  user +:+ ":" +:+ pass = user' +:+ ":" +:+ pass' -> user = user' /\ pass = pass'.
Proof.
  intros Hu Hu' E.
  assert (Cut ":"%char (user +:+ ":" +:+ pass) = Some (user, pass)) as H1 by (by apply Cut_Some).
  rewrite E in H1. rewrite (proj2 (Cut_Some ":"%char _ user' pass')) in H1 by done. naive_solver.
Qed.

(** ** An example *)

Definition example_config_http : HTTPConfig :=
  {| HTTP_BindAddress := "127.0.0.1:25345"; HTTP_Username := "peter"; HTTP_Password := "hunter:2";
     CertFile := ""; KeyFile := "" |}.

Definition example_tunnel (n : nat) (network address : string) : result error conn := Ok 7%nat.

Definition example_request (header_value : string) : Request :=
  {| Method := "CONNECT"; Host := "example.com"; Proto := "HTTP/1.1"; ProtoMajor := 1;
     ProtoMinor := 1; Header := {[ proxyAuthHeaderKey := [header_value] ]}; Req_Body := "" |}.

Definition example_world (header_value : string) : HttpWorld :=
  {| read_request n c := Ok (example_request header_value); conn_write n c := None;
     io_copy n a b := None; net_listen n network address := Ok tt |}.

Definition example_header : string := "Basic cGV0ZXI6aHVudGVyOjI=".

(** ** Properties *)

(** C10. Authentication of a proxy request: it passes exactly when the proxy asks for
    none, or the Proxy-Authorization header is the base64 encoding of the configured
    user name, a colon and the password, where the user name has no colon. Every other
    request is refused, with 407 when the header is missing or empty, else 406 when it
    is not base64, else 411 when it has no colon, else 401. *)
Theorem authenticate_correct s req :
  let text := Header_Get (Header req) proxyAuthHeaderKey in
  let decoded := base64_DecodeString (TrimPrefix text "Basic ") in
  let passes := authRequired s = false \/
     (text <> "" /\ decoded = Ok (username (auth s) +:+ ":" +:+ password (auth s)) /\
      no_byte ":"%char (username (auth s)) = true) in
  let status := if String.eqb text "" then 407
    else match decoded with
         | Err _ => 406
         | Ok str => if no_byte ":"%char str then 411 else 401
         end in
  (passes /\ authenticate s req = (0, None)) \/
  (~ passes /\ exists err, authenticate s req = (status, Some err)).
Proof.
  intros text decoded passes status.
  assert (authenticate s req = (0, None) <-> passes) as Hok
    by (rewrite authenticate_ok; unfold passes, decoded; naive_solver).
  destruct (authenticate_cases s req) as [Ha|(code & err & Ha)]; [left; by rewrite <- Hok|right].
  rewrite <- Hok, Ha. split; [done|]. exists err. f_equal. by eapply authenticate_status.
Qed.

(** C30. A client that sends its credentials the standard way, base64 of the user name, a
    colon and the password after the word Basic, is let in exactly when they are the
    configured ones. *)
Theorem basic_auth_roundtrip s req user pass :
  authRequired s = true -> no_byte ":"%char user = true ->
  Header_Get (Header req) proxyAuthHeaderKey =
    "Basic " +:+ base64_EncodeToString (user +:+ ":" +:+ pass) ->
  authenticate s req = (0, None) <-> username (auth s) = user /\ password (auth s) = pass.
Proof.
  intros Hr Hu Hh. rewrite authenticate_ok, Hh, TrimPrefix_app. split.
  - intros [|(enc & _ & -> & Hd & Hu')]; [congruence|].
    rewrite base64_decode_encode in Hd. injection Hd as Hd.
    destruct (credentials_inj _ _ _ _ Hu Hu' Hd) as [-> ->]. done.
  - intros [-> ->]. right. eexists. split; [done|]. split; [done|].
    by rewrite base64_decode_encode.
Qed.

Lemma basic_auth_roundtrip_witness :
  authenticate (newHTTPServer example_config_http example_tunnel)
    (example_request example_header) = (0, None).
Proof.
  apply (basic_auth_roundtrip (newHTTPServer example_config_http example_tunnel)
    (example_request example_header) "peter" "hunter:2"); [reflexivity..|split; reflexivity].
Defined.

(** C6. No traffic without credentials: when a user name or a password is configured,
    whatever a client sends and however the network answers, the proxy dials at most
    the one address its request names, and only after a request whose header carries
    the configured user name and password. *)
Theorem serve_requires_credentials `{HttpWorld} config tunnel c network address r :
  HTTP_Username config <> "" \/ HTTP_Password config <> "" ->
  Dial network address r ∈ events (serve (newHTTPServer config tunnel) c) ->
  exists req, read_request 0 c = Ok req /\ network = "tcp" /\ address = target_address req /\
    base64_DecodeString
      (TrimPrefix (Header_Get (Header req) proxyAuthHeaderKey) "Basic ") =
      Ok (HTTP_Username config +:+ ":" +:+ HTTP_Password config).
Proof.
  intros Hc (req & Hr & Ha & Hn & Hadr)%serve_dial. exists req. split_and!; [done..|].
  apply authenticate_ok in Ha as [Ha|(enc & _ & -> & Hd & _)]; [|done].
  cbn in Ha. apply orb_false_iff in Ha as [H1 H2].
  apply negb_false_iff, String.eqb_eq in H1, H2. naive_solver.
Qed.

Lemma serve_requires_credentials_witness :
  exists req, read_request (HttpWorld := example_world example_header) 0 3%nat = Ok req /\
    "example.com:443" = target_address req.
Proof.
  destruct (serve_requires_credentials (H := example_world example_header) example_config_http
    example_tunnel 3%nat "tcp" "example.com:443" (Ok 7%nat)) as (req & Hr & _ & Ha & _).
  - left. discriminate.
  - vm_compute. elem_here.
  - exists req. split; [exact Hr|exact Ha].
Defined.

(** A refused request is answered and goes no further: the client is sent the status
    of the refusal with the text of [responseWith], the Proxy-Authenticate challenge
    exactly when the status is 407, and nothing else happens but a log entry. *)
Theorem serve_refusal `{HttpWorld} s c req code err :
  read_request 0 c = Ok req -> authenticate s req = (code, Some err) ->
  exists resp werr,
    run (serve s c) = (Done tt, [ReadRequest c (Ok req); WriteResponse c resp werr;
                                 Log "" (Some err)]) /\
    StatusCode resp = code /\
    Resp_Body resp = "wireproxy: " +:+ Proto req +:+ " " +:+ Itoa code +:+ " "
      +:+ StatusText code +:+ crlf /\ StatusText code <> "" /\
    (Header_Get (Resp_Header resp) "Proxy-Authenticate" <> "" <-> code = 407).
Proof.
  intros Hr Ha. destruct (serve_cases s c) as (tr & Hrun & Hcase). rewrite Hr in Hrun, Hcase.
  destruct Hcase as [[Ha' _]|(code' & err' & resp & werr & Ha' & -> & Hs & Hb & Hh)];
    [congruence|].
  rewrite Ha in Ha'. injection Ha' as <- <-. exists resp, werr. split_and!; [done..| |done].
  apply authenticate_codes in Ha. elem_cases Ha; by subst code.
Qed.

Lemma serve_refusal_witness :
  exists resp werr, run (serve (H := example_world "Basic cGV0ZXI6d3Jvbmc=")
      (newHTTPServer example_config_http example_tunnel) 3%nat) =
    (Done tt, [ReadRequest 3%nat (Ok (example_request "Basic cGV0ZXI6d3Jvbmc="));
       WriteResponse 3%nat resp werr;
       Log "" (Some (errorString "username and password not matching"))]) /\ StatusCode resp = 401.
Proof.
  destruct (serve_refusal (H := example_world "Basic cGV0ZXI6d3Jvbmc=")
    (newHTTPServer example_config_http example_tunnel) 3%nat
    (example_request "Basic cGV0ZXI6d3Jvbmc=") 401
    (errorString "username and password not matching")) as (resp & werr & Hrun & Hs & _).
  - reflexivity.
  - vm_compute. reflexivity.
  - exists resp, werr. split; [exact Hrun|exact Hs].
Defined.

(** C31. The dialled address. A host without a colon gets port 443 for CONNECT and 80
    otherwise, and the address splits back into that host and port. A host with a
    colon is dialled as it is: when it is a host and its port, an IPv6 address in
    brackets included, it splits into them; when it is an IPv6 address in brackets
    without a port, no default port is added and the address is refused for the
    missing port. *)
Theorem target_address_correct `{HttpWorld} s c req network address r host :
  read_request 0 c = Ok req -> Dial network address r ∈ events (serve s c) ->
  no_byte "["%char host = true -> no_byte "]"%char host = true ->
  (Host req = host -> no_byte ":"%char host = true ->
     SplitHostPort address = Ok (host, if String.eqb (Method req) "CONNECT" then "443" else "80")) /\
  (no_byte ":"%char (Host req) = false -> address = Host req) /\
  (forall port, decimal port -> Host req = JoinHostPort host port ->
     address = Host req /\ SplitHostPort address = Ok (host, port)) /\
  (Host req = "[" +:+ host +:+ "]" -> no_byte ":"%char host = false ->
     address = Host req /\
     SplitHostPort address = Err (AddrError "missing port in address" address)).
Proof.
  intros Hr (req' & Hr' & _ & _ & ->)%serve_dial H1 H2. rewrite Hr in Hr'. injection Hr' as <-.
  assert (forall h, no_byte ":"%char h = false -> Host req = h ->
    target_address req = Host req) as Hcolon.
  { intros h Hh <-. unfold target_address. by rewrite Contains_byte, ContainsByte_no_byte, Hh. }
  split_and!.
  - intros Hh Hc. unfold target_address, target_port.
    rewrite Hh, Contains_byte, ContainsByte_no_byte, Hc. cbn [negb].
    case_match; by apply SplitHostPort_JoinHostPort.
  - intros Hh. by apply (Hcolon (Host req)).
  - intros port [_ Hp] Hh. rewrite (Hcolon (JoinHostPort host port)), Hh;
      [|apply JoinHostPort_colon|done].
    split; [done|]. apply SplitHostPort_JoinHostPort; try done; by apply digits_no_byte.
  - intros Hh Hc. rewrite (Hcolon ("[" +:+ host +:+ "]")), Hh;
      [|by rewrite !no_byte_app, Hc|done].
    split; [done|]. by apply SplitHostPort_bracketed.
Qed.

Lemma target_address_correct_witness :
  SplitHostPort "example.com:443" = Ok ("example.com", "443").
Proof.
  refine (proj1 (target_address_correct (H := example_world example_header)
    (newHTTPServer example_config_http example_tunnel) 3%nat (example_request example_header)
    "tcp" "example.com:443" (Ok 7%nat) "example.com" _ _ _ _) _ _);
    [reflexivity|vm_compute; elem_here|reflexivity..].
Defined.

(** C32. Connections: a served client never blocks the accept loop nor ends the process,
    and a connection the proxy opened is either closed by [serve] itself or handed to
    two copiers, one for each direction, never both; each copier closes both
    connections when it ends, however its copy ends. *)
Theorem serve_releases_peer `{HttpWorld} s c network address peer :
  (run (serve s c)).1 = Done tt /\
  (Dial network address (Ok peer) ∈ events (serve s c) ->
     (Close peer ∈ events (serve s c) /\ forall g, Go g ∉ events (serve s c)) \/
     (Go (CopyToClient c peer) ∈ events (serve s c) /\
      Go (CopyToPeer c peer) ∈ events (serve s c) /\ Close peer ∉ events (serve s c))) /\
  (forall g, g = CopyToClient c peer \/ g = CopyToPeer c peer ->
     (run (goroutine_body s g)).1 = Done tt /\
     Close c ∈ events (goroutine_body s g) /\ Close peer ∈ events (goroutine_body s g)).
Proof.
  destruct (serve_cases s c) as (tr & Hrun & Hcase). unfold events. rewrite Hrun. cbn [fst snd].
  split; [done|]. split.
  - intros Hin. apply elem_of_cons in Hin as [[=]|Hin].
    destruct (read_request 0 c) as [req|err]; [|by subst; elem_cases Hin].
    destruct Hcase as [[_ Hs]|(code & err & resp & werr & _ & -> & _)]; [|by elem_cases Hin].
    destruct Hs as [err _|p w err err' _ Hw|p w _ ->].
    + elem_cases Hin; simplify_eq.
    + left. assert (p = peer) as -> by (destruct Hw; subst; elem_cases Hin; by simplify_eq).
      split; [elem_here|]. intros g Hg. destruct Hw; subst; elem_cases Hg.
    + right. assert (p = peer) as ->
        by (destruct (String.eqb _ _); elem_cases Hin; by simplify_eq).
      split; [elem_here|]. split; [elem_here|]. intros Hc.
      destruct (String.eqb _ _); elem_cases Hc.
  - intros g [-> | ->]; (split; [done|]); split; elem_here.
Qed.

Lemma serve_releases_peer_witness :
  Go (CopyToPeer 3%nat 7%nat) ∈ events (serve (H := example_world example_header)
    (newHTTPServer example_config_http example_tunnel) 3%nat).
Proof.
  destruct (serve_releases_peer (H := example_world example_header)
    (newHTTPServer example_config_http example_tunnel) 3%nat "tcp" "example.com:443" 7%nat)
    as (_ & Hd & _).
  destruct Hd as [[Hc _]|(_ & Hg & _)].
  - vm_compute. elem_here.
  - exfalso. vm_compute in Hc. elem_cases Hc.
  - exact Hg.
Defined.

(** C34. The client connection is left open on every failing path: as long as the tunnel
    does not hand it out as a new connection, [serve] itself never closes it; only the
    copiers do, which a failing request never starts. *)
Theorem serve_leaves_client_open `{HttpWorld} s c :
  (forall n network address, dial s n network address <> Ok c) ->
  (Close c ∉ events (serve s c)) /\
  (forall req err, read_request 0 c = Ok req -> dial s 1 "tcp" (target_address req) = Err err ->
     forall g, Go g ∉ events (serve s c)).
Proof.
  intros Hfresh. destruct (serve_cases s c) as (tr & Hrun & Hcase).
  unfold events. rewrite Hrun. cbn [snd].
  destruct (read_request 0 c) as [req|err].
  2: { subst. split; [|done]. intros Hc. elem_cases Hc. }
  destruct Hcase as [[_ Hs]|(code & err & resp & werr & _ & -> & _)].
  2: { split; [intros Hc; elem_cases Hc|]. intros ? ? _ _ g Hg. elem_cases Hg. }
  destruct Hs as [err Hd|p w err err' Hd Hw|p w Hd ->]; split.
  - intros Hc. elem_cases Hc.
  - intros ? ? _ _ g Hg. elem_cases Hg.
  - intros Hc. destruct Hw; subst; elem_cases Hc; injection Hc as ->; by apply Hfresh in Hd.
  - intros ? ? [= <-] Hd'. congruence.
  - intros Hc. destruct (String.eqb _ _); elem_cases Hc.
  - intros ? ? [= <-] Hd'. congruence.
Qed.

Definition failing_tunnel (n : nat) (network address : string) : result error conn :=
  Err (libError "no route to host").

Lemma serve_leaves_client_open_witness :
  (Close 3%nat ∉ events (serve (H := example_world example_header)
    (newHTTPServer example_config_http failing_tunnel) 3%nat)) /\
  forall g, Go g ∉ events (serve (H := example_world example_header)
    (newHTTPServer example_config_http failing_tunnel) 3%nat).
Proof.
  destruct (serve_leaves_client_open (H := example_world example_header)
    (newHTTPServer example_config_http failing_tunnel) 3%nat) as [Hc Hg]; [discriminate|].
  split; [exact Hc|].
  apply (Hg (example_request example_header) (libError "no route to host")); reflexivity.
Defined.

(** The accept loop: once the address is bound, every accepted connection is served
    by a goroutine of its own, in the order of arrival, and the server waits for the
    next; the first error of Accept closes the listener and is returned. A bind error
    is returned at once. *)
Theorem ListenAndServe_correct `{HttpWorld} network addr cs e rest :
  match net_listen 0 network addr with
  | Ok _ =>
      let served := Listen network addr (net_listen 0 network addr) ::
                    ((fun c => Go (Serve c)) <$> cs) in
      run (ListenAndServe network addr (Ok <$> cs)) = (Done None, served) /\
      run (ListenAndServe network addr ((Ok <$> cs) ++ Err e :: rest)) =
        (Done (Some (wrapError "accept request failed: " e)), served ++ [CloseListener])
  | Err err =>
      run (ListenAndServe network addr (Ok <$> cs)) =
        (Done (Some (wrapError "listen tcp failed: " err)), [Listen network addr (Err err)])
  end.
Proof.
  unfold run, ListenAndServe, mbind, io_bind, ask. cbn [length app].
  destruct (net_listen 0 network addr) as [[]|err]; [|done].
  by rewrite accept_loop_waits, accept_loop_ends.
Qed.
