(* ===== verification/UdpProxy.v ===== *)
(** * The UDP proxy: src/udp_proxy.go.

    Three kinds of goroutines share the map of sessions: the main loop that reads
    from the local clients, one handler for each session that reads from the tunnel,
    and the cleaner that ends inactive sessions. Their interleavings are the steps of
    a transition system: an [action] is the next statement of one goroutine together
    with the answers of the network, and [step] executes it. The sections under
    [sessionMu] that touch one session are one step each; the cleaner's pass holds the
    mutex over several steps, because the other goroutines update [lastActive] without
    it. A handler sets the read deadline of its connection before each read, and a read
    times out only once that deadline has passed. *)

From S2P Require Import Prelude GoStrings GoStrconv GoNet Config Io.
Local Open Scope Z_scope.

(** ** State *)

(** [closeChan] is [true] once the channel is closed; times are nanoseconds. *)
Record udpSession := {
  remoteConn : conn;
  lastActive : Z;
  closeChan : bool;
  inactivityDur : Z
}.

(** Where a handler is in [handleRemoteToLocal]. *)
Inductive handler_pc :=
| AtSelect                      (* the select at the top of the loop *)
| AtDeadline                    (* remoteConn.SetReadDeadline *)
| AtRead                        (* remoteConn.Read *)
| AtTimeout                     (* the select after a timeout *)
| AtTouch (data : string)       (* s.lastActive = time.Now() *)
| AtDeliver (data : string)     (* ResolveUDPAddr and WriteToUDP *)
| AtRemove                      (* the deferred removeSession *)
| AtClose                       (* the deferred remoteConn.Close *)
| Finished.

(** A session object with the goroutine that was started for it, and the read
    deadline of its connection, if one was set. *)
Record thread := {
  session : udpSession; srcAddr : string; pc : handler_pc; deadline : option Z
}.

(** Where the main loop is. *)
Inductive main_pc :=
| MainRead
| MainSession (src : string) (data : string)
| MainTouch (src : string) (sess : nat) (data : string)
| MainWrite (src : string) (sess : nat) (data : string).

(** Where the cleaner is; it holds [sessionMu] while it scans. *)
Inductive cleaner_pc :=
| Idle
| Locking (now : Z)
| Scanning (now : Z) (keys : list string).

(** The session objects are known by a number, their address. *)
Record state := {
  clock : Z;
  threads : gmap nat thread;
  sessions : gmap string nat;
  main : main_pc;
  cleaner : cleaner_pc;
  closed : list conn
}.

Definition second : Z := 1000000000.

(** [time.Duration(conf.InactivityTimeout) * time.Second] *)
Definition inactivity_duration (conf : UDPProxyTunnelConfig) : Z :=
  sint 64 (InactivityTimeout conf * second).

Definition initial_state (now : Z) : state :=
  {| clock := now; threads := ∅; sessions := ∅; main := MainRead; cleaner := Idle; closed := [] |}.

Definition set_session (f : udpSession -> udpSession) (t : thread) : thread :=
  t <| session := f (session t) |>.
Definition goto_pc (p : handler_pc) (t : thread) : thread := t <| pc := p |>.
Definition set_deadline (at_ : Z) (t : thread) : thread := t <| deadline := Some at_ |>.
Definition touch (now : Z) : thread -> thread := set_session (fun s => s <| lastActive := now |>).
Definition on_thread (sess : nat) (f : thread -> thread) (st : state) : state :=
  st <| threads := alter f sess (threads st) |>.

(** ** Operations *)

(** [close(ch)] panics, here [None], when the channel is closed already. *)
Definition close_chan (ch : bool) : option bool := if ch then None else Some true.

Definition closeSessionChan (s : udpSession) : option udpSession :=
  if closeChan s then Some s
  else ch ← close_chan (closeChan s); Some (s <| closeChan := ch |>).

(** Closing the channel of the session at an address; [None] is a panic. *)
Definition close_session (sess : nat) (st : state) : option state :=
  match threads st !! sess with
  | Some t => s ← closeSessionChan (session t); Some (on_thread sess (set_session (fun _ => s)) st)
  | None => None
  end.

Definition locked (st : state) : bool :=
  match cleaner st with Scanning _ _ => true | _ => false end.

Definition removeSession (src : string) (sess : nat) (st : state) : option state :=
  match sessions st !! src with
  | Some current =>
      if decide (current = sess) then
        st ← close_session current st; Some (st <| sessions := delete src (sessions st) |>)
      else Some st
  | None => Some st
  end.

Definition getOrCreateSession (conf : UDPProxyTunnelConfig) (src : string)
    (dial : result error conn) (st : state) : state * result error nat :=
  match sessions st !! src with
  | Some s => (on_thread s (touch (clock st)) st, Ok s)
  | None =>
      match dial with
      | Err err => (st, Err (wrapError ("UDPProxyTunnel: could not Dial(" +:+ UDP_Target conf
                                        +:+ "): ") err))
      | Ok remote =>
          let s := fresh (dom (threads st)) in
          let sess := {| remoteConn := remote; lastActive := clock st; closeChan := false;
                         inactivityDur := inactivity_duration conf |} in
          (st <| threads := <[s := {| session := sess; srcAddr := src; pc := AtSelect;
                                   deadline := None |}]> (threads st) |>
              <| sessions := <[src := s]> (sessions st) |>, Ok s)
      end
  end.

(** The body of the cleaner's loop over the map, for one key. *)
Definition clean_session (conf : UDPProxyTunnelConfig) (now : Z) (key : string) (st : state) :
    option state :=
  match sessions st !! key with
  | Some sess =>
      match threads st !! sess with
      | Some t =>
          if now - lastActive (session t) >=? inactivity_duration conf then
            st ← close_session sess st; Some (st <| sessions := delete key (sessions st) |>)
          else Some st
      | None => None
      end
  | None => Some st
  end.

(** ** Steps *)

(** What [remoteConn.Read] returns: a datagram, an error whose [Timeout()] is true,
    which it returns only once the read deadline has passed, or another error. *)
Inductive read_result := ReadData (data : string) | ReadTimeout | ReadError (err : error).

Inductive action :=
| Advance (d : Z)                                        (* time passes *)
| Receive (r : result error (TCPAddr * string))          (* listener.ReadFromUDP *)
| Lookup (dial : result error conn)                      (* getOrCreateSession *)
| Touch                                                  (* s.lastActive = time.Now() *)
| Forward (err : option error)                           (* s.remoteConn.Write *)
| Tick                                                   (* the ticker; now := time.Now() *)
| Lock (keys : list string)                              (* sessionMu.Lock(); range sessions *)
| Clean                                                  (* one iteration of the range *)
| Unlock
| Select (sess : nat)
| SetDeadline (sess : nat) (err : option error)          (* remoteConn.SetReadDeadline *)
| Read (sess : nat) (r : read_result)
| TimeoutSelect (sess : nat)
| TouchRemote (sess : nat)
| Deliver (sess : nat) (err : option error)
| Remove (sess : nat)
| CloseRemote (sess : nat).

(** The result of a step: it may not be possible now, or panic. *)
Inductive stepped := Stuck | Panic | Next (st : state).

Definition or_panic (m : option state) : stepped :=
  match m with Some st => Next st | None => Panic end.

Class UdpWorld := {
  (** [net.ResolveUDPAddr("udp", text)] *)
  ResolveUDPAddr : string -> result error TCPAddr;
  (** [net.ListenUDP("udp", addr)] *)
  ListenUDP : TCPAddr -> result error unit
}.

(** [UDPAddr.String]: the address, in brackets when it has a colon, and the port. *)
Definition UDPAddr_String (a : TCPAddr) : string :=
  JoinHostPort (TCPAddr_IP a) (Itoa (TCPAddr_Port a)).

Section steps.
Context `{UdpWorld} (conf : UDPProxyTunnelConfig).
Implicit Types (st : state).

(** [SpawnRoutine] up to the start of its goroutines. *)
Definition UDP_SpawnRoutine (now : Z) : outcome state :=
  match ResolveUDPAddr (UDP_BindAddress conf) with
  | Err _ => Exited
  | Ok addr =>
      match ListenUDP addr with
      | Err _ => Exited
      | Ok _ => Done (initial_state now)
      end
  end.

(** The main loop. *)
Definition main_step st (a : action) : stepped :=
  match main st, a with
  | MainRead, Receive (Err _) => Next st
  | MainRead, Receive (Ok (src, data)) =>
      Next (st <| main := MainSession (UDPAddr_String src) data |>)
  | MainSession src data, Lookup dial =>
      if locked st then Stuck
      else match getOrCreateSession conf src dial st with
           | (st, Err _) => Next (st <| main := MainRead |>)
           | (st, Ok s) => Next (st <| main := MainTouch src s data |>)
           end
  | MainTouch src s data, Touch =>
      Next (on_thread s (touch (clock st)) st <| main := MainWrite src s data |>)
  | MainWrite src s data, Forward _ => Next (st <| main := MainRead |>)
  | _, _ => Stuck
  end.

(** The cleaner, which runs only with an inactivity timeout. *)
Definition cleaner_step st (a : action) : stepped :=
  match cleaner st, a with
  | Idle, Tick =>
      if InactivityTimeout conf >? 0 then Next (st <| cleaner := Locking (clock st) |>) else Stuck
  | Locking now, Lock keys =>
      if bool_decide (keys ≡ₚ (map_to_list (sessions st)).*1)
      then Next (st <| cleaner := Scanning now keys |>) else Stuck
  | Scanning now (key :: keys), Clean =>
      or_panic (st ← clean_session conf now key st; Some (st <| cleaner := Scanning now keys |>))
  | Scanning now [], Unlock => Next (st <| cleaner := Idle |>)
  | _, _ => Stuck
  end.

(** The read deadline of the connection has passed. *)
Definition past_deadline st (t : thread) : bool :=
  match deadline t with Some at_ => at_ <=? clock st | None => false end.

(** A handler: [handleRemoteToLocal] with its deferred function. *)
Definition handler_step st (sess : nat) (t : thread) (a : action) : stepped :=
  let goto p := Next (on_thread sess (goto_pc p) st) in
  match pc t, a with
  | AtSelect, Select _ => goto (if closeChan (session t) then AtRemove else AtDeadline)
  | AtDeadline, SetDeadline _ None =>
      Next (on_thread sess (fun t => goto_pc AtRead (set_deadline (clock st + 5 * second) t)) st)
  | AtDeadline, SetDeadline _ (Some _) => goto AtRead
  | AtRead, Read _ (ReadData data) => goto (AtTouch data)
  | AtRead, Read _ ReadTimeout => if past_deadline st t then goto AtTimeout else Stuck
  | AtRead, Read _ (ReadError _) => goto AtRemove
  | AtTimeout, TimeoutSelect _ => goto (if closeChan (session t) then AtRemove else AtSelect)
  | AtTouch data, TouchRemote _ =>
      Next (on_thread sess (fun t => goto_pc (AtDeliver data) (touch (clock st) t)) st)
  | AtDeliver data, Deliver _ err =>
      match ResolveUDPAddr (srcAddr t), err with
      | Ok _, None => goto AtSelect
      | _, _ => goto AtRemove
      end
  | AtRemove, Remove _ =>
      if locked st then Stuck
      else or_panic (st ← removeSession (srcAddr t) sess st;
                     Some (on_thread sess (goto_pc AtClose) st))
  | AtClose, CloseRemote _ =>
      Next (on_thread sess (goto_pc Finished) st
              <| closed := closed st ++ [remoteConn (session t)] |>)
  | _, _ => Stuck
  end.

(** A connection that [Dial] returns is a new one. *)
Definition new_conn st (c : conn) : bool :=
  bool_decide (map_Forall (fun _ t => remoteConn (session t) <> c) (threads st)).

Definition step st (a : action) : stepped :=
  match a with
  | Advance d => if 0 <=? d then Next (st <| clock := clock st + d |>) else Stuck
  | Receive _ | Touch | Forward _ => main_step st a
  | Lookup dial =>
      match dial with
      | Ok c => if new_conn st c then main_step st a else Stuck
      | Err _ => main_step st a
      end
  | Tick | Lock _ | Clean | Unlock => cleaner_step st a
  | Select s | SetDeadline s _ | Read s _ | TimeoutSelect s | TouchRemote s | Deliver s _ | Remove s
  | CloseRemote s =>
      match threads st !! s with Some t => handler_step st s t a | None => Stuck end
  end.

(** The datagrams a step sends: to the tunnel on a connection, to a local client. *)
Inductive datagram :=
| ToRemote (c : conn) (data : string)
| ToLocal (dst : TCPAddr) (data : string).

Definition sends st (a : action) : list datagram :=
  match a with
  | Forward _ =>
      match main st with
      | MainWrite _ s data =>
          match threads st !! s with
          | Some t => [ToRemote (remoteConn (session t)) data]
          | None => []
          end
      | _ => []
      end
  | Deliver s _ =>
      match threads st !! s with
      | Some t =>
          match pc t, ResolveUDPAddr (srcAddr t) with
          | AtDeliver data, Ok dst => [ToLocal dst data]
          | _, _ => []
          end
      | None => []
      end
  | _ => []
  end.

Inductive reachable (now : Z) : state -> Prop :=
| reachable_initial : reachable now (initial_state now)
| reachable_step st a st' : reachable now st -> step st a = Next st' -> reachable now st'.

Fixpoint steps st (actions : list action) : stepped :=
  match actions with
  | [] => Next st
  | a :: actions =>
      match step st a with Next st => steps st actions | r => r end
  end.

End steps.

(** ** The invariant *)

(** A handler that has not removed its session yet. *)
Definition alive (p : handler_pc) : Prop := p <> AtClose /\ p <> Finished.

Definition main_session (p : main_pc) : option (string * nat) :=
  match p with
  | MainTouch src s _ | MainWrite src s _ => Some (src, s)
  | _ => None
  end.

Record inv (st : state) : Prop := {
  (* a session in the map is open and belongs to its key *)
  inv_map src s : sessions st !! src = Some s ->
    exists t, threads st !! s = Some t /\ srcAddr t = src /\ closeChan (session t) = false;
  (* an open session is in the map, and its handler runs *)
  inv_open s t : threads st !! s = Some t -> closeChan (session t) = false ->
    sessions st !! srcAddr t = Some s /\ alive (pc t);
  (* the connections of finished handlers are closed, the others are not *)
  inv_closed s t : threads st !! s = Some t ->
    (remoteConn (session t) ∈ closed st <-> pc t = Finished);
  inv_closed_once : NoDup (closed st);
  inv_closed_conn c : c ∈ closed st ->
    exists s t, threads st !! s = Some t /\ remoteConn (session t) = c;
  (* sessions do not share connections *)
  inv_conns s s' t t' : threads st !! s = Some t -> threads st !! s' = Some t' ->
    remoteConn (session t) = remoteConn (session t') -> s = s';
  (* the main loop writes to a session of the client it read from *)
  inv_main src s : main_session (main st) = Some (src, s) ->
    exists t, threads st !! s = Some t /\ srcAddr t = src;
  inv_time s t : threads st !! s = Some t -> lastActive (session t) <= clock st
}.

Lemma inv_initial now : inv (initial_state now).
Proof. split; cbn; intros; try done; try (by rewrite lookup_empty in *); try constructor; set_solver. Qed.

(** Steps that leave the sessions alone. *)
Lemma inv_frame st st' :
  threads st' = threads st -> sessions st' = sessions st -> closed st' = closed st ->
  clock st <= clock st' -> main_session (main st') = None \/ main_session (main st') = main_session (main st) ->
  inv st -> inv st'.
Proof.
  intros Et Es Ec Hc Hm [H1 H2 H3 H4 H5 H6 H7 H8].
  split; rewrite ?Et, ?Es, ?Ec; try done.
  - intros src s E. destruct Hm as [Hm|Hm]; rewrite Hm in E; [done|by apply H7].
  - intros s t E. specialize (H8 s t E). lia.
Qed.

(** Steps that change one thread, but neither its identity nor its channel. *)
Lemma inv_on_thread st s f :
  inv st ->
  (forall t, threads st !! s = Some t ->
     srcAddr (f t) = srcAddr t /\ remoteConn (session (f t)) = remoteConn (session t) /\
     closeChan (session (f t)) = closeChan (session t) /\
     lastActive (session (f t)) <= clock st /\ (pc (f t) = Finished <-> pc t = Finished) /\
     (closeChan (session t) = false -> alive (pc (f t)))) ->
  inv (on_thread s f st).
Proof.
  intros [H1 H2 H3 H4 H5 H6 H7 H8] Hf.
  assert (forall s' t', alter f s (threads st) !! s' = Some t' ->
    exists t, threads st !! s' = Some t /\ (t' = t /\ s' <> s \/ t' = f t /\ s' = s)) as Hl.
  { intros s' t' E. destruct (decide (s' = s)) as [->|].
    - rewrite lookup_alter_eq in E. apply fmap_Some in E as (t & E & ->). eauto 6.
    - rewrite lookup_alter_ne in E by done. eauto 6. }
  assert (forall s' t, threads st !! s' = Some t -> exists t',
    alter f s (threads st) !! s' = Some t' /\ srcAddr t' = srcAddr t /\
    remoteConn (session t') = remoteConn (session t) /\
    closeChan (session t') = closeChan (session t)) as Hl'.
  { intros s' t E. destruct (decide (s' = s)) as [->|].
    - exists (f t). rewrite lookup_alter_eq, E. destruct (Hf t E) as (? & ? & ? & _). done.
    - exists t. by rewrite lookup_alter_ne. }
  split; change (threads (on_thread s f st)) with (alter f s (threads st));
    change (sessions (on_thread s f st)) with (sessions st);
    change (closed (on_thread s f st)) with (closed st);
    change (main (on_thread s f st)) with (main st);
    change (clock (on_thread s f st)) with (clock st).
  - intros src s' E. destruct (H1 src s' E) as (t & Et & <- & Ho).
    destruct (Hl' s' t Et) as (t' & E1 & E2 & _ & E3). exists t'. by rewrite E2, E3.
  - intros s' t' (t & Et & [[-> _]|[-> ->]])%Hl; [by apply H2|].
    destruct (Hf t Et) as (-> & _ & -> & _ & _ & Ha). intros Ho.
    split; [by apply H2|by apply Ha].
  - intros s' t' (t & Et & [[-> _]|[-> ->]])%Hl; [by eapply H3|].
    destruct (Hf t Et) as (_ & -> & _ & _ & -> & _). by eapply H3.
  - done.
  - intros c Hc. destruct (H5 c Hc) as (s' & t & Et & <-).
    destruct (Hl' s' t Et) as (t' & ? & _ & ? & _). eauto.
  - intros s1 s2 t1 t2 (t & Et & Ht)%Hl (t' & Et' & Ht')%Hl.
    assert (remoteConn (session t1) = remoteConn (session t)) as ->
      by (destruct Ht as [[-> _]|[-> ->]]; [done|by apply Hf]).
    assert (remoteConn (session t2) = remoteConn (session t')) as ->
      by (destruct Ht' as [[-> _]|[-> ->]]; [done|by apply Hf]).
    by apply H6.
  - intros src s' E. destruct (H7 src s' E) as (t & Et & <-).
    destruct (Hl' s' t Et) as (t' & ? & ? & _). eauto.
  - intros s' t' (t & Et & [[-> _]|[-> ->]])%Hl; [by eapply H8|]. by apply Hf.
Qed.

(** A session that ends: its channel is closed and it leaves the map. *)
Lemma inv_end_session st src s :
  inv st -> sessions st !! src = Some s ->
  exists st', close_session s st = Some st' /\
    inv (st' <| sessions := delete src (sessions st') |>).
Proof.
  intros [H1 H2 H3 H4 H5 H6 H7 H8] Hs. destruct (H1 src s Hs) as (t & Et & Hsrc & Ho).
  set (t' := set_session (fun u => u <| closeChan := true |>) t).
  exists (on_thread s (set_session (fun _ => session t')) st). split.
  { unfold close_session. rewrite Et. unfold closeSessionChan. by rewrite Ho. }
  set (st' := on_thread _ _ _).
  assert (alter (set_session (fun _ => session t')) s (threads st) = <[s := t']> (threads st)) as Ea.
  { apply map_eq. intros i. destruct (decide (i = s)) as [->|].
    - by rewrite lookup_alter_eq, lookup_insert_eq, Et.
    - by rewrite lookup_alter_ne, lookup_insert_ne. }
  assert (forall i u, <[s := t']> (threads st) !! i = Some u ->
    (i = s /\ u = t') \/ (i <> s /\ threads st !! i = Some u)) as Hl
    by (intros i u; rewrite lookup_insert_Some; naive_solver).
  assert (forall i u, threads st !! i = Some u -> exists u',
    <[s := t']> (threads st) !! i = Some u' /\ srcAddr u' = srcAddr u /\
    remoteConn (session u') = remoteConn (session u)) as Hl'.
  { intros i u E. destruct (decide (i = s)) as [->|].
    - exists t'. rewrite lookup_insert_eq. rewrite Et in E. by injection E as <-.
    - exists u. by rewrite lookup_insert_ne. }
  match goal with |- inv ?x => set (fin := x) end.
  split; change (threads fin) with (alter (set_session (fun _ => session t')) s (threads st));
    rewrite ?Ea; change (sessions fin) with (delete src (sessions st));
    change (closed fin) with (closed st); change (main fin) with (main st);
    change (clock fin) with (clock st).
  - intros src' s' [Hne E]%lookup_delete_Some. destruct (H1 _ _ E) as (u & Eu & Hu & Ho').
    exists u. split; [|done]. rewrite lookup_insert_ne; [done|]. intros <-.
    rewrite Et in Eu. injection Eu as <-. congruence.
  - intros i u [[-> ->]|[Hi E]]%Hl; [done|]. intros Ho'. destruct (H2 i u E Ho') as [Hm Ha].
    split; [|done]. apply lookup_delete_Some. split; [|done]. intros ->. congruence.
  - intros i u [[-> ->]|[Hi E]]%Hl; [|by eapply H3]. by apply (H3 s t).
  - done.
  - intros c Hc. destruct (H5 c Hc) as (i & u & E & <-).
    destruct (Hl' i u E) as (u' & ? & _ & ?). eauto.
  - intros i j u v Hu Hv E. apply Hl in Hu as [[-> ->]|[Hi Eu]], Hv as [[-> ->]|[Hj Ev]];
      [done| | |by eapply H6]; [by apply (H6 s j t v)|by apply (H6 i s u t)].
  - intros src' i E. destruct (H7 src' i E) as (u & Eu & <-).
    destruct (Hl' i u Eu) as (u' & ? & ? & _). eauto.
  - intros i u [[-> ->]|[Hi E]]%Hl; [by apply (H8 s t)|by eapply H8].
Qed.

(** A session that starts. *)
Lemma inv_create st src c conf :
  inv st -> sessions st !! src = None -> new_conn st c = true ->
  inv (getOrCreateSession conf src (Ok c) st).1.
Proof.
  intros [H1 H2 H3 H4 H5 H6 H7 H8] Hs Hc%bool_decide_eq_true. unfold getOrCreateSession. rewrite Hs.
  cbn [fst]. set (s := fresh _). set (t := Build_thread _ _ _ _).
  assert (threads st !! s = None) as HN by (apply not_elem_of_dom, is_fresh).
  assert (forall i u, <[s := t]> (threads st) !! i = Some u ->
    (i = s /\ u = t) \/ (i <> s /\ threads st !! i = Some u)) as Hl
    by (intros i u; rewrite lookup_insert_Some; naive_solver).
  assert (forall i u, threads st !! i = Some u -> <[s := t]> (threads st) !! i = Some u) as Hl'
    by (intros i u E; rewrite lookup_insert_ne; [done|intros <-; congruence]).
  assert (remoteConn (session t) ∉ closed st) as Hnc.
  { intros (i & u & E & Eu)%H5. by apply (Hc i u E). }
  match goal with |- inv ?x => set (fin := x) end.
  split; change (threads fin) with (<[s := t]> (threads st));
    change (sessions fin) with (<[src := s]> (sessions st));
    change (closed fin) with (closed st); change (main fin) with (main st);
    change (clock fin) with (clock st).
  - intros src' s' [[<- <-]|[Hne E]]%lookup_insert_Some.
    + exists t. by rewrite lookup_insert_eq.
    + destruct (H1 _ _ E) as (u & Eu & Hu). exists u. split; [by apply Hl'|done].
  - intros i u [[-> ->]|[Hi E]]%Hl Ho; [by rewrite lookup_insert_eq|].
    destruct (H2 i u E Ho) as [Hm Ha]. split; [|done].
    rewrite lookup_insert_ne; [done|]. intros E'. congruence.
  - intros i u [[-> ->]|[Hi E]]%Hl; [|by eapply H3]. split; [done|by intros [=]].
  - done.
  - intros c' Hc'. destruct (H5 c' Hc') as (i & u & E & <-). eauto.
  - intros i j u v Hu Hv E. apply Hl in Hu as [[-> ->]|[Hi Eu]], Hv as [[-> ->]|[Hj Ev]];
      [done| | |by eapply H6]; exfalso; [by apply (Hc j v)|by apply (Hc i u)].
  - intros src' i E. destruct (H7 src' i E) as (u & Eu & <-). eauto.
  - intros i u [[-> ->]|[Hi E]]%Hl; [cbn; lia|by eapply H8].
Qed.

(** Moving on in a handler. *)
Lemma inv_goto st s t p :
  inv st -> threads st !! s = Some t -> pc t <> Finished -> p <> Finished ->
  (closeChan (session t) = false -> p <> AtClose) -> inv (on_thread s (goto_pc p) st).
Proof.
  intros Hi Et Hp Hp' Hc. apply inv_on_thread; [done|]. intros t' E. rewrite Et in E.
  injection E as <-. cbn. split_and!; try done; [by eapply inv_time|].
  intros Ho. split; [by apply Hc|done].
Qed.

Lemma inv_touch st s : inv st -> inv (on_thread s (touch (clock st)) st).
Proof.
  intros Hi. apply inv_on_thread; [done|]. intros t E. cbn. split_and!; try done; try lia.
  intros Ho. by apply (inv_open _ Hi s t).
Qed.

Lemma inv_remove st s src :
  inv st -> exists st', removeSession src s st = Some st' /\ inv st' /\
    cleaner st' = cleaner st /\ main st' = main st /\ clock st' = clock st /\
    closed st' = closed st /\
    (forall t, threads st !! s = Some t -> srcAddr t = src -> exists t', threads st' !! s = Some t' /\
       closeChan (session t') = true /\ pc t' = pc t /\
       remoteConn (session t') = remoteConn (session t) /\ srcAddr t' = srcAddr t).
Proof.
  intros Hi. unfold removeSession.
  destruct (sessions st !! src) as [s'|] eqn:Hs; [destruct (decide (s' = s)) as [->|Hne]|].
  - destruct (inv_end_session st src s Hi Hs) as (st' & Hc & Hi'). rewrite Hc.
    eexists. split; [reflexivity|]. split; [done|].
    unfold close_session in Hc. destruct (threads st !! s) as [t|] eqn:Et; [|done].
    destruct (closeSessionChan (session t)) as [u|] eqn:Eu; [|done]. cbn in Hc. injection Hc as <-.
    split_and!; [done..|]. intros t' [= <-] _.
    unfold closeSessionChan in Eu. destruct (inv_map _ Hi _ _ Hs) as (t' & Et' & _ & Ho).
    rewrite Et in Et'. injection Et' as <-. rewrite Ho in Eu. injection Eu as <-.
    exists (set_session (fun u => u <| closeChan := true |>) t). split; [|done].
    refine (eq_trans (lookup_alter_eq _ _ _) _). by rewrite Et.
  - exists st. split_and!; [done..|]. intros t Et <-. exists t. split_and!; try done.
    destruct (closeChan (session t)) eqn:Ho; [done|]. destruct (inv_open _ Hi s t Et Ho). congruence.
  - exists st. split_and!; [done..|]. intros t Et <-. exists t. split_and!; try done.
    destruct (closeChan (session t)) eqn:Ho; [done|]. destruct (inv_open _ Hi s t Et Ho). congruence.
Qed.

Lemma inv_set_main st p :
  inv st -> (forall src s, main_session p = Some (src, s) ->
    exists t, threads st !! s = Some t /\ srcAddr t = src) -> inv (st <| main := p |>).
Proof. intros [H1 H2 H3 H4 H5 H6 H7 H8] Hp. by split. Qed.

(** The end of a handler closes its connection, for the first time. *)
Lemma inv_close_remote st s t :
  inv st -> threads st !! s = Some t -> pc t = AtClose ->
  inv (on_thread s (goto_pc Finished) st <| closed := closed st ++ [remoteConn (session t)] |>).
Proof.
  intros Hi Et Ep. assert (remoteConn (session t) ∉ closed st) as Hnc
    by (rewrite (inv_closed _ Hi s t Et), Ep; done).
  assert (closeChan (session t) = true) as Hc.
  { destruct (closeChan (session t)) eqn:Ho; [done|].
    destruct (inv_open _ Hi s t Et Ho) as [_ [Ha _]]. congruence. }
  destruct Hi as [H1 H2 H3 H4 H5 H6 H7 H8].
  assert (alter (goto_pc Finished) s (threads st) = <[s := goto_pc Finished t]> (threads st)) as Ea.
  { apply map_eq. intros i. destruct (decide (i = s)) as [->|].
    - by rewrite lookup_alter_eq, lookup_insert_eq, Et.
    - by rewrite lookup_alter_ne, lookup_insert_ne. }
  assert (forall i u, <[s := goto_pc Finished t]> (threads st) !! i = Some u ->
    exists u', threads st !! i = Some u' /\ session u = session u' /\ srcAddr u = srcAddr u' /\
      (i = s /\ u' = t /\ pc u = Finished \/ i <> s /\ u = u')) as Hl.
  { intros i u [[<- <-]|[Hi E]]%lookup_insert_Some; [exists t; naive_solver|exists u; naive_solver]. }
  assert (forall i u, threads st !! i = Some u -> exists u',
    <[s := goto_pc Finished t]> (threads st) !! i = Some u' /\ session u' = session u /\
    srcAddr u' = srcAddr u) as Hl'.
  { intros i u E. destruct (decide (i = s)) as [->|].
    - exists (goto_pc Finished t). rewrite lookup_insert_eq. rewrite Et in E. by injection E as <-.
    - exists u. by rewrite lookup_insert_ne. }
  match goal with |- inv ?x => set (fin := x) end.
  split; change (threads fin) with (alter (goto_pc Finished) s (threads st));
    rewrite ?Ea; change (sessions fin) with (sessions st);
    change (closed fin) with (closed st ++ [remoteConn (session t)]);
    change (main fin) with (main st); change (clock fin) with (clock st).
  - intros src i E. destruct (H1 _ _ E) as (u & Eu & <- & Ho).
    destruct (Hl' i u Eu) as (u' & ? & Es & ?). exists u'. by rewrite Es.
  - intros i u (u' & Eu & Es & Er & Hu)%Hl. rewrite Es, Er. intros Ho.
    destruct Hu as [(-> & -> & _)|(_ & ->)]; [congruence|by apply H2].
  - intros i u (u' & Eu & Es & Er & Hu)%Hl. rewrite Es, elem_of_app, list_elem_of_singleton.
    destruct Hu as [(-> & -> & ->)|(Hne & ->)]; [naive_solver|].
    rewrite (H3 i u' Eu). split; [|by left]. intros [|E]; [done|].
    destruct Hne. by apply (H6 i s u' t).
  - apply NoDup_app. split_and!; [done| |apply NoDup_singleton].
    intros c Hc' Hs%list_elem_of_singleton. by subst.
  - intros c Hin. apply elem_of_app in Hin as [Hc'|Hc'].
    + destruct (H5 c Hc') as (i & u & Eu & <-). destruct (Hl' i u Eu) as (u' & ? & Es & _).
      exists i, u'. by rewrite Es.
    + apply list_elem_of_singleton in Hc' as ->. exists s, (goto_pc Finished t).
      by rewrite lookup_insert_eq.
  - intros i j u v (u' & Eu & Es & _)%Hl (v' & Ev & Es' & _)%Hl. rewrite Es, Es'. by apply H6.
  - intros src i E. destruct (H7 src i E) as (u & Eu & <-).
    destruct (Hl' i u Eu) as (u' & ? & _ & ?). eauto.
  - intros i u (u' & Eu & Es & _)%Hl. rewrite Es. by eapply H8.
Qed.

Section invariant.
Context `{UdpWorld} (conf : UDPProxyTunnelConfig).

Lemma inv_main_step st a :
  inv st -> (forall c, a = Lookup (Ok c) -> new_conn st c = true) ->
  match main_step conf st a with Stuck => True | Panic => False | Next st' => inv st' end.
Proof.
  intros Hi Hn. unfold main_step.
  destruct (main st) as [|src data|src s data|src s data] eqn:Em; destruct a; try done.
  - destruct r as [[src data]|err]; [|done]. by apply inv_set_main.
  - destruct (locked st); [done|]. destruct (sessions st !! src) as [s|] eqn:Hs.
    + unfold getOrCreateSession. rewrite Hs. apply (inv_set_main (on_thread s (touch (clock st)) st)).
      * by apply inv_touch.
      * intros src' s' [= <- <-]. destruct (inv_map _ Hi _ _ Hs) as (t & Et & Hsrc & _).
        exists (touch (clock st) t). split; [|done].
        refine (eq_trans (lookup_alter_eq _ _ _) _). by rewrite Et.
    + destruct dial as [c|err].
      * pose proof (inv_create st src c conf Hi Hs (Hn c eq_refl)) as Hi'.
        unfold getOrCreateSession in *. rewrite Hs in *. cbn [fst] in Hi'.
        apply inv_set_main; [done|]. intros src' s' [= <- <-].
        eexists. split; [apply lookup_insert_eq|done].
      * unfold getOrCreateSession. rewrite Hs. by apply inv_set_main.
  - apply (inv_set_main (on_thread s (touch (clock st)) st)); [by apply inv_touch|].
    intros src' s' [= <- <-]. destruct (inv_main _ Hi src s) as (t & Et & Hsrc); [by rewrite Em|].
    exists (touch (clock st) t). split; [|done].
    refine (eq_trans (lookup_alter_eq _ _ _) _). by rewrite Et.
  - by apply inv_set_main.
Qed.

Lemma inv_cleaner_step st a :
  inv st -> match cleaner_step conf st a with Stuck => True | Panic => False | Next st' => inv st' end.
Proof.
  intros Hi. assert (forall c, inv (st <| cleaner := c |>)) as Hc
    by (intros c; eapply (inv_frame st); try done; by right).
  unfold cleaner_step. destruct (cleaner st) as [|now|now [|key keys]]; destruct a; try done.
  - by destruct (InactivityTimeout conf >? 0).
  - by destruct (bool_decide _).
  - unfold clean_session. destruct (sessions st !! key) as [s|] eqn:Hs; [|apply Hc].
    destruct (inv_map _ Hi _ _ Hs) as (t & -> & _). destruct (_ >=? _); [|apply Hc].
    destruct (inv_end_session st key s Hi Hs) as (st' & -> & Hi').
    eapply inv_frame; [..|exact Hi']; try done; by right.
Qed.

Lemma inv_handler_step st s t a :
  inv st -> threads st !! s = Some t ->
  match handler_step st s t a with Stuck => True | Panic => False | Next st' => inv st' end.
Proof.
  intros Hi Et.
  assert (forall p, pc t <> Finished -> p <> Finished -> p <> AtClose -> inv (on_thread s (goto_pc p) st))
    as Hgo by (intros; by eapply inv_goto).
  unfold handler_step.
  destruct (pc t) as [| | | |data|data| | |] eqn:Ep; destruct a; try done.
  - by destruct (closeChan (session t)); apply Hgo.
  - destruct err; [by apply Hgo|]. apply inv_on_thread; [done|].
    intros t' E. rewrite Et in E. injection E as <-.
    cbn. split_and!; try done; [by eapply inv_time|]. rewrite Ep. by split.
  - destruct r; [by apply Hgo| |by apply Hgo]. destruct (past_deadline st t); [by apply Hgo|done].
  - by destruct (closeChan (session t)); apply Hgo.
  - apply inv_on_thread; [done|]. intros t' E. rewrite Et in E. injection E as <-.
    cbn. split_and!; try done. rewrite Ep. by split.
  - destruct (ResolveUDPAddr _), err; by apply Hgo.
  - destruct (locked st); [done|].
    destruct (inv_remove st s (srcAddr t) Hi) as (st' & -> & Hi' & _ & _ & _ & _ & Ht).
    destruct (Ht t Et eq_refl) as (t' & Et' & Ho & Ep' & _). cbn.
    eapply inv_goto; [done..|congruence|done|]. congruence.
  - eapply inv_close_remote; [done..|]. by rewrite Ep.
Qed.

End invariant.

Section reachability.
Context `{UdpWorld} (conf : UDPProxyTunnelConfig).

Lemma inv_step st a :
  inv st -> match step conf st a with Stuck => True | Panic => False | Next st' => inv st' end.
Proof.
  intros Hi. destruct a; cbn [step]; try (by apply inv_main_step); try (by apply inv_cleaner_step);
    try (destruct (threads st !! sess) eqn:Et; [by apply inv_handler_step|done]).
  - destruct (Z.leb_spec 0 d); [|done]. eapply (inv_frame st); try done; [change (clock st <= clock st + d); lia|by right].
  - destruct dial as [c|err]; [|by apply inv_main_step].
    destruct (new_conn st c) eqn:Hn; [|done]. apply inv_main_step; [done|]. by intros c' [= <-].
Qed.

Lemma reachable_inv now st : reachable conf now st -> inv st.
Proof.
  induction 1 as [|st a st' Hr IH Hs]; [apply inv_initial|].
  pose proof (inv_step st a IH) as Hi. by rewrite Hs in Hi.
Qed.

End reachability.

(** ** What a step does to a session *)

(** The identity of a session never changes, and its channel stays closed. *)
Definition same_session (t t' : thread) : Prop :=
  srcAddr t' = srcAddr t /\ remoteConn (session t') = remoteConn (session t) /\
  (closeChan (session t) = true -> closeChan (session t') = true).

#[global] Instance same_session_preorder : PreOrder same_session.
Proof.
  split; [by intros t; unfold same_session; auto|].
  intros t1 t2 t3 (H1 & H2 & ?) (H3 & H4 & ?). unfold same_session. rewrite H3, H4. auto.
Qed.

(** The goroutine an action belongs to, when it is a handler. *)
Definition handler_of (a : action) : option nat :=
  match a with
  | Select s | SetDeadline s _ | Read s _ | TimeoutSelect s | TouchRemote s | Deliver s _ | Remove s
  | CloseRemote s => Some s
  | _ => None
  end.

(** Every thread of the first state lives on in the second; threads other than
    [own] stay where they are, and [lastActive] is only ever set to [now]. *)
Definition continues (own : option nat) (now : Z) (st st' : state) : Prop :=
  forall s t, threads st !! s = Some t -> exists t', threads st' !! s = Some t' /\
    same_session t t' /\ (own <> Some s -> pc t' = pc t /\ deadline t' = deadline t) /\
    (lastActive (session t') = lastActive (session t) \/ lastActive (session t') = now).

Lemma continues_same own now st st' : threads st' = threads st -> continues own now st st'.
Proof. intros E s t Ht. rewrite E. exists t. split_and!; [done..|reflexivity|done|by left]. Qed.

Lemma continues_on_thread own now st s f :
  (forall t, same_session t (f t) /\
     (own <> Some s -> pc (f t) = pc t /\ deadline (f t) = deadline t) /\
     (lastActive (session (f t)) = lastActive (session t) \/ lastActive (session (f t)) = now)) ->
  continues own now st (on_thread s f st).
Proof.
  intros Hf i t Et. change (threads (on_thread s f st)) with (alter f s (threads st)).
  destruct (decide (i = s)) as [->|].
  - exists (f t). rewrite lookup_alter_eq, Et. by destruct (Hf t).
  - exists t. rewrite lookup_alter_ne by done. split_and!; [done..|reflexivity|done|by left].
Qed.

Lemma continues_trans own now st1 st2 st3 :
  continues own now st1 st2 -> continues own now st2 st3 -> continues own now st1 st3.
Proof.
  intros H1 H2 s t (t1 & E1 & Hs1 & Hp1 & Hl1)%H1.
  destruct (H2 s t1 E1) as (t2 & E2 & Hs2 & Hp2 & Hl2).
  exists t2. split_and!; [done|by etrans|intros Ho; destruct (Hp1 Ho), (Hp2 Ho); split; congruence|].
  destruct Hl2 as [-> | ->]; [done|by right].
Qed.

Lemma continues_close own now st s st' : close_session s st = Some st' -> continues own now st st'.
Proof.
  unfold close_session. destruct (threads st !! s) as [t|] eqn:Et; [|done].
  destruct (closeSessionChan (session t)) as [u|] eqn:Eu; [|done]. cbn. intros [= <-].
  intros i v Ev. change (threads _) with (alter (set_session (fun _ => u)) s (threads st)).
  destruct (decide (i = s)) as [->|];
    [|exists v; rewrite lookup_alter_ne by done; split_and!; [done..|reflexivity|done|by left]].
  rewrite Et in Ev. injection Ev as <-. exists (set_session (fun _ => u) t).
  rewrite lookup_alter_eq, Et. split; [done|].
  unfold closeSessionChan in Eu. destruct (closeChan (session t)) eqn:Ho; injection Eu as <-;
    unfold same_session; split_and!; auto.
Qed.

Lemma continues_delete own now st src st' :
  continues own now st st' -> continues own now st (st' <| sessions := delete src (sessions st') |>).
Proof. done. Qed.

Ltac same_thread := intros; unfold same_session; split_and!; try done; auto; by intros [].

Section continuation.
Context `{UdpWorld} (conf : UDPProxyTunnelConfig).

Lemma continues_remove own now st src s st' : removeSession src s st = Some st' -> continues own now st st'.
Proof.
  unfold removeSession. destruct (sessions st !! src); [case_decide|]; intros E.
  - destruct (close_session n st) as [st1|] eqn:E1; [|done]. cbn in E. injection E as <-.
    by eapply continues_delete, continues_close.
  - injection E as <-. by apply continues_same.
  - injection E as <-. by apply continues_same.
Qed.

Lemma step_continues st a st' : step conf st a = Next st' -> continues (handler_of a) (clock st) st st'.
Proof.
  assert (forall own c, continues own (clock st) st (st <| cleaner := c |>)) as Hc
    by (intros; by apply continues_same).
  assert (forall own c, continues own (clock st) st (st <| main := c |>)) as Hm
    by (intros; by apply continues_same).
  assert (forall s p, continues (Some s) (clock st) st (on_thread s (goto_pc p) st)) as Hg
    by (intros; apply continues_on_thread; same_thread).
  assert (forall own s, continues own (clock st) st (on_thread s (touch (clock st)) st)) as Ht
    by (intros; apply continues_on_thread; same_thread).
  destruct a; cbn [step handler_of]; unfold main_step, cleaner_step; intros E.
  all: try (destruct (threads st !! sess) as [t|] eqn:Et; [|done]; unfold handler_step in E).
  - case_match; [|done]. injection E as <-. by apply continues_same.
  - repeat case_match; simplify_eq; by apply continues_same.
  - assert (match dial with Ok c => new_conn st c = true | Err _ => True end /\
      main_step conf st (Lookup dial) = Next st') as [_ E'].
    { destruct dial as [c|]; [|done]. by destruct (new_conn st c). }
    clear E. rename E' into E. unfold main_step in E.
    destruct (main st) as [|src data| |]; try done.
    destruct (locked st); [done|]. unfold getOrCreateSession in E.
    destruct (sessions st !! src); [simplify_eq; apply Ht|].
    destruct dial as [c|]; [|simplify_eq; apply Hm]. injection E as <-.
    intros i t Et. exists t. split_and!; [|reflexivity|done|by left].
    change (threads _) with (<[fresh (dom (threads st)) := Build_thread
      {| remoteConn := c; lastActive := clock st; closeChan := false;
         inactivityDur := inactivity_duration conf |} src AtSelect None]> (threads st)).
    rewrite lookup_insert_ne; [done|]. intros Ef.
    apply (is_fresh (dom (threads st))). rewrite Ef. by apply elem_of_dom_2 in Et.
  - repeat case_match; simplify_eq; apply Ht.
  - repeat case_match; simplify_eq; apply Hm.
  - repeat case_match; simplify_eq; apply Hc.
  - repeat case_match; simplify_eq; apply Hc.
  - destruct (cleaner st) as [| |now [|key keys]]; try done. unfold clean_session in E.
    destruct (sessions st !! key) as [s|]; [|simplify_eq/=; apply Hc].
    destruct (threads st !! s) as [t|]; [|done].
    destruct (_ >=? _); [|simplify_eq/=; apply Hc].
    destruct (close_session s st) as [st1|] eqn:Ec; [|done]. cbn in E. injection E as <-.
    by apply continues_close with (own := None) (now := clock st) in Ec.
  - repeat case_match; simplify_eq; apply Hc.
  - repeat case_match; simplify_eq; apply Hg.
  - destruct (pc t); try done. destruct err; simplify_eq; [apply Hg|].
    apply continues_on_thread; same_thread.
  - repeat case_match; simplify_eq; apply Hg.
  - repeat case_match; simplify_eq; apply Hg.
  - destruct (pc t); try done. injection E as <-.
    apply continues_on_thread; same_thread.
  - repeat case_match; simplify_eq; apply Hg.
  - destruct (pc t); try done. destruct (locked st); [done|].
    destruct (removeSession (srcAddr t) sess st) as [st1|] eqn:Er; [|done]. injection E as <-.
    eapply continues_trans; [by eapply continues_remove|].
    apply continues_on_thread; same_thread.
  - destruct (pc t); try done. injection E as <-. apply Hg.
Qed.

(** Only the cleaner moves the cleaner, time does not go back, and while the cleaner
    holds the mutex nobody else changes the map. *)
Lemma step_frame st a st' :
  step conf st a = Next st' ->
  clock st <= clock st' /\
  match a with
  | Tick | Lock _ | Clean | Unlock => True
  | _ => cleaner st' = cleaner st /\ (locked st = true -> sessions st' = sessions st)
  end.
Proof.
  destruct a; cbn [step]; unfold main_step, cleaner_step; intros E.
  all: try (destruct (threads st !! sess) as [t|] eqn:Et; [|done]; unfold handler_step in E).
  - destruct (Z.leb_spec 0 d); [|done]. injection E as <-.
    change (clock st <= clock st + d /\ cleaner st = cleaner st /\ (locked st = true -> sessions st = sessions st)).
    split_and!; [lia|done..].
  - repeat case_match; by simplify_eq.
  - destruct (locked st) eqn:Hl; [exfalso; destruct dial; repeat case_match; done|].
    unfold getOrCreateSession in E.
    destruct dial; repeat case_match; simplify_eq; done.
  - repeat case_match; by simplify_eq.
  - repeat case_match; by simplify_eq.
  - repeat case_match; by simplify_eq.
  - repeat case_match; by simplify_eq.
  - split; [|done]. destruct (cleaner st) as [| |now [|key keys]]; try done.
    unfold clean_session, close_session in E. repeat (case_match; simplify_eq/=); try done.
    all: destruct (closeSessionChan _); simplify_eq/=; reflexivity.
  - repeat case_match; by simplify_eq.
  - repeat case_match; by simplify_eq.
  - repeat case_match; by simplify_eq.
  - repeat case_match; by simplify_eq.
  - repeat case_match; by simplify_eq.
  - repeat case_match; by simplify_eq.
  - repeat case_match; by simplify_eq.
  - destruct (pc t); try done. destruct (locked st) eqn:Hl; [done|].
    unfold removeSession, close_session in E. repeat (case_match; simplify_eq/=); try done.
    all: destruct (closeSessionChan _); simplify_eq/=; done.
  - repeat case_match; by simplify_eq.
Qed.

(** What the cleaner knows about the sessions it has visited. *)
Definition scanned st : Prop :=
  match cleaner st with
  | Idle => True
  | Locking now => now <= clock st
  | Scanning now keys =>
      now <= clock st /\
      forall src s t, sessions st !! src = Some s -> threads st !! s = Some t -> src ∉ keys ->
        now - lastActive (session t) < inactivity_duration conf
  end.

(** One visit of the cleaner: the session leaves the map exactly when it is expired. *)
Lemma clean_session_spec st now key st' :
  inv st -> clean_session conf now key st = Some st' ->
  match sessions st !! key with
  | None => st' = st
  | Some s => exists t, threads st !! s = Some t /\
      if now - lastActive (session t) >=? inactivity_duration conf
      then exists st1, close_session s st = Some st1 /\ st' = st1 <| sessions := delete key (sessions st1) |> /\
             sessions st' = delete key (sessions st) /\ clock st' = clock st
      else st' = st
  end.
Proof.
  intros Hi. unfold clean_session. destruct (sessions st !! key) as [s|] eqn:Hs; [|by intros [= <-]].
  destruct (inv_map _ Hi _ _ Hs) as (t & Et & _). rewrite Et. intros E. exists t. split; [done|].
  destruct (_ >=? _); [|by injection E as <-].
  destruct (close_session s st) as [st1|] eqn:Ec; [|done]. cbn in E. injection E as <-.
  exists st1. unfold close_session in Ec. rewrite Et in Ec.
  destruct (closeSessionChan (session t)); [|done]. cbn in Ec. by injection Ec as <-.
Qed.

Lemma scanned_clean st now key keys st' :
  inv st -> cleaner st = Scanning now (key :: keys) -> scanned st ->
  clean_session conf now key st = Some st' -> scanned (st' <| cleaner := Scanning now keys |>).
Proof.
  intros Hi Ecl Hsc E. unfold scanned in *. rewrite Ecl in Hsc. cbn [cleaner].
  destruct Hsc as [Hn Hsc]. pose proof (clean_session_spec st now key st' Hi E) as Hspec.
  change (now <= clock st' /\ forall src s t, sessions st' !! src = Some s ->
    threads st' !! s = Some t -> src ∉ keys -> now - lastActive (session t) < inactivity_duration conf).
  destruct (sessions st !! key) as [s|] eqn:Hs.
  2: { subst st'. split; [done|]. intros src s t Hsrc Et Hk. apply (Hsc src s t Hsrc Et).
       apply not_elem_of_cons. split; [congruence|done]. }
  destruct Hspec as (t & Et & Hspec).
  destruct (Z.geb_spec (now - lastActive (session t)) (inactivity_duration conf)) as [Hge|Hlt].
  - destruct Hspec as (st1 & Hc & Est & Esess & Eclk). rewrite Esess, Eclk. split; [done|].
    intros src s' t' [Hne Hsrc]%lookup_delete_Some Et' Hk.
    destruct (inv_map _ Hi _ _ Hsrc) as (u & Eu & Hu & _).
    destruct (continues_close None (lastActive (session u)) _ _ _ Hc s' u Eu) as (u' & Eu' & _ & _ & Hl).
    subst st'. change (threads st1 !! s' = Some t') in Et'. rewrite Eu' in Et'. injection Et' as <-.
    assert (lastActive (session u') = lastActive (session u)) as -> by (by destruct Hl).
    apply (Hsc src s' u Hsrc Eu). apply not_elem_of_cons. by split.
  - subst st'. split; [done|]. intros src s' t' Hsrc Et' Hk.
    destruct (decide (src = key)) as [->|Hne].
    + assert (s' = s) as -> by congruence. assert (t' = t) as -> by congruence. lia.
    + apply (Hsc src s' t' Hsrc Et'). apply not_elem_of_cons. by split.
Qed.

Lemma scanned_step st a st' :
  0 < inactivity_duration conf -> inv st -> scanned st -> step conf st a = Next st' -> scanned st'.
Proof.
  intros Hd Hi Hsc Hs. pose proof (step_frame _ _ _ Hs) as [Hclk Hfr].
  pose proof (step_continues _ _ _ Hs) as Hco.
  assert (cleaner st' = cleaner st -> (locked st = true -> sessions st' = sessions st) -> scanned st')
    as Hother.
  { intros Ec Hm. unfold scanned in *. rewrite Ec. unfold locked in Hm.
    destruct (cleaner st) as [|now|now keys]; [done|lia|]. destruct Hsc as [Hn Hsc].
    split; [lia|]. rewrite (Hm eq_refl). intros src s t' Hsrc Et' Hk.
    destruct (inv_map _ Hi _ _ Hsrc) as (t & Et & _).
    destruct (Hco s t Et) as (t'' & Et'' & _ & _ & Hl). rewrite Et' in Et''. injection Et'' as <-.
    specialize (Hsc src s t Hsrc Et Hk). destruct Hl as [-> | ->]; lia. }
  destruct a; try (by apply Hother; destruct Hfr); clear Hother Hfr;
    cbn [step] in Hs; unfold cleaner_step in Hs.
  - destruct (cleaner st) as [| |? [|]]; try done. case_match; [|done]. injection Hs as <-.
    unfold scanned; cbn. reflexivity.
  - destruct (cleaner st) as [|now|? [|]] eqn:Ec; try done.
    destruct (bool_decide_reflect (keys ≡ₚ (map_to_list (sessions st)).*1)) as [Hp|]; [|done].
    injection Hs as <-. unfold scanned in Hsc. rewrite Ec in Hsc. split; [done|].
    intros src s t Hsrc _ Hk. destruct Hk. rewrite Hp.
    apply list_elem_of_fmap. exists (src, s). split; [done|]. by apply elem_of_map_to_list.
  - destruct (cleaner st) as [| |now [|key keys]] eqn:Ec; try done.
    destruct (clean_session conf now key st) as [st1|] eqn:E1; [|done]. cbn in Hs. injection Hs as <-.
    by eapply scanned_clean.
  - destruct (cleaner st) as [| |now [|key keys]]; try done. by injection Hs as <-.
Qed.

Lemma reachable_scanned now st :
  0 < inactivity_duration conf -> reachable conf now st -> scanned st.
Proof.
  intros Hd. induction 1 as [|st a st' Hr IH Hs]; [done|].
  eapply scanned_step; [done|by eapply reachable_inv|done..].
Qed.

End continuation.

(** ** The end of a handler *)



Section progress.
Context `{UdpWorld} (conf : UDPProxyTunnelConfig).

Lemma on_thread_lookup st s f t :
  threads st !! s = Some t -> threads (on_thread s f st) !! s = Some (f t).
Proof. intros Et. refine (eq_trans (lookup_alter_eq _ _ _) _). by rewrite Et. Qed.




Lemma steps_reachable now st acts st' :
  reachable conf now st -> steps conf st acts = Next st' -> reachable conf now st'.
Proof.
  revert st; induction acts as [|a acts IH]; intros st Hr; cbn; [by intros [= <-]|].
  destruct (step conf st a) as [| |st1] eqn:Hs; [done..|]. apply IH. by econstructor.
Qed.

Lemma steps_same_session st acts st' s t :
  steps conf st acts = Next st' -> threads st !! s = Some t ->
  exists t', threads st' !! s = Some t' /\ same_session t t'.
Proof.
  revert st t; induction acts as [|a acts IH]; intros st t; cbn.
  - intros [= <-] Et. exists t. by split.
  - destruct (step conf st a) as [| |st1] eqn:Hs; [done..|]. intros Hrun Et.
    destruct (step_continues conf _ _ _ Hs s t Et) as (t1 & Et1 & Hs1 & _).
    destruct (IH st1 t1 Hrun Et1) as (t2 & Et2 & Hs2). exists t2. split; [done|by etrans].
Qed.










(** ** The read deadline *)







End progress.

(** The steps in which the source notes that a session is active. *)
Definition notes_activity (st : state) (a : action) (st' : state) (s : nat) : Prop :=
  match a with
  | Lookup _ => exists src data, main st' = MainTouch src s data
  | Touch => exists src data, main st = MainTouch src s data
  | TouchRemote i => i = s
  | _ => False
  end.

Lemma activity_refreshes `{UdpWorld} conf st a st' s :
  inv st -> step conf st a = Next st' -> notes_activity st a st' s ->
  exists t', threads st' !! s = Some t' /\ lastActive (session t') = clock st'.
Proof.
  intros Hi E Ha. destruct a; try done; cbn in Ha, E.
  - destruct Ha as (src & data & Em).
    assert (main_step conf st (Lookup dial) = Next st') as E'
      by (destruct dial as [c|]; [destruct (new_conn st c)|]; done).
    clear E. unfold main_step in E'. destruct (main st) as [|src' data'| |]; try done.
    destruct (locked st); [done|]. unfold getOrCreateSession in E'.
    destruct (sessions st !! src') as [i|] eqn:Hs.
    + injection E' as <-. injection Em as <- -> <-.
      destruct (inv_map _ Hi _ _ Hs) as (t & Et & _).
      exists (touch (clock st) t). split; [exact (on_thread_lookup st s _ t Et)|done].
    + destruct dial as [c|err]; [|by simplify_eq]. injection E' as <-. injection Em as <- <- <-.
      eexists. split; [apply lookup_insert_eq|done].
  - destruct Ha as (src & data & Em). unfold main_step in E. rewrite Em in E. injection E as <-.
    destruct (inv_main _ Hi src s) as (t & Et & _); [by rewrite Em|].
    exists (touch (clock st) t). split; [exact (on_thread_lookup st s _ t Et)|done].
  - subst sess. destruct (threads st !! s) as [t|] eqn:Et; [|done]. unfold handler_step in E.
    destruct (pc t) as [| | | |data|data| | |]; try done. injection E as <-.
    eexists. split; [exact (on_thread_lookup st s _ t Et)|done].
Qed.

(** The two ways in which a session leaves the map. *)
Lemma removal_steps `{UdpWorld} conf st a st' src s :
  inv st -> step conf st a = Next st' ->
  sessions st !! src = Some s -> sessions st' !! src <> Some s ->
  a = Remove s \/
  exists start keys t, a = Clean /\ cleaner st = Scanning start (src :: keys) /\
    threads st !! s = Some t /\ inactivity_duration conf <= start - lastActive (session t).
Proof.
  intros Hi Hst Hs Hs'.
  destruct a; cbn [step] in Hst; unfold main_step, cleaner_step in Hst.
  all: try (destruct (threads st !! sess) as [u|] eqn:Eu; [|done]; unfold handler_step in Hst).
  all: try (exfalso; repeat case_match; simplify_eq; by apply Hs').
  - exfalso. unfold getOrCreateSession in Hst.
    destruct (main st) as [|src' data| |] eqn:Em; [by destruct dial; repeat case_match| |by destruct dial; repeat case_match..].
    destruct (sessions st !! src') as [i|] eqn:Ei;
      [destruct dial; repeat case_match; simplify_eq; by apply Hs'|].
    destruct dial as [c|]; [|destruct (locked st); by simplify_eq].
    destruct (new_conn st c); [|done]. destruct (locked st); [done|]. injection Hst as <-.
    apply Hs'. change (<[src' := fresh (dom (threads st))]> (sessions st) !! src = Some s).
    rewrite lookup_insert_ne; [done|congruence].
  - right. destruct (cleaner st) as [| |start [|key keys]] eqn:Ec; try done.
    destruct (clean_session conf start key st) as [st1|] eqn:Ecl; [|done]. injection Hst as <-.
    change (sessions st1 !! src <> Some s) in Hs'.
    pose proof (clean_session_spec conf _ _ _ _ Hi Ecl) as Hspec.
    destruct (sessions st !! key) as [i|] eqn:Ei; [|by subst].
    destruct Hspec as (t & Et & Hspec).
    destruct (Z.geb_spec (start - lastActive (session t)) (inactivity_duration conf)) as [Hge|];
      [|by subst].
    destruct Hspec as (st2 & _ & _ & Es & _). rewrite Es in Hs'.
    destruct (decide (src = key)) as [->|Hne]; [|by rewrite lookup_delete_ne in Hs'].
    assert (i = s) as -> by congruence. exists start, keys, t. split_and!; [done..|lia].
  - left. destruct (pc u); try done. destruct (locked st); [done|].
    destruct (removeSession (srcAddr u) sess st) as [st1|] eqn:Er; [|done]. injection Hst as <-.
    change (sessions st1 !! src <> Some s) in Hs'. unfold removeSession in Er.
    destruct (sessions st !! srcAddr u) as [i|] eqn:Ei; [case_decide|]; simplify_eq/=; [|done..].
    destruct (close_session sess st) as [st2|] eqn:Ec; [|done]. cbn in Er. injection Er as <-.
    assert (sessions st2 = sessions st) as Es.
    { unfold close_session in Ec. rewrite Eu in Ec. destruct (closeSessionChan _); [|done].
      cbn in Ec. by injection Ec as <-. }
    change (delete (srcAddr u) (sessions st2) !! src <> Some s) in Hs'. rewrite Es in Hs'.
    destruct (decide (src = srcAddr u)) as [->|Hne]; [congruence|].
    by rewrite lookup_delete_ne in Hs'.
Qed.

(** ** An example *)

Definition example_udp : UDPProxyTunnelConfig :=
  {| UDP_BindAddress := "127.0.0.1:5300"; UDP_Target := "10.0.0.1:53"; InactivityTimeout := 60 |}.

Definition example_client : TCPAddr := {| TCPAddr_IP := "127.0.0.1"; TCPAddr_Port := 4000 |}.

Definition example_udp_world : UdpWorld :=
  {| ResolveUDPAddr text :=
       match SplitHostPort text with
       | Ok (host, port) =>
           p ← ParseUint port 16; mret {| TCPAddr_IP := host; TCPAddr_Port := p |}
       | Err err => Err err
       end;
     ListenUDP addr := Ok tt |}.

(** A query is received; then it is forwarded and answered; then the session expires. *)
Definition example_query : list action :=
  [Receive (Ok (example_client, "query")); Lookup (Ok 9%nat); Touch].
Definition example_answer : list action :=
  [Forward None; Select 0; SetDeadline 0 None; Read 0 (ReadData "answer"); TouchRemote 0].
Definition example_expiry : list action :=
  [Deliver 0 None; Advance (61 * second); Tick; Lock ["127.0.0.1:4000"]; Clean].

Definition example_state (actions : list action) : state :=
  match steps (H := example_udp_world) example_udp (initial_state 0) actions with
  | Next st => st
  | _ => initial_state 0
  end.

(** ** Properties *)

(** C4. The sessions of the UDP proxy, in every reachable state of every interleaving:
    no step panics, in particular no channel is closed twice; a session in the map
    belongs to its key, its channel and its connection are open; two open sessions of
    the same client are one; a connection is closed at most once, and only after its
    session has left the map. *)
Theorem udp_sessions_safe `{UdpWorld} conf now st :
  reachable conf now st ->
  (forall a, step conf st a <> Panic) /\
  (forall src s, sessions st !! src = Some s -> exists t, threads st !! s = Some t /\
     srcAddr t = src /\ closeChan (session t) = false /\ remoteConn (session t) ∉ closed st) /\
  (forall s s' t t', threads st !! s = Some t -> threads st !! s' = Some t' ->
     closeChan (session t) = false -> closeChan (session t') = false ->
     srcAddr t = srcAddr t' -> s = s') /\
  NoDup (closed st) /\
  (forall s t, threads st !! s = Some t -> remoteConn (session t) ∈ closed st ->
     closeChan (session t) = true /\ forall src, sessions st !! src <> Some s).
Proof.
  intros Hr. pose proof (reachable_inv conf now st Hr) as Hi. split_and!.
  - intros a Hp. pose proof (inv_step conf st a Hi) as Hs. by rewrite Hp in Hs.
  - intros src s Hs. destruct (inv_map _ Hi _ _ Hs) as (t & Et & Hsrc & Ho). exists t.
    split_and!; try done. rewrite (inv_closed _ Hi s t Et). intros Hp.
    by destruct (inv_open _ Hi s t Et Ho) as [_ [_ ?]].
  - intros s s' t t' Et Et' Ho Ho' Hsrc.
    destruct (inv_open _ Hi s t Et Ho) as [H1 _], (inv_open _ Hi s' t' Et' Ho') as [H2 _].
    rewrite Hsrc in H1. congruence.
  - apply Hi.
  - intros s t Et Hc%(inv_closed _ Hi s t Et). destruct (closeChan (session t)) eqn:Ho.
    + split; [done|]. intros src Hs. destruct (inv_map _ Hi _ _ Hs) as (t' & Et' & _ & Ho').
      congruence.
    + by destruct (inv_open _ Hi s t Et Ho) as [_ [_ ?]].
Qed.

Lemma example_reachable actions st :
  steps (H := example_udp_world) example_udp (initial_state 0) actions = Next st ->
  reachable (H := example_udp_world) example_udp 0 st.
Proof. apply steps_reachable. constructor. Qed.

Lemma udp_sessions_safe_witness :
  exists st, sessions st !! "127.0.0.1:4000" = Some 0%nat /\ NoDup (closed st).
Proof.
  exists (example_state example_query). split; [vm_compute; reflexivity|].
  apply (udp_sessions_safe (H := example_udp_world) example_udp 0).
  apply (example_reachable example_query). vm_compute. reflexivity.
Defined.

(** C5. No cross-talk: a datagram of a client is written, unchanged, to the connection of a
    session of that client, and every reply that is read from that connection, at any
    later time, is sent to the same client. *)
Theorem udp_no_crosstalk `{UdpWorld} conf now st actions st' client s data err c data1
    s' err' dst data2 :
  ResolveUDPAddr (UDPAddr_String client) = Ok client ->
  reachable conf now st -> steps conf st actions = Next st' ->
  main st = MainWrite (UDPAddr_String client) s data ->
  ToRemote c data1 ∈ sends st (Forward err) ->
  (exists t', threads st' !! s' = Some t' /\ remoteConn (session t') = c) ->
  ToLocal dst data2 ∈ sends st' (Deliver s' err') ->
  data1 = data /\ s' = s /\ dst = client /\
  exists t', threads st' !! s = Some t' /\ pc t' = AtDeliver data2.
Proof.
  intros Hres Hr Hrun Hm Hsend (t' & Et' & Hc) Hrecv.
  pose proof (reachable_inv conf now st Hr) as Hi.
  pose proof (reachable_inv conf now st' (steps_reachable conf now st actions st' Hr Hrun)) as Hi'.
  destruct (inv_main _ Hi (UDPAddr_String client) s) as (t & Et & Hsrc); [by rewrite Hm|].
  cbn in Hsend. rewrite Hm, Et in Hsend. elem_cases Hsend. injection Hsend as -> ->.
  destruct (steps_same_session conf _ _ _ s t Hrun Et) as (t1 & Et1 & Hs1 & Hs2 & _).
  assert (s' = s) as -> by (eapply (inv_conns _ Hi'); [done..|congruence]).
  assert (t' = t1) as -> by congruence.
  cbn in Hrecv. rewrite Et1, Hs1, Hsrc, Hres in Hrecv.
  destruct (pc t1) eqn:Ep; elem_cases Hrecv. injection Hrecv as -> ->. split_and!; eauto.
Qed.

Lemma udp_no_crosstalk_witness :
  exists t', threads (example_state (example_query ++ example_answer)) !! 0%nat = Some t' /\
    pc t' = AtDeliver "answer".
Proof.
  destruct (udp_no_crosstalk (H := example_udp_world) example_udp 0 (example_state example_query)
    example_answer (example_state (example_query ++ example_answer)) example_client 0%nat "query"
    None 9%nat "query" 0%nat None example_client "answer") as (_ & _ & _ & t' & Et & Ep).
  - vm_compute. reflexivity.
  - apply (example_reachable example_query). vm_compute. reflexivity.
  - vm_compute. reflexivity.
  - vm_compute. reflexivity.
  - vm_compute. elem_here.
  - eexists. split; vm_compute; reflexivity.
  - vm_compute. elem_here.
  - exists t'. split; [exact Et|exact Ep].
Defined.

(** C12. Expiry: a session leaves the map in two ways only, by a pass of the cleaner that
    found it inactive for the configured time, or by the end of its own handler; when a
    pass ends, every session left in the map was active less than that time before the
    pass; and a session is noted as active at the time when a datagram of its client is
    read, when it is forwarded and when a reply arrives. *)
Theorem udp_cleanup `{UdpWorld} conf now st :
  0 < inactivity_duration conf -> reachable conf now st ->
  (forall a st' src s, step conf st a = Next st' ->
     sessions st !! src = Some s -> sessions st' !! src <> Some s ->
     a = Remove s \/
     exists start keys t, a = Clean /\ cleaner st = Scanning start (src :: keys) /\
       threads st !! s = Some t /\ inactivity_duration conf <= start - lastActive (session t)) /\
  (forall start, cleaner st = Scanning start [] ->
     forall src s t, sessions st !! src = Some s -> threads st !! s = Some t ->
       start - lastActive (session t) < inactivity_duration conf) /\
  (forall a st' s, step conf st a = Next st' -> notes_activity st a st' s ->
     exists t', threads st' !! s = Some t' /\ lastActive (session t') = clock st').
Proof.
  intros Hd Hr. pose proof (reachable_inv conf now st Hr) as Hi. split_and!.
  - intros a st' src s Hst Hs Hs'. destruct (removal_steps conf _ _ _ _ _ Hi Hst Hs Hs') as [|]; auto.
  - intros start Ec src s t Hs Et. pose proof (reachable_scanned conf now st Hd Hr) as Hsc.
    unfold scanned in Hsc. rewrite Ec in Hsc. eapply Hsc; [done..|apply not_elem_of_nil].
  - intros a st' s. by apply activity_refreshes.
Qed.

Lemma udp_cleanup_witness :
  exists t, threads (example_state (example_query ++ example_answer ++ take 4 example_expiry)) !! 0%nat
    = Some t /\ inactivity_duration example_udp <= 61 * second - lastActive (session t).
Proof.
  destruct (udp_cleanup (H := example_udp_world) example_udp 0
    (example_state (example_query ++ example_answer ++ take 4 example_expiry))) as [Hrem _].
  - vm_compute. reflexivity.
  - apply (example_reachable (example_query ++ example_answer ++ take 4 example_expiry)).
    vm_compute. reflexivity.
  - destruct (Hrem Clean (example_state (example_query ++ example_answer ++ example_expiry))
      "127.0.0.1:4000" 0%nat) as [[=]|(start & keys & t & _ & Ec & Et & Hge)].
    + vm_compute. reflexivity.
    + vm_compute. reflexivity.
    + vm_compute. discriminate.
    + exists t. split; [exact Et|]. vm_compute in Ec. injection Ec as <- _. exact Hge.
Defined.




(** The inactivity time is the configured number of seconds as long as that is at
    most 9223372036; above, the multiplication overflows. *)
Theorem inactivity_duration_exact conf :
  0 <= InactivityTimeout conf ->
  inactivity_duration conf = InactivityTimeout conf * second <->
  InactivityTimeout conf <= 9223372036.
Proof.
  intros Ht. unfold inactivity_duration, second. split.
  - intros E. pose proof (sint_range 64 (InactivityTimeout conf * 1000000000)) as Hr.
    unfold in_sint in Hr. lia.
  - intros Hle. apply sint_id; [lia|]. unfold in_sint. lia.
Qed.

Lemma inactivity_duration_exact_witness : inactivity_duration example_udp = 60 * second.
Proof. apply (inactivity_duration_exact example_udp); vm_compute; discriminate. Defined.
