(* ===== verification/Routine.v ===== *)
(** * Name resolution and the TCP tunnels: src/routine.go.

    Resolving a name with the resolver the tunnel was set up with, the three TCP
    forwarders and the routines that accept their connections, and the set-up of the
    SOCKS5 server. *)

From S2P Require Import Prelude GoStrings GoStrconv GoEncoding GoNet Config Wireguard Io.
Local Open Scope Z_scope.

(** ** [rand.Shuffle] *)

(** [addrs[i], addrs[j] = addrs[j], addrs[i]] *)
Definition swap {A} (i j : nat) (l : list A) : list A :=
  match l !! i, l !! j with
  | Some x, Some y => <[i := y]> (<[j := x]> l)
  | _, _ => l
  end.

(** [for i := n - 1; i > 0; i-- { j := random in [0, i]; swap(i, j) }] *)
Fixpoint shuffle_from {A} (random : nat -> nat) (i : nat) (l : list A) : list A :=
  match i with
  | O => l
  | S i' => shuffle_from random i' (swap i (random i mod (i + 1)) l)
  end.

Definition Shuffle {A} (random : nat -> nat) (l : list A) : list A :=
  shuffle_from random (length l - 1) l.

(** ** Data *)

Record addressPort := { address : string; port : Z }.

(** [netip.AddrPort] *)
Record AddrPort := { ap_addr : Addr; ap_port : Z }.

(** The network a lookup or a connection goes through: the tunnel, or the host's. *)
Inductive network := ViaTunnel | ViaHost.

#[global] Instance network_eq_dec : EqDecision network.
Proof. solve_decision. Defined.

(** The authenticators of the SOCKS5 server (github.com/things-go/go-socks5):
    [StaticCredentials] is a map from user names to passwords. *)
Inductive Authenticator :=
| UserPassAuthenticator (credentials : gmap string string)
| NoAuthAuthenticator.

(** The options of that server: how it dials, whose [Resolve] looks names up, who is
    let in, and the size of its buffers. *)
Inductive socks5_Option `{Amnezia} :=
| WithDial (via : network)
| WithResolver (vt : VirtualTun)
| WithAuthMethods (methods : list Authenticator)
| WithBufferPool (size : Z).

Inductive goroutine :=
| ConnForward (from to : conn)
| TcpClientForward (raddr : addressPort) (c : conn)
| TcpServerForward (raddr : addressPort) (c : conn)
| STDIOForward (raddr : addressPort).

Inductive event `{Amnezia} :=
| LookupHost (via : network) (name : string) (r : result error (list string))
| DialTCP (via : network) (addr : AddrPort) (r : result error conn)
| OpenFile (path : string) (r : result error conn)
| ListenTCP (via : network) (addr : TCPAddr) (r : result error unit)
| Copy (dst src : conn) (err : option error)
| Close (c : conn)
| LogError (text : string) (err : error)
| ServeSocks5 (options : list socks5_Option) (network addr : string) (err : option error)
| Go (g : goroutine).

(** What the surroundings answer. *)
Class RouteWorld := {
  lookup_host : nat -> network -> string -> result error (list string);
  random : nat -> nat -> nat;
  dial_tcp : nat -> network -> AddrPort -> result error conn;
  open_file : nat -> string -> result error conn;
  listen_tcp : nat -> network -> TCPAddr -> result error unit;
  io_copy : nat -> conn -> conn -> option error;
  os_Stdin : conn;
  socks5_serve : nat -> string -> string -> option error
}.

(** [Addr.AsSlice]: the bytes of an address, none of the zero one. *)
Definition AsSlice (ip : Addr) : list Z :=
  match ip with
  | AddrZero => []
  | Addr4 a b c d => [a; b; c; d]
  | Addr6 fields _ => concat (map (fun f => [f / 256; f mod 256]) fields)
  end.

(** The loop over the shuffled addresses: the first that parses, or the last error. *)
Fixpoint first_addr (err : error) (addrs : list string) : result error Addr :=
  match addrs with
  | [] => Err err
  | saddr :: addrs =>
      match ParseAddr saddr with
      | Ok addr => Ok addr
      | Err err => first_addr err addrs
      end
  end.

Definition parseAddressPort `{IntSize} (endpoint : string) : result error addressPort :=
  '(name, sport) ← SplitHostPort endpoint;
  match Atoi sport with
  | Ok port =>
      if (port <? 0) || (port >? 65535)
      then Err (OpError "dial" (errorString "port must be numeric"))
      else Ok {| address := name; port := uint 16 port |}
  | Err _ => Err (OpError "dial" (errorString "port must be numeric"))
  end.

Section routine.
Context `{A : Amnezia, R : RouteWorld}.
Implicit Types (vt : VirtualTun) (raddr : addressPort) (c : conn).

Definition LookupAddr vt (name : string) : io event (result error (list string)) :=
  let via := if SystemDNS vt then ViaHost else ViaTunnel in
  ask (fun n => lookup_host n via name) (LookupHost via name).

Definition ResolveAddrWithContext vt (name : string) : io event (result error Addr) :=
  r ← LookupAddr vt name;
  match r with
  | Err err => mret (Err err)
  | Ok addrs =>
      let err := errorString ("no address found for: " +:+ name) in
      if (length addrs =? 0)%nat then mret (Err err)
      else
        pick ← choose random;
        mret (first_addr err (Shuffle pick addrs))
  end.

(** [Resolve], which the SOCKS5 server calls: the address as bytes. *)
Definition Resolve vt (name : string) : io event (result error (list Z)) :=
  r ← ResolveAddrWithContext vt name;
  mret (fmap (M := result error) AsSlice r).

Definition resolveToAddrPort vt (endpoint : addressPort) : io event (result error AddrPort) :=
  r ← ResolveAddrWithContext vt (address endpoint);
  mret (fmap (M := result error) (fun a => {| ap_addr := a; ap_port := port endpoint |}) r).

(** Copy data from [from] to [to]; the deferred calls run last to first. *)
Definition connForward (from to : conn) : io event unit :=
  err ← ask (fun n => io_copy n to from) (Copy to from);
  match err with
  | Some err => emit (LogError "Cannot forward traffic: " err)
  | None => mret tt
  end ;;
  emit (Close to) ;; emit (Close from).

Definition tcpClientForward vt raddr c : io event unit :=
  r ← resolveToAddrPort vt raddr;
  match r with
  | Err err => emit (LogError "TCP Server Tunnel to " err)
  | Ok target =>
      r ← ask (fun n => dial_tcp n ViaTunnel target) (DialTCP ViaTunnel target);
      match r with
      | Err err => emit (LogError "TCP Client Tunnel to " err)
      | Ok sconn => emit (Go (ConnForward sconn c)) ;; emit (Go (ConnForward c sconn))
      end
  end.

Definition STDIOTcpForward vt raddr : io event unit :=
  r ← resolveToAddrPort vt raddr;
  match r with
  | Err err => emit (LogError "Name resolution error for " err)
  | Ok target =>
      f ← ask (fun n => open_file n "/dev/stdout") (OpenFile "/dev/stdout");
      match f with
      | Err err => emit (LogError "Failed to open /dev/stdout: " err)
      | Ok stdout =>
          r ← ask (fun n => dial_tcp n ViaTunnel target) (DialTCP ViaTunnel target);
          match r with
          | Err err => emit (LogError "TCP Client Tunnel to " err)
          | Ok sconn =>
              emit (Go (ConnForward os_Stdin sconn)) ;; emit (Go (ConnForward sconn stdout))
          end
      end
  end.

Definition tcpServerForward vt raddr c : io event unit :=
  r ← resolveToAddrPort vt raddr;
  match r with
  | Err err => emit (LogError "TCP Server Tunnel to " err)
  | Ok target =>
      r ← ask (fun n => dial_tcp n ViaHost target) (DialTCP ViaHost target);
      match r with
      | Err err => emit (LogError "TCP Server Tunnel to " err)
      | Ok sconn => emit (Go (ConnForward sconn c)) ;; emit (Go (ConnForward c sconn))
      end
  end.

Definition goroutine_body vt (g : goroutine) : io event unit :=
  match g with
  | ConnForward from to => connForward from to
  | TcpClientForward raddr c => tcpClientForward vt raddr c
  | TcpServerForward raddr c => tcpServerForward vt raddr c
  | STDIOForward raddr => STDIOTcpForward vt raddr
  end.

(** [log.Fatal(err)] *)
Definition fatal {B} (err : error) : io event B := log_Fatal (LogError "" err).

Context `{W : IntSize}.

(** The routines; [accepts] are the answers of [Accept] so far. *)
Definition TCPClientTunnel_SpawnRoutine (conf : TCPClientTunnelConfig)
    (accepts : list (result error conn)) : io event (option unit) :=
  match parseAddressPort (Client_Target conf) with
  | Err err => fatal err
  | Ok raddr =>
      r ← ask (fun n => listen_tcp n ViaHost (Client_BindAddress conf))
            (ListenTCP ViaHost (Client_BindAddress conf));
      match r with
      | Err err => fatal err
      | Ok _ => accept_loop accepts (fun c => emit (Go (TcpClientForward raddr c))) fatal
      end
  end.

Definition STDIOTunnel_SpawnRoutine (conf : STDIOTunnelConfig) : io event unit :=
  match parseAddressPort (STDIO_Target conf) with
  | Err err => fatal err
  | Ok raddr => emit (Go (STDIOForward raddr))
  end.

Definition TCPServerTunnel_SpawnRoutine (conf : TCPServerTunnelConfig)
    (accepts : list (result error conn)) : io event (option unit) :=
  match parseAddressPort (Server_Target conf) with
  | Err err => fatal err
  | Ok raddr =>
      let addr := {| TCPAddr_IP := ""; TCPAddr_Port := Server_ListenPort conf |} in
      r ← ask (fun n => listen_tcp n ViaTunnel addr) (ListenTCP ViaTunnel addr);
      match r with
      | Err err => fatal err
      | Ok _ => accept_loop accepts (fun c => emit (Go (TcpServerForward raddr c))) fatal
      end
  end.

Definition socks5_authMethods (config : Socks5Config) : list Authenticator :=
  if negb (String.eqb (Socks5_Username config) "")
  then [UserPassAuthenticator {[ Socks5_Username config := Socks5_Password config ]}]
  else [NoAuthAuthenticator].

(** [vt.Tnet.DialContext] dials through the tunnel; the server returns only with an
    error. *)
Definition Socks5_SpawnRoutine vt (config : Socks5Config) : io event unit :=
  let options :=
    [WithDial ViaTunnel; WithResolver vt; WithAuthMethods (socks5_authMethods config);
     WithBufferPool (256 * 1024)] in
  err ← ask (fun n => socks5_serve n "tcp" (Socks5_BindAddress config))
          (ServeSocks5 options "tcp" (Socks5_BindAddress config));
  match err with Some err => fatal err | None => mret tt end.

End routine.

(** ** Lemmas: shuffling *)

Lemma swap_perm {A} i j (l : list A) : swap i j l ≡ₚ l.
Proof.
  unfold swap. destruct (l !! i) as [x|] eqn:Hi; [|done]. destruct (l !! j) as [y|] eqn:Hj; [|done].
  apply Permutation_inj. split; [by rewrite !length_insert|].
  exists (fun k => if decide (k = i) then j else if decide (k = j) then i else k). split.
  - intros a b. repeat case_decide; congruence.
  - intros k. pose proof (lookup_lt_Some _ _ _ Hi). pose proof (lookup_lt_Some _ _ _ Hj).
    case_decide as Hki; [subst k|case_decide as Hkj; [subst k|]].
    + by rewrite list_lookup_insert_eq by (by rewrite length_insert).
    + by rewrite list_lookup_insert_ne, list_lookup_insert_eq by done.
    + by rewrite !list_lookup_insert_ne by done.
Qed.

Lemma Shuffle_perm {A} pick (l : list A) : Shuffle pick l ≡ₚ l.
Proof.
  unfold Shuffle. generalize (length l - 1)%nat as i. intros i. revert l.
  induction i as [|i IH]; intros l; [done|]. cbn. rewrite IH. apply swap_perm.
Qed.

Lemma first_addr_Ok err addrs a :
  first_addr err addrs = Ok a -> exists s, s ∈ addrs /\ ParseAddr s = Ok a.
Proof.
  revert err; induction addrs as [|s addrs IH]; intros err; cbn; [done|].
  destruct (ParseAddr s) as [b|e] eqn:E.
  - intros [= ->]. exists s. split; [apply list_elem_of_here|done].
  - intros (s' & ? & ?)%IH. exists s'. split; [by apply list_elem_of_further|done].
Qed.

Lemma first_addr_succeeds err addrs s a :
  s ∈ addrs -> ParseAddr s = Ok a -> exists b, first_addr err addrs = Ok b.
Proof.
  intros Hs Ha. revert err; induction Hs as [s addrs|s s' addrs Hs IH]; intros err; cbn.
  - rewrite Ha. eauto.
  - destruct (ParseAddr s'); [eauto|by apply IH].
Qed.

(** ** Lemmas: resolution and forwarding *)

Section lemmas.
Context `{A : Amnezia, R : RouteWorld}.
Implicit Types (vt : VirtualTun) (raddr : addressPort) (c : conn).

(** The network names are looked up through. *)
Definition resolver vt : network := if SystemDNS vt then ViaHost else ViaTunnel.

(** The result of a lookup, for the answer of the resolver. *)
Definition resolved vt (name : string) (r : result error Addr) : Prop :=
  match lookup_host 0 (resolver vt) name with
  | Err err => r = Err err
  | Ok addrs =>
      (forall a, r = Ok a -> exists s, s ∈ addrs /\ ParseAddr s = Ok a) /\
      (forall s a, s ∈ addrs -> ParseAddr s = Ok a -> exists b, r = Ok b)
  end.

Lemma Resolve_run vt name :
  exists r, run (ResolveAddrWithContext vt name) =
    (Done r, [LookupHost (resolver vt) name (lookup_host 0 (resolver vt) name)]) /\
    resolved vt name r.
Proof.
  unfold run, ResolveAddrWithContext, LookupAddr, mbind, io_bind, ask. cbn [length app].
  fold (resolver vt). unfold resolved.
  destruct (lookup_host 0 (resolver vt) name) as [addrs|err]; [|by eexists].
  destruct (Nat.eqb_spec (length addrs) 0) as [Hl|Hl].
  - eexists. split; [reflexivity|]. split; [done|]. intros s a Hs.
    apply nil_length_inv in Hl. subst. by apply not_elem_of_nil in Hs.
  - eexists. split; [reflexivity|]. split.
    + intros a (s & Hs & Ha)%first_addr_Ok. exists s. by rewrite Shuffle_perm in Hs.
    + intros s a Hs Ha. eapply first_addr_succeeds; [|done]. by rewrite Shuffle_perm.
Qed.

(** What a forwarder does for a connection: it looks the name up, then dials, then
    starts the two copiers. *)
Definition forwards (via : network) (log1 log2 : string) vt raddr c (tr : list event) : Prop :=
  exists r, resolved vt (address raddr) r /\
  exists tail, tr = LookupHost (resolver vt) (address raddr) (lookup_host 0 (resolver vt) (address raddr)) :: tail /\
    match r with
    | Err err => tail = [LogError log1 err]
    | Ok a =>
        let target := {| ap_addr := a; ap_port := port raddr |} in
        match dial_tcp 1 via target with
        | Err err => tail = [DialTCP via target (Err err); LogError log2 err]
        | Ok s => tail = [DialTCP via target (Ok s); Go (ConnForward s c); Go (ConnForward c s)]
        end
    end.

Lemma resolveToAddrPort_run vt raddr :
  exists r, resolveToAddrPort vt raddr [] =
    (Done (fmap (M := result error) (fun a => {| ap_addr := a; ap_port := port raddr |}) r),
     [LookupHost (resolver vt) (address raddr) (lookup_host 0 (resolver vt) (address raddr))]) /\
    resolved vt (address raddr) r.
Proof.
  destruct (Resolve_run vt (address raddr)) as (r & Hrun & Hr). exists r. split; [|done].
  unfold resolveToAddrPort, mbind, io_bind. unfold run in Hrun. by rewrite Hrun.
Qed.

Lemma tcpClientForward_run vt raddr c :
  exists tr, run (tcpClientForward vt raddr c) = (Done tt, tr) /\
    forwards ViaTunnel "TCP Server Tunnel to " "TCP Client Tunnel to " vt raddr c tr.
Proof.
  destruct (resolveToAddrPort_run vt raddr) as (r & Hrun & Hr).
  unfold run, tcpClientForward, mbind, io_bind, ask. rewrite Hrun. unfold forwards.
  destruct r as [a|err]; cbn; [|by eexists; split; [reflexivity|eauto]].
  set (ap := Build_AddrPort _ _). destruct (dial_tcp 1 ViaTunnel ap) as [s|err] eqn:Hd;
    (eexists; split; [reflexivity|]); exists (Ok a); (split; [done|]);
    (eexists; split; [reflexivity|]); cbn; fold ap; by rewrite Hd.
Qed.

Lemma tcpServerForward_run vt raddr c :
  exists tr, run (tcpServerForward vt raddr c) = (Done tt, tr) /\
    forwards ViaHost "TCP Server Tunnel to " "TCP Server Tunnel to " vt raddr c tr.
Proof.
  destruct (resolveToAddrPort_run vt raddr) as (r & Hrun & Hr).
  unfold run, tcpServerForward, mbind, io_bind, ask. rewrite Hrun. unfold forwards.
  destruct r as [a|err]; cbn; [|by eexists; split; [reflexivity|eauto]].
  set (ap := Build_AddrPort _ _). destruct (dial_tcp 1 ViaHost ap) as [s|err] eqn:Hd;
    (eexists; split; [reflexivity|]); exists (Ok a); (split; [done|]);
    (eexists; split; [reflexivity|]); cbn; fold ap; by rewrite Hd.
Qed.

Lemma forwards_no_host via log1 log2 vt raddr c tr name r :
  forwards via log1 log2 vt raddr c tr -> resolver vt = ViaTunnel ->
  LookupHost ViaHost name r ∉ tr.
Proof.
  intros (ra & _ & tail & -> & Ht) Hvia Hin. rewrite Hvia in Hin.
  destruct ra; cbn in Ht; [destruct (dial_tcp _ _ _)|]; subst; elem_cases Hin.
Qed.

Lemma Resolve_no_host vt name n r :
  resolver vt = ViaTunnel -> LookupHost ViaHost name r ∉ events (Resolve vt n).
Proof.
  intros Hvia. destruct (Resolve_run vt n) as (ra & Hrun & _). unfold run in Hrun.
  unfold events, run, Resolve, mbind, io_bind. rewrite Hrun, Hvia. intros Hin. elem_cases Hin.
Qed.

(** The one server that the SOCKS5 routine starts. *)
Lemma Socks5_options `{W : IntSize} vt config options network addr err :
  ServeSocks5 options network addr err ∈ events (Socks5_SpawnRoutine vt config) ->
  options = [WithDial ViaTunnel; WithResolver vt; WithAuthMethods (socks5_authMethods config);
             WithBufferPool 262144] /\
  network = "tcp" /\ addr = Socks5_BindAddress config.
Proof.
  unfold events, run, Socks5_SpawnRoutine, mbind, io_bind, ask. cbn [length app].
  destruct (socks5_serve 0 "tcp" (Socks5_BindAddress config)); cbn; intros Hin;
    elem_cases Hin; by injection Hin as -> -> -> ->.
Qed.

End lemmas.

(** ** An example *)

Definition example_lookup (n : nat) (via : network) (name : string) : result error (list string) :=
  Ok ["not an address"; "10.0.0.7"].

Definition example_route_world : RouteWorld :=
  {| lookup_host := example_lookup; random n i := 3%nat; dial_tcp n via target := Ok 8%nat;
     open_file n path := Ok 1%nat; listen_tcp n via addr := Ok tt; io_copy n a b := None;
     os_Stdin := 0%nat; socks5_serve n network addr := None |}.

Definition example_dns_device : DeviceConfig :=
  {| SecretKey := ""; Device_Endpoint := []; Peers := []; DNS := [Addr4 1 1 1 1]; MTU := 1420;
     Device_ListenPort := None; CheckAlive := []; CheckAliveInterval := 0; ASecConfig := None |}.

Definition example_vt : VirtualTun (H := example_amnezia) :=
  Build_VirtualTun example_amnezia tt ("private_key=" +:+ nl) false example_dns_device ∅.

(** ** Properties *)

(** C7. The proxied traffic of a started tunnel leaks no name to the host's resolver: when
    the configuration names a DNS server, the TCP and STDIO forwarders look every name up
    through the tunnel, and so does the resolver that the SOCKS5 server is given, which
    dials through the tunnel too. (The names of the peers' endpoints are resolved by the
    host before there is a tunnel, while the file is parsed.) *)
Theorem no_dns_leak `{W : IntSize, D : Heredoc, A : Amnezia, R : RouteWorld} conf logLevel vt :
  StartWireguard conf logLevel = Ok vt -> DNS conf <> [] ->
  forall name r,
    (forall g, LookupHost ViaHost name r ∉ events (goroutine_body vt g)) /\
    (forall config options network addr err,
       ServeSocks5 options network addr err ∈ events (Socks5_SpawnRoutine vt config) ->
       WithDial ViaTunnel ∈ options /\ (WithDial ViaHost ∉ options) /\
       (exists vt', WithResolver vt' ∈ options) /\
       (forall vt' n, WithResolver vt' ∈ options -> LookupHost ViaHost name r ∉ events (Resolve vt' n))).
Proof.
  intros Hv HD name r. assert (resolver vt = ViaTunnel) as Hvia.
  { apply StartWireguard_DNS in Hv. unfold resolver. destruct (SystemDNS vt); [|done].
    by destruct HD, Hv as [-> _]. }
  split.
  - intros g. destruct g as [from to|raddr c|raddr c|raddr]; cbn [goroutine_body]; unfold events.
    + unfold run, connForward, mbind, io_bind, ask; cbn.
      intros Hin. destruct (io_copy 0 to from); elem_cases Hin.
    + destruct (tcpClientForward_run vt raddr c) as (tr & -> & Hf). by eapply forwards_no_host.
    + destruct (tcpServerForward_run vt raddr c) as (tr & -> & Hf). by eapply forwards_no_host.
    + destruct (resolveToAddrPort_run vt raddr) as (ra & Hrun & _).
      unfold run, STDIOTcpForward, mbind, io_bind, ask. rewrite Hrun, Hvia.
      intros Hin. destruct ra as [a|err]; cbn in Hin; repeat (case_match; cbn in Hin); elem_cases Hin.
  - intros config options network addr err Hin. apply Socks5_options in Hin as (-> & _).
    split_and!.
    + elem_here.
    + intros Hh. elem_cases Hh.
    + exists vt. elem_here.
    + intros vt' n Hr. elem_cases Hr. injection Hr as ->. by apply Resolve_no_host.
Qed.

Lemma no_dns_leak_witness :
  LookupHost ViaHost "internal.example" (Ok ["not an address"; "10.0.0.7"]) ∉
    events (goroutine_body (A := example_amnezia) (R := example_route_world) example_vt
      (TcpClientForward {| address := "internal.example"; port := 80 |} 5%nat)).
Proof.
  apply (no_dns_leak (W := int64_platform) (D := example_heredoc) (A := example_amnezia)
    (R := example_route_world) example_dns_device 0 example_vt).
  - vm_compute. reflexivity.
  - discriminate.
Defined.

(** C28. Resolution: one lookup, through the resolver of the tunnel; the result is an
    address of its answer, and there is one exactly when some text of the answer is
    an address, whatever the order the shuffle puts them in. *)
Theorem resolve_correct `{A : Amnezia, R : RouteWorld} vt name :
  exists r, run (ResolveAddrWithContext vt name) =
      (Done r, [LookupHost (if SystemDNS vt then ViaHost else ViaTunnel) name
                  (lookup_host 0 (if SystemDNS vt then ViaHost else ViaTunnel) name)]) /\
    (forall a, r = Ok a -> exists addrs s,
       lookup_host 0 (if SystemDNS vt then ViaHost else ViaTunnel) name = Ok addrs /\
       s ∈ addrs /\ ParseAddr s = Ok a) /\
    (forall addrs s a, lookup_host 0 (if SystemDNS vt then ViaHost else ViaTunnel) name = Ok addrs ->
       s ∈ addrs -> ParseAddr s = Ok a -> exists b, r = Ok b).
Proof.
  destruct (Resolve_run vt name) as (r & Hrun & Hr). unfold resolver in Hrun. exists r.
  split; [done|]. unfold resolved, resolver in Hr.
  destruct (lookup_host 0 _ name) as [addrs|err].
  - destruct Hr as [H1 H2]. split; [|by intros ? s a [= <-]; apply H2].
    intros a Ha. destruct (H1 a Ha) as (s & ? & ?). eauto.
  - subst. split; [done|]. by intros ? ? ? [=].
Qed.

(** C27. The TCP tunnels connect the right networks: a client tunnel dials through the
    tunnel, a server tunnel through the host, at an address the target name resolved to
    and the target's port, and once at most; a connection that was dialled is joined to
    the accepted one by a copier in each direction, and each copier closes both ends.
    The accepted connection is not closed when resolving or dialling fails. *)
Theorem tcp_forwarders_correct `{A : Amnezia, R : RouteWorld} vt raddr c f via :
  (f = tcpClientForward vt raddr c /\ via = ViaTunnel) \/
  (f = tcpServerForward vt raddr c /\ via = ViaHost) ->
  (run f).1 = Done tt /\
  (forall via' target r, DialTCP via' target r ∈ events f ->
     via' = via /\ ap_port target = port raddr /\
     exists addrs s, lookup_host 0 (if SystemDNS vt then ViaHost else ViaTunnel) (address raddr) = Ok addrs /\
       s ∈ addrs /\ ParseAddr s = Ok (ap_addr target)) /\
  (forall target s, DialTCP via target (Ok s) ∈ events f ->
     Go (ConnForward s c) ∈ events f /\ Go (ConnForward c s) ∈ events f) /\
  (Close c ∉ events f) /\
  (forall from to, (run (connForward from to)).1 = Done tt /\
     Close from ∈ events (connForward from to) /\ Close to ∈ events (connForward from to)).
Proof.
  intros Hf. assert (exists tr log1 log2, run f = (Done tt, tr) /\ forwards via log1 log2 vt raddr c tr)
    as (tr & log1 & log2 & Hrun & Hfw).
  { destruct Hf as [[-> ->]|[-> ->]].
    - destruct (tcpClientForward_run vt raddr c) as (tr & ? & ?). eauto 6.
    - destruct (tcpServerForward_run vt raddr c) as (tr & ? & ?). eauto 6. }
  clear Hf. unfold events. rewrite Hrun. cbn [fst snd]. split; [done|].
  destruct Hfw as (r & Hr & tail & -> & Ht). unfold resolved, resolver in *.
  split_and!.
  - intros via' target r' Hin. destruct r as [a|err]; [|subst; elem_cases Hin].
    destruct (lookup_host 0 _ (address raddr)) as [addrs|err]; [|done].
    destruct (proj1 Hr a eq_refl) as (s & Hs & Ha). cbn in Ht.
    destruct (dial_tcp 1 via _) eqn:Hd; subst; elem_cases Hin; injection Hin as -> -> ->;
      split_and!; eauto.
  - intros target s Hin. destruct r as [a|err]; [|subst; elem_cases Hin]. cbn in Ht.
    destruct (dial_tcp 1 via _) eqn:Hd; subst; elem_cases Hin; injection Hin as -> ->;
      split; elem_here.
  - intros Hin. destruct r as [a|err]; [|subst; elem_cases Hin]. cbn in Ht.
    destruct (dial_tcp 1 via _) eqn:Hd; subst; elem_cases Hin.
  - intros from to. unfold run, connForward, mbind, io_bind, ask; cbn.
    destruct (io_copy 0 to from); cbn; (split; [done|]); split; elem_here.
Qed.

Lemma tcp_forwarders_correct_witness :
  Go (ConnForward 8%nat 5%nat) ∈ events (tcpClientForward (A := example_amnezia)
    (R := example_route_world) example_vt {| address := "internal.example"; port := 80 |} 5%nat).
Proof.
  destruct (tcp_forwarders_correct (A := example_amnezia) (R := example_route_world) example_vt
    {| address := "internal.example"; port := 80 |} 5%nat
    (tcpClientForward (A := example_amnezia) (R := example_route_world) example_vt
      {| address := "internal.example"; port := 80 |} 5%nat) ViaTunnel)
    as (_ & _ & Hgo & _).
  - left. split; reflexivity.
  - apply (Hgo {| ap_addr := Addr4 10 0 0 7; ap_port := 80 |} 8%nat). vm_compute. elem_here.
Defined.

(** C29. The target of a tunnel: its port is a 16-bit number, and a host with such a port,
    written the standard way (an IPv6 address in brackets), is read back as it is. *)
Theorem parseAddressPort_correct `{W : IntSize} :
  (forall endpoint ap, parseAddressPort endpoint = Ok ap ->
     in_uint 16 (port ap) /\
     exists sport, SplitHostPort endpoint = Ok (address ap, sport) /\ Atoi sport = Ok (port ap)) /\
  (forall host p, no_byte "["%char host = true -> no_byte "]"%char host = true -> in_uint 16 p ->
     parseAddressPort (JoinHostPort host (FormatUint p)) = Ok {| address := host; port := p |}).
Proof.
  assert (forall p, in_uint 16 p -> uint 16 p = p) as Hu by (intros p Hp; by apply Z.mod_small).
  split.
  - intros endpoint ap Ha. unfold parseAddressPort in Ha.
    apply bind_Ok in Ha as ([name sport] & Hs & Ha).
    destruct (Atoi sport) as [p|] eqn:Hp; [|done].
    destruct ((p <? 0) || (p >? 65535)) eqn:Hr; [done|]. injection Ha as <-.
    assert (in_uint 16 p) as Hin by (unfold in_uint; lia). cbn. rewrite Hu by done. eauto.
  - intros host p H1 H2 Hp. assert (in_uint 64 p) as Hp' by (unfold in_uint in *; lia).
    destruct (FormatUint_decimal p Hp') as [_ Hd]. unfold parseAddressPort.
    rewrite SplitHostPort_JoinHostPort by (try done; by apply digits_no_byte). cbn [mbind result_bind].
    rewrite Atoi_FormatUint by (unfold in_uint in *; lia).
    replace ((p <? 0) || (p >? 65535)) with false by (unfold in_uint in *; lia).
    by rewrite Hu.
Qed.
