(* ===== verification/Health.v ===== *)
(** * Health: the status endpoint and the pings of src/routine.go.

    [ServeHTTP] answers /readyz and /metrics from the record of the last pongs and from
    the device; [pingIPs] sends the pings and [ping_reply] is the goroutine that waits
    for one answer. *)

From S2P Require Import Prelude GoStrings GoStrconv GoEncoding GoNet Config Wireguard Io.
Local Open Scope Z_scope.

(** ** [path.Clean] *)

(** The elements of a path that stay, last first: empty elements and "." go, ".."
    takes the element before it, and at the root nothing. *)
Definition clean_element (rooted : bool) (kept : list string) (elem : string) : list string :=
  if String.eqb elem "" || String.eqb elem "." then kept
  else if String.eqb elem ".." then
    match kept with
    | [] => if rooted then [] else [".."]
    | last :: before => if String.eqb last ".." then ".." :: kept else before
    end
  else elem :: kept.

Definition path_Clean (path : string) : string :=
  let rooted := HasPrefix path "/" in
  let kept := foldl (clean_element rooted) [] (Split "/"%char path) in
  let text := join "/"%char (rev kept) in
  if rooted then "/" +:+ text else if String.eqb text "" then "." else text.

(** ** The endpoint *)

Definition second : Z := 1000000000.

(** [time.Since(time.Unix(int64(record), 0))], in nanoseconds since the epoch; a
    difference that does not fit is the largest or the smallest duration. *)
Definition time_Since (now record : Z) : Z :=
  Z.max (- 2 ^ 63) (Z.min (2 ^ 63 - 1) (now - sint 64 record * second)).

(** [time.Duration(d.Conf.CheckAliveInterval+2)*time.Second] *)
Definition alive_limit `{IntSize} (conf : DeviceConfig) : Z :=
  sint 64 (to_int (CheckAliveInterval conf + 2) * second).

(** A body is text, with the JSON text of a map of numbers as one piece. *)
Inductive body_part := Text (s : string) | JSON (m : gmap string Z).

Record response := { status : Z; body : list body_part }.

(** [json.Marshal] on a map from strings to numbers. *)
Definition json_Marshal (m : gmap string Z) : result error body_part := Ok (JSON m).

(** The device's own report. *)
Class DeviceReport `{Amnezia} := { IpcGet : device_Device -> result error string }.

(** What is written for one line of the report. *)
Definition metrics_line (peer : string) : string :=
  match SplitN2 "="%char peer with
  | [key; value] =>
      let value := if String.eqb key "private_key" || String.eqb key "preshared_key"
                   then "REDACTED" else value in
      key +:+ "=" +:+ value +:+ nl
  | _ => peer
  end.

Definition metrics_text (report : string) : string :=
  foldr (fun peer buf => metrics_line peer +:+ buf) "" (Split newline report).

Section serve.
Context `{W : IntSize, A : Amnezia, DR : !DeviceReport}.

Definition ServeHTTP (d : VirtualTun) (now : Z) (url_path : string) : response :=
  let path := path_Clean url_path in
  if String.eqb path "/readyz" then
    match json_Marshal (PingRecord d) with
    | Err _ => {| status := 500; body := [] |}
    | Ok text =>
        let late := existsb (fun kv => time_Since now kv.2 >? alive_limit (Conf d))
                      (map_to_list (PingRecord d)) in
        {| status := if late then 503 else 200; body := [text; Text nl] |}
    end
  else if String.eqb path "/metrics" then
    match IpcGet (Dev d) with
    | Err _ => {| status := 500; body := [] |}
    | Ok get => {| status := 200; body := [Text (metrics_text get)] |}
    end
  else {| status := 404; body := [] |}.

End serve.

(** ** Pings *)

(** [icmp.Echo], without the identifier, which the code leaves zero. *)
Record echo := { Seq : Z; Data : string }.

(** The body of a parsed message, by its type. *)
Inductive message_body :=
| EchoBody (e : echo)
| RawBody (data : string)
| OtherBody.

(** golang.org/x/net/icmp *)
Class Icmp := {
  Marshal_v4 : echo -> string;       (* ipv4.ICMPTypeEcho *)
  Marshal_v6 : echo -> string;       (* ipv6.ICMPTypeEchoRequest *)
  ParseMessage : Z -> string -> result error message_body
}.

(** The goroutine that waits for the answer to a ping. *)
Record pending := { ping_socket : conn; ping_addr : Addr; ping_request : echo; ping_bytes : string }.

Inductive event :=
| DialPing (addr : string) (r : result error conn)
| SetReadDeadline (c : conn) (timeout : Z) (err : option error)
| WritePing (c : conn) (data : string) (err : option error)
| ReadPing (c : conn) (r : result error string)
| Close (c : conn)
| LogError (text : string) (addr : Addr)
| Record (addr : string) (time : Z)
| GoReply (p : pending)
| Sleep (duration : Z).

Class PingWorld := {
  dial_ping : nat -> string -> result error conn;
  set_deadline : nat -> conn -> option error;
  write_ping : nat -> conn -> option error;
  read_ping : nat -> conn -> result error string;
  random_bytes : nat -> string;
  random_seq : nat -> Z;
  unix_time : nat -> Z
}.

(** [binary.BigEndian.Uint16(data[2:4])] and [data[4:]]; [None] when the slice is out of
    range. *)
Definition split_raw (data : string) : option (Z * string) :=
  match data with
  | String _ (String _ (String hi (String lo rest))) =>
      Some (byte_val hi * 256 + byte_val lo, rest)
  | _ => None
  end.

Section pings.
Context `{W : IntSize, I : Icmp, P : PingWorld}.

Definition log (text : string) (addr : Addr) : io event unit := emit (LogError text addr).

(** The body of the loop of [pingIPs]. *)
Definition ping (conf : DeviceConfig) (addr : Addr) : io event unit :=
  r ← ask (fun n => dial_ping n (Addr_String addr)) (DialPing (Addr_String addr));
  match r with
  | Err _ => log "Failed to ping" addr
  | Ok socket =>
      data ← choose random_bytes;
      seq ← choose random_seq;
      let requestPing := {| Seq := seq mod 2 ^ 16; Data := data |} in
      let send icmpBytes :=
        err ← ask (fun n => set_deadline n socket)
          (SetReadDeadline socket (sint 64 (CheckAliveInterval conf * second)));
        match err with
        | Some _ => log "Failed to set ping read deadline for" addr ;; emit (Close socket)
        | None =>
            err ← ask (fun n => write_ping n socket) (WritePing socket icmpBytes);
            match err with
            | Some _ => log "Failed to ping" addr ;; emit (Close socket)
            | None => emit (GoReply {| ping_socket := socket; ping_addr := addr;
                                       ping_request := requestPing; ping_bytes := icmpBytes |})
            end
        end in
      if Is4 addr then send (Marshal_v4 requestPing)
      else if Is6 addr then send (Marshal_v6 requestPing)
      else log "Failed to ping, invalid address" addr ;; emit (Close socket)
  end.

Fixpoint ping_all (conf : DeviceConfig) (addrs : list Addr) : io event unit :=
  match addrs with
  | [] => mret tt
  | addr :: addrs => ping conf addr ;; ping_all conf addrs
  end.

Definition pingIPs (conf : DeviceConfig) : io event unit := ping_all conf (CheckAlive conf).

(** The check of a reply: whether it is the answer to the request, or a panic. *)
Definition reply_matches (addr : Addr) (requestPing : echo) (reply : message_body) :
    option (result string unit) :=
  let check4 :=
    if Is4 addr then
      match reply with
      | EchoBody replyPing =>
          if negb (String.eqb (Data replyPing) (Data requestPing))
             || negb (Seq replyPing =? Seq requestPing)
          then Err "invalid ping reply" else Ok tt
      | _ => Err "invalid reply type"
      end
    else Ok tt in
  match check4 with
  | Err e => Some (Err e)
  | Ok _ =>
      if Is6 addr then
        match reply with
        | RawBody data =>
            match split_raw data with
            | None => None
            | Some (seq, pongBody) =>
                Some (if negb (String.eqb pongBody (Data requestPing))
                         || negb (seq =? Seq requestPing)
                      then Err "invalid ping reply" else Ok tt)
            end
        | _ => Some (Err "invalid reply type")
        end
      else Some (Ok tt)
  end.

(** The goroutine; the deferred close runs on a panic too. *)
Definition ping_reply (p : pending) : io event unit :=
  let addr := ping_addr p in
  r ← ask (fun n => read_ping n (ping_socket p)) (ReadPing (ping_socket p));
  match r with
  | Err _ => log "Failed to read ping response from" addr ;; emit (Close (ping_socket p))
  | Ok read =>
      let read := String.substring 0 (String.length (ping_bytes p)) read in
      match ParseMessage 1 read with
      | Err _ => log "Failed to parse ping response from" addr ;; emit (Close (ping_socket p))
      | Ok reply =>
          match reply_matches addr (ping_request p) reply with
          | None => emit (Close (ping_socket p)) ;; panic
          | Some (Err _) =>
              log "Failed to parse ping response from" addr ;; emit (Close (ping_socket p))
          | Some (Ok _) =>
              now ← choose unix_time;
              emit (Record (Addr_String addr) (uint 64 now)) ;; emit (Close (ping_socket p))
          end
      end
  end.

(** [StartPingIPs]: first no address has answered, then the rounds of its goroutine, of
    which [n] have been done. *)
Fixpoint ping_rounds (n : nat) (conf : DeviceConfig) : io event unit :=
  match n with
  | O => mret tt
  | S n =>
      pingIPs conf ;;
      emit (Sleep (sint 64 (CheckAliveInterval conf * second))) ;;
      ping_rounds n conf
  end.

Fixpoint reset_records (addrs : list Addr) : io event unit :=
  match addrs with
  | [] => mret tt
  | addr :: addrs => emit (Record (Addr_String addr) 0) ;; reset_records addrs
  end.

Definition StartPingIPs (n : nat) (conf : DeviceConfig) : io event unit :=
  reset_records (CheckAlive conf) ;; ping_rounds n conf.

(** The record after the first loop of [StartPingIPs]. *)
Definition initial_record (conf : DeviceConfig) (m : gmap string Z) : gmap string Z :=
  foldl (fun m addr => <[Addr_String addr := 0]> m) m (CheckAlive conf).

(** The record after the events of the pings. *)
Definition record_event (m : gmap string Z) (e : event) : gmap string Z :=
  match e with Record addr time => <[addr := time]> m | _ => m end.

End pings.

(** ** Lemmas *)

Definition redact (kv : setting) : setting :=
  if decide (kv.1 ∈ ["private_key"; "preshared_key"]) then (kv.1, "REDACTED") else kv.

Lemma metrics_render ss : Forall clean ss -> metrics_text (render ss) = render (redact <$> ss).
Proof.
  unfold metrics_text. induction 1 as [|[k v] ss Hc Hss IH]; [done|].
  cbn [render fst snd fmap list_fmap]. rewrite Split_line by done. cbn [foldr]. rewrite IH.
  f_equal. destruct Hc as (_ & Hk & _). cbn [fst] in Hk.
  unfold metrics_line, SplitN2, redact. cbn [fst snd].
  rewrite (proj2 (Cut_Some "="%char _ k v)) by done.
  destruct (String.eqb_spec k "private_key") as [->|H1]; [done|].
  destruct (String.eqb_spec k "preshared_key") as [->|H2]; [done|].
  rewrite decide_False; [done|]. intros Hin. elem_cases Hin; congruence.
Qed.

Lemma redact_clean kv : clean kv -> clean (redact kv).
Proof. intros (H1 & H2 & H3). unfold redact. case_decide; by split_and!. Qed.

Lemma existsb_map_to_list {B} (f : string * B -> bool) (m : gmap string B) :
  existsb f (map_to_list m) = false <-> map_Forall (fun k v => f (k, v) = false) m.
Proof.
  rewrite existsb_false_iff. split.
  - intros Hf k v Hk. apply Hf. by apply elem_of_map_to_list.
  - intros Hf [k v] Hk%elem_of_map_to_list. by apply Hf.
Qed.

(** The times at which the endpoint is asked, and the pongs, are before the year 2242. *)
Definition sane_time (now : Z) (m : gmap string Z) : Prop :=
  0 <= now < 2 ^ 33 * second /\ map_Forall (fun _ r => 0 <= r < 2 ^ 33) m.

Lemma late_spec `{IntSize} conf now r :
  0 <= CheckAliveInterval conf < 2 ^ 31 - 2 -> 0 <= now < 2 ^ 33 * second -> 0 <= r < 2 ^ 33 ->
  (time_Since now r >? alive_limit conf) = true <->
  (CheckAliveInterval conf + 2) * second < now - r * second.
Proof.
  intros Hi Hn Hr. unfold time_Since, alive_limit, second in *.
  rewrite to_int_id by (apply in_int_small; lia).
  rewrite !sint_id by (unfold in_sint; lia). rewrite Z.gtb_gt. lia.
Qed.

Lemma ServeHTTP_readyz `{W : IntSize, A : Amnezia, DR : !DeviceReport} d now path :
  path_Clean path = "/readyz" ->
  0 <= CheckAliveInterval (Conf d) < 2 ^ 31 - 2 -> sane_time now (PingRecord d) ->
  body (ServeHTTP d now path) = [JSON (PingRecord d); Text nl] /\
  (status (ServeHTTP d now path) = 200 <->
     map_Forall (fun _ r => now - r * second <= (CheckAliveInterval (Conf d) + 2) * second)
       (PingRecord d)) /\
  (status (ServeHTTP d now path) = 200 \/ status (ServeHTTP d now path) = 503).
Proof.
  intros Hp Hi [Hn Hm]. unfold ServeHTTP. rewrite Hp. cbn -[existsb map_to_list second].
  split; [done|]. split; [|case_match; auto].
  transitivity (existsb (fun kv : string * Z => time_Since now kv.2 >? alive_limit (Conf d))
    (map_to_list (PingRecord d)) = false); [by case_match|].
  rewrite existsb_map_to_list. split; intros Hf k r Hk.
  - specialize (Hf k r Hk). cbn in Hf. apply not_true_iff_false in Hf.
    rewrite late_spec in Hf by (try done; by apply (Hm k r)). lia.
  - cbn. apply not_true_iff_false. rewrite late_spec by (try done; by apply (Hm k r)).
    specialize (Hf k r Hk). cbn in Hf. lia.
Qed.

Lemma reset_records_run addrs tr m :
  exists new, reset_records addrs tr = (Done tt, tr ++ new) /\
    foldl record_event m new = foldl (fun m addr => <[Addr_String addr := 0]> m) m addrs.
Proof.
  revert tr m; induction addrs as [|a addrs IH]; intros tr m.
  - exists []. by rewrite app_nil_r.
  - destruct (IH (tr ++ [Record (Addr_String a) 0]) (<[Addr_String a := 0]> m)) as (new & Hn & Hm).
    exists (Record (Addr_String a) 0 :: new). split; [|done].
    cbn. rewrite bind_emit, Hn. by rewrite <- app_assoc.
Qed.

(** [initial_record] is what [StartPingIPs] writes before its first round. *)
Lemma StartPingIPs_initial `{Icmp, PingWorld} conf m :
  foldl record_event m (events (StartPingIPs 0 conf)) = initial_record conf m.
Proof.
  destruct (reset_records_run (CheckAlive conf) [] m) as (new & Hn & Hm).
  unfold events, run, StartPingIPs, mbind, io_bind. by rewrite Hn.
Qed.

Lemma initial_record_lookup conf m addr :
  addr ∈ CheckAlive conf -> initial_record conf m !! Addr_String addr = Some 0.
Proof.
  unfold initial_record. intros Hin.
  assert (forall l (m : gmap string Z), m !! Addr_String addr = Some 0 ->
    foldl (fun (m : gmap string Z) addr => <[Addr_String addr := 0]> m) m l !! Addr_String addr = Some 0) as Hkeep.
  { induction l as [|b l IH]; intros m' Hm; [done|]. cbn. apply IH.
    destruct (decide (Addr_String b = Addr_String addr)) as [->|];
      [by rewrite lookup_insert_eq|by rewrite lookup_insert_ne]. }
  revert m. induction Hin as [addr l|addr b l Hin IH]; intros m; cbn.
  - apply Hkeep. by rewrite lookup_insert_eq.
  - by apply IH.
Qed.

Lemma record_event_lookup evs m key v :
  m !! key = Some v -> (forall t, Record key t ∉ evs) -> foldl record_event m evs !! key = Some v.
Proof.
  revert m; induction evs as [|e evs IH]; intros m Hm Hn; [done|]. cbn. apply IH.
  - destruct e as [| | | | | |addr t| |]; try done. cbn.
    destruct (decide (addr = key)) as [->|]; [|by rewrite lookup_insert_ne].
    destruct (Hn t). apply list_elem_of_here.
  - intros t Ht. apply (Hn t). by apply list_elem_of_further.
Qed.

(** What a matching reply is. *)
Lemma reply_matches_Ok addr req reply :
  reply_matches addr req reply = Some (Ok tt) <->
  match addr with
  | Addr4 _ _ _ _ => reply = EchoBody req
  | Addr6 _ _ => exists data, reply = RawBody data /\ split_raw data = Some (Seq req, Data req)
  | AddrZero => True
  end.
Proof.
  unfold reply_matches. destruct addr as [|a b c d|fields zone]; cbn [Is4 Is6]; [done| |].
  - destruct reply as [e| |]; [|done..].
    destruct (String.eqb_spec (Data e) (Data req)), (Z.eqb_spec (Seq e) (Seq req)); cbn;
      split; try done; destruct e, req; cbn in *; intros; simplify_eq; try done; congruence.
  - destruct reply as [|data|]; [split; [done|naive_solver]| |split; [done|naive_solver]].
    destruct (split_raw data) as [[seq rest]|] eqn:Es; [|split; [done|naive_solver]].
    destruct (String.eqb_spec rest (Data req)), (Z.eqb_spec seq (Seq req)); cbn;
      (split; [intros; simplify_eq; eauto|intros (data' & [= <-] & E); congruence]).
Qed.

(** ** An example *)

Definition example_report : DeviceReport (H := example_amnezia) :=
  @Build_DeviceReport example_amnezia (fun dev => Ok dev).

Definition example_health_device : DeviceConfig :=
  {| SecretKey := ""; Device_Endpoint := []; Peers := []; DNS := []; MTU := 1420;
     Device_ListenPort := None; CheckAlive := [Addr4 1 1 1 1]; CheckAliveInterval := 5;
     ASecConfig := None |}.

(** A raw body is decoded as it is. *)
Definition example_icmp : Icmp :=
  {| Marshal_v4 e := Data e; Marshal_v6 e := Data e; ParseMessage proto text := Ok (RawBody text) |}.

Definition example_ping_world : PingWorld :=
  {| dial_ping n addr := Ok 4%nat; set_deadline n c := None; write_ping n c := None;
     read_ping n c := Ok "abc"; random_bytes n := "data"; random_seq n := 7; unix_time n := 9 |}.

Definition example_settings : list setting :=
  [("private_key", "c0ffee"); ("listen_port", "51820"); ("preshared_key", "beef")].

Definition example_health_vt (m : gmap string Z) : VirtualTun (H := example_amnezia) :=
  Build_VirtualTun example_amnezia tt (render example_settings) false example_health_device m.

(** ** Properties *)

(** C35. Readiness: under any spelling of /readyz the answer is 200 exactly when every
    checked address has answered a ping within the check interval plus two seconds, and
    503 otherwise; the body is the record itself. *)
Theorem readyz_correct `{W : IntSize, A : Amnezia, DR : !DeviceReport} d now path :
  path_Clean path = "/readyz" ->
  0 <= CheckAliveInterval (Conf d) < 2 ^ 31 - 2 -> sane_time now (PingRecord d) ->
  body (ServeHTTP d now path) = [JSON (PingRecord d); Text nl] /\
  (status (ServeHTTP d now path) = 200 <->
     map_Forall (fun _ r => now - r * second <= (CheckAliveInterval (Conf d) + 2) * second)
       (PingRecord d)) /\
  (status (ServeHTTP d now path) = 200 \/ status (ServeHTTP d now path) = 503).
Proof. apply ServeHTTP_readyz. Qed.

Lemma readyz_correct_witness :
  status (ServeHTTP (W := int64_platform) (A := example_amnezia) (DR := example_report)
    (example_health_vt {[ "1.1.1.1" := 1700000000 ]}) (1700000007 * second) "//x/../readyz/") = 200.
Proof.
  apply (readyz_correct (W := int64_platform) (A := example_amnezia) (DR := example_report)).
  - vm_compute. reflexivity.
  - cbn. lia.
  - split; [unfold second; lia|]. apply map_Forall_singleton. lia.
  - apply map_Forall_singleton. unfold second; cbn. lia.
Defined.

(** C36. Not ready before the first pong: from the start of the pings, whatever answers have
    arrived for other addresses, the endpoint says 503 as long as one checked address has
    not answered. *)
Theorem not_ready_before_pong `{W : IntSize, A : Amnezia, DR : !DeviceReport, I : Icmp, P : PingWorld} d evs addr now path :
  path_Clean path = "/readyz" ->
  PingRecord d = foldl record_event (foldl record_event ∅ (events (StartPingIPs 0 (Conf d)))) evs ->
  addr ∈ CheckAlive (Conf d) -> (forall t, Record (Addr_String addr) t ∉ evs) ->
  0 <= CheckAliveInterval (Conf d) < 2 ^ 31 - 2 -> sane_time now (PingRecord d) ->
  (CheckAliveInterval (Conf d) + 2) * second < now ->
  status (ServeHTTP d now path) = 503.
Proof.
  intros Hp Hrec Hin Hno Hi Hs Hlate.
  destruct (ServeHTTP_readyz d now path Hp Hi Hs) as (_ & H200 & [Hst|Hst]); [|done].
  exfalso. apply H200 in Hst.
  assert (PingRecord d !! Addr_String addr = Some 0) as Hz
    by (rewrite Hrec, StartPingIPs_initial; apply record_event_lookup; [by apply initial_record_lookup|done]).
  specialize (Hst _ _ Hz). cbn in Hst. lia.
Qed.

Lemma not_ready_before_pong_witness :
  status (ServeHTTP (W := int64_platform) (A := example_amnezia) (DR := example_report)
    (example_health_vt {[ "1.1.1.1" := 0 ]}) (1700000007 * second) "/readyz") = 503.
Proof.
  apply (not_ready_before_pong (W := int64_platform) (A := example_amnezia)
    (DR := example_report) (I := example_icmp) (P := example_ping_world)
    (example_health_vt {[ "1.1.1.1" := 0 ]}) [] (Addr4 1 1 1 1)).
  - vm_compute. reflexivity.
  - vm_compute. reflexivity.
  - apply list_elem_of_here.
  - intros t. apply not_elem_of_nil.
  - cbn. lia.
  - split; [unfold second; lia|]. apply map_Forall_singleton. lia.
  - unfold second; cbn. lia.
Defined.

(** C37. The metrics keep the keys secret: when the device reports its settings line by
    line, the answer to /metrics reads back as the same settings in the same order, with
    the value of every private key and every preshared key replaced. *)
Theorem metrics_redacted `{W : IntSize, A : Amnezia, DR : !DeviceReport} d now path ss :
  path_Clean path = "/metrics" -> IpcGet (Dev d) = Ok (render ss) -> Forall clean ss ->
  exists text, ServeHTTP d now path = {| status := 200; body := [Text text] |} /\
    read_request text = Some (redact <$> ss).
Proof.
  intros Hp Hg Hc. unfold ServeHTTP. rewrite Hp. cbn [String.eqb Ascii.eqb Bool.eqb].
  rewrite Hg. eexists. split; [reflexivity|]. rewrite metrics_render by done.
  apply read_render, Forall_fmap. eapply Forall_impl; [done|]. apply redact_clean.
Qed.

Lemma metrics_redacted_witness :
  exists text, ServeHTTP (W := int64_platform) (A := example_amnezia) (DR := example_report)
      (example_health_vt ∅) 0 "/metrics" = {| status := 200; body := [Text text] |} /\
    read_request text =
      Some [("private_key", "REDACTED"); ("listen_port", "51820"); ("preshared_key", "REDACTED")].
Proof.
  apply (metrics_redacted (W := int64_platform) (A := example_amnezia) (DR := example_report)
    (example_health_vt ∅) 0 "/metrics" example_settings).
  - vm_compute. reflexivity.
  - reflexivity.
  - unfold example_settings, clean. repeat constructor.
Defined.

(** C38. A pong is recorded only for the right reply: of an IPv4 address an echo with the
    sequence number and the data that were sent, of an IPv6 address a body that holds
    them after two bytes; the time is recorded under the address that was pinged. The
    socket is closed whatever happens. The goroutine panics exactly when the reply of
    an IPv6 address has a body of less than four bytes. *)
Theorem ping_reply_correct `{I : Icmp, P : PingWorld} p :
  ping_addr p <> AddrZero ->
  let reply := read ← read_ping 0 (ping_socket p);
    ParseMessage 1 (String.substring 0 (String.length (ping_bytes p)) read) in
  (forall key t, Record key t ∈ events (ping_reply p) ->
     key = Addr_String (ping_addr p) /\
     match ping_addr p with
     | Addr6 _ _ => exists data, reply = Ok (RawBody data) /\
         split_raw data = Some (Seq (ping_request p), Data (ping_request p))
     | _ => reply = Ok (EchoBody (ping_request p))
     end) /\
  Close (ping_socket p) ∈ events (ping_reply p) /\
  ((run (ping_reply p)).1 = Panicked <->
     Is6 (ping_addr p) = true /\ exists data, reply = Ok (RawBody data) /\ (String.length data < 4)%nat).
Proof.
  intros Hz reply. unfold events, run, ping_reply, mbind, io_bind, ask, log in *. subst reply.
  cbn [length app].
  destruct (read_ping 0 (ping_socket p)) as [read|err] eqn:Hr; cbn -[String.substring];
    [|split; [intros ? ? Hin; elem_cases Hin|split; [elem_here|naive_solver]]].
  destruct (ParseMessage 1 _) as [body|err]; cbn;
    [|split; [intros ? ? Hin; elem_cases Hin|split; [elem_here|naive_solver]]].
  destruct (reply_matches (ping_addr p) (ping_request p) body) as [[[]|e]|] eqn:Hm; cbn.
  - apply reply_matches_Ok in Hm. split; [|split; [elem_here|]].
    + intros key t Hin. elem_cases Hin. injection Hin as -> _. split; [done|].
      destruct (ping_addr p); [done|by rewrite Hm|]. destruct Hm as (data & -> & ?). eauto.
    + split; [done|]. intros [H6 (data & [= ->] & Hl)]. destruct (ping_addr p); try done.
      destruct Hm as (data' & [= <-] & Hs). exfalso. clear -Hs Hl.
      destruct data as [|? [|? [|? [|? ?]]]]; cbn in *; try done; lia.
  - split; [intros ? ? Hin; elem_cases Hin|split; [elem_here|]]. split; [done|].
    intros [H6 (data & [= ->] & Hl)]. exfalso. unfold reply_matches in Hm.
    destruct (ping_addr p); try done. cbn in Hm.
    destruct (split_raw data) as [[]|] eqn:Hs; [|done]. clear -Hs Hl.
    destruct data as [|? [|? [|? [|? ?]]]]; cbn in *; try done; lia.
  - split; [intros ? ? Hin; elem_cases Hin|split; [elem_here|]]. split; [intros _|done].
    unfold reply_matches in Hm. destruct (ping_addr p); cbn in Hm; try done;
      [by destruct body; try done; repeat case_match|].
    split; [done|]. destruct body as [|data|]; try done. exists data. split; [done|].
    destruct (split_raw data) as [[]|] eqn:Hs; [done|]. clear -Hs.
    destruct data as [|? [|? [|? [|? ?]]]]; cbn in *; try done; lia.
Qed.

Definition example_pending : pending :=
  {| ping_socket := 4%nat; ping_addr := Addr6 [8193; 3512; 0; 0; 0; 0; 0; 1] "";
     ping_request := {| Seq := 7; Data := "data" |}; ping_bytes := "12345678" |}.

Lemma ping_reply_correct_witness :
  (run (ping_reply (I := example_icmp) (P := example_ping_world) example_pending)).1 = Panicked.
Proof.
  apply (ping_reply_correct (I := example_icmp) (P := example_ping_world) example_pending).
  - discriminate.
  - split; [reflexivity|]. exists "abc". split; [vm_compute; reflexivity|cbn; lia].
Defined.
