(* ===== verification/Main.v ===== *)
(** * The program: src/cmd/wireproxy/main.go.

    The process gives up its rights stage by stage while it starts: [lock] restricts
    files and system calls, [lockNetwork] the TCP ports; in between it reads the
    configuration, and at the end it starts the tunnel and its routines. *)

From Stdlib Require Import Sorting.Sorted.
From S2P Require Import Prelude GoStrings GoStrconv GoEncoding GoNet Ini Keys AwgConfig Config Wireguard Io.
Local Open Scope Z_scope.

Definition daemonProcess : string := "daemon-process".

(** The rules of the landlock library. *)
Inductive path_rule :=
| RODirs (path : string)
| ROFiles_IgnoreIfMissing (path : string)
| RWFiles_IgnoreIfMissing (path : string).

Inductive net_rule := BindTCP (port : Z) | ConnectTCP (port : Z).

Inductive event :=
| Unveil (path flags : string) (err : option error)
| Pledge (promises : string) (err : option error)
| RestrictPaths (rules : list path_rule) (err : option error)
| PreferGo
| RestrictNet (rules : list net_rule) (err : option error)
| ReadConfig (path : string)
| Output (text : string)
| OutputError (err : error)
| LogFatal (err : error)
| Daemonize (path : string) (args : list string) (err : option error)
| RedirectOutput (path : string)
| StartTunnel (conf : DeviceConfig) (logLevel : Z)
| Spawn (r : RoutineSpawner)
| StartPings
| ServeInfo (addr : string).

(** The options of the command line. *)
Record options := {
  opt_config : string; opt_silent : bool; opt_daemon : bool; opt_info : string;
  opt_version : bool; opt_configTest : bool
}.

(** What the process is given: the argument parser (github.com/akamensky/argparse), the
    sandbox, the paths. *)
Class MainWorld := {
  parser_Parse : list string -> result error options;
  parser_Usage : error -> string;
  os_Executable : result error string;
  os_Stat : string -> bool;
  getenv_HOME : string;
  unveil : nat -> string -> option error;
  pledge : nat -> string -> option error;
  restrict_paths : nat -> option error;
  restrict_net : nat -> list net_rule -> option error;
  cmd_Start : nat -> option error;
  LogLevelSilent : Z;     (* of the device *)
  LogLevelVerbose : Z
}.

(** ** Paths *)

Section paths.
Context `{MW : MainWorld}.

Definition default_config_paths : list string :=
  ["/etc/wireproxy/wireproxy.conf"; getenv_HOME +:+ "/.config/wireproxy.conf"].

Definition executablePath (args : list string) : string :=
  match os_Executable with
  | Ok programPath => programPath
  | Err _ => nth 0 args ""
  end.

(** The first default path that exists. *)
Fixpoint first_existing (paths : list string) : option string :=
  match paths with
  | [] => None
  | path :: paths => if os_Stat path then Some path else first_existing paths
  end.

Definition configFilePath : option string := first_existing default_config_paths.

End paths.

(** ** Locks *)

Section locks.
Context `{MW : MainWorld}.

Definition panicIfError (err : option error) : io event unit :=
  match err with Some err => log_Fatal (LogFatal err) | None => mret tt end.

Definition pledgeOrPanic (promises : string) : io event unit :=
  err ← ask (fun n => pledge n promises) (Pledge promises); panicIfError err.

Definition unveilOrPanic (path flags : string) : io event unit :=
  err ← ask (fun n => unveil n path) (Unveil path flags); panicIfError err.

Definition restrictPathsOrPanic (rules : list path_rule) : io event unit :=
  err ← ask (fun n => restrict_paths n) (RestrictPaths rules); panicIfError err.

Definition ready_rules : list path_rule :=
  map ROFiles_IgnoreIfMissing
    ["/etc/resolv.conf"; "/dev/fd"; "/dev/zero"; "/dev/urandom"; "/etc/localtime";
     "/proc/self/stat"; "/proc/self/status"; "/usr/share/locale"; "/proc/self/cmdline";
     "/usr/share/zoneinfo"; "/proc/sys/kernel/version"; "/proc/sys/kernel/ngroups_max";
     "/proc/sys/kernel/cap_last_cap"; "/proc/sys/vm/overcommit_memory"] ++
  map RWFiles_IgnoreIfMissing ["/dev/log"; "/dev/null"; "/dev/full"; "/proc/self/fd"].

Definition lock (args : list string) (stage : string) : io event unit :=
  if String.eqb stage "boot" then
    let exePath := executablePath args in
    unveilOrPanic "/" "r" ;;
    unveilOrPanic exePath "x" ;;
    pledgeOrPanic "stdio rpath inet dns proc exec" ;;
    restrictPathsOrPanic [RODirs "/"]
  else if String.eqb stage "boot-daemon" then mret tt
  else if String.eqb stage "read-config" then pledgeOrPanic "stdio rpath inet dns"
  else if String.eqb stage "ready" then
    pledgeOrPanic "stdio inet dns" ;;
    emit PreferGo ;;
    restrictPathsOrPanic ready_rules
  else panic.

Context `{W : IntSize}.

(** [None] is a panic. *)
Definition extractPort (addr : string) : option Z :=
  match SplitHostPort addr with
  | Err _ => None
  | Ok (_, portStr) =>
      match Atoi portStr with
      | Err _ => None
      | Ok port => Some (uint 16 port)
      end
  end.

(** The rule of a section, if it has one. *)
Definition section_rule (section : RoutineSpawner) : option (list net_rule) :=
  match section with
  | TCPServerTunnel c => p ← extractPort (Server_Target c); Some [ConnectTCP p]
  | HTTP c => p ← extractPort (HTTP_BindAddress c); Some [BindTCP p]
  | TCPClientTunnel c => Some [ConnectTCP (uint 16 (TCPAddr_Port (Client_BindAddress c)))]
  | Socks5 c => p ← extractPort (Socks5_BindAddress c); Some [BindTCP p]
  | _ => Some []
  end.

Fixpoint section_rules (rules : list net_rule) (sections : list RoutineSpawner) :
    option (list net_rule) :=
  match sections with
  | [] => Some rules
  | section :: sections => r ← section_rule section; section_rules (rules ++ r) sections
  end.

Definition network_rules (sections : list RoutineSpawner) (infoAddr : string) :
    option (list net_rule) :=
  rules ← (if negb (String.eqb infoAddr "") then p ← extractPort infoAddr; Some [BindTCP p]
           else Some []);
  section_rules rules sections.

Definition lockNetwork (sections : list RoutineSpawner) (infoAddr : string) : io event unit :=
  match network_rules sections infoAddr with
  | None => panic
  | Some rules =>
      err ← ask (fun n => restrict_net n rules) (RestrictNet rules);
      panicIfError err
  end.

End locks.

(** ** The main function *)

Section main.
Context `{W : IntSize, U : UnicodeTables, L : IniLib, Ev : @Env L, D : Heredoc, A : Amnezia,
  MW : MainWorld}.

Fixpoint spawn_all (rs : list RoutineSpawner) : io event unit :=
  match rs with
  | [] => mret tt
  | r :: rs => emit (Spawn r) ;; spawn_all rs
  end.

(** From the parsed configuration on. *)
Definition run_config (conf : Configuration) (opts : options) (isDaemonProcess : bool)
    (osArgs args : list string) (exePath : string) : io event unit :=
  lockNetwork (Routines conf) (opt_info opts) ;;
  (if isDaemonProcess then emit (RedirectOutput "/dev/null") else mret tt) ;;
  let daemon := opt_daemon opts && negb isDaemonProcess in
  if daemon then
    let args := daemonProcess :: tail args in
    err ← ask (fun n => cmd_Start n) (Daemonize exePath args);
    match err with Some err => emit (OutputError err) | None => mret tt end
  else
    emit (RedirectOutput "/dev/stderr") ;;
    let logLevel := if opt_silent opts then LogLevelSilent else LogLevelVerbose in
    lock osArgs "ready" ;;
    emit (StartTunnel (Device conf) logLevel) ;;
    match StartWireguard (Device conf) logLevel with
    | Err err => log_Fatal (LogFatal err)
    | Ok tun =>
        spawn_all (Routines conf) ;;
        emit StartPings ;;
        (if negb (String.eqb (opt_info opts) "") then emit (ServeInfo (opt_info opts)) else mret tt)
    end.

(** The rest of [main], once the configuration file is known. *)
Definition run_file (path : string) (opts : options) (isDaemonProcess : bool)
    (osArgs args : list string) (exePath : string) : io event unit :=
  (if negb (opt_daemon opts) then lock osArgs "read-config" else mret tt) ;;
  emit (ReadConfig path) ;;
  match ParseConfig path with
  | Err err => log_Fatal (LogFatal err)
  | Ok conf =>
      if opt_configTest opts then emit (Output "Config OK")
      else run_config conf opts isDaemonProcess osArgs args exePath
  end.

(** [main] with the arguments of the process, up to the wait for a signal. *)
Definition main (version : string) (osArgs : list string) : io event unit :=
  let exePath := executablePath osArgs in
  lock osArgs "boot" ;;
  let isDaemonProcess := (1 <? length osArgs)%nat && String.eqb (nth 1 osArgs "") daemonProcess in
  (if isDaemonProcess then lock osArgs "boot-daemon" else mret tt) ;;
  let args := if isDaemonProcess then nth 0 osArgs "" :: drop 2 osArgs else osArgs in
  match parser_Parse args with
  | Err err => emit (Output (parser_Usage err))
  | Ok opts =>
      if opt_version opts then emit (Output ("wireproxy, version " +:+ version +:+ nl))
      else if String.eqb (opt_config opts) "" then
        match configFilePath with
        | Some path => run_file path opts isDaemonProcess osArgs args exePath
        | None => emit (Output "configuration path is required")
        end
      else run_file (opt_config opts) opts isDaemonProcess osArgs args exePath
  end.

End main.

(** ** Stages *)

#[global] Instance path_rule_eq_dec : EqDecision path_rule.
Proof. solve_decision. Defined.

(** The stage an action belongs to; messages belong to none. *)
Definition stage (e : event) : option nat :=
  match e with
  | Unveil _ _ _ => Some 0%nat
  | Pledge promises _ =>
      Some (if decide (promises = "stdio inet dns") then 4
            else if decide (promises = "stdio rpath inet dns") then 1 else 0)%nat
  | RestrictPaths rules _ => Some (if decide (rules = ready_rules) then 4 else 0)%nat
  | ReadConfig _ => Some 2%nat
  | RestrictNet _ _ => Some 3%nat
  | PreferGo | Daemonize _ _ _ => Some 4%nat
  | StartTunnel _ _ => Some 5%nat
  | Spawn _ => Some 6%nat
  | StartPings => Some 7%nat
  | ServeInfo _ => Some 8%nat
  | _ => None
  end.

(** Everything [m] does belongs to the stages from [lo] to [hi], in order. *)
Definition staged {B} (lo hi : nat) (m : io event B) : Prop :=
  forall tr, exists new, (m tr).2 = tr ++ new /\
    StronglySorted le (omap stage new) /\ Forall (fun k => lo <= k <= hi)%nat (omap stage new).

Lemma sorted_app (l k : list nat) mid :
  StronglySorted le l -> StronglySorted le k ->
  Forall (fun x => x <= mid)%nat l -> Forall (fun x => mid <= x)%nat k ->
  StronglySorted le (l ++ k).
Proof.
  intros Hl Hk Hlm Hkm. induction Hl as [|x l Hl IH Hx]; [done|]. cbn.
  apply Forall_cons_1 in Hlm as [Hxm Hlm]. constructor; [by apply IH|].
  apply Forall_app. split; [done|]. eapply Forall_impl; [done|]. cbn. lia.
Qed.

Lemma staged_bind {B C} lo mid hi (m : io event B) (f : B -> io event C) :
  (lo <= mid <= hi)%nat -> staged lo mid m -> (forall b, staged mid hi (f b)) -> staged lo hi (m ≫= f).
Proof.
  intros Hle Hm Hf tr. destruct (Hm tr) as (new & Hn & Hs & Hb). unfold mbind, io_bind.
  destruct (m tr) as [[b| |] tr'] eqn:E; cbn in Hn; subst tr'.
  2-3: exists new; split_and!; [done..|]; eapply Forall_impl; [done|]; cbn; lia.
  destruct (Hf b (tr ++ new)) as (new' & Hn' & Hs' & Hb'). exists (new ++ new').
  rewrite omap_app. split_and!.
  - by rewrite Hn', app_assoc.
  - eapply (sorted_app _ _ mid); try done; (eapply Forall_impl; [done|]); cbn; lia.
  - apply Forall_app. split; (eapply Forall_impl; [done|]); cbn; lia.
Qed.

Lemma staged_single {B} lo hi (m : io event B) :
  (forall tr, exists e, (m tr).2 = tr ++ [e] /\
     match stage e with Some k => lo <= k <= hi | None => True end)%nat ->
  staged lo hi m.
Proof.
  intros Hm tr. destruct (Hm tr) as (e & He & Hk). exists [e]. split; [done|].
  cbn. destruct (stage e); repeat constructor; lia.
Qed.

Lemma staged_emit lo hi e :
  match stage e with Some k => lo <= k <= hi | None => True end%nat -> staged lo hi (emit e).
Proof. intros He. apply staged_single. intros tr. by exists e. Qed.

Lemma staged_ask {B} lo hi (answer : nat -> B) (ev : B -> event) :
  (forall b, match stage (ev b) with Some k => lo <= k <= hi | None => True end)%nat ->
  staged lo hi (ask answer ev).
Proof. intros He. apply staged_single. intros tr. eexists. split; [reflexivity|apply He]. Qed.

Lemma staged_silent {B} lo hi (m : io event B) : (forall tr, (m tr).2 = tr) -> staged lo hi m.
Proof. intros Hm tr. exists []. rewrite Hm, app_nil_r. split_and!; [done|constructor..]. Qed.

Lemma staged_fatal {B} lo hi err : staged lo hi (log_Fatal (LogFatal err) : io event B).
Proof. apply staged_single. intros tr. by exists (LogFatal err). Qed.

Lemma staged_weaken {B} lo hi lo' hi' (m : io event B) :
  staged lo hi m -> (lo' <= lo)%nat -> (hi <= hi')%nat -> staged lo' hi' m.
Proof.
  intros Hm H1 H2 tr. destruct (Hm tr) as (new & ? & ? & ?). exists new. split_and!; try done.
  eapply Forall_impl; [done|]. cbn. lia.
Qed.

Section stage_lemmas.
Context `{MW : MainWorld}.

Lemma staged_panicIfError lo hi err : staged lo hi (panicIfError err).
Proof. destruct err; [apply staged_fatal|by apply staged_silent]. Qed.

Lemma staged_checked lo hi (answer : nat -> option error) (ev : option error -> event) :
  (lo <= hi)%nat ->
  (forall b, match stage (ev b) with Some k => lo <= k <= hi | None => True end)%nat ->
  staged lo hi (err ← ask answer ev; panicIfError err).
Proof.
  intros Hle He. apply (staged_bind lo hi hi); [lia|by apply staged_ask|].
  intros. apply staged_panicIfError.
Qed.

Lemma staged_boot args : staged 0 0 (lock args "boot").
Proof.
  unfold lock; cbn -[executablePath].
  repeat (apply (staged_bind 0 0 0); [lia| |intros _]); apply staged_checked; (lia || done || (intros; cbn; lia)).
Qed.

Lemma staged_read_config args : staged 1 1 (lock args "read-config").
Proof. apply staged_checked; [lia|]. intros; vm_compute; lia. Qed.

Lemma staged_ready args : staged 4 4 (lock args "ready").
Proof.
  unfold lock; cbn -[ready_rules]. apply (staged_bind 4 4 4); [lia| |intros _].
  { apply staged_checked; [lia|]. intros; vm_compute; lia. }
  apply (staged_bind 4 4 4); [lia|by apply staged_emit; cbn; lia|intros _].
  apply staged_checked; [lia|]. intros; cbn -[ready_rules]. rewrite decide_True by done. lia.
Qed.

Lemma staged_lockNetwork `{IntSize} sections info : staged 3 3 (lockNetwork sections info).
Proof.
  unfold lockNetwork. destruct (network_rules sections info); [|by apply staged_silent].
  apply staged_checked; [lia|]. intros; cbn; lia.
Qed.

Lemma staged_spawn_all rs : staged 6 6 (spawn_all rs).
Proof.
  induction rs as [|r rs IH]; [by apply staged_silent|].
  apply (staged_bind 6 6 6); [lia|apply staged_emit; cbn; lia|done].
Qed.

Context `{W : IntSize, U : UnicodeTables, L : IniLib, Ev : @Env L, D : Heredoc, A : Amnezia}.

(** What comes after the locks. *)
Lemma staged_start conf opts level :
  staged 5 8 (emit (StartTunnel (Device conf) level) ;;
    match StartWireguard (Device conf) level with
    | Err err => log_Fatal (LogFatal err)
    | Ok tun =>
        spawn_all (Routines conf) ;; emit StartPings ;;
        (if negb (String.eqb (opt_info opts) "") then emit (ServeInfo (opt_info opts)) else mret tt)
    end).
Proof.
  apply (staged_bind 5 5 8); [lia|apply staged_emit; cbn; lia|intros _].
  destruct (StartWireguard _ _); [|apply staged_fatal].
  apply (staged_bind 5 6 8); [lia|eapply staged_weaken; [apply staged_spawn_all|lia..]|intros _].
  apply (staged_bind 6 7 8); [lia|apply staged_emit; cbn; lia|intros _].
  case_match; [apply staged_emit; cbn; lia|by apply staged_silent].
Qed.

Lemma staged_run_config conf opts isd osArgs args exe :
  staged 3 8 (run_config conf opts isd osArgs args exe).
Proof.
  unfold run_config. apply (staged_bind 3 3 8); [lia|apply staged_lockNetwork|intros _].
  apply (staged_bind 3 3 8); [lia| |intros _].
  { destruct isd; [by apply staged_emit|by apply staged_silent]. }
  case_match.
  - apply (staged_bind 3 4 8); [lia|apply staged_ask; intros; cbn; lia|].
    intros [err|]; [by apply staged_emit|by apply staged_silent].
  - apply (staged_bind 3 3 8); [lia|by apply staged_emit|intros _].
    apply (staged_bind 3 4 8); [lia|eapply staged_weaken; [apply staged_ready|lia..]|intros _].
    eapply staged_weaken; [apply staged_start|lia..].
Qed.

Lemma staged_run_file path opts isd osArgs args exe :
  staged 1 8 (run_file path opts isd osArgs args exe).
Proof.
  unfold run_file. apply (staged_bind 1 1 8); [lia| |intros _].
  { case_match; [apply staged_read_config|by apply staged_silent]. }
  apply (staged_bind 1 2 8); [lia|apply staged_emit; cbn; lia|intros _].
  destruct (ParseConfig path); [|apply staged_fatal].
  case_match; [by apply staged_emit|]. eapply staged_weaken; [apply staged_run_config|lia..].
Qed.

Lemma staged_main version osArgs : staged 0 8 (main version osArgs).
Proof.
  unfold main. apply (staged_bind 0 0 8); [lia|apply staged_boot|intros _].
  apply (staged_bind 0 0 8); [lia| |intros _].
  { case_match; by apply staged_silent. }
  destruct (parser_Parse _) as [opts|err]; [|by apply staged_emit].
  case_match; [by apply staged_emit|].
  assert (forall path isd a e, staged 0 8 (run_file path opts isd osArgs a e)) as Hf
    by (intros; eapply staged_weaken; [apply staged_run_file|lia..]).
  case_match; [|apply Hf]. destruct configFilePath; [apply Hf|by apply staged_emit].
Qed.

End stage_lemmas.

(** ** Reaching the start of the tunnel *)

(** An action of a later stage is only reached when the earlier part has ended well,
    and the rest goes on from there. *)
Lemma staged_reach {B C} lo hi e k (m : io event B) (f : B -> io event C) tr :
  staged lo hi m -> stage e = Some k -> (hi < k)%nat -> e ∉ tr -> e ∈ ((m ≫= f) tr).2 ->
  exists b tr', m tr = (Done b, tr') /\ (m ≫= f) tr = f b tr' /\ (e ∉ tr') /\ e ∈ (f b tr').2.
Proof.
  intros Hm He Hk Hn. destruct (Hm tr) as (new & Hnew & _ & Hb). unfold mbind, io_bind.
  assert (e ∉ tr ++ new) as Hn'.
  { intros [|Hin]%elem_of_app; [done|]. rewrite Forall_forall in Hb.
    specialize (Hb k). cbn in Hb. rewrite list_elem_of_omap in Hb. destruct Hb; [eauto|lia]. }
  destruct (m tr) as [[b| |] tr']; cbn in Hnew; subst tr'; [|done..].
  intros Hin. by exists b, (tr ++ new).
Qed.

Lemma checked_Done (answer : nat -> option error) (ev : option error -> event) tr b tr' :
  (err ← ask answer ev; panicIfError err) tr = (Done b, tr') -> tr' = tr ++ [ev None].
Proof. unfold mbind, io_bind, ask. destruct (answer (length tr)); cbn; [done|]. by intros [= _ <-]. Qed.

Lemma bind_Done {B C} (m : io event B) (f : B -> io event C) tr c tr' :
  (m ≫= f) tr = (Done c, tr') -> exists b tr1, m tr = (Done b, tr1) /\ f b tr1 = (Done c, tr').
Proof. unfold mbind, io_bind. destruct (m tr) as [[b| |] tr1]; [eauto|done..]. Qed.

(** *** The trace of a start

    The rights the process keeps for its work: files it may read or write. *)
Definition readable_files : list string :=
  ["/etc/resolv.conf"; "/dev/fd"; "/dev/zero"; "/dev/urandom"; "/etc/localtime";
   "/proc/self/stat"; "/proc/self/status"; "/usr/share/locale"; "/proc/self/cmdline";
   "/usr/share/zoneinfo"; "/proc/sys/kernel/version"; "/proc/sys/kernel/ngroups_max";
   "/proc/sys/kernel/cap_last_cap"; "/proc/sys/vm/overcommit_memory"].
Definition writable_files : list string := ["/dev/log"; "/dev/null"; "/dev/full"; "/proc/self/fd"].

(** What the process does before it starts the tunnel, every restriction accepted. *)
Definition boot_locks (exe : string) : list event :=
  [Unveil "/" "r" None; Unveil exe "x" None; Pledge "stdio rpath inet dns proc exec" None;
   RestrictPaths [RODirs "/"] None].

Definition read_locks (opts : options) : list event :=
  if opt_daemon opts then [] else [Pledge "stdio rpath inet dns" None].

Definition final_locks : list event :=
  [Pledge "stdio inet dns" None; PreferGo;
   RestrictPaths (map ROFiles_IgnoreIfMissing readable_files ++
                  map RWFiles_IgnoreIfMissing writable_files) None].

(** What it does once the tunnel is asked to start. *)
Definition service `{IntSize, Heredoc, Amnezia} (conf : Configuration) (opts : options) (level : Z) :
    list event :=
  match StartWireguard (Device conf) level with
  | Err err => [LogFatal err]
  | Ok _ => map Spawn (Routines conf) ++ [StartPings] ++
      (if String.eqb (opt_info opts) "" then [] else [ServeInfo (opt_info opts)])
  end.

(** The second argument tells the child of a daemon from a plain start. *)
Definition daemon_child (osArgs : list string) : bool :=
  match osArgs with _ :: a :: _ => String.eqb a "daemon-process" | _ => false end.

Definition program_args (osArgs : list string) : list string :=
  match osArgs with
  | program :: a :: rest => if String.eqb a "daemon-process" then program :: rest else osArgs
  | _ => osArgs
  end.

Section reach.
Context `{W : IntSize, U : UnicodeTables, L : IniLib, Ev : @Env L, D : Heredoc, A : Amnezia,
  MW : MainWorld}.

Lemma boot_Done args tr b tr' :
  lock args "boot" tr = (Done b, tr') -> tr' = tr ++ boot_locks (executablePath args).
Proof.
  intros E. unfold lock in E; cbn -[executablePath] in E.
  apply bind_Done in E as (b1 & tr1 & E1 & E). apply checked_Done in E1 as ->.
  apply bind_Done in E as (b2 & tr2 & E2 & E). apply checked_Done in E2 as ->.
  apply bind_Done in E as (b3 & tr3 & E3 & E). apply checked_Done in E3 as ->.
  apply checked_Done in E as ->. by rewrite <- !app_assoc.
Qed.

Lemma ready_Done args tr b tr' :
  lock args "ready" tr = (Done b, tr') -> tr' = tr ++ final_locks.
Proof.
  intros E. unfold lock in E; cbn -[ready_rules] in E.
  apply bind_Done in E as (b1 & tr1 & E1 & E). apply checked_Done in E1 as ->.
  apply bind_Done in E as (b2 & tr2 & E2 & E). injection E2 as _ <-.
  apply checked_Done in E as ->. by rewrite <- !app_assoc.
Qed.

Lemma lockNetwork_Done sections info tr b tr' :
  lockNetwork sections info tr = (Done b, tr') ->
  exists rules, network_rules sections info = Some rules /\ tr' = tr ++ [RestrictNet rules None].
Proof.
  unfold lockNetwork. destruct (network_rules sections info) as [rules|]; [|done].
  intros E. exists rules. split; [done|]. by apply checked_Done in E.
Qed.

Lemma spawn_all_run rs tr : spawn_all rs tr = (Done tt, tr ++ map Spawn rs).
Proof.
  revert tr; induction rs as [|r rs IH]; intros tr; cbn; [by rewrite app_nil_r|].
  unfold mbind, io_bind, emit. rewrite IH. by rewrite <- app_assoc.
Qed.

(** From the start of the tunnel on. *)
Lemma start_run conf opts level tr :
  ((emit (StartTunnel (Device conf) level) ;;
    match StartWireguard (Device conf) level with
    | Err err => log_Fatal (LogFatal err)
    | Ok tun =>
        spawn_all (Routines conf) ;; emit StartPings ;;
        (if negb (String.eqb (opt_info opts) "") then emit (ServeInfo (opt_info opts)) else mret tt)
    end) tr).2 = tr ++ StartTunnel (Device conf) level :: service conf opts level.
Proof.
  unfold service, mbind, io_bind, emit. cbn.
  destruct (StartWireguard (Device conf) level) as [vt|err]; [|cbn; by rewrite <- app_assoc].
  rewrite spawn_all_run. destruct (String.eqb (opt_info opts) ""); cbn; by rewrite <- !app_assoc.
Qed.

Lemma service_no_start conf opts level d lv : StartTunnel d lv ∉ service conf opts level.
Proof.
  unfold service. destruct (StartWireguard _ _); intros Hin; [|elem_cases Hin].
  rewrite !elem_of_app in Hin. destruct Hin as [Hin|[Hin|Hin]]; [|elem_cases Hin|].
  - apply list_elem_of_fmap in Hin as (? & [=] & _).
  - case_match; elem_cases Hin.
Qed.

(** The trace of [run_config] when it gets to the tunnel. *)
Lemma run_config_start conf opts isd osArgs args exe tr d lv :
  StartTunnel d lv ∉ tr -> StartTunnel d lv ∈ (run_config conf opts isd osArgs args exe tr).2 ->
  exists rules, network_rules (Routines conf) (opt_info opts) = Some rules /\
    (opt_daemon opts = true -> isd = true) /\
    d = Device conf /\ lv = (if opt_silent opts then LogLevelSilent else LogLevelVerbose) /\
    (run_config conf opts isd osArgs args exe tr).2 =
      tr ++ [RestrictNet rules None] ++ (if isd then [RedirectOutput "/dev/null"] else []) ++
      [RedirectOutput "/dev/stderr"] ++ final_locks ++ StartTunnel d lv :: service conf opts lv.
Proof.
  intros Hn Hin. unfold run_config in *.
  apply (staged_reach 3 3 _ 5) in Hin as (b1 & tr1 & E1 & -> & Hn1 & Hin);
    [|apply staged_lockNetwork|done|lia|done].
  apply lockNetwork_Done in E1 as (rules & Hr & ->). exists rules. split; [done|].
  apply (staged_reach 3 3 _ 5) in Hin as (b2 & tr2 & E2 & -> & Hn2 & Hin); [|..|done];
    [|destruct isd; [by apply staged_emit|by apply staged_silent]|done|lia].
  assert (tr2 = (tr ++ [RestrictNet rules None]) ++
    (if isd then [RedirectOutput "/dev/null"] else [])) as ->
    by (destruct isd; injection E2 as _ <-; by rewrite ?app_nil_r).
  destruct (opt_daemon opts && negb isd) eqn:Ed.
  { exfalso. unfold mbind, io_bind, ask in Hin.
    destruct (cmd_Start _); cbn in Hin; rewrite !elem_of_app in Hin;
      rewrite !not_elem_of_app in Hn2; set_solver. }
  split; [by destruct (opt_daemon opts), isd|].
  apply (staged_reach 3 3 _ 5) in Hin as (b3 & tr3 & E3 & -> & Hn3 & Hin);
    [|by apply staged_emit|done|lia|done].
  injection E3 as _ <-.
  apply (staged_reach 4 4 _ 5) in Hin as (b4 & tr4 & E4 & -> & Hn4 & Hin);
    [|apply staged_ready|done|lia|done].
  apply ready_Done in E4 as ->. rewrite start_run in Hin |- *.
  apply elem_of_app in Hin as [Hin|Hin]; [done|].
  apply elem_of_cons in Hin as [[= -> ->]|Hin]; [|by apply service_no_start in Hin].
  split_and!; [done..|]. by rewrite <- !app_assoc.
Qed.

(** The same for [run_file]. *)
Lemma run_file_start path opts isd osArgs args exe tr d lv :
  StartTunnel d lv ∉ tr -> StartTunnel d lv ∈ (run_file path opts isd osArgs args exe tr).2 ->
  exists conf rules, ParseConfig path = Ok conf /\ opt_configTest opts = false /\
    network_rules (Routines conf) (opt_info opts) = Some rules /\
    (opt_daemon opts = true -> isd = true) /\
    d = Device conf /\ lv = (if opt_silent opts then LogLevelSilent else LogLevelVerbose) /\
    (run_file path opts isd osArgs args exe tr).2 =
      tr ++ read_locks opts ++ [ReadConfig path; RestrictNet rules None] ++
      (if isd then [RedirectOutput "/dev/null"] else []) ++ [RedirectOutput "/dev/stderr"] ++
      final_locks ++ StartTunnel d lv :: service conf opts lv.
Proof.
  intros Hn Hin. unfold run_file in *.
  apply (staged_reach 1 1 _ 5) in Hin as (b1 & tr1 & E1 & -> & Hn1 & Hin); [|..|done];
    [|destruct (negb (opt_daemon opts)); [apply staged_read_config|by apply staged_silent]|done|lia].
  assert (tr1 = tr ++ read_locks opts) as ->.
  { unfold read_locks. destruct (opt_daemon opts); cbn in E1.
    - injection E1 as _ <-. by rewrite app_nil_r.
    - by apply checked_Done in E1. }
  apply (staged_reach 1 2 _ 5) in Hin as (b2 & tr2 & E2 & -> & Hn2 & Hin);
    [|apply staged_emit; cbn; lia|done|lia|done].
  injection E2 as _ <-.
  destruct (ParseConfig path) as [conf|err].
  2: { exfalso. cbn in Hin. apply elem_of_app in Hin as [Hin|Hin]; [done|elem_cases Hin]. }
  exists conf. destruct (opt_configTest opts).
  { exfalso. cbn in Hin. apply elem_of_app in Hin as [Hin|Hin]; [done|elem_cases Hin]. }
  destruct (run_config_start _ _ _ _ _ _ _ _ _ Hn2 Hin) as (rules & ? & ? & ? & ? & ->).
  exists rules. split_and!; [done..|]. by rewrite <- !app_assoc.
Qed.

Lemma daemon_child_eq osArgs :
  (1 <? length osArgs)%nat && String.eqb (nth 1 osArgs "") daemonProcess = daemon_child osArgs.
Proof. by destruct osArgs as [|? [|? ?]]. Qed.

Lemma program_args_eq osArgs :
  (if daemon_child osArgs then nth 0 osArgs "" :: drop 2 osArgs else osArgs) = program_args osArgs.
Proof. by destruct osArgs as [|? [|? ?]]. Qed.

Lemma executablePath_eq osArgs :
  executablePath osArgs = match os_Executable with Ok exe => exe | Err _ => hd "" osArgs end.
Proof. unfold executablePath. by destruct os_Executable, osArgs. Qed.

Lemma configFilePath_find :
  configFilePath =
  find os_Stat ["/etc/wireproxy/wireproxy.conf"; getenv_HOME +:+ "/.config/wireproxy.conf"].
Proof. reflexivity. Qed.

End reach.

(** ** Lemmas: network rules *)

Lemma section_rules_app `{IntSize} rules sections out :
  section_rules rules sections = Some out ->
  (forall r, r ∈ out <-> r ∈ rules \/ exists section rs, section ∈ sections /\
     section_rule section = Some rs /\ r ∈ rs).
Proof.
  revert rules; induction sections as [|s sections IH]; intros rules; cbn.
  - intros [= <-] r. split; [by left|]. intros [|(? & ? & Hs & _)]; [done|].
    by apply not_elem_of_nil in Hs.
  - destruct (section_rule s) as [rs|] eqn:Es; [|done]. cbn. intros Hout r.
    rewrite (IH _ Hout r), elem_of_app. split.
    + intros [[|]|(s' & rs' & Hs & ? & ?)]; [by left|right..].
      * exists s, rs. split; [apply list_elem_of_here|done].
      * exists s', rs'. split; [by apply list_elem_of_further|done].
    + intros [|(s' & rs' & [->|Hs]%elem_of_cons & E & ?)]; [by left; left|..].
      * rewrite Es in E. injection E as <-. left. by right.
      * right. eauto.
Qed.

Lemma extractPort_JoinHostPort `{IntSize} host p :
  no_byte "["%char host = true -> no_byte "]"%char host = true -> 0 <= p < 2 ^ 31 ->
  extractPort (JoinHostPort host (FormatUint p)) = Some (uint 16 p).
Proof.
  intros H1 H2 Hp. assert (in_uint 64 p) as Hp' by (unfold in_uint in *; lia).
  destruct (FormatUint_decimal p Hp') as [_ Hd]. unfold extractPort.
  rewrite SplitHostPort_JoinHostPort by (try done; by apply digits_no_byte).
  by rewrite Atoi_FormatUint by lia.
Qed.

(** ** An example *)

Definition example_options (configTest : bool) : options :=
  {| opt_config := "wireproxy.conf"; opt_silent := false; opt_daemon := false;
     opt_info := "127.0.0.1:9080"; opt_version := false; opt_configTest := configTest |}.

Definition example_main_world (configTest : bool) : MainWorld :=
  {| parser_Parse args := Ok (example_options configTest); parser_Usage err := "usage";
     os_Executable := Ok "/usr/bin/wireproxy"; os_Stat path := true; getenv_HOME := "/root";
     unveil n path := None; pledge n promises := None; restrict_paths n := None;
     restrict_net n rules := None; cmd_Start n := None; LogLevelSilent := 0; LogLevelVerbose := 2 |}.

Definition example_main (configTest : bool) : io event unit :=
  main (W := int64_platform) (U := example_unicode) (L := list_ini (W := int64_platform))
    (Ev := example_env (W := int64_platform)) (D := example_heredoc) (A := example_amnezia)
    (MW := example_main_world configTest) "1.0.18-dev" ["wireproxy"].

(** ** Properties *)

(** C40. The process starts in order: the boot restrictions, the narrower ones for reading
    the configuration, the reading itself, the network rules, the final restrictions, and
    only then the tunnel, the routines, the pings and the status server, whatever the
    arguments, the file and the kernel do. *)
Theorem main_stages_ordered
    `{W : IntSize, U : UnicodeTables, L : IniLib, Ev : @Env L, D : Heredoc, A : Amnezia,
      MW : MainWorld} version osArgs :
  StronglySorted le (omap stage (events (main version osArgs))).
Proof. destruct (staged_main version osArgs []) as (new & Hn & Hs & _). unfold events, run. by rewrite Hn. Qed.

(** C8. The tunnel never starts unconfined: when it does, the arguments of the program were
    accepted, the configuration file is the one they name, or the first default path that
    exists, it parsed, and the tunnel is started with the device of that file. The whole
    trace up to then is the boot restrictions, the narrower ones for reading the file
    (unless -d is given), the reading of that file, the network rules of its routines and
    the final restrictions, each accepted, in this order, and nothing else but the
    redirection of the output; what follows is the start of its routines, the pings and
    the status server, or the report of the error of the tunnel. *)
Theorem main_confined
    `{W : IntSize, U : UnicodeTables, L : IniLib, Ev : @Env L, D : Heredoc, A : Amnezia,
      MW : MainWorld} version osArgs d level :
  StartTunnel d level ∈ events (main version osArgs) ->
  exists opts path conf rules,
    parser_Parse (program_args osArgs) = Ok opts /\ opt_version opts = false /\
    (if String.eqb (opt_config opts) ""
     then find os_Stat ["/etc/wireproxy/wireproxy.conf"; getenv_HOME +:+ "/.config/wireproxy.conf"]
          = Some path
     else path = opt_config opts) /\
    ParseConfig path = Ok conf /\ opt_configTest opts = false /\
    network_rules (Routines conf) (opt_info opts) = Some rules /\
    (opt_daemon opts = true -> daemon_child osArgs = true) /\
    d = Device conf /\ level = (if opt_silent opts then LogLevelSilent else LogLevelVerbose) /\
    events (main version osArgs) =
      boot_locks (match os_Executable with Ok exe => exe | Err _ => hd "" osArgs end) ++
      read_locks opts ++
      [ReadConfig path; RestrictNet rules None] ++
      (if daemon_child osArgs then [RedirectOutput "/dev/null"] else []) ++
      [RedirectOutput "/dev/stderr"] ++ final_locks ++
      StartTunnel d level :: service conf opts level.
Proof.
  unfold events, run. intros Hin. unfold main in *.
  apply (staged_reach 0 0 _ 5) in Hin as (b1 & tr1 & E1 & -> & Hn1 & Hin);
    [|apply staged_boot|done|lia|apply not_elem_of_nil].
  apply boot_Done in E1 as ->. rewrite daemon_child_eq in *. cbv zeta in *.
  apply (staged_reach 0 0 _ 5) in Hin as (b2 & tr2 & E2 & -> & Hn2 & Hin); [|..|done];
    [|by destruct (daemon_child osArgs); apply staged_silent|done|lia].
  assert (tr2 = boot_locks (executablePath osArgs)) as -> by (by destruct (daemon_child osArgs); injection E2).
  rewrite program_args_eq in *.
  destruct (parser_Parse (program_args osArgs)) as [opts|err].
  2: { exfalso. cbn in Hin. elem_cases Hin. }
  destruct (opt_version opts) eqn:Ev'.
  { exfalso. cbn in Hin. elem_cases Hin. }
  rewrite <- configFilePath_find, <- executablePath_eq.
  destruct (String.eqb (opt_config opts) "") eqn:Ec; [destruct configFilePath as [path|]|].
  - destruct (run_file_start _ _ _ _ _ _ _ _ _ Hn2 Hin) as (conf & rules & Hc).
    exists opts, path, conf, rules. rewrite Ec. do 3 (split; [done|]). exact Hc.
  - exfalso. cbn in Hin. elem_cases Hin.
  - destruct (run_file_start _ _ _ _ _ _ _ _ _ Hn2 Hin) as (conf & rules & Hc).
    exists opts, (opt_config opts), conf, rules. rewrite Ec. do 3 (split; [done|]). exact Hc.
Qed.

Lemma main_confined_witness :
  exists path rules, path = "wireproxy.conf" /\
    take 8 (events (example_main false)) =
      boot_locks "/usr/bin/wireproxy" ++ [Pledge "stdio rpath inet dns" None; ReadConfig path;
        RestrictNet rules None; RedirectOutput "/dev/stderr"].
Proof.
  destruct (main_confined (W := int64_platform) (U := example_unicode)
    (L := list_ini (W := int64_platform)) (Ev := example_env (W := int64_platform))
    (D := example_heredoc) (A := example_amnezia) (MW := example_main_world false)
    "1.0.18-dev" ["wireproxy"] (Device example_configuration) 2)
    as (opts & path & conf & rules & Hp & _ & Hpath & _ & _ & _ & _ & _ & _ & He).
  - vm_compute. elem_here.
  - injection Hp as <-. exists path, rules. split; [exact Hpath|].
    unfold example_main. rewrite He. reflexivity.
Defined.

(** C39. The network rules: the ports the HTTP and SOCKS5 proxies and the status server
    listen on may be bound, the port of a server tunnel's target may be connected to;
    but no rule lets a client tunnel bind the port it listens on: it only gets the right
    to connect to it. *)
Theorem network_rules_correct `{W : IntSize} sections info rules host p :
  network_rules sections info = Some rules ->
  no_byte "["%char host = true -> no_byte "]"%char host = true -> in_uint 16 p ->
  let addr := JoinHostPort host (FormatUint p) in
  (info = addr -> BindTCP p ∈ rules) /\
  (forall c, HTTP c ∈ sections -> HTTP_BindAddress c = addr -> BindTCP p ∈ rules) /\
  (forall c, Socks5 c ∈ sections -> Socks5_BindAddress c = addr -> BindTCP p ∈ rules) /\
  (forall c, TCPServerTunnel c ∈ sections -> Server_Target c = addr -> ConnectTCP p ∈ rules) /\
  (forall c, TCPClientTunnel c ∈ sections -> TCPAddr_Port (Client_BindAddress c) = p ->
     ConnectTCP p ∈ rules) /\
  (info = "" -> (forall s, s ∈ sections -> exists c, s = TCPClientTunnel c) ->
     forall q, BindTCP q ∉ rules).
Proof.
  intros Hr H1 H2 Hp addr.
  assert (extractPort addr = Some p) as Hx.
  { unfold addr. rewrite extractPort_JoinHostPort by (try done; unfold in_uint in Hp; lia).
    f_equal. by apply Z.mod_small. }
  unfold network_rules in Hr.
  destruct (if negb (String.eqb info "") then _ else _) as [start|] eqn:Ei; [|done]. cbn in Hr.
  pose proof (section_rules_app _ _ _ Hr) as Hin.
  assert (forall s r, s ∈ sections -> section_rule s = Some [r] -> r ∈ rules) as Hsec
    by (intros s r Hs Es; apply Hin; right; exists s, [r]; split_and!; [done..|apply list_elem_of_here]).
  split_and!.
  - intros ->. apply Hin. left. destruct (String.eqb_spec addr "") as [E|E]; [by rewrite E in Hx|].
    cbn in Ei. rewrite Hx in Ei. injection Ei as <-. apply list_elem_of_here.
  - intros c Hc E. apply (Hsec _ _ Hc). cbn. by rewrite E, Hx.
  - intros c Hc E. apply (Hsec _ _ Hc). cbn. by rewrite E, Hx.
  - intros c Hc E. apply (Hsec _ _ Hc). cbn. by rewrite E, Hx.
  - intros c Hc E. apply (Hsec _ _ Hc). cbn. rewrite E. do 3 f_equal. by apply Z.mod_small.
  - intros -> Hall q [Hq|(s & rs & Hs & Es & Hq)]%Hin.
    + injection Ei as <-. by apply not_elem_of_nil in Hq.
    + destruct (Hall s Hs) as [c ->]. cbn in Es. injection Es as <-. elem_cases Hq.
Qed.

Definition example_client_tunnel : RoutineSpawner :=
  TCPClientTunnel {| Client_BindAddress := {| TCPAddr_IP := "127.0.0.1"; TCPAddr_Port := 25565 |};
                     Client_Target := "play.example:25565" |}.

Lemma network_rules_correct_witness :
  BindTCP 25565 ∉ [ConnectTCP 25565].
Proof.
  destruct (network_rules_correct (W := int64_platform) [example_client_tunnel] ""
    [ConnectTCP 25565] "127.0.0.1" 25565) as (_ & _ & _ & _ & _ & Hno).
  - vm_compute. reflexivity.
  - reflexivity.
  - reflexivity.
  - split; [discriminate|reflexivity].
  - apply (Hno eq_refl). intros s Hs. apply list_elem_of_singleton in Hs as ->.
    eexists. reflexivity.
Defined.
